(** * VeloLift: the velocity view, its IndexedDB layer and the rep/fatigue engine

    A shallow embedding of
    - [frontend/src/db.js]                       (module [Db]),
    - [frontend/src/components/VelocityView.jsx] (module [VelocityView]),
    - the exercise-name suggestion list shared by [Logger.jsx] and
      [VelocityView.jsx]                          (module [Suggest]),
    - the figures of [frontend/src/components/SetDetailView.jsx]
                                                  (module [SetDetailView]),
    - the date selection of [frontend/src/App.jsx] and the workout
      deletion of [SessionView.jsx]               (module [App]),
    - the rep tracker and fatigue detector described in
      [SYSTEM_OVERVIEW.md]                        (module [Engine]),
    - the engine loop and its command interface, written from the
      specification                               (module [Loop]),
    followed by the properties established about them.

    Conventions.  JavaScript numbers that carry measurements (velocities,
    durations) are rationals [Q]: rounding of IEEE doubles is not modelled.
    Counters, primary keys and clock readings in milliseconds are integers
    [Z].  Strings are [string]s over 8-bit code units.  An [async] function
    is run to completion as one step: no other handler interleaves with its
    awaits. *)

From Stdlib Require Import List String Ascii Bool ZArith QArith Qabs Lia Lqa
  Sorted Permutation.
Import ListNotations.
Local Open Scope string_scope.
Local Open Scope list_scope.
Local Open Scope Z_scope.

(** ** JavaScript primitives used by the sources *)
Module Js.

(** Code units that [String.prototype.trim] strips (TAB, LF, VT, FF, CR,
    SP and NBSP, the white space of the 8-bit range). *)
Definition is_space (c : ascii) : bool :=
  let n := nat_of_ascii c in
  (Nat.eqb n 9 || Nat.eqb n 10 || Nat.eqb n 11 || Nat.eqb n 12
   || Nat.eqb n 13 || Nat.eqb n 32 || Nat.eqb n 160)%bool.

Fixpoint trimStart (s : string) : string :=
  match s with
  | String c r => if is_space c then trimStart r else s
  | EmptyString => EmptyString
  end.

(** Drops trailing white space: a character is kept when something
    non-blank follows it or it is itself non-blank. *)
Fixpoint trimEnd (s : string) : string :=
  match s with
  | String c r =>
      match trimEnd r with
      | EmptyString => if is_space c then EmptyString else String c EmptyString
      | r' => String c r'
      end
  | EmptyString => EmptyString
  end.

Definition trim (s : string) : string := trimEnd (trimStart s).

(** [toLowerCase] on the 8-bit range: A-Z and the Latin-1 capitals. *)
Definition lower_char (c : ascii) : ascii :=
  let n := nat_of_ascii c in
  if ((Nat.leb 65 n && Nat.leb n 90)
      || (Nat.leb 192 n && Nat.leb n 222 && negb (Nat.eqb n 215)))%bool
  then ascii_of_nat (n + 32) else c.

Fixpoint toLowerCase (s : string) : string :=
  match s with
  | String c r => String (lower_char c) (toLowerCase r)
  | EmptyString => EmptyString
  end.

(** Truthiness of a string: only the empty string is falsy. *)
Definition truthy_str (s : string) : bool :=
  match s with EmptyString => false | _ => true end.

(** Truthiness of a number: zero is falsy (NaN does not occur in parsed
    JSON). *)
Definition truthy (q : Q) : bool := negb (Qnum q =? 0)%Z.

(** [a || b] on numbers. *)
Definition or_else (a b : Q) : Q := if truthy a then a else b.

(** [Math.max] on two numbers. *)
Definition max (a b : Q) : Q := if Qle_bool a b then b else a.

(** Stable sort ([Array.prototype.sort] is stable): insertion from the
    right keeps equal elements in their original order. *)
Section Sort.
Context {A : Type} (ltb : A -> A -> bool).

Fixpoint insert_sorted (x : A) (l : list A) : list A :=
  match l with
  | [] => [x]
  | y :: r => if ltb y x then y :: insert_sorted x r else x :: l
  end.

Definition sort (l : list A) : list A :=
  fold_right insert_sorted [] l.
End Sort.

(** Dexie's [sortBy(key)] and [sort((a, b) => a.key - b.key)] on an
    integer key. *)
Definition sortBy {A : Type} (key : A -> Z) (l : list A) : list A :=
  sort (fun a b => key a <? key b) l.

(** [names.sort()]: ascending order of code units. *)
Definition sort_strings (l : list string) : list string :=
  sort String.ltb l.

(** [a < b] on numbers. *)
Definition ltb (a b : Q) : bool := negb (Qle_bool b a).

(** [s.startsWith(p)] *)
Definition startsWith (s p : string) : bool := String.prefix p s.

(** [s.includes(sub)]: [sub] starts at some position of [s]. *)
Fixpoint includes (s sub : string) : bool :=
  if String.prefix sub s then true
  else
    match s with
    | String _ r => includes r sub
    | EmptyString => false
    end.

(** [[...new Set(l)]]: the first occurrence of every value, in order. *)
Fixpoint unique_from {A : Type} (eqb : A -> A -> bool) (seen l : list A)
  : list A :=
  match l with
  | [] => []
  | x :: r =>
      if existsb (eqb x) seen then unique_from eqb seen r
      else x :: unique_from eqb (x :: seen) r
  end.

Definition unique {A : Type} (eqb : A -> A -> bool) (l : list A) : list A :=
  unique_from eqb [] l.

(** *** The regular expressions of [getAllWorkoutDates]

    They all have the shape [/\b(alt|alt|...)\b/i], every alternative a
    run of letters, with one [\s*] in [skull\s*crush]. *)

(** [\w]: a letter, a digit or the underscore. *)
Definition is_word (c : ascii) : bool :=
  let n := nat_of_ascii c in
  ((Nat.leb 48 n && Nat.leb n 57) || (Nat.leb 65 n && Nat.leb n 90)
   || Nat.eqb n 95 || (Nat.leb 97 n && Nat.leb n 122))%bool.

(** A position in the subject: the character before it, if any, and the
    text from it on. *)
Definition Cursor : Type := option ascii * string.

Definition next_char (c : Cursor) : option ascii :=
  match snd c with
  | String a _ => Some a
  | EmptyString => None
  end.

Definition word_side (o : option ascii) : bool :=
  match o with
  | Some a => is_word a
  | None => false
  end.

(** [\b]: exactly one side of the position is a word character. *)
Definition at_boundary (c : Cursor) : bool :=
  xorb (word_side (fst c)) (word_side (next_char c)).

(** The pieces of an alternative: letters, written in lower case and
    compared without regard to case (flag [i]), and [\s*]. *)
Inductive Piece :=
| Lit (letters : string)
| Spaces.

(** The letters [l] at the position, or no match. *)
Fixpoint match_lit (l : string) (c : Cursor) : option Cursor :=
  match l with
  | EmptyString => Some c
  | String a l' =>
      match snd c with
      | String b r =>
          if Ascii.eqb (lower_char b) a then match_lit l' (Some b, r)
          else None
      | EmptyString => None
      end
  end.

(** [\s*]: every position reached over white space, the position itself
    included. *)
Fixpoint match_spaces (prev : option ascii) (s : string) : list Cursor :=
  (prev, s) ::
  match s with
  | String b r => if is_space b then match_spaces (Some b) r else []
  | EmptyString => []
  end.

(** The positions at which the pieces can end when they start at [c]. *)
Fixpoint match_pieces (ps : list Piece) (c : Cursor) : list Cursor :=
  match ps with
  | [] => [c]
  | Lit l :: ps' =>
      match match_lit l c with
      | Some c' => match_pieces ps' c'
      | None => []
      end
  | Spaces :: ps' =>
      flat_map (match_pieces ps') (match_spaces (fst c) (snd c))
  end.

(** [\b(alts)\b] matched at the position. *)
Definition match_here (alts : list (list Piece)) (c : Cursor) : bool :=
  (at_boundary c
   && existsb (fun ps => existsb at_boundary (match_pieces ps c)) alts)%bool.

(** [re.test(s)] from a position on: a match at it or at a later one. *)
Fixpoint test_from (alts : list (list Piece)) (prev : option ascii)
    (s : string) : bool :=
  (match_here alts (prev, s)
   || match s with
      | String a r => test_from alts (Some a) r
      | EmptyString => false
      end)%bool.

(** [/\b(alts)\b/i.test(s)] *)
Definition test (alts : list (list Piece)) (s : string) : bool :=
  test_from alts None s.

End Js.

(** ** [db.js]: the Dexie database [LiftingData] *)
Module Db.

(** One entry of [repDetails], as [addSet] documents it:
    [{ repNumber, avgVelocity, peakVelocity, duration }]. *)
Record RepDetail := mkRepDetail {
  repNumber : Z;
  avgVelocity : Q;
  peakVelocity : Q;
  duration : Q
}.

(** Row of [workouts: '++id, date']. *)
Record Workout := mkWorkout {
  w_id : Z;
  w_date : string;
  w_createdAt : Z
}.

(** Row of [exercises: '++id, workoutId, name, order']. *)
Record Exercise := mkExercise {
  ex_id : Z;
  ex_workoutId : Z;
  ex_name : string;
  ex_order : Z
}.

(** Row of [sets: '++id, exerciseId, order'] as [addSet] writes it.  The
    weight is kept as the text handed to [Number]. *)
Record SetRow := mkSetRow {
  set_id : Z;
  set_exerciseId : Z;
  set_weight : string;
  set_reps : Z;
  set_rpe : option Q;
  set_avgVelocity : option Q;
  set_repDetails : option (list RepDetail);
  set_order : Z;
  set_timestamp : Z
}.

(** The three tables in primary-key order, each with the current number of
    its key generator ([++id]). *)
Record DB := mkDB {
  workouts : list Workout;
  exercises : list Exercise;
  sets : list SetRow;
  next_workout : Z;
  next_exercise : Z;
  next_set : Z
}.

Definition empty : DB := mkDB [] [] [] 1 1 1.

(** [db.workouts.where('date').equals(date).first()] *)
Definition workouts_first_by_date (d : DB) (date : string) : option Workout :=
  find (fun w => String.eqb (w_date w) date) (workouts d).

(** [db.workouts.add({ date, createdAt })]: the new key is returned. *)
Definition workouts_add (d : DB) (date : string) (createdAt : Z) : DB * Z :=
  let id := next_workout d in
  (mkDB (workouts d ++ [mkWorkout id date createdAt]) (exercises d) (sets d)
        (id + 1) (next_exercise d) (next_set d), id).

(** [createWorkout(date)]; [now] is the reading of [Date.now()]. *)
Definition createWorkout (d : DB) (date : string) (now : Z) : DB * Z :=
  match workouts_first_by_date d date with
  | Some existing => (d, w_id existing)
  | None => workouts_add d date now
  end.

(** [getWorkoutByDate(date)] *)
Definition getWorkoutByDate (d : DB) (date : string) : option Workout :=
  workouts_first_by_date d date.

(** [getExercisesForWorkout(workoutId)]:
    [where('workoutId').equals(workoutId).sortBy('order')] *)
Definition getExercisesForWorkout (d : DB) (workoutId : Z) : list Exercise :=
  Js.sortBy ex_order
    (filter (fun e => ex_workoutId e =? workoutId) (exercises d)).

(** [addExercise(workoutId, name)] *)
Definition addExercise (d : DB) (workoutId : Z) (name : string) : DB * Z :=
  let count :=
    Z.of_nat (List.length (filter (fun e => ex_workoutId e =? workoutId) (exercises d))) in
  let id := next_exercise d in
  (mkDB (workouts d)
        (exercises d ++ [mkExercise id workoutId (Js.trim name) count])
        (sets d) (next_workout d) (id + 1) (next_set d), id).

(** [addSet(exerciseId, weight, reps, rpe, avgVelocity, repDetails)] *)
Definition addSet (d : DB) (exerciseId : Z) (weight : string) (reps : Z)
    (rpe avgVel : option Q) (details : option (list RepDetail)) (now : Z)
  : DB * Z :=
  let count :=
    Z.of_nat (List.length (filter (fun s => set_exerciseId s =? exerciseId) (sets d))) in
  let id := next_set d in
  let keep (o : option Q) :=
    match o with
    | Some q => if Js.truthy q then Some q else None
    | None => None
    end in
  (mkDB (workouts d) (exercises d)
        (sets d ++ [mkSetRow id exerciseId weight reps (keep rpe) (keep avgVel)
                             details count now])
        (next_workout d) (next_exercise d) (id + 1), id).

(** [getAllExerciseNames()]: [[...new Set(names)].sort()]. *)
Fixpoint dedup_names (seen : list string) (l : list string) : list string :=
  match l with
  | [] => []
  | n :: r =>
      if existsb (String.eqb n) seen then dedup_names seen r
      else n :: dedup_names (n :: seen) r
  end.

Definition getAllExerciseNames (d : DB) : list string :=
  Js.sort_strings (dedup_names [] (map ex_name (exercises d))).

(** [getFullSession(workoutId)]: the exercises of a workout, each with its
    sets sorted by [order]. *)
Definition getFullSession (d : DB) (workoutId : Z)
  : list (Exercise * list SetRow) :=
  map (fun ex =>
         (ex, Js.sortBy set_order
                (filter (fun s => set_exerciseId s =? ex_id ex) (sets d))))
      (getExercisesForWorkout d workoutId).

(** [getSetsForExercise(exerciseId)]:
    [where('exerciseId').equals(exerciseId).sortBy('order')] *)
Definition getSetsForExercise (d : DB) (exerciseId : Z) : list SetRow :=
  Js.sortBy set_order
    (filter (fun s => set_exerciseId s =? exerciseId) (sets d)).

(** [deleteSet(setId)]: [db.sets.delete(setId)] *)
Definition deleteSet (d : DB) (setId : Z) : DB :=
  mkDB (workouts d) (exercises d)
       (filter (fun s => negb (set_id s =? setId)) (sets d))
       (next_workout d) (next_exercise d) (next_set d).

(** [deleteExercise(exerciseId)]: in one transaction, the sets of the
    exercise and the exercise. *)
Definition deleteExercise (d : DB) (exerciseId : Z) : DB :=
  mkDB (workouts d)
       (filter (fun e => negb (ex_id e =? exerciseId)) (exercises d))
       (filter (fun s => negb (set_exerciseId s =? exerciseId)) (sets d))
       (next_workout d) (next_exercise d) (next_set d).

(** [deleteWorkout(workoutId)]: the ids of the workout's exercises are
    read first; then, in one transaction, the sets of these exercises
    ([anyOf(exerciseIds)]), the exercises of the workout and the workout
    go. *)
Definition deleteWorkout (d : DB) (workoutId : Z) : DB :=
  let exercises_ :=
    filter (fun e => ex_workoutId e =? workoutId) (exercises d) in
  let exerciseIds := map ex_id exercises_ in
  mkDB (filter (fun w => negb (w_id w =? workoutId)) (workouts d))
       (filter (fun e => negb (ex_workoutId e =? workoutId)) (exercises d))
       (filter (fun s => negb (existsb (Z.eqb (set_exerciseId s)) exerciseIds))
               (sets d))
       (next_workout d) (next_exercise d) (next_set d).

(** [db.exercises.update(id, { name })]: the row under the primary key
    [id] gets the name; without such a row nothing changes. *)
Definition exercises_update_name (d : DB) (id : Z) (name : string) : DB :=
  mkDB (workouts d)
       (map (fun e => if ex_id e =? id
                      then mkExercise (ex_id e) (ex_workoutId e) name (ex_order e)
                      else e)
            (exercises d))
       (sets d) (next_workout d) (next_exercise d) (next_set d).

(** [updateExerciseName(exerciseId, name)] *)
Definition updateExerciseName (d : DB) (exerciseId : Z) (name : string) : DB :=
  exercises_update_name d exerciseId (Js.trim name).

(** [renameExercise(oldName, newName)]: the exercises whose name is
    [oldName] up to case are read, then each is updated under its id; the
    number of exercises read is returned. *)
Definition renameExercise (d : DB) (oldName newName : string) : DB * Z :=
  let exercises_ :=
    filter (fun e => String.eqb (Js.toLowerCase (ex_name e))
                                (Js.toLowerCase oldName))
           (exercises d) in
  (fold_left (fun d ex => exercises_update_name d (ex_id ex) newName)
             exercises_ d,
   Z.of_nat (List.length exercises_)).

(** The table [normalizations] of [normalizeExerciseNames]. *)
Definition normalizations : list (string * string) :=
  [("Back Squat", "Squat"); ("Barbell Squat", "Squat"); ("BB Squat", "Squat")].

(** [normalizeExerciseNames()] *)
Definition normalizeExerciseNames (d : DB) : DB :=
  fold_left (fun d p => fst (renameExercise d (fst p) (snd p)))
            normalizations d.

(** [db.workouts.bulkGet(ids)]: for every id the row under it, or
    [undefined]. *)
Definition workouts_bulkGet (d : DB) (ids : list Z) : list (option Workout) :=
  map (fun id => find (fun w => w_id w =? id) (workouts d)) ids.

(** [.filter(Boolean)] on the result of [bulkGet]. *)
Definition filter_Boolean {A : Type} (l : list (option A)) : list A :=
  flat_map (fun o => match o with Some a => [a] | None => [] end) l.

(** [searchWorkoutsByExercise(exerciseName)].  The comparator
    [(a, b) => (b.date > a.date ? 1 : -1)] puts [a] before [b] unless
    [b.date > a.date]; between workouts of the same date it does not
    decide, and the order the sort leaves them in is not relied on
    below. *)
Definition searchWorkoutsByExercise (d : DB) (exerciseName : string)
  : list Workout :=
  let query := Js.toLowerCase exerciseName in
  let matches :=
    filter (fun e => Js.includes (Js.toLowerCase (ex_name e)) query)
           (exercises d) in
  let workoutIds := Js.unique Z.eqb (map ex_workoutId matches) in
  let workouts_ := workouts_bulkGet d workoutIds in
  Js.sort (fun a b => negb (String.ltb (w_date a) (w_date b)))
          (filter_Boolean workouts_).

(** The three patterns of [getAllWorkoutDates]:
    [/\b(squat|leg|deadlift|calf|lunge|rdl)\b/i],
    [/\b(bench|press|push|dip|fly|raise|tricep|skull\s*crush)\b/i] and
    [/\b(row|pull|chin|curl|shrug|lat|face|bicep)\b/i]. *)
Definition legs_re : list (list Js.Piece) :=
  map (fun l => [Js.Lit l])
      ["squat"; "leg"; "deadlift"; "calf"; "lunge"; "rdl"].

Definition push_re : list (list Js.Piece) :=
  map (fun l => [Js.Lit l])
      ["bench"; "press"; "push"; "dip"; "fly"; "raise"; "tricep"]
  ++ [[Js.Lit "skull"; Js.Spaces; Js.Lit "crush"]].

Definition pull_re : list (list Js.Piece) :=
  map (fun l => [Js.Lit l])
      ["row"; "pull"; "chin"; "curl"; "shrug"; "lat"; "face"; "bicep"].

(** The counters [push], [pull] and [legs] after one more name. *)
Definition count_name (c : Z * Z * Z) (name : string) : Z * Z * Z :=
  let '(push, pull, legs) := c in
  if Js.test legs_re name then (push, pull, legs + 1)
  else if Js.test push_re name then (push + 1, pull, legs)
  else if Js.test pull_re name then (push, pull + 1, legs)
  else c.

(** The label [getAllWorkoutDates] gives a workout with the exercise
    [names]. *)
Definition classify (names : list string) : string :=
  let '(push, pull, legs) := fold_left count_name names (0, 0, 0) in
  if Nat.eqb (List.length names) 0 then ""
  else if Z.max push pull <? legs then "LEGS"
  else if ((0 <? push) && (0 <? pull) && (legs =? 0))%bool then "UPPER"
  else if ((0 <? push) && (pull =? 0) && (legs =? 0))%bool then "PUSH"
  else if ((0 <? pull) && (push =? 0) && (legs =? 0))%bool then "PULL"
  else "HYBRID".

(** An entry of the list [getAllWorkoutDates] returns:
    [{ id, date, label }]. *)
Record WorkoutDate := mkWorkoutDate {
  wd_id : Z;
  wd_date : string;
  wd_label : string
}.

(** [db.workouts.orderBy('date').reverse().toArray()]: descending by
    date, and by primary key among equal dates. *)
Definition workouts_by_date_reverse (d : DB) : list Workout :=
  rev (Js.sort (fun a b => String.ltb (w_date a) (w_date b)) (workouts d)).

(** [exercisesByWorkout[id] || []]: the names, in lower case, of the
    exercises of the workout, in table order. *)
Definition exercisesByWorkout (d : DB) (id : Z) : list string :=
  map (fun e => Js.toLowerCase (ex_name e))
      (filter (fun e => ex_workoutId e =? id) (exercises d)).

(** The loop of [getAllWorkoutDates] over the workouts, with the dates
    [seen] so far. *)
Fixpoint collect_dates (d : DB) (seen : list string) (ws : list Workout)
  : list WorkoutDate :=
  match ws with
  | [] => []
  | w :: rest =>
      if Js.startsWith (w_date w) "__" then collect_dates d seen rest
      else if existsb (String.eqb (w_date w)) seen
           then collect_dates d seen rest
           else mkWorkoutDate (w_id w) (w_date w)
                              (classify (exercisesByWorkout d (w_id w)))
                :: collect_dates d (w_date w :: seen) rest
  end.

(** [getAllWorkoutDates()] *)
Definition getAllWorkoutDates (d : DB) : list WorkoutDate :=
  collect_dates d [] (workouts_by_date_reverse d).

(** What IndexedDB guarantees of the three tables: primary keys are
    unique and were issued by the key generators ([++id]). *)
Definition keys_ok (ids : list Z) (next : Z) : Prop :=
  NoDup ids /\ Forall (fun i => i < next) ids.

Definition wf (d : DB) : Prop :=
  keys_ok (map w_id (workouts d)) (next_workout d)
  /\ keys_ok (map ex_id (exercises d)) (next_exercise d)
  /\ keys_ok (map set_id (sets d)) (next_set d).

(** Referential integrity: every exercise belongs to a stored workout and
    every set to a stored exercise. *)
Definition no_orphans (d : DB) : Prop :=
  (forall e, In e (exercises d) ->
     exists w, In w (workouts d) /\ w_id w = ex_workoutId e)
  /\ (forall s, In s (sets d) ->
        exists e, In e (exercises d) /\ ex_id e = set_exerciseId s).

(** A database made through the functions above: the workout of
    2025-02-03 with "Back Squat" (two sets) and "Bench Press" (one set),
    and the workout of 2025-02-04 with "barbell row" (one set). *)
Definition sample : DB :=
  let d := fst (createWorkout empty "2025-02-03" 100) in
  let d := fst (addExercise d 1 "Back Squat") in
  let d := fst (addSet d 1 "225" 5 None None None 110) in
  let d := fst (addSet d 1 "235" 3 None None None 120) in
  let d := fst (addExercise d 1 "Bench Press") in
  let d := fst (addSet d 2 "185" 5 None None None 130) in
  let d := fst (createWorkout d "2025-02-04" 200) in
  let d := fst (addExercise d 2 " barbell row ") in
  fst (addSet d 3 "135" 8 None None None 210).

End Db.

(** ** [VelocityView.jsx]: the real-time tracking component *)
Module VelocityView.

(** [repData] built by the [rep_completed] handler and kept in [lastRep]. *)
Record RepData := mkRepData {
  number : Z;
  maxVelocity : Q;
  avgVelocity : Q;
  duration : Q
}.

(** Argument of [setLastLoggedSet]. *)
Record LoggedSet := mkLoggedSet {
  ls_exercise : string;
  ls_weight : string;
  ls_reps : Z;
  ls_avgVelocity : option Q
}.

(** Messages of the tracker's WebSocket after [JSON.parse], by [data.type],
    with the fields of the protocol description: rep numbers and counts
    are integers, velocities and durations numbers.  Of a frame only the
    fields the handler reads are kept.  [other] stands for every other
    type (the handler has no branch for [fatigue_warning]) and for text
    that does not parse. *)
Inductive Message :=
| frame (hardware_velocity : Q) (phase : string) (rep_count : Z)
| rep_completed (rep_number : Z) (max_velocity avg_velocity duration : Q)
| other.

(** The [start_set] command handed to [ws.send]; [weight] is the text
    given to [parseFloat]. *)
Record Command := mkCommand {
  command : string;
  exercise : string;
  cmd_weight : string;
  unit_ : string
}.

(** The [useState] cells of the component (the autocomplete cells
    [suggestions], [showSuggestions] and [selectedSuggestion] only drive
    the drop-down and are left out). *)
Record State := mkState {
  connected : bool;
  velocity : Q;
  phase : string;
  repCount : Z;
  peakVelocity : Q;
  lastRep : option RepData;
  lastLoggedSet : option LoggedSet;
  exerciseName : string;
  weight : string;
  isTracking : bool;
  allNames : list string;
  repDetails : list Db.RepDetail;
  error : option string;
  sessionHistory : list (Db.Exercise * list Db.SetRow)
}.

Definition setConnected v s :=
  mkState v (velocity s) (phase s) (repCount s) (peakVelocity s) (lastRep s)
    (lastLoggedSet s) (exerciseName s) (weight s) (isTracking s) (allNames s)
    (repDetails s) (error s) (sessionHistory s).
Definition setVelocity v s :=
  mkState (connected s) v (phase s) (repCount s) (peakVelocity s) (lastRep s)
    (lastLoggedSet s) (exerciseName s) (weight s) (isTracking s) (allNames s)
    (repDetails s) (error s) (sessionHistory s).
Definition setPhase v s :=
  mkState (connected s) (velocity s) v (repCount s) (peakVelocity s) (lastRep s)
    (lastLoggedSet s) (exerciseName s) (weight s) (isTracking s) (allNames s)
    (repDetails s) (error s) (sessionHistory s).
Definition setRepCount v s :=
  mkState (connected s) (velocity s) (phase s) v (peakVelocity s) (lastRep s)
    (lastLoggedSet s) (exerciseName s) (weight s) (isTracking s) (allNames s)
    (repDetails s) (error s) (sessionHistory s).
Definition setPeakVelocity v s :=
  mkState (connected s) (velocity s) (phase s) (repCount s) v (lastRep s)
    (lastLoggedSet s) (exerciseName s) (weight s) (isTracking s) (allNames s)
    (repDetails s) (error s) (sessionHistory s).
Definition setLastRep v s :=
  mkState (connected s) (velocity s) (phase s) (repCount s) (peakVelocity s) v
    (lastLoggedSet s) (exerciseName s) (weight s) (isTracking s) (allNames s)
    (repDetails s) (error s) (sessionHistory s).
Definition setLastLoggedSet v s :=
  mkState (connected s) (velocity s) (phase s) (repCount s) (peakVelocity s)
    (lastRep s) v (exerciseName s) (weight s) (isTracking s) (allNames s)
    (repDetails s) (error s) (sessionHistory s).
Definition setExerciseName v s :=
  mkState (connected s) (velocity s) (phase s) (repCount s) (peakVelocity s)
    (lastRep s) (lastLoggedSet s) v (weight s) (isTracking s) (allNames s)
    (repDetails s) (error s) (sessionHistory s).
Definition setWeight v s :=
  mkState (connected s) (velocity s) (phase s) (repCount s) (peakVelocity s)
    (lastRep s) (lastLoggedSet s) (exerciseName s) v (isTracking s) (allNames s)
    (repDetails s) (error s) (sessionHistory s).
Definition setIsTracking v s :=
  mkState (connected s) (velocity s) (phase s) (repCount s) (peakVelocity s)
    (lastRep s) (lastLoggedSet s) (exerciseName s) (weight s) v (allNames s)
    (repDetails s) (error s) (sessionHistory s).
Definition setAllNames v s :=
  mkState (connected s) (velocity s) (phase s) (repCount s) (peakVelocity s)
    (lastRep s) (lastLoggedSet s) (exerciseName s) (weight s) (isTracking s) v
    (repDetails s) (error s) (sessionHistory s).
Definition setRepDetails v s :=
  mkState (connected s) (velocity s) (phase s) (repCount s) (peakVelocity s)
    (lastRep s) (lastLoggedSet s) (exerciseName s) (weight s) (isTracking s)
    (allNames s) v (error s) (sessionHistory s).
Definition setError v s :=
  mkState (connected s) (velocity s) (phase s) (repCount s) (peakVelocity s)
    (lastRep s) (lastLoggedSet s) (exerciseName s) (weight s) (isTracking s)
    (allNames s) (repDetails s) v (sessionHistory s).
Definition setSessionHistory v s :=
  mkState (connected s) (velocity s) (phase s) (repCount s) (peakVelocity s)
    (lastRep s) (lastLoggedSet s) (exerciseName s) (weight s) (isTracking s)
    (allNames s) (repDetails s) (error s) v.

(** The state of the first render. *)
Definition initial : State :=
  mkState false 0%Q "idle" 0 0%Q None None "" "" false [] [] None [].

(** What a callback created during a render sees: that render's state and
    its [date] prop ([None] is [null]). *)
Record Render := mkRender {
  r_state : State;
  r_date : option string
}.

(** A pending [setTimeout] of the auto-end effect: when it is due and the
    render its callback closes over. *)
Record Timer := mkTimer {
  deadline : Z;
  closure : Render
}.

Definition AUTO_END_DELAY : Z := 5000.

(** The component together with what it talks to.  [sent] lists the
    commands given to [ws.send], oldest first; [autoEndTimer] is the
    pending timeout whose id [autoEndTimerRef] holds; [bannerTimers] are
    the deadlines of the pending [setTimeout(() => setLastLoggedSet(null),
    4000)]; [effectDeps] is the dependency array
    [[repDetails.length, isTracking]] of the last run of the auto-end
    effect; [fired] records the clock readings at which the timeout
    callback called [handleEndSet]; [logged] counts the calls of
    [onSetLogged]. *)
Record World := mkWorld {
  st : State;
  date : option string;
  db : Db.DB;
  now : Z;
  ws_open : bool;
  sent : list Command;
  autoEndTimer : option Timer;
  bannerTimers : list Z;
  effectDeps : nat * bool;
  fired : list Z;
  logged : nat
}.

Definition with_st v w :=
  mkWorld v (date w) (db w) (now w) (ws_open w) (sent w) (autoEndTimer w)
    (bannerTimers w) (effectDeps w) (fired w) (logged w).
Definition with_date v w :=
  mkWorld (st w) v (db w) (now w) (ws_open w) (sent w) (autoEndTimer w)
    (bannerTimers w) (effectDeps w) (fired w) (logged w).
Definition with_db v w :=
  mkWorld (st w) (date w) v (now w) (ws_open w) (sent w) (autoEndTimer w)
    (bannerTimers w) (effectDeps w) (fired w) (logged w).
Definition with_now v w :=
  mkWorld (st w) (date w) (db w) v (ws_open w) (sent w) (autoEndTimer w)
    (bannerTimers w) (effectDeps w) (fired w) (logged w).
Definition with_ws_open v w :=
  mkWorld (st w) (date w) (db w) (now w) v (sent w) (autoEndTimer w)
    (bannerTimers w) (effectDeps w) (fired w) (logged w).
Definition with_sent v w :=
  mkWorld (st w) (date w) (db w) (now w) (ws_open w) v (autoEndTimer w)
    (bannerTimers w) (effectDeps w) (fired w) (logged w).
Definition with_autoEndTimer v w :=
  mkWorld (st w) (date w) (db w) (now w) (ws_open w) (sent w) v
    (bannerTimers w) (effectDeps w) (fired w) (logged w).
Definition with_bannerTimers v w :=
  mkWorld (st w) (date w) (db w) (now w) (ws_open w) (sent w) (autoEndTimer w)
    v (effectDeps w) (fired w) (logged w).
Definition with_effectDeps v w :=
  mkWorld (st w) (date w) (db w) (now w) (ws_open w) (sent w) (autoEndTimer w)
    (bannerTimers w) v (fired w) (logged w).
Definition with_fired v w :=
  mkWorld (st w) (date w) (db w) (now w) (ws_open w) (sent w) (autoEndTimer w)
    (bannerTimers w) (effectDeps w) v (logged w).
Definition with_logged v w :=
  mkWorld (st w) (date w) (db w) (now w) (ws_open w) (sent w) (autoEndTimer w)
    (bannerTimers w) (effectDeps w) (fired w) v.

(** A state setter applied to the component inside its world. *)
Definition update (f : State -> State) (w : World) : World :=
  with_st (f (st w)) w.

Definition render (w : World) : Render := mkRender (st w) (date w).

(** *** The WebSocket message handler *)

(** [ws.onmessage].  Every [setX(v)] of the source is the setter [setX v];
    [setPeakVelocity] and [setRepDetails] are called with updater
    functions, so they read the state left by the calls before them. *)
Definition onmessage (m : Message) (s : State) : State :=
  match m with
  | frame hardware_velocity ph rep_count =>
      let s := setVelocity (Js.or_else hardware_velocity 0) s in
      let s := setPhase (if Js.truthy_str ph then ph else "idle") s in
      setRepCount (if rep_count =? 0 then 0 else rep_count) s
  | rep_completed rep_number max_velocity avg_velocity dur =>
      let repData :=
        mkRepData rep_number (max_velocity / 1000) (avg_velocity / 1000) dur in
      let s := setLastRep (Some repData) s in
      let s :=
        if Js.truthy max_velocity
        then setPeakVelocity (Js.max (peakVelocity s) (max_velocity / 1000)) s
        else s in
      if Js.truthy avg_velocity
      then
        let prev := repDetails s in
        setRepDetails
          (if existsb (fun r => Db.repNumber r =? rep_number) prev
           then prev
           else prev ++ [Db.mkRepDetail rep_number
                           (avg_velocity / 1000)
                           (Js.or_else max_velocity avg_velocity / 1000)
                           (Js.or_else dur 0)])
          s
      else s
  | other => s
  end.

(** *** The auto-end effect *)

(** The dependency array [[repDetails.length, isTracking]] in the current
    render. *)
Definition deps (w : World) : nat * bool :=
  (List.length (repDetails (st w)), isTracking (st w)).

(** React's comparison of the array with the one of the last run. *)
Definition deps_unchanged (w : World) : bool :=
  (Nat.eqb (fst (deps w)) (fst (effectDeps w))
   && Bool.eqb (snd (deps w)) (snd (effectDeps w)))%bool.

(** [useEffect(..., [repDetails.length, isTracking])], run after a render.
    With unchanged dependencies nothing happens.  Otherwise the clean-up of
    the previous run clears the pending timeout, and the body arms a new
    one unless the set is not tracked or has no rep yet.  A timeout is only
    ever pending after a run that returned the clean-up, so clearing it
    whenever the dependencies change is what the source does. *)
Definition auto_end_effect (w : World) : World :=
  if deps_unchanged w then w
  else
    let w := with_effectDeps (deps w) (with_autoEndTimer None w) in
    if (negb (isTracking (st w)) || Nat.eqb (List.length (repDetails (st w))) 0)%bool
    then w
    else with_autoEndTimer
           (Some (mkTimer (now w + AUTO_END_DELAY) (render w))) w.

(** *** Loading the session log *)

(** Awaited calls that can reject, named after the call. *)
Inductive Step :=
| createWorkout_
| getWorkoutByDate_
| getExercisesForWorkout_
| addExercise_
| addSet_
| getAllExerciseNames_
| loadSessionHistory_
| onSetLogged_.

(** Which awaited calls reject in one run of a handler. *)
Definition Faults := Step -> bool.

Definition no_fault : Faults := fun _ => false.

Definition fault_at (x : Step) : Faults :=
  fun y =>
    match x, y with
    | createWorkout_, createWorkout_
    | getWorkoutByDate_, getWorkoutByDate_
    | getExercisesForWorkout_, getExercisesForWorkout_
    | addExercise_, addExercise_
    | addSet_, addSet_
    | getAllExerciseNames_, getAllExerciseNames_
    | loadSessionHistory_, loadSessionHistory_
    | onSetLogged_, onSetLogged_ => true
    | _, _ => false
    end.

(** [loadSessionHistory] as created by render [r]; the result is [None]
    when one of its reads rejects. *)
Definition loadSessionHistory (r : Render) (fails : Faults) (w : World)
  : option World :=
  match r_date r with
  | None | Some EmptyString => Some (update (setSessionHistory []) w)
  | Some d =>
      if fails loadSessionHistory_ then None
      else
        match Db.getWorkoutByDate (db w) d with
        | None => Some (update (setSessionHistory []) w)
        | Some workout =>
            Some (update
                    (setSessionHistory (Db.getFullSession (db w) (Db.w_id workout)))
                    w)
        end
  end.

(** *** Starting a set *)

(** [isValid], which enables the Start Set button. *)
Definition isValid (s : State) : bool :=
  (Js.truthy_str (Js.trim (exerciseName s)) && negb (String.eqb (weight s) ""))%bool.

(** [handleStartSet], called from render [r]. *)
Definition handleStartSet (r : Render) (w : World) : World :=
  let s := r_state r in
  if (negb (Js.truthy_str (Js.trim (exerciseName s)))
      || negb (Js.truthy_str (weight s)))%bool
  then w
  else
    let w :=
      if ws_open w
      then with_sent
             (sent w ++ [mkCommand "start_set" (Js.trim (exerciseName s))
                                   (weight s) "lbs"]) w
      else w in
    let w := update (setIsTracking true) w in
    let w := update (setRepCount 0) w in
    let w := update (setLastRep None) w in
    let w := update (setPeakVelocity 0) w in
    update (setRepDetails []) w.

(** *** Ending a set *)

(** The body of a [try] block: it runs on the world and either completes
    with a value or throws, keeping the writes made so far. *)
Definition Try (A : Type) : Type := World -> World * option A.

Definition ret {A : Type} (a : A) : Try A := fun w => (w, Some a).

Definition throw {A : Type} : Try A := fun w => (w, None).

Definition bind {A B : Type} (m : Try A) (k : A -> Try B) : Try B :=
  fun w =>
    match m w with
    | (w', Some a) => k a w'
    | (w', None) => (w', None)
    end.

Notation "x <- m ;; k" := (bind m (fun x => k))
  (at level 61, m at next level, right associativity).
Notation "m ;;; k" := (bind m (fun _ => k))
  (at level 61, right associativity).

(** An awaited call that rejects when [fails] says so. *)
Definition await (fails : Faults) (x : Step) : Try unit :=
  fun w => if fails x then (w, None) else (w, Some tt).

Definition modify (f : World -> World) : Try unit :=
  fun w => (f w, Some tt).

Definition read {A : Type} (f : World -> A) : Try A :=
  fun w => (w, Some (f w)).

(** A value that must not be [undefined] ([workout.id] on a missing
    workout throws). *)
Definition defined {A : Type} (o : option A) : Try A :=
  fun w => (w, o).

(** [repDetails.reduce((sum, r) => sum + r.avgVelocity, 0) /
    repDetails.length], or [null] for an empty list. *)
Definition mean_avgVelocity (l : list Db.RepDetail) : option Q :=
  match l with
  | [] => None
  | _ =>
      Some (fold_left (fun sum r => sum + Db.avgVelocity r) l 0
            / inject_Z (Z.of_nat (List.length l)))%Q
  end.

(** The statements inside [try] of [handleEndSet], for render [r].
    [createWorkout(date)] with a [null] date rejects: Dexie refuses the
    key. *)
Definition log_set (r : Render) (fails : Faults)
    (savedReps : Z) (savedExercise savedWeight : string)
    (savedRepDetails : list Db.RepDetail) (avgVel : option Q) : Try unit :=
  await fails createWorkout_ ;;;
  d <- defined (r_date r) ;;
  modify (fun w => with_db (fst (Db.createWorkout (db w) d (now w))) w) ;;;
  await fails getWorkoutByDate_ ;;;
  found <- read (fun w => Db.getWorkoutByDate (db w) d) ;;
  workout <- defined found ;;
  await fails getExercisesForWorkout_ ;;;
  exercises <- read (fun w => Db.getExercisesForWorkout (db w) (Db.w_id workout)) ;;
  exercise_id <-
    match find (fun e => String.eqb (Js.toLowerCase (Db.ex_name e))
                                    (Js.toLowerCase savedExercise)) exercises with
    | Some e => ret (Db.ex_id e)
    | None =>
        await fails addExercise_ ;;;
        exId <- read (fun w => snd (Db.addExercise (db w) (Db.w_id workout) savedExercise)) ;;
        modify (fun w => with_db (fst (Db.addExercise (db w) (Db.w_id workout) savedExercise)) w) ;;;
        ret exId
    end ;;
  await fails addSet_ ;;;
  modify (fun w =>
            with_db (fst (Db.addSet (db w) exercise_id savedWeight savedReps None
                                    avgVel (Some savedRepDetails) (now w))) w) ;;;
  await fails getAllExerciseNames_ ;;;
  names <- read (fun w => Db.getAllExerciseNames (db w)) ;;
  modify (update (setAllNames names)) ;;;
  modify (update (setLastLoggedSet
                    (Some (mkLoggedSet savedExercise savedWeight savedReps avgVel)))) ;;;
  modify (fun w => with_bannerTimers (bannerTimers w ++ [now w + 4000]) w) ;;;
  (fun w => match loadSessionHistory r fails w with
            | Some w' => (w', Some tt)
            | None => (w, None)
            end) ;;;
  await fails onSetLogged_ ;;;
  modify (fun w => with_logged (S (logged w)) w).

(** [actualReps] of [handleEndSet]:
    [repDetails.length > 0 ? repDetails.length : repCount]. *)
Definition actualReps (s : State) : Z :=
  if (0 <? List.length (repDetails s))%nat
  then Z.of_nat (List.length (repDetails s)) else repCount s.

(** The [try] block with the values [handleEndSet] saves before it:
    [savedReps], [savedExercise], [savedWeight], [savedRepDetails] and
    [avgVelocity]. *)
Definition save (r : Render) (fails : Faults) : Try unit :=
  let s := r_state r in
  log_set r fails (actualReps s) (Js.trim (exerciseName s)) (weight s)
          (repDetails s) (mean_avgVelocity (repDetails s)).

(** [handleEndSet], called from render [r]. *)
Definition handleEndSet (r : Render) (fails : Faults) (w : World) : World :=
  let s := r_state r in
  let w := with_autoEndTimer None w in
  if (negb (isTracking s) || (actualReps s =? 0))%bool
  then update (setRepDetails []) (update (setIsTracking false) w)
  else
    match save r fails w with
    | (w, None) =>
        update (setError (Some "Failed to log set. Tap to retry.")) w
    | (w, Some _) =>
        let w := update (setIsTracking false) w in
        let w := update (setRepCount 0) w in
        let w := update (setRepDetails []) w in
        let w := update (setLastRep None) w in
        update (setPeakVelocity 0) w
    end.

(** The [onClick] of the error banner, created by render [r]:
    [setError(null); handleEndSet()]. *)
Definition retry (r : Render) (fails : Faults) (w : World) : World :=
  handleEndSet r fails (update (setError None) w).

(** *** Events *)

(** What can happen to the mounted component.  [ClickStart], [ClickEnd]
    and [ClickError] are clicks on the Start Set button, the End Set button
    and the error banner; [Elapse dt] lets [dt] milliseconds pass. *)
Inductive Event :=
| Receive (m : Message)
| SocketOpen
| SocketClose
| TypeExercise (value : string)
| TypeWeight (value : string)
| SelectDate (d : option string)
| ClickStart
| ClickEnd (fails : Faults)
| ClickError (fails : Faults)
| Elapse (dt : Z) (fails : Faults).

(** The banner timeouts due at time [t] run [setLastLoggedSet(null)]. *)
Definition fire_banners (t : Z) (w : World) : World :=
  let due := filter (fun d => d <=? t) (bannerTimers w) in
  let w := with_bannerTimers (filter (fun d => negb (d <=? t)) (bannerTimers w)) w in
  match due with
  | [] => w
  | _ => update (setLastLoggedSet None) w
  end.

(** The callback of the auto-end timeout, with the render it closes
    over. *)
Definition auto_end_callback (r : Render) (fails : Faults) (w : World) : World :=
  if (isTracking (r_state r) && (0 <? List.length (repDetails (r_state r)))%nat)%bool
  then handleEndSet r fails (with_fired (fired w ++ [now w]) w)
  else w.

(** The world once the auto-end timeout [tm] has come due: the banners
    due by then, the callback, and the effect of the render after it. *)
Definition after_timeout (tm : Timer) (fails : Faults) (w : World) : World :=
  auto_end_effect
    (auto_end_callback (closure tm) fails
       (with_autoEndTimer None
          (fire_banners (deadline tm) (with_now (deadline tm) w)))).

(** Time advances to [t]: timeouts that have come due run, in the order of
    their deadlines. *)
Definition advance (t : Z) (fails : Faults) (w : World) : World :=
  match autoEndTimer w with
  | Some tm =>
      if deadline tm <=? t
      then
        let w := fire_banners (deadline tm) (with_now (deadline tm) w) in
        let w := with_autoEndTimer None w in
        let w := auto_end_effect (auto_end_callback (closure tm) fails w) in
        fire_banners t (with_now t w)
      else fire_banners t (with_now t w)
  | None => fire_banners t (with_now t w)
  end.

(** One event, then the effects of the render it causes.  The controls
    exist only when the component renders them: the inputs and the Start
    Set button while not tracking (the button enabled by [isValid]), the
    End Set button while tracking, the banner while [error] is set. *)
Definition handle (e : Event) (w : World) : World :=
  match e with
  | Receive m => auto_end_effect (update (onmessage m) w)
  | SocketOpen => update (setConnected true) (with_ws_open true w)
  | SocketClose => update (setConnected false) (with_ws_open false w)
  | TypeExercise v =>
      if isTracking (st w) then w else update (setExerciseName v) w
  | TypeWeight v =>
      if isTracking (st w) then w else update (setWeight v) w
  | SelectDate d =>
      let w := with_date d w in
      match loadSessionHistory (render w) no_fault w with
      | Some w' => w'
      | None => w
      end
  | ClickStart =>
      if (negb (isTracking (st w)) && isValid (st w))%bool
      then auto_end_effect (handleStartSet (render w) w)
      else w
  | ClickEnd fails =>
      if isTracking (st w)
      then auto_end_effect (handleEndSet (render w) fails w)
      else w
  | ClickError fails =>
      match error (st w) with
      | Some _ => auto_end_effect (retry (render w) fails w)
      | None => w
      end
  | Elapse dt fails => advance (now w + Z.max 0 dt) fails w
  end.

Definition run (es : list Event) (w : World) : World :=
  fold_left (fun w e => handle e w) es w.

(** The world at mount over a given database: the mount effects have
    loaded the exercise names and the session log, the socket is not open
    yet. *)
Definition mount (d : Db.DB) (date0 : option string) (t0 : Z) : World :=
  let w := mkWorld initial date0 d t0 false [] None [] (0%nat, false) [] 0%nat in
  let w := update (setAllNames (Db.getAllExerciseNames d)) w in
  match loadSessionHistory (render w) no_fault w with
  | Some w' => w'
  | None => w
  end.

(** *** What every world satisfies *)

(** The numbers of the recorded reps. *)
Definition numbers (w : World) : list Z :=
  map Db.repNumber (repDetails (st w)).

(** Rep numbers are not repeated; the effect has seen the current
    dependencies; and a pending timeout was armed by a render that tracked
    a set with reps, for the dependencies on record. *)
Definition Inv (w : World) : Prop :=
  NoDup (numbers w)
  /\ effectDeps w = deps w
  /\ forall tm, autoEndTimer w = Some tm ->
       isTracking (r_state (closure tm)) = true
       /\ repDetails (r_state (closure tm)) <> []
       /\ effectDeps w
          = (List.length (repDetails (r_state (closure tm))), true).

(** What a handler does before the effect runs: the rep list is kept,
    emptied, or extended by a rep with a new number; the dependencies on
    record stay; the pending timeout stays or is cleared. *)
Definition handled (w w' : World) : Prop :=
  (repDetails (st w') = repDetails (st w)
   \/ repDetails (st w') = []
   \/ exists e, repDetails (st w') = repDetails (st w) ++ [e]
                /\ ~ In (Db.repNumber e) (numbers w))
  /\ effectDeps w' = effectDeps w
  /\ (autoEndTimer w' = autoEndTimer w \/ autoEndTimer w' = None).

(** *** Scenarios *)

(** The component mounted on an empty database for 2025-02-04, the socket
    open, "Squat" and "225" typed. *)
Definition ready : World :=
  run [SocketOpen; TypeExercise "Squat"; TypeWeight "225"]
      (mount Db.empty (Some "2025-02-04") 0).

(** Start Set clicked: a tracked set without reps. *)
Definition tracking_no_rep : World := handle ClickStart ready.

(** The first rep has arrived, as in the protocol description:
    [{ rep_number: 1, max_velocity: 1500.0, avg_velocity: 1200.0,
       duration: 2.34 }]. *)
Definition tracking_one_rep : World :=
  handle (Receive (rep_completed 1 1500 1200 2.34)) tracking_no_rep.


(** Frames have counted two reps of a tracked set, but no [rep_completed]
    message has arrived. *)
Definition tracking_frames_only : World :=
  handle (Receive (frame 0.4 "ascending" 2)) tracking_no_rep.

(** The "Set Logged" banner and its timeouts: every pending one is due
    within the next 4 s, and a banner on display has one pending. *)
Definition banners_ok (w : World) : Prop :=
  Forall (fun t => now w < t <= now w + 4000) (bannerTimers w)
  /\ (lastLoggedSet (st w) <> None -> bannerTimers w <> []).

(** A pending auto-end timeout is not yet due. *)
Definition timer_ahead (w : World) : Prop :=
  forall tm, autoEndTimer w = Some tm -> now w < deadline tm.

(** The render a pending auto-end timeout closes over shows the set as
    the component has it: the same reps, exercise name and weight. *)
Definition closure_current (w : World) : Prop :=
  forall tm, autoEndTimer w = Some tm ->
    repDetails (r_state (closure tm)) = repDetails (st w)
    /\ exerciseName (r_state (closure tm)) = exerciseName (st w)
    /\ weight (r_state (closure tm)) = weight (st w).

(** The entry the [rep_completed] handler has for a message: a message
    without [avg_velocity], a frame and any other message have none. *)
Definition detail_of (m : Message) : list Db.RepDetail :=
  match m with
  | rep_completed rep_number max_velocity avg_velocity dur =>
      if Js.truthy avg_velocity
      then [Db.mkRepDetail rep_number (avg_velocity / 1000)
                           (Js.or_else max_velocity avg_velocity / 1000)
                           (Js.or_else dur 0)]
      else []
  | _ => []
  end.

(** [r.repNumber === data.rep_number] between two entries. *)
Definition same_number (a b : Db.RepDetail) : bool :=
  Db.repNumber a =? Db.repNumber b.

(** The messages of a stream through [ws.onmessage], one after the
    other. *)
Definition receive_all (ms : list Message) (s : State) : State :=
  fold_left (fun s m => onmessage m s) ms s.

(** The state [handleStartSet] leaves, and a stream in which rep 1 is
    reported twice. *)
Definition stream_with_repeat : list Message :=
  [frame 0.4 "ascending" 0; rep_completed 1 1500 1200 2.34;
   rep_completed 1 900 800 2.0; rep_completed 2 1400 1100 2.5].

End VelocityView.

(** ** The exercise autocomplete of [Logger.jsx] and [VelocityView.jsx]

    Both components carry the same handlers over the same cells:
    [handleExerciseChange], [selectSuggestion], [handleExerciseKeyDown]
    and the [onFocus] and [onBlur] of the exercise input. *)
Module Suggest.

(** The cells the handlers read and write.  [exerciseName] is [None]
    when a handler has stored [undefined] in it. *)
Record State := mkState {
  exerciseName : option string;
  suggestions : list string;
  showSuggestions : bool;
  selectedSuggestion : Z;
  allNames : list string
}.

(** [handleExerciseChange(value)] *)
Definition handleExerciseChange (value : string) (s : State) : State :=
  if (0 <? String.length (Js.trim value))%nat
  then
    let query := Js.toLowerCase value in
    let matches :=
      filter (fun n => Js.includes (Js.toLowerCase n) query) (allNames s) in
    mkState (Some value) (firstn 8 matches)
            (0 <? List.length matches)%nat (-1) (allNames s)
  else
    mkState (Some value) (firstn 8 (allNames s))
            (0 <? List.length (allNames s))%nat (-1) (allNames s).

(** [selectSuggestion(name)]; [name] is [None] for [undefined]. *)
Definition selectSuggestion (name : option string) (s : State) : State :=
  mkState name (suggestions s) false (-1) (allNames s).

(** [e.key], as far as the handler tells keys apart. *)
Inductive Key := ArrowDown | ArrowUp | Enter | Tab | Escape | OtherKey.

(** [suggestions[i]]: [undefined] outside the array. *)
Definition at_index (l : list string) (i : Z) : option string :=
  if i <? 0 then None else nth_error l (Z.to_nat i).

(** [handleExerciseKeyDown(e)]: the state after it, and whether
    [e.preventDefault()] was called. *)
Definition handleExerciseKeyDown (k : Key) (s : State) : State * bool :=
  if negb (showSuggestions s) then (s, false)
  else
    let len := Z.of_nat (List.length (suggestions s)) in
    match k with
    | ArrowDown =>
        (mkState (exerciseName s) (suggestions s) (showSuggestions s)
                 (Z.min (selectedSuggestion s + 1) (len - 1)) (allNames s),
         true)
    | ArrowUp =>
        (mkState (exerciseName s) (suggestions s) (showSuggestions s)
                 (Z.max (selectedSuggestion s - 1) 0) (allNames s),
         true)
    | Enter | Tab =>
        if 0 <=? selectedSuggestion s
        then (selectSuggestion
                (at_index (suggestions s) (selectedSuggestion s)) s, true)
        else if 0 <? len
             then (selectSuggestion (at_index (suggestions s) 0) s, true)
             else (s, false)
    | Escape =>
        (mkState (exerciseName s) (suggestions s) false
                 (selectedSuggestion s) (allNames s),
         false)
    | OtherKey => (s, false)
    end.

(** The [onFocus] of the exercise input.  On [undefined] the test
    [exerciseName.trim() === ''] throws and nothing is set. *)
Definition onFocus (s : State) : State :=
  match exerciseName s with
  | None => s
  | Some name =>
      if (String.eqb (Js.trim name) "" && (0 <? List.length (allNames s))%nat)%bool
      then mkState (exerciseName s) (firstn 8 (allNames s)) true
                   (selectedSuggestion s) (allNames s)
      else if (0 <? List.length (suggestions s))%nat
           then mkState (exerciseName s) (suggestions s) true
                        (selectedSuggestion s) (allNames s)
           else s
  end.

(** The timeout of [onBlur]: [setShowSuggestions(false)]. *)
Definition onBlur_timeout (s : State) : State :=
  mkState (exerciseName s) (suggestions s) false (selectedSuggestion s)
          (allNames s).

(** The highlighted row is a row of the list or none ([-1]), and a list
    on display has rows. *)
Definition selection_ok (s : State) : Prop :=
  -1 <= selectedSuggestion s < Z.of_nat (List.length (suggestions s))
  /\ (showSuggestions s = true -> suggestions s <> []).

(** The names "Bench Press", "Row" and "Squat" loaded, and "s" typed. *)
Definition typed_s : State :=
  handleExerciseChange "s"
    (mkState (Some "") [] false (-1) ["Bench Press"; "Row"; "Squat"]).

End Suggest.

(** ** [SetDetailView.jsx]: the figures of one stored set *)
Module SetDetailView.

Local Open Scope Q_scope.

(** [Math.max(x, ...l)] of one number or more. *)
Definition Math_max (x : Q) (l : list Q) : Q := fold_left Js.max l x.

(** [set.repDetails || []] *)
Definition repDetails (set : Db.SetRow) : list Db.RepDetail :=
  match Db.set_repDetails set with
  | Some l => l
  | None => []
  end.

(** [hasRepData]: [repDetails.length > 0] *)
Definition hasRepData (set : Db.SetRow) : bool :=
  (0 <? List.length (repDetails set))%nat.

(** [set.avgVelocity || 0] *)
Definition avgVelocity (set : Db.SetRow) : Q :=
  match Db.set_avgVelocity set with
  | Some q => Js.or_else q 0
  | None => 0
  end.

(** [r.peakVelocity || r.avgVelocity] *)
Definition peak_of (r : Db.RepDetail) : Q :=
  Js.or_else (Db.peakVelocity r) (Db.avgVelocity r).

(** [peakVelocity]: the largest peak of the reps, or the set's average
    without rep data. *)
Definition peakVelocity (set : Db.SetRow) : Q :=
  match map peak_of (repDetails set) with
  | x :: l => Math_max x l
  | [] => avgVelocity set
  end.

(** [bestRepAvg]: the largest average of the reps, "not rep 1, which may
    be noisy". *)
Definition bestRepAvg (set : Db.SetRow) : Q :=
  match map Db.avgVelocity (repDetails set) with
  | x :: l => Math_max x l
  | [] => avgVelocity set
  end.

(** [lastRepAvg]: [repDetails[repDetails.length - 1].avgVelocity], or 0
    without rep data. *)
Definition lastRepAvg (set : Db.SetRow) : Q :=
  last (map Db.avgVelocity (repDetails set)) 0.

(** [velocityDrop] *)
Definition velocityDrop (set : Db.SetRow) : Q :=
  if (hasRepData set && (1 <? List.length (repDetails set))%nat
      && Js.ltb 0 (bestRepAvg set))%bool
  then (bestRepAvg set - lastRepAvg set) / bestRepAvg set * 100
  else 0.

(** [maxChartValue] *)
Definition maxChartValue (set : Db.SetRow) : Q :=
  match map peak_of (repDetails set) with
  | x :: l => Math_max x l * 1.1
  | [] => 1
  end.

(** [percentOfBest] of a row of the table. *)
Definition percentOfBest (set : Db.SetRow) (rep : Db.RepDetail) : Q :=
  if Js.ltb 0 (bestRepAvg set)
  then Db.avgVelocity rep / bestRepAvg set * 100
  else 100.

(** [isFatigued]: [percentOfBest < 89] *)
Definition isFatigued (set : Db.SetRow) (rep : Db.RepDetail) : bool :=
  Js.ltb (percentOfBest set rep) 89.

(** [avgHeight] and [peakHeight] of a bar of the chart, in pixels. *)
Definition avgHeight (set : Db.SetRow) (rep : Db.RepDetail) : Q :=
  Db.avgVelocity rep / maxChartValue set * 140.

Definition peakHeight (set : Db.SetRow) (rep : Db.RepDetail) : Q :=
  peak_of rep / maxChartValue set * 140.

(** A set of three reps at 0.50, 0.48 and 0.40 m/s. *)
Definition three_reps : Db.SetRow :=
  Db.mkSetRow 1 1 "225" 3 None (Some 0.46)
    (Some [Db.mkRepDetail 1 0.50 0.70 1.2; Db.mkRepDetail 2 0.48 0.66 1.3;
           Db.mkRepDetail 3 0.40 0.60 1.6])
    0 0.

End SetDetailView.

(** ** [App.jsx] and [SessionView.jsx]: which workout is on display *)
Module App.

(** The cells of [App] behind the side bar and the session: the selected
    date, the refresh key, the result [workoutDates] of the live query
    [useLiveQuery(getAllWorkoutDates, [refreshKey], [])], and the
    database the components share. *)
Record State := mkState {
  selectedDate : option string;
  refreshKey : Z;
  workoutDates : list Db.WorkoutDate;
  db : Db.DB
}.

(** [refresh()]: the key is bumped and the live query runs again. *)
Definition refresh (s : State) : State :=
  mkState (selectedDate s) (refreshKey s + 1)
          (Db.getAllWorkoutDates (db s)) (db s).

(** [handleNewWorkout(date)]; [today] is [format(new Date(),
    'yyyy-MM-dd')] and [now] is [Date.now()]. *)
Definition handleNewWorkout (date today : string) (now : Z) (s : State)
  : State :=
  let workoutDate := if Js.truthy_str date then date else today in
  let d := fst (Db.createWorkout (db s) workoutDate now) in
  refresh (mkState (Some workoutDate) (refreshKey s) (workoutDates s) d).

(** [handleDeleted()] *)
Definition handleDeleted (s : State) : State :=
  refresh (mkState None (refreshKey s) (workoutDates s) (db s)).

(** [activeDate]:
    [selectedDate || (workoutDates?.length > 0 ? workoutDates[0].date : null)] *)
Definition activeDate (s : State) : option string :=
  let first :=
    match workoutDates s with
    | x :: _ => Some (Db.wd_date x)
    | [] => None
    end in
  match selectedDate s with
  | Some d => if Js.truthy_str d then Some d else first
  | None => first
  end.

(** [handleDeleteWorkout] of [SessionView], which [App] renders with
    [date={activeDate}] and [onDeleted={handleDeleted}].  The [workout]
    of the view is what its [load] has read with [getWorkoutByDate(date)];
    without one the handler returns. *)
Definition handleDeleteWorkout (s : State) : State :=
  match activeDate s with
  | Some date =>
      match Db.getWorkoutByDate (db s) date with
      | Some workout =>
          handleDeleted
            (mkState (selectedDate s) (refreshKey s) (workoutDates s)
                     (Db.deleteWorkout (db s) (Db.w_id workout)))
      | None => s
      end
  | None => s
  end.

(** [App] over the sample database with the workout of 2025-02-04
    selected. *)
Definition on_sample : State :=
  mkState (Some "2025-02-04") 0 (Db.getAllWorkoutDates Db.sample) Db.sample.

End App.

(** ** The engine behind the WebSocket: rep tracker and fatigue detector

    [velocitytracker/backend/fatigue_detector.py] and
    [velocity_processor.py] are not part of the sources at hand; what
    follows is written from the specification (sections 3, 4.1 and 4.2) and
    the algorithm summary of [SYSTEM_OVERVIEW.md]. *)
Module Engine.

Local Open Scope Q_scope.

(** Modelled from the spec: the comparison [a < b] on velocities and
    times, which the missing tracker makes on floats. *)
Definition Qltb (a b : Q) : bool := negb (Qle_bool b a).

(** Modelled from the spec: the arithmetic mean used for the baseline, the
    trailing average and [avgVelocity]; the missing [fatigue_detector.py]
    calls it [mean] and [moving_average]. *)
Definition mean (l : list Q) : Q :=
  fold_right Qplus 0 l / inject_Z (Z.of_nat (List.length l)).

(** Modelled from the spec: the largest of a list of magnitudes, for
    [peakVelocity] of the missing tracker. *)
Definition maximum (l : list Q) : Q :=
  fold_right (fun a b => if Qle_bool a b then b else a) 0 l.

(** Modelled from the spec: [Phase] of section 3, "one of Idle | Ascending
    | Descending" (the enum of the missing [models.py]). *)
Inductive Phase := Idle | Ascending | Descending.

(** Modelled from the spec: equality of two phases of the missing
    tracker. *)
Definition Phase_eqb (a b : Phase) : bool :=
  match a, b with
  | Idle, Idle | Ascending, Ascending | Descending, Descending => true
  | _, _ => false
  end.

(** Modelled from the spec: [Sample] of section 3,
    "{ timestamp, velocity (signed, m/s) }". *)
Record Sample := mkSample {
  timestamp : Q;
  velocity : Q
}.

(** Modelled from the spec: [PhaseEvent] of section 3, "an internal
    transition record { phase, enteredAt, exitedAt }". *)
Record PhaseEvent := mkPhaseEvent {
  pe_phase : Phase;
  enteredAt : Q;
  exitedAt : Q
}.

(** Modelled from the spec: [RepRecord] of section 3, "{ repNumber
    (1-based, monotonic within a set), avgVelocity, peakVelocity,
    durationSeconds }". *)
Record RepRecord := mkRepRecord {
  repNumber : Z;
  avgVelocity : Q;
  peakVelocity : Q;
  durationSeconds : Q
}.

(** Modelled from the spec: the parameters of section 4.1 of the missing
    [config.py], with their defaults. *)
Record Config := mkConfig {
  movementThreshold : Q;
  restThreshold : Q;
  minPhaseDuration : Q;
  stationaryWindow : nat;
  stationaryStdDev : Q;
  setTimeout : Q
}.

(** Modelled from the spec: the defaults of section 4.1 (missing
    [config.py]), "movementThreshold = 0.10 m/s, restThreshold = 0.05 m/s,
    minPhaseDuration = 0.15 s, stationaryWindow = 50 samples,
    stationaryStdDev = 0.02 m/s, setTimeout = 5 s". *)
Definition defaults : Config := mkConfig 0.10 0.05 0.15 50 0.02 5.

(** *** Rep tracker *)

(** Modelled from the spec: the state the missing [VelocityRepTracker]
    keeps.  Section 4.1: "Maintain current Phase and the timestamp it was
    entered"; [pending] is the incoming phase whose directional condition
    is holding, and since when; [cycle] holds the PhaseEvents "retained
    only for the current in-progress rep cycle"; [cycleSamples] the
    magnitudes of "the non-idle samples of the cycle"; [window] "the last
    stationaryWindow samples' velocity". *)
Record Tracker := mkTracker {
  phase : Phase;
  phaseEnteredAt : Q;
  pending : option (Phase * Q);
  cycle : list PhaseEvent;
  cycleSamples : list Q;
  window : list Q;
  lastTimestamp : option Q;
  repCount : Z
}.

(** Modelled from the spec: the missing tracker at the start of a set, at
    rest with no cycle in progress and no sample seen. *)
Definition tracker0 : Tracker := mkTracker Idle 0 None [] [] [] None 0%Z.

(** Modelled from the spec: what one sample makes the missing tracker
    report: a phase change with the PhaseEvent it closes, and a completed
    rep. *)
Inductive Output :=
| PhaseChanged (ev : PhaseEvent) (to : Phase)
| RepCompleted (r : RepRecord).

(** Modelled from the spec: the sign convention of section 3 for the
    missing tracker: "velocity > movement threshold => candidate Ascending;
    velocity < -movement threshold => candidate Descending; |velocity| <
    rest threshold sustained => candidate Idle". *)
Definition candidate (cfg : Config) (v : Q) : option Phase :=
  if Qltb (movementThreshold cfg) v then Some Ascending
  else if Qltb v (- movementThreshold cfg) then Some Descending
  else if Qltb (Qabs v) (restThreshold cfg) then Some Idle
  else None.

(** Modelled from the spec: the test of section 4.1 that a non-idle phase
    "occurred with duration >= minPhaseDuration" in the cycle kept by the
    missing tracker. *)
Definition occurred (cfg : Config) (p : Phase) (c : list PhaseEvent) : bool :=
  existsb (fun e => (Phase_eqb (pe_phase e) p
                     && Qle_bool (minPhaseDuration cfg) (exitedAt e - enteredAt e))%bool)
          c.

(** Modelled from the spec: a full rep cycle of the missing tracker,
    "(Descending, Ascending in either order) ... as long as both non-idle
    phases occurred with duration >= minPhaseDuration before returning to
    Idle". *)
Definition complete (cfg : Config) (c : list PhaseEvent) : bool :=
  (occurred cfg Descending c && occurred cfg Ascending c)%bool.

(** Modelled from the spec: the start of the cycle in progress, for
    "durationSeconds = cycle wall-clock span" of the missing tracker. *)
Definition cycleStart (t : Tracker) : Q :=
  match cycle t with
  | e :: _ => enteredAt e
  | [] => phaseEnteredAt t
  end.

(** Modelled from the spec: the missing tracker accepting a transition to
    [p] at time [ts].  Returning to Idle closes the cycle: "On completing a
    cycle, emit a RepRecord: avgVelocity = mean |velocity| over the
    non-idle samples of the cycle; peakVelocity = max |velocity| over the
    same window; durationSeconds = cycle wall-clock span. repNumber =
    previous count + 1"; a cycle that is not complete is "aborted as
    noise". *)
Definition enter (cfg : Config) (p : Phase) (ts : Q) (t : Tracker)
  : Tracker * list Output :=
  let ev := mkPhaseEvent (phase t) (phaseEnteredAt t) ts in
  match p with
  | Idle =>
      if complete cfg (cycle t ++ [ev])
      then
        let r := mkRepRecord (repCount t + 1) (mean (cycleSamples t))
                             (maximum (cycleSamples t)) (ts - cycleStart t) in
        (mkTracker Idle ts None [] [] (window t) (lastTimestamp t)
                   (repCount t + 1),
         [PhaseChanged ev Idle; RepCompleted r])
      else
        (mkTracker Idle ts None [] [] (window t) (lastTimestamp t) (repCount t),
         [PhaseChanged ev Idle])
  | _ =>
      match phase t with
      | Idle =>
          (mkTracker p ts None [] [] (window t) (lastTimestamp t) (repCount t),
           [PhaseChanged ev p])
      | _ =>
          (mkTracker p ts None (cycle t ++ [ev]) (cycleSamples t) (window t)
                     (lastTimestamp t) (repCount t),
           [PhaseChanged ev p])
      end
  end.

(** Modelled from the spec: the missing tracker noting the incoming phase
    whose condition holds, or dropping it. *)
Definition with_pending (o : option (Phase * Q)) (t : Tracker) : Tracker :=
  mkTracker (phase t) (phaseEnteredAt t) o (cycle t) (cycleSamples t)
            (window t) (lastTimestamp t) (repCount t).

(** Modelled from the spec: the debouncing of the missing tracker, "A
    transition out of the current phase is only accepted once the incoming
    phase's directional condition has held continuously for at least
    minPhaseDuration ... A transition attempt that does not survive this
    window is discarded (state remains unchanged)".  The condition stops
    holding with a sample that is a candidate for another phase or for
    none. *)
Definition debounce (cfg : Config) (s : Sample) (t : Tracker)
  : Tracker * list Output :=
  match candidate cfg (velocity s) with
  | Some p =>
      if Phase_eqb p (phase t) then (with_pending None t, [])
      else
        match pending t with
        | Some (p', since) =>
            if Phase_eqb p' p
            then
              if Qle_bool (minPhaseDuration cfg) (timestamp s - since)
              then enter cfg p (timestamp s) t
              else (t, [])
            else (with_pending (Some (p, timestamp s)) t, [])
        | None => (with_pending (Some (p, timestamp s)) t, [])
        end
  | None => (with_pending None t, [])
  end.

(** Modelled from the spec: the population variance of a window of
    velocities, the square of the "standard deviation of the last
    stationaryWindow samples' velocity" the missing tracker computes. *)
Definition variance (l : list Q) : Q :=
  mean (map (fun v => (v - mean l) * (v - mean l)) l).

(** Modelled from the spec: stationary detection of the missing tracker,
    the standard deviation of the window "drops below stationaryStdDev".
    The deviation is compared through its square, and only once the
    window holds [stationaryWindow] samples. *)
Definition stationary (cfg : Config) (w : list Q) : bool :=
  if Nat.eqb (List.length w) (stationaryWindow cfg)
  then Qltb (variance w) (stationaryStdDev cfg * stationaryStdDev cfg)
  else false.

(** Modelled from the spec: the window of the missing tracker after one
    more velocity, "the last stationaryWindow samples". *)
Definition push_window (cfg : Config) (v : Q) (w : list Q) : list Q :=
  let w := w ++ [v] in
  skipn (List.length w - stationaryWindow cfg) w.

(** Modelled from the spec: one sample through the missing tracker.
    "Out-of-order or duplicate timestamps in incoming samples are ignored
    (sample rejected, no state change)".  A stationary window makes the
    tracker "force-transition to Idle immediately (overrides any
    in-progress phase, treating it as settled ...)": Idle is entered
    without debouncing and the cycle is closed as on any return to Idle,
    reported when it is complete and abandoned when it is not.  Otherwise
    the sample is debounced.  While the phase is not Idle the magnitude of
    the sample joins the cycle. *)
Definition step (cfg : Config) (t : Tracker) (s : Sample)
  : Tracker * list Output :=
  let stale :=
    match lastTimestamp t with
    | Some last => Qle_bool (timestamp s) last
    | None => false
    end in
  if stale then (t, [])
  else
    let t := mkTracker (phase t) (phaseEnteredAt t) (pending t) (cycle t)
                       (cycleSamples t) (push_window cfg (velocity s) (window t))
                       (Some (timestamp s)) (repCount t) in
    let '(t, out) :=
      if (stationary cfg (window t) && negb (Phase_eqb (phase t) Idle))%bool
      then enter cfg Idle (timestamp s) t
      else debounce cfg s t in
    let t :=
      match phase t with
      | Idle => t
      | _ => mkTracker (phase t) (phaseEnteredAt t) (pending t) (cycle t)
                       (cycleSamples t ++ [Qabs (velocity s)]) (window t)
                       (lastTimestamp t) (repCount t)
      end in
    (t, out).

(** Modelled from the spec: the missing tracker fed a sequence of samples,
    with everything it reports. *)
Fixpoint run (cfg : Config) (t : Tracker) (ss : list Sample)
  : Tracker * list Output :=
  match ss with
  | [] => (t, [])
  | s :: rest =>
      let '(t1, o1) := step cfg t s in
      let '(t2, o2) := run cfg t1 rest in
      (t2, o1 ++ o2)
  end.

(** Modelled from the spec: the phase changes among the reports of the
    missing tracker, each with the PhaseEvent it closes. *)
Definition changes (os : list Output) : list (PhaseEvent * Phase) :=
  flat_map (fun o => match o with
                     | PhaseChanged ev p => [(ev, p)]
                     | RepCompleted _ => []
                     end) os.

(** Modelled from the spec: the RepRecords among the reports of the
    missing tracker, one per [rep_completed] event. *)
Definition reps (os : list Output) : list RepRecord :=
  flat_map (fun o => match o with
                     | PhaseChanged _ _ => []
                     | RepCompleted r => [r]
                     end) os.

(** Modelled from the spec: samples at the nominal 50 Hz tick of section
    4.3, [n] of them with velocity [v], the first at tick [k]. *)
Definition ticks (k : nat) (n : nat) (v : Q) : list Sample :=
  map (fun i => mkSample (inject_Z (Z.of_nat i) / 50) v) (seq k n).

(** Modelled from the spec: the completed cycles in a history of phase
    changes of the missing tracker, counted as section 8 words it:
    "completed Idle->non-Idle->non-Idle->Idle cycles that each
    individually spanned >= minPhaseDuration per non-idle phase".  [c]
    holds the non-idle PhaseEvents closed since Idle was left. *)
Fixpoint cycles_completed (cfg : Config) (c : list PhaseEvent)
    (chs : list (PhaseEvent * Phase)) : nat :=
  match chs with
  | [] => 0
  | (ev, Idle) :: rest =>
      ((if complete cfg (c ++ [ev]) then 1 else 0)
       + cycles_completed cfg [] rest)%nat
  | (ev, _) :: rest =>
      cycles_completed cfg
        (match pe_phase ev with Idle => [] | _ => c ++ [ev] end) rest
  end.

(** Modelled from the spec: a history of phase changes that starts in
    phase [p]: every change closes the phase the one before it entered. *)
Fixpoint chained (p : Phase) (chs : list (PhaseEvent * Phase)) : Prop :=
  match chs with
  | [] => True
  | (ev, q) :: rest => pe_phase ev = p /\ chained q rest
  end.

(** Modelled from the spec: the first sequence of section 8 at 50 Hz, for
    the missing tracker, "Idle->Descending(0.2s)->Ascending(0.2s)->Idle":
    0.2 s at rest, 0.2 s at 0.5 m/s downwards, 0.2 s at 0.5 m/s upwards,
    then 0.3 s at rest. *)
Definition down_then_up : list Sample :=
  ticks 0 10 0 ++ ticks 10 10 (-0.5) ++ ticks 20 10 0.5 ++ ticks 30 15 0.

(** Modelled from the spec: the second sequence of section 8,
    "Idle->Ascending(0.2s)->Descending(0.2s)->Idle", likewise. *)
Definition up_then_down : list Sample :=
  ticks 0 10 0 ++ ticks 10 10 0.5 ++ ticks 20 10 (-0.5) ++ ticks 30 15 0.

(** Modelled from the spec: the first of the two outcomes of one sample
    through the missing tracker: it reports nothing and keeps phase and
    cycle. *)
Definition quiet (t t' : Tracker) (o : list Output) : Prop :=
  o = [] /\ phase t' = phase t /\ cycle t' = cycle t.

(** Modelled from the spec: the second outcome: it reports one accepted
    transition of the missing tracker, with a rep when the transition
    completes a cycle. *)
Definition entered (cfg : Config) (t t' : Tracker) (o : list Output) : Prop :=
  exists p ts,
    let ev := mkPhaseEvent (phase t) (phaseEnteredAt t) ts in
    phase t' = p
    /\ match p with
       | Idle =>
           cycle t' = []
           /\ ((complete cfg (cycle t ++ [ev]) = true
                /\ exists r, o = [PhaseChanged ev Idle; RepCompleted r])
               \/ (complete cfg (cycle t ++ [ev]) = false
                   /\ o = [PhaseChanged ev Idle]))
       | _ =>
           cycle t' = match phase t with Idle => [] | _ => cycle t ++ [ev] end
           /\ o = [PhaseChanged ev p]
       end.

(** Modelled from the spec: a stretch of samples over which "the incoming
    phase's directional condition has held continuously" for phase [p], as
    the missing tracker sees it. *)
Definition held (cfg : Config) (p : Phase) (seg : list Sample) : Prop :=
  Forall (fun s => candidate cfg (velocity s) = Some p) seg.

(** Modelled from the spec: a sample the missing tracker does not reject,
    its timestamp being later than the last one seen. *)
Definition later (last : option Q) (s : Sample) : Prop :=
  match last with Some l => l < timestamp s | None => True end.

(** Modelled from the spec: samples in order of time after [last], none
    "out-of-order or duplicate". *)
Fixpoint increasing (last : option Q) (ss : list Sample) : Prop :=
  match ss with
  | [] => True
  | s :: rest => later last s /\ increasing (Some (timestamp s)) rest
  end.

(** Modelled from the spec: the last timestamp the missing tracker has
    seen after samples in order. *)
Definition last_timestamp (last : option Q) (ss : list Sample) : option Q :=
  fold_left (fun _ s => Some (timestamp s)) ss last.

(** Modelled from the spec: the stationary window of the missing tracker
    after samples in order. *)
Definition window_after (cfg : Config) (w : list Q) (ss : list Sample)
  : list Q :=
  fold_left (fun w s => push_window cfg (velocity s) w) ss w.

(** Modelled from the spec: samples over which the stationary detection of
    the missing tracker never fires, the window never being still. *)
Fixpoint unsettled (cfg : Config) (w : list Q) (ss : list Sample) : Prop :=
  match ss with
  | [] => True
  | s :: rest =>
      stationary cfg (push_window cfg (velocity s) w) = false
      /\ unsettled cfg (push_window cfg (velocity s) w) rest
  end.

(** Modelled from the spec: how long a stretch of samples lasts, from its
    first to its last timestamp. *)
Definition span (seg : list Sample) : Q :=
  match seg with
  | [] => 0
  | s :: rest => timestamp (last rest s) - timestamp s
  end.

(** Modelled from the spec: what every sample the missing tracker accepts
    leaves behind: it has joined the window and is the last one seen. *)
Definition took (cfg : Config) (t t' : Tracker) (s : Sample) : Prop :=
  window t' = push_window cfg (velocity s) (window t)
  /\ lastTimestamp t' = Some (timestamp s).

(** Modelled from the spec: a stretch of samples that has taken the missing
    tracker from [t] into phase [q] with exactly one accepted transition,
    nothing pending after it, and a rep exactly when it closes a complete
    cycle. *)
Definition crossed (cfg : Config) (q : Phase) (t t' : Tracker)
    (o : list Output) : Prop :=
  let ev := mkPhaseEvent (phase t) (phaseEnteredAt t) (phaseEnteredAt t') in
  phase t' = q
  /\ pending t' = None
  /\ changes o = [(ev, q)]
  /\ match q with
     | Idle =>
         cycle t' = []
         /\ List.length (reps o)
            = (if complete cfg (cycle t ++ [ev]) then 1 else 0)%nat
     | _ =>
         cycle t' = match phase t with Idle => [] | _ => cycle t ++ [ev] end
         /\ reps o = []
     end.

(** *** Fatigue detector *)

(** Modelled from the spec: [FatigueState] of section 3,
    "{ baselineVelocity?, alertActive: bool, lastDropPercentage }", kept by
    the missing [fatigue_detector.py]. *)
Record FatigueState := mkFatigueState {
  baselineVelocity : option Q;
  alertActive : bool;
  lastDropPercentage : Q
}.

(** Modelled from the spec: "Fatigue state resets fully when a new
    SetSession starts" (missing [fatigue_detector.py]). *)
Definition fatigue0 : FatigueState := mkFatigueState None false 0.

(** Modelled from the spec: the [fatigue_warning] event of section 6,
    "{ dropPercentage, currentVelocity, baselineVelocity }", published by
    the missing [velocity_processor.py]. *)
Record FatigueWarning := mkFatigueWarning {
  dropPercentage : Q;
  currentVelocity : Q;
  baselineVelocity_ : Q
}.

(** Modelled from the spec: the trailing window of the missing detector,
    "the most recent 3 RepRecords". *)
Definition last3 (l : list Q) : list Q :=
  skipn (List.length l - 3) l.

(** Modelled from the spec: "dropPercentage = (baseline - smoothed) /
    baseline x 100, clamped to >= 0 when velocity increases" (missing
    [fatigue_detector.py]). *)
Definition drop_percentage (baseline smoothed : Q) : Q :=
  let d := (baseline - smoothed) / baseline * 100 in
  if Qle_bool 0 d then d else 0.

Section Detector.

(** Section 4.2 emits the warning "when the alert transitions from
    inactive to active or the drop percentage materially changes" and
    does not say what a material change is: the test on the previous and
    the new percentage is left open. *)
Variable materially_changed : Q -> Q -> bool.

(** Modelled from the spec: the missing detector after a RepRecord has
    been appended; [session] is the rep list of the active SetSession
    with the new record in it.  "Until 3 reps exist, the detector reports
    no baseline and never raises an alert"; the baseline is "the mean
    avgVelocity of the first 3 RepRecords", set when it is still unset;
    "For every RepRecord beyond the third, compute a smoothed value";
    "If dropPercentage >= 11, set alertActive = true and emit a
    fatigue-warning event", the alert being "re-evaluated (and may
    clear) on every subsequent rep". *)
Definition on_rep (session : list RepRecord) (fs : FatigueState)
  : FatigueState * list FatigueWarning :=
  let vs := map avgVelocity session in
  if (List.length session <? 3)%nat then (fs, [])
  else
    let baseline :=
      match baselineVelocity fs with
      | Some b => b
      | None => mean (firstn 3 vs)
      end in
    if (List.length session =? 3)%nat
    then (mkFatigueState (Some baseline) (alertActive fs)
                         (lastDropPercentage fs), [])
    else
      let smoothed := mean (last3 vs) in
      let drop := drop_percentage baseline smoothed in
      let alert := Qle_bool 11 drop in
      (mkFatigueState (Some baseline) alert drop,
       if (alert && (negb (alertActive fs)
                     || materially_changed (lastDropPercentage fs) drop))%bool
       then [mkFatigueWarning drop smoothed baseline]
       else []).

(** Modelled from the spec: the rep list of the active SetSession with
    the state of the missing detector, and RepRecords appended one after
    the other, each handed to the detector as section 4.3 orders it
    ("append to active SetSession and feed Fatigue Detector").  The
    result pairs every appended record with the warnings it caused. *)
Fixpoint feed (session : list RepRecord) (fs : FatigueState)
    (rs : list RepRecord)
  : list RepRecord * FatigueState * list (list FatigueWarning) :=
  match rs with
  | [] => (session, fs, [])
  | r :: rest =>
      let session := session ++ [r] in
      let '(fs, ws) := on_rep session fs in
      let '(session, fs, wss) := feed session fs rest in
      (session, fs, ws :: wss)
  end.

(** Modelled from the spec: the detector state after [rs] have been
    appended to a SetSession that has just started. *)
Definition fatigue_after (rs : list RepRecord) : FatigueState :=
  snd (fst (feed [] fatigue0 rs)).

(** Modelled from the spec: the warnings of the missing detector over the
    same reps, one list per appended rep. *)
Definition warnings_of (rs : list RepRecord) : list (list FatigueWarning) :=
  snd (feed [] fatigue0 rs).

End Detector.

(** Modelled from the spec: a RepRecord with a given [avgVelocity], for
    the examples of section 8. *)
Definition rep_with (n : Z) (v : Q) : RepRecord := mkRepRecord n v v 1.

End Engine.

(** ** The engine loop and its command interface

    [velocity_processor.py] and [session_manager.py] are not part of the
    sources at hand; what follows is written from the specification
    (sections 3, 4.3, 4.4, 6 and 7).  The [frame] of every tick and the
    fan-out to subscribers are left out: the loop is modelled by the
    events it publishes beside the frames. *)
Module Loop.
Import Engine.

Local Open Scope Q_scope.

(** Modelled from the spec: [SetSession] of section 3, "{ exerciseName,
    weight, unit, startedAt, endedAt?, reps: ordered sequence of
    RepRecord }", owned by the missing [session_manager.py]. *)
Record SetSession := mkSetSession {
  exerciseName : string;
  weight : Q;
  unit_ : string;
  startedAt : Q;
  endedAt : option Q;
  reps : list RepRecord
}.

(** Modelled from the spec: the commands of sections 4.4 and 6 that the
    missing [velocity_processor.py] accepts: "start_set(exercise, weight,
    unit)", "end_set() (implicit via timeout or explicit command)",
    "start_workout(name, date) / end_workout()", "reset()" and
    "recalibrate()". *)
Inductive Command :=
| start_set (exercise : string) (load : Q) (unit_name : string)
| end_set
| start_workout (name date : string)
| end_workout
| reset
| recalibrate.

(** Modelled from the spec: the "specific reason" of section 7 with which
    the missing command interpreter rejects a command; section 4.4 names
    one ground, "Rejected if exercise is empty". *)
Inductive Reason := exercise_is_empty.

(** Modelled from the spec: what the missing loop publishes beside the
    frames.  Section 6: "rep_completed ... published only on rep
    completion", "fatigue_warning ... published only on alert state
    transition", "on SetSession finalization, the engine emits the full
    SetSession value"; section 7: an invalid command is "rejected
    synchronously with a specific reason". *)
Inductive Event :=
| rep_completed (r : RepRecord)
| fatigue_warning (w : FatigueWarning)
| finalized (s : SetSession)
| rejected (c : Command) (why : Reason).

(** Modelled from the spec: the state the missing engine loop owns, "the
    sole writer" of Rep Tracker, Fatigue Detector and SetSession (section
    5); [active] is the one SetSession that "may be active at a time",
    [workout] the bookkeeping of [start_workout]. *)
Record State := mkState {
  tracker : Tracker;
  fatigue : FatigueState;
  active : option SetSession;
  workout : option (string * string)
}.

(** Modelled from the spec: the missing engine before any command,
    "NoActiveSet". *)
Definition init : State := mkState tracker0 fatigue0 None None.

(** Modelled from the spec: finalization by the missing session manager,
    "finalizes the active SetSession (endedAt set)"; nothing else of the
    session is touched. *)
Definition finalize (now : Q) (s : SetSession) : SetSession :=
  mkSetSession (exerciseName s) (weight s) (unit_ s) (startedAt s)
               (Some now) (reps s).

(** Modelled from the spec: the rep list of a session replaced, for the
    missing session manager. *)
Definition with_reps (rs : list RepRecord) (s : SetSession) : SetSession :=
  mkSetSession (exerciseName s) (weight s) (unit_ s) (startedAt s)
               (endedAt s) rs.

(** Modelled from the spec: "resets Rep Tracker cycle state" of
    [start_set]: the missing tracker is at rest from now on, nothing
    pending, no cycle in progress, no rep counted; the sample window and
    the last timestamp belong to the sample stream and stay. *)
Definition reset_cycle (now : Q) (t : Tracker) : Tracker :=
  mkTracker Idle now None [] [] (window t) (lastTimestamp t) 0%Z.

(** Modelled from the spec: "clears rep count" of [reset()] on the missing
    tracker; the cycle in progress is not mentioned and stays. *)
Definition clear_repCount (t : Tracker) : Tracker :=
  mkTracker (phase t) (phaseEnteredAt t) (pending t) (cycle t)
            (cycleSamples t) (window t) (lastTimestamp t) 0%Z.

Section Interpreter.

Variable cfg : Config.
Variable materially_changed : Q -> Q -> bool.

(** Modelled from the spec: what the missing loop does with a RepRecord
    the tracker produced (section 4.3): "append to active SetSession and
    feed Fatigue Detector ... additionally publish a rep-completed event
    ... if a fatigue transition occurred, additionally publish a
    fatigue-warning event".  Without an active SetSession there is
    nothing to append to and the detector, whose baseline is "of the
    active SetSession", is not fed. *)
Definition append_rep (r : RepRecord) (e : State) : State * list Event :=
  match active e with
  | Some ss =>
      let ss := with_reps (reps ss ++ [r]) ss in
      let '(fs, ws) := on_rep materially_changed (reps ss) (fatigue e) in
      (mkState (tracker e) fs (Some ss) (workout e),
       rep_completed r :: map fatigue_warning ws)
  | None => (e, [rep_completed r])
  end.

(** Modelled from the spec: the RepRecords of one tick through
    [append_rep], in the order the missing tracker produced them. *)
Fixpoint append_all (rs : list RepRecord) (e : State) : State * list Event :=
  match rs with
  | [] => (e, [])
  | r :: rest =>
      let '(e1, o1) := append_rep r e in
      let '(e2, o2) := append_all rest e1 in
      (e2, o1 ++ o2)
  end.

(** Modelled from the spec: one tick of the missing loop on the latest
    sample (section 4.3): "feed Rep Tracker -> if a RepRecord was
    produced, append to active SetSession and feed Fatigue Detector",
    then the set-level timeout of section 4.1, "if the tracker remains in
    Idle for setTimeout seconds with no renewed motion, the Engine Loop
    is notified to auto-end the active SetSession", which finalizes it as
    [end_set] does. *)
Definition tick (s : Sample) (e : State) : State * list Event :=
  let '(t, out) := step cfg (tracker e) s in
  let '(e, evs) :=
    append_all (Engine.reps out)
               (mkState t (fatigue e) (active e) (workout e)) in
  match active e with
  | Some ss =>
      if (Phase_eqb (phase t) Idle
          && Qle_bool (setTimeout cfg) (timestamp s - phaseEnteredAt t))%bool
      then (mkState (tracker e) (fatigue e) None (workout e),
            evs ++ [finalized (finalize (timestamp s) ss)])
      else (e, evs)
  | None => (e, evs)
  end.

(** Modelled from the spec: the missing command interpreter, one command
    at clock reading [now] (section 4.4).  [start_set]: "ends any
    currently active SetSession (discarding no data already appended to
    it - it is finalized, not dropped), creates a new SetSession, resets
    Rep Tracker cycle state and Fatigue Detector baseline. Rejected if
    exercise is empty", and an invalid command "does not mutate state".
    [end_set]: "finalizes the active SetSession (endedAt set); no-op if
    none active".  [start_workout] and [end_workout]: "purely
    bookkeeping".  [reset]: "clears rep count and fatigue state for the
    active SetSession without ending it"; the session's reps go with the
    count, since "reps length equals repCount" (section 3).
    [recalibrate]: "does not affect recorded reps", and the tracker of
    this model holds no drift accumulator. *)
Definition command (now : Q) (c : Command) (e : State) : State * list Event :=
  match c with
  | start_set exercise load unit_name =>
      if String.eqb exercise ""
      then (e, [rejected c exercise_is_empty])
      else
        (mkState (reset_cycle now (tracker e)) fatigue0
                 (Some (mkSetSession exercise load unit_name now None []))
                 (workout e),
         match active e with
         | Some ss => [finalized (finalize now ss)]
         | None => []
         end)
  | end_set =>
      match active e with
      | Some ss =>
          (mkState (tracker e) (fatigue e) None (workout e),
           [finalized (finalize now ss)])
      | None => (e, [])
      end
  | start_workout name date =>
      (mkState (tracker e) (fatigue e) (active e) (Some (name, date)), [])
  | end_workout =>
      (mkState (tracker e) (fatigue e) (active e) None, [])
  | reset =>
      (mkState (clear_repCount (tracker e)) fatigue0
               (option_map (with_reps []) (active e)) (workout e),
       [])
  | recalibrate => (e, [])
  end.

End Interpreter.

(** Modelled from the spec: what reaches the missing loop: the sample of
    a tick, or a command "drained at the start of each tick" with the
    clock reading of that tick (section 5). *)
Inductive Input :=
| Tick (s : Sample)
| Cmd (now : Q) (c : Command).

(** Modelled from the spec: one input through the missing loop. *)
Definition handle (cfg : Config) (materially_changed : Q -> Q -> bool)
    (i : Input) (e : State) : State * list Event :=
  match i with
  | Tick s => tick cfg materially_changed s e
  | Cmd now c => command now c e
  end.

(** Modelled from the spec: the missing loop over a sequence of inputs,
    with everything it publishes. *)
Fixpoint run (cfg : Config) (materially_changed : Q -> Q -> bool)
    (inputs : list Input) (e : State) : State * list Event :=
  match inputs with
  | [] => (e, [])
  | i :: rest =>
      let '(e1, o1) := handle cfg materially_changed i e in
      let '(e2, o2) := run cfg materially_changed rest e1 in
      (e2, o1 ++ o2)
  end.

(** Modelled from the spec: what ties the missing detector to the active
    SetSession, whose baseline is "the mean avgVelocity of the first 3
    RepRecords of the active SetSession": while a set is active the
    detector is in the state the reps the set holds lead to, from a
    detector that has just been reset. *)
Definition detector_follows (materially_changed : Q -> Q -> bool)
    (e : State) : Prop :=
  forall ss, active e = Some ss ->
    fatigue e = fatigue_after materially_changed (reps ss).

(** Modelled from the spec: the invariant of section 3, "reps length
    equals repCount", for the missing loop while a set is active. *)
Definition count_matches (e : State) : Prop :=
  forall ss, active e = Some ss ->
    repCount (tracker e) = Z.of_nat (List.length (reps ss)).

(** Modelled from the spec: the RepRecords among published events, one
    per [rep_completed]. *)
Definition published_reps (evs : list Event) : list RepRecord :=
  flat_map (fun ev => match ev with rep_completed r => [r] | _ => [] end) evs.

(** Modelled from the spec: the sessions handed to the persistence
    collaborator among published events. *)
Definition finalized_sessions (evs : list Event) : list SetSession :=
  flat_map (fun ev => match ev with finalized s => [s] | _ => [] end) evs.

(** Modelled from the spec: the rejections among published events. *)
Definition rejections (evs : list Event) : list (Command * Reason) :=
  flat_map (fun ev => match ev with rejected c why => [(c, why)] | _ => [] end)
           evs.

(** Modelled from the spec: the samples of one rep at 50 Hz for the
    missing tracker, with the phases of section 8: from tick [k], 0.2 s
    at [v] m/s downwards, 0.2 s at [v] m/s upwards, 0.2 s at rest. *)
Definition one_rep (k : nat) (v : Q) : list Input :=
  map Tick (ticks k 10 (- v) ++ ticks (k + 10) 10 v ++ ticks (k + 20) 10 0).

(** Modelled from the spec: a set of three reps at 2 m/s on the missing
    engine, started at the first tick. *)
Definition three_reps : list Input :=
  Cmd 0 (start_set "Squat" 225 "lbs")
  :: one_rep 0 2 ++ one_rep 30 2 ++ one_rep 60 2.

(** Modelled from the spec: the set [three_reps] leaves active on the
    missing engine: three reps, each with a mean speed of 1.2 m/s over
    its cycle, a peak of 2 m/s and a span of 0.4 s. *)
Definition three_reps_set : SetSession :=
  mkSetSession "Squat" 225 "lbs" 0 None
    [mkRepRecord 1 (24 # 20) 2 (1000 # 2500);
     mkRepRecord 2 (24 # 20) 2 (1000 # 2500);
     mkRepRecord 3 (24 # 20) 2 (1000 # 2500)].

(** Modelled from the spec: three more reps at 1 m/s, from 1.8 s on. *)
Definition three_more_reps : list Input :=
  one_rep 90 1 ++ one_rep 120 1 ++ one_rep 150 1.

(** Modelled from the spec: the set [three_reps], then [reset()] at
    1.8 s and the three reps at 1 m/s, without ending the set. *)
Definition reset_then_three_reps : list Input :=
  three_reps ++ Cmd (9 / 5) reset :: three_more_reps.

End Loop.

(** * Properties *)

(** ** [db.js] *)
Section DbFacts.
Import Db.

Lemma find_some_in {A : Type} (f : A -> bool) (l : list A) (x : A) :
  In x l -> f x = true -> exists y, find f l = Some y.
Proof.
  induction l as [|a l IH]; simpl; [contradiction|].
  intros [->|Hin] Hf.
  - rewrite Hf. eauto.
  - destruct (f a); eauto.
Qed.

Lemma find_app_l {A : Type} (f : A -> bool) (l m : list A) (x : A) :
  find f l = Some x -> find f (l ++ m) = Some x.
Proof.
  induction l as [|a l IH]; simpl; [discriminate|].
  destruct (f a); auto.
Qed.

Lemma find_app_r {A : Type} (f : A -> bool) (l m : list A) :
  find f l = None -> find f (l ++ m) = find f m.
Proof.
  induction l as [|a l IH]; simpl; [reflexivity|].
  destruct (f a); [discriminate | auto].
Qed.

(** A workout stored under [date] makes [createWorkout] a read. *)
Lemma createWorkout_existing (d : DB) (date : string) (now : Z) (w : Workout) :
  workouts_first_by_date d date = Some w ->
  createWorkout d date now = (d, w_id w).
Proof. unfold createWorkout. now intros ->. Qed.

(** After [createWorkout] the date is stored, under the id returned. *)
Lemma createWorkout_stores (d : DB) (date : string) (now : Z) :
  exists w,
    workouts_first_by_date (fst (createWorkout d date now)) date = Some w
    /\ w_id w = snd (createWorkout d date now).
Proof.
  unfold createWorkout.
  destruct (workouts_first_by_date d date) as [w|] eqn:E; simpl.
  - eauto.
  - unfold workouts_first_by_date in *; simpl.
    rewrite (find_app_r _ _ _ E); simpl.
    rewrite String.eqb_refl. eauto.
Qed.

(** Two calls in a row on any database: the second finds the row of the
    first. *)
Lemma createWorkout_twice (d : DB) (date : string) (t1 t2 : Z) :
  createWorkout (fst (createWorkout d date t1)) date t2
  = (fst (createWorkout d date t1), snd (createWorkout d date t1)).
Proof.
  destruct (createWorkout_stores d date t1) as [w [Hw Hid]].
  rewrite (createWorkout_existing _ _ _ _ Hw). now rewrite Hid.
Qed.

(** C10. [createWorkout] is idempotent per date: when a workout with the
    date exists, the call returns the id of an existing workout of that
    date and leaves every table and key generator as it was (no row is
    inserted); and on any database a second call in a row returns the id
    of the first call and leaves the database as the first call left
    it. *)
Theorem createWorkout_idempotent (d : DB) (date : string) (t1 t2 : Z) :
  (forall w, In w (workouts d) -> w_date w = date ->
     exists e, In e (workouts d) /\ w_date e = date
               /\ createWorkout d date t1 = (d, w_id e))
  /\ createWorkout (fst (createWorkout d date t1)) date t2
     = (fst (createWorkout d date t1), snd (createWorkout d date t1)).
Proof.
  split; [|apply createWorkout_twice].
  intros w Hin Hdate.
  destruct (find_some_in (fun x => String.eqb (w_date x) date) _ _ Hin)
    as [e He]; [rewrite Hdate; apply String.eqb_refl|].
  exists e. rewrite (createWorkout_existing _ _ _ _ He).
  apply find_some in He as [Hine Heq].
  apply String.eqb_eq in Heq. auto.
Qed.

(** The theorem at a database holding one workout dated 2025-02-04. *)
Lemma createWorkout_idempotent_witness :
  let d := fst (createWorkout empty "2025-02-04" 10) in
  In (mkWorkout 1 "2025-02-04" 10) (workouts d)
  /\ (exists e, In e (workouts d) /\ w_date e = "2025-02-04"
                /\ createWorkout d "2025-02-04" 20 = (d, w_id e))
  /\ createWorkout (fst (createWorkout d "2025-02-04" 20)) "2025-02-04" 30
     = (d, 1).
Proof.
  pose proof (createWorkout_idempotent
                (fst (createWorkout empty "2025-02-04" 10))
                "2025-02-04" 20 30) as [H1 H2].
  assert (Hin : In (mkWorkout 1 "2025-02-04" 10)
                   (workouts (fst (createWorkout empty "2025-02-04" 10))))
    by (simpl; left; reflexivity).
  split; [exact Hin|].
  split; [exact (H1 _ Hin eq_refl) | exact H2].
Defined.

End DbFacts.

(** ** [VelocityView.jsx] *)
Section VelocityViewFacts.
Import VelocityView.

(** *** Numbers *)

Lemma or_else_zero (q : Q) : (Js.or_else q 0 == q)%Q.
Proof.
  unfold Js.or_else, Js.truthy.
  destruct (Qnum q =? 0)%Z eqn:E; simpl; [|reflexivity].
  apply Z.eqb_eq in E. unfold Qeq; simpl. rewrite E. reflexivity.
Qed.

Lemma or_else_truthy (a b : Q) : Js.truthy a = true -> Js.or_else a b = a.
Proof. unfold Js.or_else. now intros ->. Qed.

Lemma Js_max_l (a b : Q) : (a <= Js.max a b)%Q.
Proof.
  unfold Js.max. destruct (Qle_bool a b) eqn:E.
  - now apply Qle_bool_iff.
  - apply Qle_refl.
Qed.

Lemma Js_max_r (a b : Q) : (b <= Js.max a b)%Q.
Proof.
  unfold Js.max. destruct (Qle_bool a b) eqn:E.
  - apply Qle_refl.
  - apply Qlt_le_weak, Qnot_le_lt. intros H.
    apply Qle_bool_iff in H. congruence.
Qed.

(** *** The [rep_completed] handler *)

(** What the handler does to [repDetails]: nothing, or one entry appended
    whose number is the message's and is new. *)
Lemma onmessage_rep_completed_repDetails (s : State) (n : Z) (mx av du : Q) :
  repDetails (onmessage (rep_completed n mx av du) s)
  = if (Js.truthy av
        && negb (existsb (fun r => Db.repNumber r =? n) (repDetails s)))%bool
    then repDetails s
         ++ [Db.mkRepDetail n (av / 1000) (Js.or_else mx av / 1000)
                            (Js.or_else du 0)]
    else repDetails s.
Proof.
  unfold onmessage.
  destruct (Js.truthy mx), (Js.truthy av); simpl; try reflexivity;
    destruct (existsb _ _); reflexivity.
Qed.

(** *** Starting a set *)

(** What [handleStartSet] does on inputs it accepts. *)
Lemma handleStartSet_accepts (r : Render) (w : World) :
  Js.trim (exerciseName (r_state r)) <> "" ->
  weight (r_state r) <> "" ->
  handleStartSet r w
  = let w1 :=
      if ws_open w
      then with_sent
             (sent w ++ [mkCommand "start_set"
                           (Js.trim (exerciseName (r_state r)))
                           (weight (r_state r)) "lbs"]) w
      else w in
    update (setRepDetails [])
      (update (setPeakVelocity 0)
         (update (setLastRep None)
            (update (setRepCount 0) (update (setIsTracking true) w1)))).
Proof.
  intros Hn Hw. unfold handleStartSet.
  destruct (Js.trim (exerciseName (r_state r))); [contradiction|].
  destruct (weight (r_state r)); [contradiction|]. reflexivity.
Qed.

(** A blank exercise name makes [handleStartSet] return at once. *)
Lemma handleStartSet_blank (r : Render) (w : World) :
  Js.trim (exerciseName (r_state r)) = "" -> handleStartSet r w = w.
Proof. intros H. unfold handleStartSet. now rewrite H. Qed.

(** *** Ending a set *)

(** Case analysis along the [try] block: which awaited call rejects, and
    what the reads find. *)
Ltac walk_try :=
  unfold save, log_set, bind, await, defined, modify, read, ret,
         loadSessionHistory;
  repeat match goal with
         | |- context [if ?f ?x then _ else _] =>
             match type of f with Faults => destruct (f x) eqn:? end
         | |- context [match r_date ?r with _ => _ end] =>
             destruct (r_date r) as [[|? ?]|] eqn:?
         | |- context [match Db.getWorkoutByDate ?d ?x with _ => _ end] =>
             destruct (Db.getWorkoutByDate d x) eqn:?
         | |- context [match find ?f ?l with _ => _ end] =>
             destruct (find f l) eqn:?
         end.

(** What the [try] block never touches: the tracking state, the inputs,
    the error, the clock, the socket and the auto-end bookkeeping. *)
Lemma save_frame (r : Render) (fails : Faults) (w : World) :
  let w' := fst (save r fails w) in
  isTracking (st w') = isTracking (st w)
  /\ repDetails (st w') = repDetails (st w)
  /\ repCount (st w') = repCount (st w)
  /\ lastRep (st w') = lastRep (st w)
  /\ peakVelocity (st w') = peakVelocity (st w)
  /\ exerciseName (st w') = exerciseName (st w)
  /\ weight (st w') = weight (st w)
  /\ error (st w') = error (st w)
  /\ autoEndTimer w' = autoEndTimer w
  /\ effectDeps w' = effectDeps w
  /\ fired w' = fired w
  /\ now w' = now w
  /\ date w' = date w
  /\ sent w' = sent w.
Proof. walk_try; simpl; repeat split. Qed.

Lemma sets_createWorkout (d : Db.DB) (date : string) (t : Z) :
  Db.sets (fst (Db.createWorkout d date t)) = Db.sets d.
Proof.
  unfold Db.createWorkout.
  destruct (Db.workouts_first_by_date d date); reflexivity.
Qed.

(** A [try] block that completes has appended exactly one row to [sets],
    holding the reps, their count and the weight of the render; one that
    throws has appended that row or none. *)
Lemma save_sets (r : Render) (fails : Faults) (w : World) :
  match snd (save r fails w) with
  | Some _ =>
      exists row,
        Db.sets (db (fst (save r fails w))) = Db.sets (db w) ++ [row]
        /\ Db.set_repDetails row = Some (repDetails (r_state r))
        /\ Db.set_reps row = actualReps (r_state r)
        /\ Db.set_weight row = weight (r_state r)
  | None =>
      Db.sets (db (fst (save r fails w))) = Db.sets (db w)
      \/ exists row,
           Db.sets (db (fst (save r fails w))) = Db.sets (db w) ++ [row]
  end.
Proof.
  walk_try; simpl; rewrite ?sets_createWorkout; auto.
  all: try (right; eexists; reflexivity).
  all: try (eexists; split; [reflexivity|]; simpl; auto).
Qed.

Lemma app_one_neq {A : Type} (l : list A) (x : A) : l ++ [x] <> l.
Proof.
  intros H. apply (f_equal (@List.length A)) in H.
  rewrite length_app in H. simpl in H. lia.
Qed.

Lemma actualReps_nonempty (s : State) :
  repDetails s <> [] ->
  actualReps s = Z.of_nat (List.length (repDetails s)) /\ actualReps s <> 0.
Proof.
  unfold actualReps. destruct (repDetails s); [contradiction|].
  intros _. simpl. split; [reflexivity|lia].
Qed.

(** [handleEndSet] on a tracked set with reps runs the [try] block. *)
Lemma handleEndSet_saves (r : Render) (fails : Faults) (w : World) :
  isTracking (r_state r) = true ->
  repDetails (r_state r) <> [] ->
  handleEndSet r fails w
  = match save r fails (with_autoEndTimer None w) with
    | (w', None) =>
        update (setError (Some "Failed to log set. Tap to retry.")) w'
    | (w', Some _) =>
        update (setPeakVelocity 0)
          (update (setLastRep None)
             (update (setRepDetails [])
                (update (setRepCount 0) (update (setIsTracking false) w'))))
    end.
Proof.
  intros Ht Hr. unfold handleEndSet. rewrite Ht.
  destruct (actualReps_nonempty _ Hr) as [_ Hn].
  apply Z.eqb_neq in Hn. rewrite Hn. reflexivity.
Qed.

(** The two ways [handleEndSet] ends on a tracked set with reps: the set
    is saved, one row is added and tracking stops; or the notice is raised
    and the component keeps the set. *)
Lemma handleEndSet_outcome (r : Render) (fails : Faults) (w : World) :
  isTracking (r_state r) = true ->
  repDetails (r_state r) <> [] ->
  let w1 := handleEndSet r fails w in
  (isTracking (st w1) = false
   /\ repDetails (st w1) = []
   /\ error (st w1) = error (st w)
   /\ exists row,
        Db.sets (db w1) = Db.sets (db w) ++ [row]
        /\ Db.set_repDetails row = Some (repDetails (r_state r))
        /\ Db.set_reps row = Z.of_nat (List.length (repDetails (r_state r)))
        /\ Db.set_weight row = weight (r_state r))
  \/ (error (st w1) = Some "Failed to log set. Tap to retry."
      /\ isTracking (st w1) = isTracking (st w)
      /\ repDetails (st w1) = repDetails (st w)
      /\ repCount (st w1) = repCount (st w)
      /\ lastRep (st w1) = lastRep (st w)
      /\ peakVelocity (st w1) = peakVelocity (st w)
      /\ exerciseName (st w1) = exerciseName (st w)
      /\ weight (st w1) = weight (st w)
      /\ (Db.sets (db w1) = Db.sets (db w)
          \/ exists row, Db.sets (db w1) = Db.sets (db w) ++ [row])).
Proof.
  intros Ht Hr w1. unfold w1. rewrite (handleEndSet_saves r fails w Ht Hr).
  pose proof (save_frame r fails (with_autoEndTimer None w)) as F.
  pose proof (save_sets r fails (with_autoEndTimer None w)) as S.
  destruct (save r fails (with_autoEndTimer None w)) as [w' [[]|]];
    simpl in F, S;
    destruct F as [F1 [F2 [F3 [F4 [F5 [F6 [F7 [F8 _]]]]]]]].
  - left. simpl. repeat split; auto.
    destruct S as [row [S1 [S2 [S3 S4]]]]. exists row.
    rewrite (proj1 (actualReps_nonempty _ Hr)) in S3. auto.
  - right. simpl. repeat split; auto.
Qed.

(** When [addSet] rejects, whatever else does, no row reaches [sets]. *)
Lemma addSet_rejected_stores_nothing (r : Render) (fails : Faults) (w : World) :
  fails addSet_ = true ->
  Db.sets (db (handleEndSet r fails w)) = Db.sets (db w).
Proof.
  intros Hf. unfold handleEndSet.
  destruct (_ || _)%bool; [reflexivity|].
  assert (H : Db.sets (db (fst (save r fails (with_autoEndTimer None w))))
              = Db.sets (db w) /\ snd (save r fails (with_autoEndTimer None w)) = None).
  { walk_try; simpl; rewrite ?sets_createWorkout; auto; congruence. }
  destruct (save r fails (with_autoEndTimer None w)) as [w' [[]|]];
    simpl in H; destruct H as [H1 H2]; [discriminate | exact H1].
Qed.

(** C6. A failed save is retryable and loses nothing.  Take a tracked set
    with reps and a run of [handleEndSet] (from the End Set button or the
    auto-end timeout, whose render agrees with the component on the rep
    list) after which the [sets] table is as before: persisting the set
    failed.  Then the notice "Failed to log set. Tap to retry." is up, the
    set is still tracked, and [repDetails], the rep count, the last rep,
    the peak and the inputs are unchanged.  A tap on the notice that goes
    through (tracking stops) clears the rep list and leaves the table with
    exactly one row more than before the first attempt, holding these
    reps: the set is stored once. *)
Theorem failed_save_keeps_reps_and_retry_stores_once
    (r : Render) (fails fails' : Faults) (w : World) :
  isTracking (st w) = true ->
  repDetails (st w) <> [] ->
  isTracking (r_state r) = true ->
  repDetails (r_state r) = repDetails (st w) ->
  Db.sets (db (handleEndSet r fails w)) = Db.sets (db w) ->
  let w1 := handleEndSet r fails w in
  error (st w1) = Some "Failed to log set. Tap to retry."
  /\ isTracking (st w1) = true
  /\ repDetails (st w1) = repDetails (st w)
  /\ repCount (st w1) = repCount (st w)
  /\ lastRep (st w1) = lastRep (st w)
  /\ peakVelocity (st w1) = peakVelocity (st w)
  /\ exerciseName (st w1) = exerciseName (st w)
  /\ weight (st w1) = weight (st w)
  /\ (let w2 := retry (render w1) fails' w1 in
      isTracking (st w2) = false ->
      error (st w2) = None
      /\ repDetails (st w2) = []
      /\ exists row,
           Db.sets (db w2) = Db.sets (db w) ++ [row]
           /\ Db.set_repDetails row = Some (repDetails (st w))
           /\ Db.set_reps row = Z.of_nat (List.length (repDetails (st w)))).
Proof.
  intros Hlive Hreps Ht Hr Hsets w1. subst w1.
  assert (Hr' : repDetails (r_state r) <> []) by (rewrite Hr; exact Hreps).
  destruct (handleEndSet_outcome r fails w Ht Hr')
    as [[_ [_ [_ [row [S _]]]]] | [E [T [R [C [L [P [N [W _]]]]]]]]].
  { rewrite S in Hsets. exfalso. exact (app_one_neq _ _ Hsets). }
  set (w1 := handleEndSet r fails w) in *.
  rewrite Hlive in T.
  repeat (split; [assumption|]).
  intros w2 Hstop. unfold w2, retry in *.
  assert (Ht1 : isTracking (r_state (render w1)) = true) by exact T.
  assert (Hr1 : repDetails (r_state (render w1)) <> [])
    by (simpl; rewrite R; exact Hreps).
  destruct (handleEndSet_outcome (render w1) fails'
              (update (setError None) w1) Ht1 Hr1)
    as [[_ [R2 [E2 [row [S2 [D2 [N2 _]]]]]]] | [_ [T2 _]]].
  - split; [exact E2|]. split; [exact R2|].
    exists row. simpl in S2, D2, N2.
    rewrite S2, D2, N2, R, Hsets. auto.
  - simpl in T2. rewrite T in T2. rewrite T2 in Hstop. discriminate.
Qed.

(** The theorem in [tracking_one_rep], with [addSet] rejecting on the first
    attempt and nothing rejecting on the retry: the one row stored holds
    the one rep. *)
Lemma failed_save_keeps_reps_and_retry_stores_once_witness :
  isTracking (st tracking_one_rep) = true
  /\ repDetails (st tracking_one_rep) <> []
  /\ Db.sets (db (handleEndSet (render tracking_one_rep) (fault_at addSet_)
                               tracking_one_rep))
     = Db.sets (db tracking_one_rep)
  /\ error (st (handleEndSet (render tracking_one_rep) (fault_at addSet_)
                             tracking_one_rep))
     = Some "Failed to log set. Tap to retry."
  /\ repDetails (st (handleEndSet (render tracking_one_rep) (fault_at addSet_)
                                  tracking_one_rep))
     = repDetails (st tracking_one_rep)
  /\ exists row,
       Db.sets (db (retry (render (handleEndSet (render tracking_one_rep)
                                                (fault_at addSet_)
                                                tracking_one_rep))
                          no_fault
                          (handleEndSet (render tracking_one_rep)
                                        (fault_at addSet_) tracking_one_rep)))
       = Db.sets (db tracking_one_rep) ++ [row]
       /\ Db.set_repDetails row = Some (repDetails (st tracking_one_rep)).
Proof.
  assert (H1 : isTracking (st tracking_one_rep) = true)
    by (vm_compute; reflexivity).
  assert (H2 : repDetails (st tracking_one_rep) <> [])
    by (vm_compute; discriminate).
  assert (H3 : isTracking (r_state (render tracking_one_rep)) = true)
    by (vm_compute; reflexivity).
  assert (H4 : repDetails (r_state (render tracking_one_rep))
               = repDetails (st tracking_one_rep))
    by (vm_compute; reflexivity).
  assert (H5 : Db.sets (db (handleEndSet (render tracking_one_rep)
                                         (fault_at addSet_) tracking_one_rep))
               = Db.sets (db tracking_one_rep))
    by (vm_compute; reflexivity).
  destruct (failed_save_keeps_reps_and_retry_stores_once
              (render tracking_one_rep) (fault_at addSet_) no_fault
              tracking_one_rep H1 H2 H3 H4 H5)
    as [E [_ [R [_ [_ [_ [_ [_ Hretry]]]]]]]].
  split; [exact H1|]. split; [exact H2|]. split; [exact H5|].
  split; [exact E|]. split; [exact R|].
  assert (Hstop : isTracking
                    (st (retry (render (handleEndSet (render tracking_one_rep)
                                                     (fault_at addSet_)
                                                     tracking_one_rep))
                               no_fault
                               (handleEndSet (render tracking_one_rep)
                                             (fault_at addSet_)
                                             tracking_one_rep)))
                  = false) by (vm_compute; reflexivity).
  destruct (Hretry Hstop) as [_ [_ [row [S [D _]]]]].
  exists row. split; [exact S | exact D].
Defined.

(** The [try] block also covers the reads that refresh the view after
    [addSet].  When one of them rejects, the row is already stored, the
    same notice is raised, and a tap on it stores the set a second time:
    here [loadSessionHistory] rejects once. *)
Lemma failure_after_addSet_stores_twice :
  error (st (handleEndSet (render tracking_one_rep)
                          (fault_at loadSessionHistory_) tracking_one_rep))
  = Some "Failed to log set. Tap to retry."
  /\ map Db.set_repDetails
         (Db.sets (db (handleEndSet (render tracking_one_rep)
                                    (fault_at loadSessionHistory_)
                                    tracking_one_rep)))
     = [Some (repDetails (st tracking_one_rep))]
  /\ map Db.set_repDetails
         (Db.sets (db (retry (render (handleEndSet (render tracking_one_rep)
                                                   (fault_at loadSessionHistory_)
                                                   tracking_one_rep))
                             no_fault
                             (handleEndSet (render tracking_one_rep)
                                           (fault_at loadSessionHistory_)
                                           tracking_one_rep))))
     = [Some (repDetails (st tracking_one_rep));
        Some (repDetails (st tracking_one_rep))].
Proof. split; [|split]; vm_compute; reflexivity. Qed.

(** *** The auto-end effect and what every world satisfies *)

Lemma deps_unchanged_true (w : World) :
  deps_unchanged w = true <-> effectDeps w = deps w.
Proof.
  unfold deps_unchanged, deps. destruct (effectDeps w) as [n b]; simpl.
  rewrite andb_true_iff, Nat.eqb_eq, Bool.eqb_true_iff.
  split; [intros [-> ->]; reflexivity | intros H; inversion H; auto].
Qed.

(** The effect leaves the component alone; it records the dependencies
    and, when they have changed, replaces the pending timeout. *)
Lemma auto_end_effect_spec (w : World) :
  st (auto_end_effect w) = st w
  /\ db (auto_end_effect w) = db w
  /\ now (auto_end_effect w) = now w
  /\ fired (auto_end_effect w) = fired w
  /\ sent (auto_end_effect w) = sent w
  /\ effectDeps (auto_end_effect w) = deps w
  /\ autoEndTimer (auto_end_effect w)
     = if deps_unchanged w then autoEndTimer w
       else if (isTracking (st w)
                && negb (Nat.eqb (List.length (repDetails (st w))) 0))%bool
            then Some (mkTimer (now w + AUTO_END_DELAY) (render w))
            else None.
Proof.
  unfold auto_end_effect.
  destruct (deps_unchanged w) eqn:E.
  - apply deps_unchanged_true in E. repeat split; auto.
  - simpl. destruct (isTracking (st w)); simpl;
      [destruct (Nat.eqb _ 0)|]; simpl; repeat split.
Qed.

Lemma handled_refl (w : World) : handled w w.
Proof. unfold handled; auto. Qed.

Lemma NoDup_handled (w w' : World) :
  NoDup (numbers w) -> handled w w' -> NoDup (numbers w').
Proof.
  intros N [[H | [H | [e [H F]]]] _]; unfold numbers in *; rewrite H.
  - exact N.
  - constructor.
  - rewrite map_app. simpl.
    apply NoDup_app; [exact N | repeat constructor; intros [] |].
    intros x Hx [<- | []]. exact (F Hx).
Qed.

(** The effect after a handler re-establishes the invariant. *)
Lemma Inv_effect (w w' : World) :
  Inv w -> handled w w' -> Inv (auto_end_effect w').
Proof.
  intros [N [D T]] H. pose proof (NoDup_handled _ _ N H) as N'.
  destruct H as [_ [HD HT]].
  destruct (auto_end_effect_spec w') as [S [_ [_ [_ [_ [E A]]]]]].
  unfold Inv, numbers, deps in *. rewrite S. split; [exact N'|].
  split; [exact E|].
  intros tm Htm. rewrite A in Htm. rewrite E.
  destruct (deps_unchanged w') eqn:U.
  - apply deps_unchanged_true in U. unfold deps in U. rewrite <- U, HD.
    destruct HT as [HT | HT]; rewrite HT in Htm; [|discriminate].
    exact (T tm Htm).
  - destruct (isTracking (st w')) eqn:Tr; simpl in Htm; [|discriminate].
    destruct (repDetails (st w')) eqn:R; simpl in Htm; [discriminate|].
    inversion Htm; subst tm; simpl. rewrite Tr, R.
    repeat split. discriminate.
Qed.

(** Changes to cells the effect does not depend on keep the invariant. *)
Lemma Inv_same (w w' : World) :
  Inv w ->
  repDetails (st w') = repDetails (st w) ->
  isTracking (st w') = isTracking (st w) ->
  effectDeps w' = effectDeps w ->
  autoEndTimer w' = autoEndTimer w ->
  Inv w'.
Proof.
  unfold Inv, numbers, deps. intros [N [D T]] R I E A.
  rewrite R, I, E, A. auto.
Qed.

(** A handler run after changes that the effect does not see. *)
Lemma handled_after (w w1 w2 : World) :
  repDetails (st w1) = repDetails (st w) ->
  effectDeps w1 = effectDeps w ->
  autoEndTimer w1 = autoEndTimer w \/ autoEndTimer w1 = None ->
  handled w1 w2 -> handled w w2.
Proof.
  unfold handled, numbers. intros R E A [HR [HE HA]].
  rewrite R in HR. rewrite E in HE. split; [exact HR|]. split; [exact HE|].
  destruct HA as [HA|HA]; [rewrite HA; exact A | right; exact HA].
Qed.

Lemma onmessage_isTracking (m : Message) (s : State) :
  isTracking (onmessage m s) = isTracking s.
Proof.
  destruct m as [hv ph rc | n mx av du |]; simpl; try reflexivity.
  destruct (Js.truthy mx), (Js.truthy av); reflexivity.
Qed.

Lemma onmessage_frame_repDetails (hv : Q) (ph : string) (rc : Z) (s : State) :
  repDetails (onmessage (frame hv ph rc) s) = repDetails s.
Proof. reflexivity. Qed.

Lemma existsb_number (n : Z) (l : list Db.RepDetail) :
  existsb (fun r => Db.repNumber r =? n) l = true
  <-> In n (map Db.repNumber l).
Proof.
  rewrite existsb_exists, in_map_iff.
  split; intros [x [H1 H2]]; exists x.
  - apply Z.eqb_eq in H2. auto.
  - split; [exact H2 | apply Z.eqb_eq; exact H1].
Qed.

Lemma onmessage_handled (m : Message) (w : World) :
  handled w (update (onmessage m) w).
Proof.
  unfold handled. split; [|split; [reflexivity | left; reflexivity]].
  destruct m as [hv ph rc | n mx av du |]; [left; reflexivity | | left; reflexivity].
  cbn [st update with_st]. rewrite onmessage_rep_completed_repDetails.
  destruct (Js.truthy av); simpl; [|left; reflexivity].
  destruct (existsb _ _) eqn:E; simpl; [left; reflexivity|].
  right; right. eexists; split; [reflexivity|]. simpl.
  intros H. apply existsb_number in H. unfold numbers in H.
  congruence.
Qed.

Lemma handleStartSet_handled (r : Render) (w : World) :
  handled w (handleStartSet r w).
Proof.
  unfold handleStartSet.
  destruct (_ || _)%bool; [apply handled_refl|].
  unfold handled. split; [right; left; destruct (ws_open w); reflexivity|].
  destruct (ws_open w); split; auto.
Qed.

(** [handleEndSet] keeps the rep list or empties it, and leaves no timeout
    pending. *)
Lemma handleEndSet_handled (r : Render) (fails : Faults) (w : World) :
  handled w (handleEndSet r fails w)
  /\ autoEndTimer (handleEndSet r fails w) = None
  /\ fired (handleEndSet r fails w) = fired w
  /\ now (handleEndSet r fails w) = now w
  /\ (isTracking (st (handleEndSet r fails w)) = isTracking (st w)
      \/ isTracking (st (handleEndSet r fails w)) = false).
Proof.
  unfold handleEndSet.
  destruct (_ || _)%bool.
  - unfold handled; simpl. repeat split; auto.
  - pose proof (save_frame r fails (with_autoEndTimer None w)) as F.
    destruct (save r fails (with_autoEndTimer None w)) as [w' [[]|]];
      simpl in F;
      destruct F as [F1 [F2 [_ [_ [_ [_ [_ [_ [F9 [F10 [F11 [F12 _]]]]]]]]]]]];
      unfold handled; simpl; rewrite ?F2, ?F9, ?F10, ?F11, ?F12, ?F1;
      repeat split; auto.
Qed.

Lemma fire_banners_spec (t : Z) (w : World) :
  repDetails (st (fire_banners t w)) = repDetails (st w)
  /\ isTracking (st (fire_banners t w)) = isTracking (st w)
  /\ effectDeps (fire_banners t w) = effectDeps w
  /\ autoEndTimer (fire_banners t w) = autoEndTimer w
  /\ fired (fire_banners t w) = fired w
  /\ now (fire_banners t w) = now w.
Proof.
  unfold fire_banners. destruct (filter _ (bannerTimers w)); simpl; auto 10.
Qed.

Lemma loadSessionHistory_spec (r : Render) (fails : Faults) (w w' : World) :
  loadSessionHistory r fails w = Some w' ->
  repDetails (st w') = repDetails (st w)
  /\ isTracking (st w') = isTracking (st w)
  /\ effectDeps w' = effectDeps w
  /\ autoEndTimer w' = autoEndTimer w
  /\ fired w' = fired w.
Proof.
  unfold loadSessionHistory.
  destruct (r_date r) as [[|c d]|]; [| destruct (fails _); [discriminate|];
    destruct (Db.getWorkoutByDate _ _) |];
    intros H; inversion H; subst; simpl; auto.
Qed.

Lemma advance_due (t : Z) (fails : Faults) (w : World) (tm : Timer) :
  autoEndTimer w = Some tm -> deadline tm <= t ->
  advance t fails w = fire_banners t (with_now t (after_timeout tm fails w)).
Proof.
  intros H L. unfold advance, after_timeout. rewrite H.
  apply Z.leb_le in L. rewrite L. reflexivity.
Qed.

Lemma advance_not_due (t : Z) (fails : Faults) (w : World) :
  match autoEndTimer w with
  | Some tm => t < deadline tm
  | None => True
  end ->
  advance t fails w = fire_banners t (with_now t w).
Proof.
  unfold advance. destruct (autoEndTimer w) as [tm|]; [|reflexivity].
  intros L. apply Z.leb_gt in L. rewrite L. reflexivity.
Qed.

Lemma callback_handled (tm : Timer) (fails : Faults) (w : World) :
  handled w
    (auto_end_callback (closure tm) fails
       (with_autoEndTimer None
          (fire_banners (deadline tm) (with_now (deadline tm) w)))).
Proof.
  destruct (fire_banners_spec (deadline tm) (with_now (deadline tm) w))
    as [R [_ [E [A _]]]].
  unfold auto_end_callback. destruct (_ && _)%bool.
  - eapply handled_after;
      [| | | apply (proj1 (handleEndSet_handled _ _ _))]; simpl; auto.
  - unfold handled. simpl. rewrite R, E. auto.
Qed.

Lemma Inv_after_timeout (tm : Timer) (fails : Faults) (w : World) :
  Inv w -> Inv (after_timeout tm fails w).
Proof.
  intros I. unfold after_timeout.
  exact (Inv_effect _ _ I (callback_handled tm fails w)).
Qed.

Lemma Inv_banners (t : Z) (w : World) :
  Inv w -> Inv (fire_banners t (with_now t w)).
Proof.
  intros I. destruct (fire_banners_spec t (with_now t w))
    as [R [T [E [A _]]]].
  exact (Inv_same _ _ I R T E A).
Qed.

Lemma Inv_advance (t : Z) (fails : Faults) (w : World) :
  Inv w -> Inv (advance t fails w).
Proof.
  intros I. destruct (autoEndTimer w) as [tm|] eqn:A.
  - destruct (Z_le_gt_dec (deadline tm) t) as [L|G].
    + rewrite (advance_due t fails w tm A L).
      apply Inv_banners, Inv_after_timeout, I.
    + rewrite advance_not_due; [apply Inv_banners, I|].
      rewrite A. lia.
  - rewrite advance_not_due; [apply Inv_banners, I|]. now rewrite A.
Qed.

(** Every event keeps the invariant. *)
Lemma Inv_handle (e : Event) (w : World) : Inv w -> Inv (handle e w).
Proof.
  intros I. destruct e as [m | | | v | v | d | | fails | fails | dt fails];
    simpl handle.
  - exact (Inv_effect _ _ I (onmessage_handled m w)).
  - exact (Inv_same _ _ I eq_refl eq_refl eq_refl eq_refl).
  - exact (Inv_same _ _ I eq_refl eq_refl eq_refl eq_refl).
  - destruct (isTracking (st w)); [exact I|].
    exact (Inv_same _ _ I eq_refl eq_refl eq_refl eq_refl).
  - destruct (isTracking (st w)); [exact I|].
    exact (Inv_same _ _ I eq_refl eq_refl eq_refl eq_refl).
  - destruct (loadSessionHistory _ _ _) as [w'|] eqn:L.
    + destruct (loadSessionHistory_spec _ _ _ _ L) as [R [T [E [A _]]]].
      exact (Inv_same _ _ I R T E A).
    + exact (Inv_same _ _ I eq_refl eq_refl eq_refl eq_refl).
  - destruct (_ && _)%bool; [|exact I].
    exact (Inv_effect _ _ I (handleStartSet_handled _ w)).
  - destruct (isTracking (st w)); [|exact I].
    exact (Inv_effect _ _ I (proj1 (handleEndSet_handled _ _ w))).
  - destruct (error (st w)); [|exact I].
    apply (Inv_effect _ _ I). unfold retry.
    eapply handled_after;
      [| | | apply (proj1 (handleEndSet_handled _ _ _))]; simpl; auto.
  - apply Inv_advance, I.
Qed.

Lemma Inv_mount (d : Db.DB) (date0 : option string) (t0 : Z) :
  Inv (mount d date0 t0).
Proof.
  unfold mount.
  assert (I : Inv (update (setAllNames (Db.getAllExerciseNames d))
                     (mkWorld initial date0 d t0 false [] None []
                              (0%nat, false) [] 0%nat))).
  { unfold Inv, numbers, deps; simpl. split; [constructor|].
    split; [reflexivity | discriminate]. }
  destruct (loadSessionHistory _ _ _) as [w'|] eqn:L; [|exact I].
  destruct (loadSessionHistory_spec _ _ _ _ L) as [R [T [E [A _]]]].
  exact (Inv_same _ _ I R T E A).
Qed.

Lemma Inv_run (es : list Event) (w : World) : Inv w -> Inv (run es w).
Proof.
  revert w. induction es as [|e es IH]; intros w I; simpl; [exact I|].
  apply IH, Inv_handle, I.
Qed.

(** C9. The rep list is deduplicated by rep number.  After any sequence
    of events from mount (messages of any kind, clicks, typing, time
    passing, saves that fail or go through) no two entries of
    [repDetails] have the same [repNumber]; and a [rep_completed] message
    whose [rep_number] is already in the list leaves [repDetails] as it
    is. *)
Theorem repDetails_deduplicated (d : Db.DB) (date0 : option string) (t0 : Z)
    (es : list Event) :
  NoDup (map Db.repNumber (repDetails (st (run es (mount d date0 t0)))))
  /\ forall (w : World) (n : Z) (mx av du : Q),
       In n (map Db.repNumber (repDetails (st w))) ->
       repDetails (st (handle (Receive (rep_completed n mx av du)) w))
       = repDetails (st w).
Proof.
  split.
  - exact (proj1 (Inv_run es _ (Inv_mount d date0 t0))).
  - intros w n mx av du H. simpl handle.
    rewrite (proj1 (auto_end_effect_spec _)). cbn [st update with_st].
    rewrite onmessage_rep_completed_repDetails.
    apply existsb_number in H. rewrite H.
    now rewrite andb_false_r.
Qed.

(** The theorem on a second message for rep 1 in [tracking_one_rep], and
    on the run that delivers the message twice. *)
Lemma repDetails_deduplicated_witness :
  In 1 (map Db.repNumber (repDetails (st tracking_one_rep)))
  /\ repDetails (st (handle (Receive (rep_completed 1 1400 1100 2))
                            tracking_one_rep))
     = repDetails (st tracking_one_rep)
  /\ NoDup (map Db.repNumber
              (repDetails
                 (st (run [SocketOpen; TypeExercise "Squat"; TypeWeight "225";
                           ClickStart;
                           Receive (rep_completed 1 1500 1200 2.34);
                           Receive (rep_completed 1 1500 1200 2.34)]
                          (mount Db.empty (Some "2025-02-04") 0))))).
Proof.
  assert (H : In 1 (map Db.repNumber (repDetails (st tracking_one_rep))))
    by (vm_compute; left; reflexivity).
  split; [exact H|]. split.
  - exact (proj2 (repDetails_deduplicated Db.empty None 0 [])
             tracking_one_rep 1 1400%Q 1100%Q 2%Q H).
  - exact (proj1 (repDetails_deduplicated Db.empty (Some "2025-02-04") 0
                    [SocketOpen; TypeExercise "Squat"; TypeWeight "225";
                     ClickStart;
                     Receive (rep_completed 1 1500 1200 2.34);
                     Receive (rep_completed 1 1500 1200 2.34)])).
Defined.

(** *** The auto-end timeout *)

(** With a timeout pending the set is tracked and has reps. *)
Lemma pending_tracks (w : World) (tm : Timer) :
  Inv w -> autoEndTimer w = Some tm ->
  isTracking (st w) = true /\ repDetails (st w) <> [].
Proof.
  intros [_ [D T]] A. destruct (T tm A) as [_ [R E]].
  rewrite D in E. unfold deps in E. inversion E as [[L I]].
  split; [reflexivity|]. intros Z. rewrite Z in L. simpl in L.
  destruct (repDetails (r_state (closure tm))); [contradiction|discriminate].
Qed.

(** No timeout is pending on a set without reps, tracked or not. *)
Lemma no_reps_no_timeout (w : World) :
  Inv w -> repDetails (st w) = [] -> autoEndTimer w = None.
Proof.
  intros I R. destruct (autoEndTimer w) as [tm|] eqn:A; [|reflexivity].
  destruct (pending_tracks w tm I A) as [_ N]. contradiction.
Qed.

(** Without a timeout that is due, time passes and nothing ends. *)
Lemma elapse_idle (dt : Z) (fails : Faults) (w : World) :
  match autoEndTimer w with
  | Some tm => now w + Z.max 0 dt < deadline tm
  | None => True
  end ->
  fired (handle (Elapse dt fails) w) = fired w
  /\ autoEndTimer (handle (Elapse dt fails) w) = autoEndTimer w
  /\ isTracking (st (handle (Elapse dt fails) w)) = isTracking (st w)
  /\ repDetails (st (handle (Elapse dt fails) w)) = repDetails (st w).
Proof.
  intros H. simpl handle. rewrite (advance_not_due _ _ _ H).
  destruct (fire_banners_spec (now w + Z.max 0 dt)
              (with_now (now w + Z.max 0 dt) w)) as [R [T [_ [A [F _]]]]].
  auto.
Qed.

(** [handleEndSet] never extends the rep list. *)
Lemma handleEndSet_reps (r : Render) (fails : Faults) (w : World) :
  repDetails (st (handleEndSet r fails w)) = repDetails (st w)
  \/ repDetails (st (handleEndSet r fails w)) = [].
Proof.
  unfold handleEndSet. destruct (_ || _)%bool; [right; reflexivity|].
  pose proof (save_frame r fails (with_autoEndTimer None w)) as F.
  destruct (save r fails (with_autoEndTimer None w)) as [w' [[]|]];
    simpl in F; [right; reflexivity | left; simpl; apply F].
Qed.

(** The timeout comes due: its callback calls [handleEndSet] once, at the
    deadline, and no timeout is pending after the effect that follows. *)
Lemma after_timeout_spec (tm : Timer) (fails : Faults) (w : World) :
  Inv w -> autoEndTimer w = Some tm ->
  fired (after_timeout tm fails w) = fired w ++ [deadline tm]
  /\ autoEndTimer (after_timeout tm fails w) = None.
Proof.
  intros I A. destruct (pending_tracks w tm I A) as [Tr Rn].
  destruct I as [_ [D T]]. destruct (T tm A) as [Ct [Cr _]].
  assert (Cl : (0 <? List.length (repDetails (r_state (closure tm))))%nat = true)
    by (destruct (repDetails (r_state (closure tm)));
        [contradiction | reflexivity]).
  unfold after_timeout, auto_end_callback. rewrite Ct, Cl.
  simpl andb. cbv iota.
  destruct (fire_banners_spec (deadline tm) (with_now (deadline tm) w))
    as [R [Ti [E [_ [F N]]]]].
  set (w2 := with_fired _ _).
  assert (R2 : repDetails (st w2) = repDetails (st w)) by exact R.
  assert (T2 : isTracking (st w2) = isTracking (st w)) by exact Ti.
  assert (E2 : effectDeps w2 = effectDeps w) by exact E.
  assert (F2 : fired w2 = fired w ++ [deadline tm])
    by (unfold w2; simpl; rewrite F, N; reflexivity).
  destruct (handleEndSet_handled (closure tm) fails w2)
    as [[_ [HE _]] [HA [HF [_ HT]]]].
  pose proof (handleEndSet_reps (closure tm) fails w2) as HR.
  destruct (auto_end_effect_spec (handleEndSet (closure tm) fails w2))
    as [_ [_ [_ [SF [_ [_ SA]]]]]].
  split; [rewrite SF, HF; exact F2|].
  rewrite SA, HA.
  destruct (deps_unchanged _) eqn:U; [reflexivity|].
  destruct HT as [HT|HT]; rewrite HT; [|reflexivity].
  destruct HR as [HR|HR]; rewrite HR; [|now rewrite andb_false_r].
  exfalso. apply Bool.not_true_iff_false in U. apply U.
  apply deps_unchanged_true. unfold deps.
  rewrite HE, E2, D, HR, R2, HT, T2. reflexivity.
Qed.

(** C5, as amended.  In every world reached from mount:
    - a set without reps, tracked or not, has no timeout pending, and no
      amount of time ends it;
    - while a set is tracked, a [rep_completed] message that adds a rep
      replaces whatever timeout is pending by one due [AUTO_END_DELAY] =
      5000 ms after the message; frames, whatever their phase, leave the
      pending timeout as it is;
    - a pending timeout belongs to a tracked set with reps; until its
      deadline nothing ends; once the deadline has passed its callback has
      called [handleEndSet] exactly once, at the deadline, no timeout is
      pending, and no further passing of time calls it again, whether the
      save went through or failed. *)
Theorem auto_end_fires_once (d : Db.DB) (date0 : option string) (t0 : Z)
    (es : list Event) :
  let w := run es (mount d date0 t0) in
  AUTO_END_DELAY = 5000
  /\ (repDetails (st w) = [] ->
      autoEndTimer w = None
      /\ forall dt fails,
           fired (handle (Elapse dt fails) w) = fired w
           /\ isTracking (st (handle (Elapse dt fails) w)) = isTracking (st w))
  /\ (forall n mx av du,
        isTracking (st w) = true -> Js.truthy av = true ->
        ~ In n (map Db.repNumber (repDetails (st w))) ->
        exists tm,
          autoEndTimer (handle (Receive (rep_completed n mx av du)) w) = Some tm
          /\ deadline tm = now w + AUTO_END_DELAY)
  /\ (forall hv ph rc,
        autoEndTimer (handle (Receive (frame hv ph rc)) w) = autoEndTimer w)
  /\ (forall tm, autoEndTimer w = Some tm ->
        isTracking (st w) = true
        /\ repDetails (st w) <> []
        /\ (forall dt fails,
              now w + Z.max 0 dt < deadline tm ->
              fired (handle (Elapse dt fails) w) = fired w
              /\ autoEndTimer (handle (Elapse dt fails) w) = Some tm)
        /\ (forall dt fails,
              deadline tm <= now w + Z.max 0 dt ->
              fired (handle (Elapse dt fails) w) = fired w ++ [deadline tm]
              /\ autoEndTimer (handle (Elapse dt fails) w) = None
              /\ forall dt' fails',
                   fired (handle (Elapse dt' fails')
                                 (handle (Elapse dt fails) w))
                   = fired (handle (Elapse dt fails) w))).
Proof.
  intros w. pose proof (Inv_run es _ (Inv_mount d date0 t0)) as I.
  fold w in I. split; [reflexivity|]. split; [|split; [|split]].
  - intros R. pose proof (no_reps_no_timeout w I R) as A.
    split; [exact A|]. intros dt fails.
    destruct (elapse_idle dt fails w) as [F [_ [T _]]]; [now rewrite A|].
    auto.
  - intros n mx av du Tr Av Nn. simpl handle.
    destruct (auto_end_effect_spec (update (onmessage (rep_completed n mx av du)) w))
      as [_ [_ [_ [_ [_ [_ A]]]]]].
    rewrite A. clear A.
    assert (R : repDetails (st (update (onmessage (rep_completed n mx av du)) w))
                = repDetails (st w)
                    ++ [Db.mkRepDetail n (av / 1000)
                          (Js.or_else mx av / 1000) (Js.or_else du 0)]).
    { cbn [st update with_st]. rewrite onmessage_rep_completed_repDetails.
      rewrite Av. destruct (existsb _ _) eqn:E; [|reflexivity].
      apply existsb_number in E. contradiction. }
    assert (T : isTracking (st (update (onmessage (rep_completed n mx av du)) w))
                = true).
    { cbn [st update with_st]. rewrite onmessage_isTracking. exact Tr. }
    destruct (deps_unchanged _) eqn:U.
    + exfalso. apply deps_unchanged_true in U.
      assert (E : effectDeps (update (onmessage (rep_completed n mx av du)) w)
                  = effectDeps w) by reflexivity.
      rewrite E in U. rewrite (proj1 (proj2 I)) in U.
      unfold deps in U. rewrite R, length_app in U. simpl in U.
      inversion U. lia.
    + rewrite T, R, length_app. simpl.
      replace (Nat.eqb (List.length (repDetails (st w)) + 1) 0) with false
        by (symmetry; apply Nat.eqb_neq; lia).
      simpl. eexists; split; reflexivity.
  - intros hv ph rc. simpl handle.
    destruct (auto_end_effect_spec (update (onmessage (frame hv ph rc)) w))
      as [_ [_ [_ [_ [_ [_ A]]]]]].
    rewrite A.
    replace (deps_unchanged (update (onmessage (frame hv ph rc)) w)) with true;
      [reflexivity|].
    symmetry. apply deps_unchanged_true. exact (proj1 (proj2 I)).
  - intros tm A. destruct (pending_tracks w tm I A) as [Tr Rn].
    split; [exact Tr|]. split; [exact Rn|]. split.
    + intros dt fails L.
      destruct (elapse_idle dt fails w) as [F [A' _]]; [now rewrite A|].
      rewrite A', A. auto.
    + intros dt fails L. simpl handle.
      rewrite (advance_due _ fails w tm A L).
      destruct (after_timeout_spec tm fails w I A) as [F N].
      destruct (fire_banners_spec (now w + Z.max 0 dt)
                  (with_now (now w + Z.max 0 dt) (after_timeout tm fails w)))
        as [_ [_ [_ [BA [BF _]]]]].
      split; [rewrite BF; exact F|].
      split; [rewrite BA; exact N|].
      intros dt' fails'.
      apply elapse_idle. rewrite BA.
      change (autoEndTimer (with_now (now w + Z.max 0 dt)
                                     (after_timeout tm fails w)))
        with (autoEndTimer (after_timeout tm fails w)).
      now rewrite N.
Qed.

Local Abbreviation one_rep :=
  (run [SocketOpen; TypeExercise "Squat"; TypeWeight "225"; ClickStart;
        Receive (rep_completed 1 1500 1200 2.34)]
       (mount Db.empty (Some "2025-02-04") 0)).

(** The theorem on the run that starts a set at time 0 and receives one
    rep: the timeout is due at 5000; after 4999 ms nothing has ended; after
    5000 ms [handleEndSet] has been called once, and a further hour does
    not call it again. *)
Lemma auto_end_fires_once_witness :
  exists tm,
    autoEndTimer one_rep = Some tm
    /\ deadline tm = 5000
    /\ fired (handle (Elapse 4999 no_fault) one_rep) = fired one_rep
    /\ fired (handle (Elapse 5000 no_fault) one_rep)
       = fired one_rep ++ [deadline tm]
    /\ autoEndTimer (handle (Elapse 5000 no_fault) one_rep) = None
    /\ fired (handle (Elapse 3600000 no_fault)
                     (handle (Elapse 5000 no_fault) one_rep))
       = fired (handle (Elapse 5000 no_fault) one_rep).
Proof.
  assert (A : exists tm, autoEndTimer one_rep = Some tm /\ deadline tm = 5000)
    by (vm_compute; eexists; split; reflexivity).
  destruct A as [tm [A Dl]].
  assert (N : now one_rep = 0) by (vm_compute; reflexivity).
  pose proof (auto_end_fires_once Db.empty (Some "2025-02-04") 0
                [SocketOpen; TypeExercise "Squat"; TypeWeight "225";
                 ClickStart; Receive (rep_completed 1 1500 1200 2.34)]) as H.
  cbv zeta in H. destruct H as [_ [_ [_ [_ H]]]].
  destruct (H tm A) as [_ [_ [Before After]]].
  exists tm. split; [exact A|]. split; [exact Dl|].
  split.
  - apply (Before 4999 no_fault). rewrite N, Dl. reflexivity.
  - assert (L : deadline tm <= now one_rep + Z.max 0 5000)
      by (rewrite N, Dl; discriminate).
    destruct (After 5000 no_fault L) as [F [T Again]].
    split; [exact F|]. split; [exact T|].
    exact (Again 3600000 no_fault).
Defined.

Lemma Inv_tracking_no_rep : Inv tracking_no_rep.
Proof.
  unfold tracking_no_rep, ready. apply Inv_handle, Inv_run, Inv_mount.
Qed.

(** C5, counterexample.  In [tracking_no_rep] a set is tracked (Start Set
    was clicked, no rep has arrived).  However long nothing moves, the
    timeout callback never runs and the set stays tracked: this set is
    not auto-finalized after 5 seconds, nor ever. *)
Lemma auto_end_skips_set_without_reps :
  isTracking (st tracking_no_rep) = true
  /\ ~ (exists dt fails,
          isTracking (st (handle (Elapse dt fails) tracking_no_rep)) = false
          \/ fired (handle (Elapse dt fails) tracking_no_rep) <> []).
Proof.
  assert (T : isTracking (st tracking_no_rep) = true)
    by (vm_compute; reflexivity).
  assert (R : repDetails (st tracking_no_rep) = [])
    by (vm_compute; reflexivity).
  assert (F : fired tracking_no_rep = []) by (vm_compute; reflexivity).
  split; [exact T|].
  intros [dt [fails H]].
  pose proof (no_reps_no_timeout _ Inv_tracking_no_rep R) as A.
  destruct (elapse_idle dt fails tracking_no_rep) as [F' [_ [T' _]]];
    [now rewrite A|].
  rewrite F', F, T', T in H. destruct H as [H|H]; [discriminate | now apply H].
Qed.

End VelocityViewFacts.

(** ** The engine *)
Section EngineFacts.
Import Engine.
Local Open Scope Q_scope.

(** *** Rep tracker *)

Lemma changes_app (a b : list Output) : changes (a ++ b) = changes a ++ changes b.
Proof. unfold changes. apply flat_map_app. Qed.

Lemma reps_app (a b : list Output) : reps (a ++ b) = reps a ++ reps b.
Proof. unfold reps. apply flat_map_app. Qed.

(** What accepting a transition reports and leaves behind. *)
Lemma enter_shape (cfg : Config) (p : Phase) (ts : Q) (t : Tracker) :
  let ev := mkPhaseEvent (phase t) (phaseEnteredAt t) ts in
  phase (fst (enter cfg p ts t)) = p
  /\ match p with
     | Idle =>
         cycle (fst (enter cfg p ts t)) = []
         /\ ((complete cfg (cycle t ++ [ev]) = true
              /\ exists r, snd (enter cfg p ts t)
                           = [PhaseChanged ev Idle; RepCompleted r])
             \/ (complete cfg (cycle t ++ [ev]) = false
                 /\ snd (enter cfg p ts t) = [PhaseChanged ev Idle]))
     | _ =>
         cycle (fst (enter cfg p ts t))
         = match phase t with Idle => [] | _ => cycle t ++ [ev] end
         /\ snd (enter cfg p ts t) = [PhaseChanged ev p]
     end.
Proof.
  intros ev. unfold enter. fold ev.
  destruct p.
  - destruct (complete cfg (cycle t ++ [ev])); simpl; eauto 10.
  - destruct (phase t); simpl; auto.
  - destruct (phase t); simpl; auto.
Qed.

Lemma debounce_shape (cfg : Config) (s : Sample) (t : Tracker) :
  quiet t (fst (debounce cfg s t)) (snd (debounce cfg s t))
  \/ entered cfg t (fst (debounce cfg s t)) (snd (debounce cfg s t)).
Proof.
  unfold debounce.
  destruct (candidate cfg (velocity s)) as [p|]; [|left; repeat split].
  destruct (Phase_eqb p (phase t)); [left; repeat split|].
  destruct (pending t) as [[p' since]|]; [|left; repeat split].
  destruct (Phase_eqb p' p); [|left; repeat split].
  destruct (Qle_bool _ _); [|left; repeat split].
  right. exists p, (timestamp s). apply enter_shape.
Qed.

Lemma step_shape (cfg : Config) (t : Tracker) (s : Sample) :
  quiet t (fst (step cfg t s)) (snd (step cfg t s))
  \/ entered cfg t (fst (step cfg t s)) (snd (step cfg t s)).
Proof.
  unfold step.
  destruct (match lastTimestamp t with
            | Some last => Qle_bool (timestamp s) last
            | None => false
            end); [left; repeat split|].
  set (t1 := mkTracker _ _ _ _ _ _ _ _).
  assert (H : quiet t1 (fst (if (stationary cfg (window t1)
                                  && negb (Phase_eqb (phase t1) Idle))%bool
                             then enter cfg Idle (timestamp s) t1
                             else debounce cfg s t1))
                    (snd (if (stationary cfg (window t1)
                              && negb (Phase_eqb (phase t1) Idle))%bool
                          then enter cfg Idle (timestamp s) t1
                          else debounce cfg s t1))
              \/ entered cfg t1
                   (fst (if (stationary cfg (window t1)
                             && negb (Phase_eqb (phase t1) Idle))%bool
                         then enter cfg Idle (timestamp s) t1
                         else debounce cfg s t1))
                   (snd (if (stationary cfg (window t1)
                             && negb (Phase_eqb (phase t1) Idle))%bool
                         then enter cfg Idle (timestamp s) t1
                         else debounce cfg s t1))).
  { destruct (_ && _)%bool; [|apply debounce_shape].
    right. exists Idle, (timestamp s). apply (enter_shape cfg Idle). }
  destruct (if (stationary cfg (window t1)
                && negb (Phase_eqb (phase t1) Idle))%bool
            then enter cfg Idle (timestamp s) t1
            else debounce cfg s t1) as [t2 o].
  simpl in H.
  assert (G : quiet t t2 o \/ entered cfg t t2 o) by exact H.
  clear H. destruct (phase t2) eqn:P2; simpl; auto.
  - destruct G as [[G1 [G2 G3]] | [p [ts G]]]; [left | right].
    + repeat split; simpl; congruence.
    + exists p, ts. simpl. rewrite P2 in G. exact G.
  - destruct G as [[G1 [G2 G3]] | [p [ts G]]]; [left | right].
    + repeat split; simpl; congruence.
    + exists p, ts. simpl. rewrite P2 in G. exact G.
Qed.

(** A rep is reported only by the sample that brings the tracker back to
    Idle with a complete cycle; nothing else reports one. *)
Lemma rep_reported_only_on_completion (cfg : Config) (t : Tracker)
    (s : Sample) (r : RepRecord) :
  In (RepCompleted r) (snd (step cfg t s)) ->
  exists ev,
    snd (step cfg t s) = [PhaseChanged ev Idle; RepCompleted r]
    /\ pe_phase ev = phase t
    /\ complete cfg (cycle t ++ [ev]) = true
    /\ phase (fst (step cfg t s)) = Idle.
Proof.
  intros H.
  destruct (step_shape cfg t s) as [[E _] | [p [ts G]]].
  - rewrite E in H. contradiction.
  - cbv zeta in G. destruct G as [P G]. destruct p.
    + destruct G as [_ [[K [r' E]] | [_ E]]]; rewrite E in H.
      * destruct H as [H | [H | []]]; [discriminate|]. inversion H; subst r'.
        eexists. repeat split; eauto.
      * destruct H as [H | []]. discriminate.
    + destruct G as [_ E]. rewrite E in H. destruct H as [H | []]. discriminate.
    + destruct G as [_ E]. rewrite E in H. destruct H as [H | []]. discriminate.
Qed.

(** Over any sample sequence the reports are a chained history of phase
    changes, and the reps among them are the completed cycles of that
    history. *)
Lemma run_counts_cycles (cfg : Config) (ss : list Sample) (t : Tracker) :
  chained (phase t) (changes (snd (run cfg t ss)))
  /\ List.length (reps (snd (run cfg t ss)))
     = cycles_completed cfg (cycle t) (changes (snd (run cfg t ss))).
Proof.
  revert t. induction ss as [|s ss IH]; intros t; [split; [exact I|reflexivity]|].
  simpl run.
  pose proof (step_shape cfg t s) as H.
  destruct (step cfg t s) as [t1 o1]. simpl in H.
  specialize (IH t1). destruct (run cfg t1 ss) as [t2 o2].
  simpl in IH. destruct IH as [IC IR]. simpl snd.
  rewrite changes_app, reps_app, length_app.
  destruct H as [[-> [P C]] | [p [ts H]]].
  - simpl. rewrite <- P, <- C. auto.
  - cbv zeta in H. destruct H as [P H]. destruct p.
    + destruct H as [C [[K [r ->]] | [K ->]]]; simpl;
        rewrite K, <- P, IR, C; auto.
    + destruct H as [C ->]. simpl. rewrite <- P, IR, C. auto.
    + destruct H as [C ->]. simpl. rewrite <- P, IR, C. auto.
Qed.

Lemma occurred_here (cfg : Config) (p : Phase) (e : PhaseEvent)
    (a b : list PhaseEvent) :
  pe_phase e = p ->
  minPhaseDuration cfg <= exitedAt e - enteredAt e ->
  occurred cfg p (a ++ e :: b) = true.
Proof.
  intros P D. unfold occurred. rewrite existsb_app. simpl.
  rewrite P. apply Qle_bool_iff in D. rewrite D.
  destruct p; simpl; now rewrite orb_true_r.
Qed.

Lemma fresh_not_stale (t : Tracker) (s : Sample) :
  later (lastTimestamp t) s ->
  match lastTimestamp t with
  | Some last => Qle_bool (timestamp s) last
  | None => false
  end = false.
Proof.
  unfold later. destruct (lastTimestamp t) as [l|]; [|reflexivity].
  intros H. destruct (Qle_bool (timestamp s) l) eqn:E; [|reflexivity].
  apply Qle_bool_iff in E. lra.
Qed.

Lemma Phase_eqb_eq (a b : Phase) : Phase_eqb a b = true <-> a = b.
Proof. destruct a, b; simpl; split; congruence. Qed.

Lemma Phase_eqb_neq (a b : Phase) : a <> b -> Phase_eqb a b = false.
Proof. destruct a, b; simpl; congruence. Qed.

Lemma Phase_eqb_refl (a : Phase) : Phase_eqb a a = true.
Proof. destruct a; reflexivity. Qed.

(** a sample whose candidate is the current phase *)
Lemma step_same (cfg : Config) (t : Tracker) (s : Sample) :
  later (lastTimestamp t) s ->
  stationary cfg (push_window cfg (velocity s) (window t)) = false ->
  candidate cfg (velocity s) = Some (phase t) ->
  snd (step cfg t s) = []
  /\ phase (fst (step cfg t s)) = phase t
  /\ phaseEnteredAt (fst (step cfg t s)) = phaseEnteredAt t
  /\ cycle (fst (step cfg t s)) = cycle t
  /\ pending (fst (step cfg t s)) = None
  /\ took cfg t (fst (step cfg t s)) s.
Proof.
  intros F S C. unfold step. rewrite (fresh_not_stale t s F).
  cbn [window phase]. rewrite S. cbn [andb].
  unfold debounce. cbn [phase pending]. rewrite C, Phase_eqb_refl.
  unfold took. destruct (phase t) eqn:P; cbn; rewrite ?P; auto 10.
Qed.

(** a first sample that is a candidate for another phase *)
Lemma step_start (cfg : Config) (t : Tracker) (s : Sample) (q : Phase) :
  later (lastTimestamp t) s ->
  stationary cfg (push_window cfg (velocity s) (window t)) = false ->
  candidate cfg (velocity s) = Some q ->
  q <> phase t ->
  pending t = None ->
  snd (step cfg t s) = []
  /\ phase (fst (step cfg t s)) = phase t
  /\ phaseEnteredAt (fst (step cfg t s)) = phaseEnteredAt t
  /\ cycle (fst (step cfg t s)) = cycle t
  /\ pending (fst (step cfg t s)) = Some (q, timestamp s)
  /\ took cfg t (fst (step cfg t s)) s.
Proof.
  intros F S C N Pd. unfold step. rewrite (fresh_not_stale t s F).
  cbn [window phase]. rewrite S. cbn [andb].
  unfold debounce. cbn [phase pending].
  rewrite C, (Phase_eqb_neq _ _ N), Pd.
  unfold took. destruct (phase t) eqn:P; cbn; rewrite ?P; auto 10.
Qed.

(** a further sample of the candidate, too early *)
Lemma step_wait (cfg : Config) (t : Tracker) (s : Sample) (q : Phase) (t0 : Q) :
  later (lastTimestamp t) s ->
  stationary cfg (push_window cfg (velocity s) (window t)) = false ->
  candidate cfg (velocity s) = Some q ->
  q <> phase t ->
  pending t = Some (q, t0) ->
  timestamp s - t0 < minPhaseDuration cfg ->
  snd (step cfg t s) = []
  /\ phase (fst (step cfg t s)) = phase t
  /\ phaseEnteredAt (fst (step cfg t s)) = phaseEnteredAt t
  /\ cycle (fst (step cfg t s)) = cycle t
  /\ pending (fst (step cfg t s)) = Some (q, t0)
  /\ took cfg t (fst (step cfg t s)) s.
Proof.
  intros F S C N Pd E. unfold step. rewrite (fresh_not_stale t s F).
  cbn [window phase]. rewrite S. cbn [andb].
  unfold debounce. cbn [phase pending].
  rewrite C, (Phase_eqb_neq _ _ N), Pd, Phase_eqb_refl.
  replace (Qle_bool (minPhaseDuration cfg) (timestamp s - t0)) with false.
  2:{ symmetry. destruct (Qle_bool _ _) eqn:B; [|reflexivity].
      apply Qle_bool_iff in B. lra. }
  unfold took. destruct (phase t) eqn:P; cbn; rewrite ?P; auto 10.
Qed.

(** a further sample of the candidate, late enough *)
Lemma step_enter (cfg : Config) (t : Tracker) (s : Sample) (q : Phase) (t0 : Q) :
  later (lastTimestamp t) s ->
  stationary cfg (push_window cfg (velocity s) (window t)) = false ->
  candidate cfg (velocity s) = Some q ->
  q <> phase t ->
  pending t = Some (q, t0) ->
  minPhaseDuration cfg <= timestamp s - t0 ->
  crossed cfg q t (fst (step cfg t s)) (snd (step cfg t s))
  /\ phaseEnteredAt (fst (step cfg t s)) = timestamp s
  /\ took cfg t (fst (step cfg t s)) s.
Proof.
  intros F S C N Pd E. unfold step. rewrite (fresh_not_stale t s F).
  cbn [window phase]. rewrite S. cbn [andb].
  unfold debounce. cbn [phase pending].
  rewrite C, (Phase_eqb_neq _ _ N), Pd, Phase_eqb_refl.
  apply Qle_bool_iff in E. rewrite E.
  unfold took, crossed, enter. cbn [phase phaseEnteredAt cycle].
  destruct q.
  - destruct (complete cfg _) eqn:K; cbn; rewrite ?K; auto 10.
  - destruct (phase t) eqn:P; [|congruence|]; cbn; auto 10.
  - destruct (phase t) eqn:P; [| |congruence]; cbn; auto 10.
Qed.

Lemma enter_took (cfg : Config) (p : Phase) (ts : Q) (t : Tracker) :
  window (fst (enter cfg p ts t)) = window t
  /\ lastTimestamp (fst (enter cfg p ts t)) = lastTimestamp t.
Proof.
  unfold enter. destruct p; [destruct (complete cfg _) | destruct (phase t)
                            | destruct (phase t)]; cbn; auto.
Qed.

Lemma debounce_took (cfg : Config) (s : Sample) (t : Tracker) :
  window (fst (debounce cfg s t)) = window t
  /\ lastTimestamp (fst (debounce cfg s t)) = lastTimestamp t.
Proof.
  unfold debounce.
  destruct (candidate cfg (velocity s)) as [p|]; [|cbn; auto].
  destruct (Phase_eqb p (phase t)); [cbn; auto|].
  destruct (pending t) as [[p' since]|]; [|cbn; auto].
  destruct (Phase_eqb p' p); [|cbn; auto].
  destruct (Qle_bool _ _); [apply enter_took | auto].
Qed.

(** every sample that is not stale enters the window and becomes the last
    one seen *)
Lemma step_took (cfg : Config) (t : Tracker) (s : Sample) :
  later (lastTimestamp t) s -> took cfg t (fst (step cfg t s)) s.
Proof.
  intros F. unfold step. rewrite (fresh_not_stale t s F).
  set (t1 := mkTracker _ _ _ _ _ _ _ _).
  assert (H : window (fst (if (stationary cfg (window t1)
                               && negb (Phase_eqb (phase t1) Idle))%bool
                           then enter cfg Idle (timestamp s) t1
                           else debounce cfg s t1)) = window t1
              /\ lastTimestamp (fst (if (stationary cfg (window t1)
                                         && negb (Phase_eqb (phase t1) Idle))%bool
                                     then enter cfg Idle (timestamp s) t1
                                     else debounce cfg s t1))
                 = lastTimestamp t1).
  { destruct (_ && _)%bool; [apply enter_took | apply debounce_took]. }
  destruct (if (stationary cfg (window t1)
                && negb (Phase_eqb (phase t1) Idle))%bool
            then enter cfg Idle (timestamp s) t1
            else debounce cfg s t1) as [t2 o].
  cbn [fst] in *. unfold took.
  destruct (phase t2); cbn [fst window lastTimestamp]; exact H.
Qed.

Lemma run_took (cfg : Config) (ss : list Sample) (t : Tracker) :
  increasing (lastTimestamp t) ss ->
  window (fst (run cfg t ss)) = window_after cfg (window t) ss
  /\ lastTimestamp (fst (run cfg t ss)) = last_timestamp (lastTimestamp t) ss.
Proof.
  revert t. induction ss as [|s ss IH]; intros t; [split; reflexivity|].
  intros [F I]. cbn [run].
  pose proof (step_took cfg t s F) as [W L].
  destruct (step cfg t s) as [t1 o1]. cbn [fst] in W, L.
  rewrite <- L in I. specialize (IH t1 I).
  destruct (run cfg t1 ss) as [t2 o2]. cbn [fst] in *.
  unfold window_after, last_timestamp in *. cbn [fold_left].
  rewrite <- W, <- L. exact IH.
Qed.

Lemma run_app (cfg : Config) (a b : list Sample) (t : Tracker) :
  run cfg t (a ++ b)
  = (fst (run cfg (fst (run cfg t a)) b),
     snd (run cfg t a) ++ snd (run cfg (fst (run cfg t a)) b)).
Proof.
  revert t. induction a as [|s a IH]; intros t; cbn [run app].
  - cbn. destruct (run cfg t b); reflexivity.
  - destruct (step cfg t s) as [t1 o1]. rewrite IH.
    destruct (run cfg t1 a) as [t2 o2]. cbn [fst snd].
    destruct (run cfg t2 b) as [t3 o3]. cbn [fst snd].
    now rewrite app_assoc.
Qed.

Lemma increasing_app (l : option Q) (a b : list Sample) :
  increasing l (a ++ b)
  <-> increasing l a /\ increasing (last_timestamp l a) b.
Proof.
  revert l. induction a as [|s a IH]; intros l; cbn.
  - tauto.
  - rewrite IH. unfold last_timestamp. tauto.
Qed.

Lemma unsettled_app (cfg : Config) (w : list Q) (a b : list Sample) :
  unsettled cfg w (a ++ b)
  <-> unsettled cfg w a /\ unsettled cfg (window_after cfg w a) b.
Proof.
  revert w. induction a as [|s a IH]; intros w; cbn.
  - tauto.
  - rewrite IH. unfold window_after. tauto.
Qed.

(** samples of the current phase change nothing *)
Lemma run_same (cfg : Config) (seg : list Sample) (t : Tracker) :
  held cfg (phase t) seg ->
  increasing (lastTimestamp t) seg ->
  unsettled cfg (window t) seg ->
  snd (run cfg t seg) = []
  /\ phase (fst (run cfg t seg)) = phase t
  /\ phaseEnteredAt (fst (run cfg t seg)) = phaseEnteredAt t
  /\ cycle (fst (run cfg t seg)) = cycle t
  /\ pending (fst (run cfg t seg))
     = match seg with [] => pending t | _ => None end.
Proof.
  revert t. induction seg as [|s seg IH]; intros t H I U; [cbn; auto|].
  inversion H as [|? ? Hs Hseg]; subst. destruct I as [F I]. destruct U as [S U].
  cbn [run].
  destruct (step_same cfg t s F S Hs) as [O [P [E [C [Pd [W L]]]]]].
  destruct (step cfg t s) as [t1 o1]. cbn [fst snd] in *.
  rewrite <- P in Hseg. rewrite <- L in I. rewrite <- W in U.
  destruct (IH t1 Hseg I U) as [O2 [P2 [E2 [C2 Pd2]]]].
  destruct (run cfg t1 seg) as [t2 o2]. cbn [fst snd] in *.
  subst o1 o2. rewrite P2, E2, C2, Pd2, Pd.
  repeat split; auto. destruct seg; reflexivity.
Qed.

Lemma crossed_pre (cfg : Config) (q : Phase) (t t1 t' : Tracker) (o : list Output) :
  phase t1 = phase t -> phaseEnteredAt t1 = phaseEnteredAt t ->
  cycle t1 = cycle t ->
  crossed cfg q t1 t' o -> crossed cfg q t t' o.
Proof. unfold crossed. intros -> -> ->. auto. Qed.

Lemma crossed_post (cfg : Config) (q : Phase) (t t' t'' : Tracker) (o : list Output) :
  phase t'' = phase t' -> phaseEnteredAt t'' = phaseEnteredAt t' ->
  cycle t'' = cycle t' -> pending t'' = None ->
  crossed cfg q t t' o -> crossed cfg q t t'' (o ++ []).
Proof. unfold crossed. rewrite app_nil_r. intros -> -> -> ->. tauto. Qed.

Lemma last_cons_first {A : Type} (l : list A) (a d : A) :
  last (a :: l) d = last l a.
Proof.
  revert a d. induction l as [|b l IH]; intros a d; [reflexivity|].
  change (last (a :: b :: l) d) with (last (b :: l) d).
  now rewrite !IH.
Qed.

Lemma increasing_last (l : list Sample) (a : Sample) (b : Q) :
  increasing (Some b) l -> b <= timestamp a -> b <= timestamp (last l a).
Proof.
  revert a b. induction l as [|x l IH]; intros a b I Hb; [exact Hb|].
  destruct I as [Lx I]. cbn [later] in Lx.
  rewrite last_cons_first.
  apply (Qle_trans _ (timestamp x)); [lra|].
  apply IH; [exact I | lra].
Qed.

Lemma run_cons (cfg : Config) (s : Sample) (ss : list Sample) (t : Tracker) :
  run cfg t (s :: ss)
  = (fst (run cfg (fst (step cfg t s)) ss),
     snd (step cfg t s) ++ snd (run cfg (fst (step cfg t s)) ss)).
Proof.
  cbn [run]. destruct (step cfg t s) as [t1 o1]. cbn [fst snd].
  destruct (run cfg t1 ss) as [t2 o2]. reflexivity.
Qed.

(** with the candidate pending since [t0], samples of the candidate bring
    the transition at the first of them that is [minPhaseDuration] after
    [t0] *)
Lemma run_pending (cfg : Config) (q : Phase) (t0 : Q) (rest : list Sample)
    (s : Sample) (t : Tracker) :
  q <> phase t ->
  pending t = Some (q, t0) ->
  held cfg q (s :: rest) ->
  increasing (lastTimestamp t) (s :: rest) ->
  unsettled cfg (window t) (s :: rest) ->
  minPhaseDuration cfg <= timestamp (last rest s) - t0 ->
  crossed cfg q t (fst (run cfg t (s :: rest))) (snd (run cfg t (s :: rest)))
  /\ t0 + minPhaseDuration cfg <= phaseEnteredAt (fst (run cfg t (s :: rest)))
  /\ phaseEnteredAt (fst (run cfg t (s :: rest))) <= timestamp (last rest s).
Proof.
  revert s t. induction rest as [|s' rest IH]; intros s t N Pd H I U D;
    inversion H as [|? ? Hs Hrest]; subst;
    destruct I as [F I]; destruct U as [S U]; rewrite run_cons;
    cbn [fst snd].
  - cbn [last] in D |- *. cbn [run fst snd]. rewrite app_nil_r.
    destruct (step_enter cfg t s q t0 F S Hs N Pd D) as [X [E _]].
    rewrite E. split; [exact X|]. split; lra.
  - destruct (Qlt_le_dec (timestamp s - t0) (minPhaseDuration cfg)) as [Early|Late].
    + destruct (step_wait cfg t s q t0 F S Hs N Pd Early)
        as [O [P [E [C [Pd1 [W L]]]]]].
      rewrite O. cbn [app].
      rewrite <- P in N. rewrite <- L in I. rewrite <- W in U.
      rewrite last_cons_first in D |- *.
      destruct (IH s' _ N Pd1 Hrest I U D) as [X B].
      split; [|exact B]. exact (crossed_pre cfg q t _ _ _ P E C X).
    + destruct (step_enter cfg t s q t0 F S Hs N Pd Late) as [X [E [W L]]].
      assert (P1 : phase (fst (step cfg t s)) = q) by apply X.
      rewrite <- P1 in Hrest. rewrite <- L in I. rewrite <- W in U.
      destruct (run_same cfg (s' :: rest) _ Hrest I U) as [O2 [P2 [E2 [C2 Pd2]]]].
      assert (Inc : timestamp s <= timestamp (last (s' :: rest) s))
        by (apply increasing_last; [rewrite <- L; exact I | lra]).
      rewrite O2, E2, E.
      split; [|split; lra].
      exact (crossed_post cfg q t _ _ _ P2 E2 C2 Pd2 X).
Qed.

(** a stretch of samples of another phase, spanning [minPhaseDuration],
    brings the transition to that phase *)
Lemma run_segment (cfg : Config) (q : Phase) (seg : list Sample) (t : Tracker) :
  0 < minPhaseDuration cfg ->
  q <> phase t ->
  pending t = None ->
  held cfg q seg ->
  increasing (lastTimestamp t) seg ->
  unsettled cfg (window t) seg ->
  minPhaseDuration cfg <= span seg ->
  crossed cfg q t (fst (run cfg t seg)) (snd (run cfg t seg))
  /\ match seg with
     | [] => False
     | s :: rest =>
         timestamp s + minPhaseDuration cfg
         <= phaseEnteredAt (fst (run cfg t seg))
         /\ phaseEnteredAt (fst (run cfg t seg)) <= timestamp (last rest s)
     end.
Proof.
  intros Dpos N Pd H I U Sp.
  destruct seg as [|s [|s' rest]];
    [cbn [span last] in Sp; lra | cbn [span last] in Sp; lra |].
  cbn [span] in Sp.
  inversion H as [|? ? Hs Hrest]; subst.
  destruct I as [F I]. destruct U as [S U].
  rewrite run_cons. cbn [fst snd].
  destruct (step_start cfg t s q F S Hs N Pd) as [O [P [E [C [Pd1 [W L]]]]]].
  rewrite O. cbn [app].
  rewrite <- P in N. rewrite <- L in I. rewrite <- W in U.
  rewrite last_cons_first in Sp.
  destruct (run_pending cfg q (timestamp s) rest s' _ N Pd1 Hrest I U Sp)
    as [X [B1 B2]].
  split; [exact (crossed_pre cfg q t _ _ _ P E C X)|].
  rewrite last_cons_first. split; assumption.
Qed.

Lemma last_timestamp_cons (l : option Q) (s : Sample) (rest : list Sample) :
  last_timestamp l (s :: rest) = Some (timestamp (last rest s)).
Proof.
  revert l s. induction rest as [|x rest IH]; intros l s; [reflexivity|].
  rewrite last_cons_first. rewrite <- (IH (Some (timestamp s)) x). reflexivity.
Qed.

(** A rest, the two directions in either order, each held for at least
    [minPhaseDuration], and a rest as long again: the tracker reports the
    two phases in that order, the return to Idle and exactly one rep, as
    long as the stationary detection stays silent. *)
Lemma run_one_cycle (cfg : Config) (idle0 seg1 seg2 idle1 : list Sample)
    (p1 p2 : Phase) :
  0 < minPhaseDuration cfg ->
  (p1 = Descending /\ p2 = Ascending) \/ (p1 = Ascending /\ p2 = Descending) ->
  held cfg Idle idle0 -> held cfg p1 seg1 ->
  held cfg p2 seg2 -> held cfg Idle idle1 ->
  minPhaseDuration cfg <= span seg1 ->
  minPhaseDuration cfg <= span seg2 ->
  minPhaseDuration cfg <= span idle1 ->
  increasing None (idle0 ++ seg1 ++ seg2 ++ idle1) ->
  unsettled cfg [] (idle0 ++ seg1 ++ seg2 ++ idle1) ->
  map snd (changes (snd (run cfg tracker0 (idle0 ++ seg1 ++ seg2 ++ idle1))))
  = [p1; p2; Idle]
  /\ List.length (reps (snd (run cfg tracker0 (idle0 ++ seg1 ++ seg2 ++ idle1))))
     = 1%nat.
Proof.
  intros Dpos Hp H0 H1 H2 H3 S1 S2 S3 I U.
  assert (N1 : p1 <> Idle) by (destruct Hp as [[-> _]|[-> _]]; discriminate).
  assert (N2 : p2 <> p1) by (destruct Hp as [[-> ->]|[-> ->]]; discriminate).
  assert (N3 : Idle <> p2) by (destruct Hp as [[_ ->]|[_ ->]]; discriminate).
  (* rest before the movement *)
  apply increasing_app in I as [I0 I]. apply unsettled_app in U as [U0 U].
  destruct (run_same cfg idle0 tracker0 H0 I0 U0) as [Oa [Pa [_ [Ca Pda]]]].
  destruct (run_took cfg idle0 tracker0 I0) as [Wa La].
  set (ta := fst (run cfg tracker0 idle0)) in *.
  assert (Pda' : pending ta = None) by (rewrite Pda; destruct idle0; reflexivity).
  cbn [phase cycle tracker0] in Pa, Ca.
  cbn [lastTimestamp window tracker0] in La, Wa. rewrite <- La in I. rewrite <- Wa in U.
  (* first direction *)
  apply increasing_app in I as [I1 I]. apply unsettled_app in U as [U1 U].
  rewrite <- Pa in N1.
  destruct (run_segment cfg p1 seg1 ta Dpos N1 Pda' H1 I1 U1 S1) as [X1 B1].
  destruct (run_took cfg seg1 ta I1) as [Wb Lb].
  set (tb := fst (run cfg ta seg1)) in *. set (ob := snd (run cfg ta seg1)) in *.
  rewrite <- Lb in I. rewrite <- Wb in U.
  destruct X1 as [Pb [Pdb [Chb Xb]]]. cbv zeta in Chb.
  assert (Cb : cycle tb = [] /\ reps ob = []).
  { destruct p1; [congruence| |]; rewrite Pa in Xb; exact Xb. }
  destruct Cb as [Cb Rb].
  (* second direction *)
  apply increasing_app in I as [I2 I]. apply unsettled_app in U as [U2 U].
  rewrite <- Pb in N2.
  destruct (run_segment cfg p2 seg2 tb Dpos N2 Pdb H2 I2 U2 S2) as [X2 B2].
  destruct (run_took cfg seg2 tb I2) as [Wc Lc].
  set (tc := fst (run cfg tb seg2)) in *. set (oc := snd (run cfg tb seg2)) in *.
  rewrite <- Lc in I. rewrite <- Wc in U.
  destruct X2 as [Pc [Pdc [Chc Xc]]]. cbv zeta in Chc.
  set (ev1 := mkPhaseEvent (phase tb) (phaseEnteredAt tb) (phaseEnteredAt tc)) in *.
  assert (Cc : cycle tc = [ev1] /\ reps oc = []).
  { cbv zeta in Xc. fold ev1 in Xc. rewrite Cb, Pb in Xc.
    destruct Hp as [[E1 E2]|[E1 E2]]; rewrite E1, E2 in Xc; exact Xc. }
  destruct Cc as [Cc Rc].
  (* back to rest *)
  rewrite <- Pc in N3.
  destruct (run_segment cfg Idle idle1 tc Dpos N3 Pdc H3 I U S3) as [X3 B3].
  set (td := fst (run cfg tc idle1)) in *. set (od := snd (run cfg tc idle1)) in *.
  destruct X3 as [Pd [_ [Chd [_ Rd]]]]. cbv zeta in Chd, Rd.
  set (ev2 := mkPhaseEvent (phase tc) (phaseEnteredAt tc) (phaseEnteredAt td)) in *.
  rewrite Cc in Rd.
  (* both phases lasted long enough *)
  assert (D1 : minPhaseDuration cfg <= exitedAt ev1 - enteredAt ev1).
  { cbn [ev1 exitedAt enteredAt].
    destruct seg1 as [|a1 r1]; [contradiction|]. destruct B1 as [_ B1].
    destruct seg2 as [|a2 r2]; [contradiction|]. destruct B2 as [B2 _].
    rewrite last_timestamp_cons in Lb.
    destruct I2 as [F2 _]. fold tb in Lb. rewrite Lb in F2. cbn [later] in F2.
    fold tb tc in B1, B2. lra. }
  assert (D2 : minPhaseDuration cfg <= exitedAt ev2 - enteredAt ev2).
  { cbn [ev2 exitedAt enteredAt].
    destruct seg2 as [|a2 r2]; [contradiction|]. destruct B2 as [_ B2].
    destruct idle1 as [|a3 r3]; [contradiction|]. destruct B3 as [B3 _].
    rewrite last_timestamp_cons in Lc.
    destruct I as [F3 _]. fold tc in Lc. rewrite Lc in F3. cbn [later] in F3.
    fold tc td in B2, B3. lra. }
  assert (K : complete cfg ([ev1] ++ [ev2]) = true).
  { unfold complete. apply andb_true_intro.
    destruct Hp as [[E1 E2]|[E1 E2]]; split.
    - apply (occurred_here cfg Descending ev1 [] [ev2]); [cbn; congruence | exact D1].
    - apply (occurred_here cfg Ascending ev2 [ev1] []); [cbn; congruence | exact D2].
    - apply (occurred_here cfg Descending ev2 [ev1] []); [cbn; congruence | exact D2].
    - apply (occurred_here cfg Ascending ev1 [] [ev2]); [cbn; congruence | exact D1]. }
  rewrite K in Rd.
  (* assemble *)
  rewrite !run_app. cbn [fst snd]. fold ta tb ob tc oc td od.
  rewrite Oa. cbn [app].
  rewrite !changes_app, !reps_app, !length_app, !map_app.
  rewrite Chb, Chc, Chd, Rb, Rc, Rd. split; reflexivity.
Qed.

(** C1. Rep-cycle detection does not depend on the order of the two
    directions.  For every sample sequence in order of time that rests,
    then moves in one direction and in the other, Descending and Ascending
    in either order, each stretch spanning at least [minPhaseDuration], and
    then rests for as long again, the tracker started at rest goes through
    the two phases in that order and back to Idle and reports exactly one
    rep, as long as the stationary detection stays silent.  Whatever the
    samples, stationary or not, when the tracker goes through exactly three
    phase changes, into Descending and Ascending in either order and back
    to Idle, each of the two moving phases having lasted at least
    [minPhaseDuration], it reports exactly one rep.  In particular the
    sequences rest, 0.2 s down, 0.2 s up, rest and rest, 0.2 s up, 0.2 s
    down, rest at 50 Hz each give exactly one rep under the default
    parameters. *)
Theorem rep_cycle_order_agnostic :
  (forall (cfg : Config) (idle0 seg1 seg2 idle1 : list Sample)
          (p1 p2 : Phase),
      0 < minPhaseDuration cfg ->
      (p1 = Descending /\ p2 = Ascending)
      \/ (p1 = Ascending /\ p2 = Descending) ->
      held cfg Idle idle0 -> held cfg p1 seg1 ->
      held cfg p2 seg2 -> held cfg Idle idle1 ->
      minPhaseDuration cfg <= span seg1 ->
      minPhaseDuration cfg <= span seg2 ->
      minPhaseDuration cfg <= span idle1 ->
      increasing None (idle0 ++ seg1 ++ seg2 ++ idle1) ->
      unsettled cfg [] (idle0 ++ seg1 ++ seg2 ++ idle1) ->
      map snd (changes (snd (run cfg tracker0
                                 (idle0 ++ seg1 ++ seg2 ++ idle1))))
      = [p1; p2; Idle]
      /\ List.length (reps (snd (run cfg tracker0
                                     (idle0 ++ seg1 ++ seg2 ++ idle1))))
         = 1%nat)
  /\ (forall (cfg : Config) (ss : list Sample) (e0 e1 e2 : PhaseEvent)
             (p1 p2 : Phase),
         (p1 = Descending /\ p2 = Ascending)
         \/ (p1 = Ascending /\ p2 = Descending) ->
         changes (snd (run cfg tracker0 ss))
         = [(e0, p1); (e1, p2); (e2, Idle)] ->
         minPhaseDuration cfg <= exitedAt e1 - enteredAt e1 ->
         minPhaseDuration cfg <= exitedAt e2 - enteredAt e2 ->
         List.length (reps (snd (run cfg tracker0 ss))) = 1%nat)
  /\ List.length (reps (snd (run defaults tracker0 down_then_up))) = 1%nat
  /\ List.length (reps (snd (run defaults tracker0 up_then_down))) = 1%nat.
Proof.
  split; [exact run_one_cycle|].
  split; [|split; vm_compute; reflexivity].
  intros cfg ss e0 e1 e2 p1 p2 Hp Hc D1 D2.
  destruct (run_counts_cycles cfg ss tracker0) as [Ch Cy].
  rewrite Cy, Hc. rewrite Hc in Ch. simpl in Ch.
  destruct Ch as [P0 [P1 [P2 _]]].
  assert (K : complete cfg [e1; e2] = true).
  { unfold complete. apply andb_true_intro.
    destruct Hp as [[-> ->] | [-> ->]]; split.
    - exact (occurred_here cfg Descending e1 [] [e2] P1 D1).
    - exact (occurred_here cfg Ascending e2 [e1] [] P2 D2).
    - exact (occurred_here cfg Descending e2 [e1] [] P2 D2).
    - exact (occurred_here cfg Ascending e1 [] [e2] P1 D1). }
  destruct Hp as [[-> ->] | [-> ->]]; simpl; rewrite P0, P1; simpl;
    rewrite K; reflexivity.
Qed.

(** The theorem on the sequence rest, 0.2 s down, 0.2 s up, rest at 50 Hz
    under the default parameters.  Its four stretches are held, long
    enough, in order of time and never still for a full window; and the
    tracker goes Idle, Descending, Ascending, Idle, both moving phases
    lasting long enough. *)
Lemma rep_cycle_order_agnostic_witness :
  (0 < minPhaseDuration defaults
   /\ held defaults Idle (ticks 0 10 0)
   /\ held defaults Descending (ticks 10 10 (-0.5))
   /\ held defaults Ascending (ticks 20 10 0.5)
   /\ held defaults Idle (ticks 30 15 0)
   /\ minPhaseDuration defaults <= span (ticks 10 10 (-0.5))
   /\ minPhaseDuration defaults <= span (ticks 20 10 0.5)
   /\ minPhaseDuration defaults <= span (ticks 30 15 0)
   /\ increasing None down_then_up
   /\ unsettled defaults [] down_then_up
   /\ map snd (changes (snd (run defaults tracker0 down_then_up)))
      = [Descending; Ascending; Idle]
   /\ List.length (reps (snd (run defaults tracker0 down_then_up))) = 1%nat)
  /\ exists e0 e1 e2,
       changes (snd (run defaults tracker0 down_then_up))
       = [(e0, Descending); (e1, Ascending); (e2, Idle)]
       /\ minPhaseDuration defaults <= exitedAt e1 - enteredAt e1
       /\ minPhaseDuration defaults <= exitedAt e2 - enteredAt e2
       /\ List.length (reps (snd (run defaults tracker0 down_then_up)))
          = 1%nat.
Proof.
  split.
  - assert (Dp : 0 < minPhaseDuration defaults) by (vm_compute; reflexivity).
    assert (H0 : held defaults Idle (ticks 0 10 0))
      by (vm_compute; repeat constructor).
    assert (H1 : held defaults Descending (ticks 10 10 (-0.5)))
      by (vm_compute; repeat constructor).
    assert (H2 : held defaults Ascending (ticks 20 10 0.5))
      by (vm_compute; repeat constructor).
    assert (H3 : held defaults Idle (ticks 30 15 0))
      by (vm_compute; repeat constructor).
    assert (S1 : minPhaseDuration defaults <= span (ticks 10 10 (-0.5)))
      by (vm_compute; discriminate).
    assert (S2 : minPhaseDuration defaults <= span (ticks 20 10 0.5))
      by (vm_compute; discriminate).
    assert (S3 : minPhaseDuration defaults <= span (ticks 30 15 0))
      by (vm_compute; discriminate).
    assert (I : increasing None down_then_up)
      by (vm_compute; repeat (split; [reflexivity|]); exact Logic.I).
    assert (U : unsettled defaults [] down_then_up)
      by (vm_compute; repeat (split; [reflexivity|]); exact Logic.I).
    split; [exact Dp|]. split; [exact H0|]. split; [exact H1|].
    split; [exact H2|]. split; [exact H3|]. split; [exact S1|].
    split; [exact S2|]. split; [exact S3|]. split; [exact I|].
    split; [exact U|].
    exact (proj1 rep_cycle_order_agnostic defaults
             (ticks 0 10 0) (ticks 10 10 (-0.5)) (ticks 20 10 0.5)
             (ticks 30 15 0) Descending Ascending Dp
             (or_introl (conj eq_refl eq_refl)) H0 H1 H2 H3 S1 S2 S3 I U).
  - let l := eval vm_compute in
        (changes (snd (run defaults tracker0 down_then_up))) in
    assert (E : changes (snd (run defaults tracker0 down_then_up)) = l)
      by (vm_compute; reflexivity).
    match type of E with
    | _ = [(?a, _); (?b, _); (?c, _)] =>
        exists a, b, c;
        assert (D1 : minPhaseDuration defaults <= exitedAt b - enteredAt b)
          by (vm_compute; discriminate);
        assert (D2 : minPhaseDuration defaults <= exitedAt c - enteredAt c)
          by (vm_compute; discriminate);
        split; [exact E|]; split; [exact D1|]; split; [exact D2|];
        exact (proj1 (proj2 rep_cycle_order_agnostic) defaults down_then_up
                 a b c Descending Ascending
                 (or_introl (conj eq_refl eq_refl)) E D1 D2)
    end.
Defined.

End EngineFacts.

Section DetectorFacts.
Import Engine.
Local Open Scope Q_scope.

Variable materially_changed : Q -> Q -> bool.

Local Abbreviation on_rep := (Engine.on_rep materially_changed).
Local Abbreviation feed := (Engine.feed materially_changed).
Local Abbreviation fatigue_after := (Engine.fatigue_after materially_changed).
Local Abbreviation warnings_of := (Engine.warnings_of materially_changed).

Lemma feed_app (session : list RepRecord) (fs : FatigueState)
    (rs1 rs2 : list RepRecord) :
  feed session fs (rs1 ++ rs2)
  = let '(s1, fs1, w1) := feed session fs rs1 in
    let '(s2, fs2, w2) := feed s1 fs1 rs2 in
    (s2, fs2, w1 ++ w2).
Proof.
  revert session fs. induction rs1 as [|r rs1 IH]; intros session fs; simpl.
  - destruct (feed session fs rs2) as [[s2 fs2] w2]. reflexivity.
  - destruct (on_rep (session ++ [r]) fs) as [fs' ws].
    rewrite IH.
    destruct (feed (session ++ [r]) fs' rs1) as [[s1 fs1] w1].
    destruct (feed s1 fs1 rs2) as [[s2 fs2] w2]. reflexivity.
Qed.

Lemma feed_session (session : list RepRecord) (fs : FatigueState)
    (rs : list RepRecord) :
  fst (fst (feed session fs rs)) = session ++ rs.
Proof.
  revert session fs. induction rs as [|r rs IH]; intros session fs; simpl.
  - now rewrite app_nil_r.
  - destruct (on_rep (session ++ [r]) fs) as [fs' ws].
    specialize (IH (session ++ [r]) fs').
    destruct (feed (session ++ [r]) fs' rs) as [[s1 fs1] w1].
    simpl in *. now rewrite IH, <- app_assoc.
Qed.

(** Appending one more RepRecord runs the detector once, on the session
    with the new record in it. *)
Lemma fatigue_after_snoc (rs : list RepRecord) (r : RepRecord) :
  fatigue_after (rs ++ [r]) = fst (on_rep (rs ++ [r]) (fatigue_after rs))
  /\ warnings_of (rs ++ [r])
     = warnings_of rs ++ [snd (on_rep (rs ++ [r]) (fatigue_after rs))].
Proof.
  unfold Engine.fatigue_after, Engine.warnings_of. rewrite feed_app.
  pose proof (feed_session [] fatigue0 rs) as S.
  destruct (feed [] fatigue0 rs) as [[s1 fs1] w1]. simpl in S. subst s1.
  simpl. destruct (on_rep (rs ++ [r]) fs1) as [fs2 ws]. simpl. auto.
Qed.

Lemma firstn3_snoc {A : Type} (l : list A) (x : A) :
  (3 <= List.length l)%nat -> firstn 3 (l ++ [x]) = firstn 3 l.
Proof.
  intros H. rewrite firstn_app.
  replace (3 - List.length l)%nat with 0%nat by lia.
  simpl. apply app_nil_r.
Qed.

(** The detector after any number of reps: no baseline, no alert and no
    warning below three; from three on, the mean of the first three. *)
Lemma fatigue_after_baseline (rs : list RepRecord) :
  baselineVelocity (fatigue_after rs)
  = (if (List.length rs <? 3)%nat then None
     else Some (mean (firstn 3 (map avgVelocity rs))))
  /\ ((List.length rs < 3)%nat ->
      fatigue_after rs = fatigue0 /\ List.concat (warnings_of rs) = []).
Proof.
  induction rs as [|r rs [IB IA]] using rev_ind; [split; auto|].
  destruct (fatigue_after_snoc rs r) as [-> ->].
  rewrite concat_app, length_app. simpl List.length.
  unfold Engine.on_rep. rewrite length_app. simpl List.length.
  destruct (List.length rs + 1 <? 3)%nat eqn:L3.
  - apply Nat.ltb_lt in L3. simpl.
    destruct IA as [IA1 IA2]; [lia|]. rewrite IA2, IA1. auto.
  - apply Nat.ltb_ge in L3. split; [|intros; lia].
    destruct (List.length rs + 1 =? 3)%nat eqn:E3.
    + apply Nat.eqb_eq in E3. cbn [fst baselineVelocity]. rewrite IB.
      replace (List.length rs <? 3)%nat with true
        by (symmetry; apply Nat.ltb_lt; lia).
      reflexivity.
    + apply Nat.eqb_neq in E3. cbn [fst baselineVelocity]. rewrite IB.
      replace (List.length rs <? 3)%nat with false
        by (symmetry; apply Nat.ltb_ge; lia).
      rewrite map_app. change (map avgVelocity [r]) with [avgVelocity r].
      rewrite firstn3_snoc; [reflexivity|].
      rewrite length_map. lia.
Qed.

Lemma last3_length {A : Type} (l : list A) :
  (3 <= List.length l)%nat ->
  List.length (skipn (List.length l - 3) l) = 3%nat.
Proof. intros H. rewrite length_skipn. lia. Qed.

(** The detector on a rep beyond the third. *)
Lemma on_rep_beyond_third (rs : list RepRecord) (r : RepRecord) :
  (3 <= List.length rs)%nat ->
  on_rep (rs ++ [r]) (fatigue_after rs)
  = let b := mean (firstn 3 (map avgVelocity rs)) in
    let s := mean (last3 (map avgVelocity (rs ++ [r]))) in
    let d := drop_percentage b s in
    (mkFatigueState (Some b) (Qle_bool 11 d) d,
     if (Qle_bool 11 d
         && (negb (alertActive (fatigue_after rs))
             || materially_changed (lastDropPercentage (fatigue_after rs)) d))%bool
     then [mkFatigueWarning d s b] else []).
Proof.
  intros L. unfold Engine.on_rep.
  rewrite length_app. change (List.length [r]) with 1%nat.
  destruct (Nat.ltb_spec (List.length rs + 1) 3) as [H|_]; [lia|].
  destruct (Nat.eqb_spec (List.length rs + 1) 3) as [H|_]; [lia|].
  rewrite (proj1 (fatigue_after_baseline rs)).
  destruct (Nat.ltb_spec (List.length rs) 3) as [H|_]; [lia|].
  reflexivity.
Qed.

(** C3. The drop percentage and the warning.  For every rep [r] after the
    third, with [b] the baseline and [s] the mean [avgVelocity] of the
    last three reps: the drop percentage is [(b - s) / b * 100], or 0
    when that is negative; the alert is active exactly when the drop is at
    least 11; when it is at least 11 and the alert was not active before,
    the rep causes exactly one warning, carrying the drop, [s] and [b];
    when the drop is below 11 it causes none; and it never causes more
    than one.  With the baseline 0.95 of reps 1.00, 0.95, 0.90, a fourth
    rep of 0.55 brings the trailing mean to 0.80 and the drop to 300/19,
    about 15.8: the alert becomes active with exactly one warning. *)
Theorem drop_percentage_and_warning :
  (forall (rs : list RepRecord) (r : RepRecord),
      (3 <= List.length rs)%nat ->
      let b := mean (firstn 3 (map avgVelocity rs)) in
      let s := mean (last3 (map avgVelocity (rs ++ [r]))) in
      let raw := (b - s) / b * 100 in
      let d := lastDropPercentage (fatigue_after (rs ++ [r])) in
      (0 <= raw -> d = raw)
      /\ (raw < 0 -> d = 0)
      /\ (alertActive (fatigue_after (rs ++ [r])) = true <-> 11 <= d)
      /\ exists ws,
           warnings_of (rs ++ [r]) = warnings_of rs ++ [ws]
           /\ (11 <= d -> alertActive (fatigue_after rs) = false ->
               ws = [mkFatigueWarning d s b])
           /\ (~ 11 <= d -> ws = [])
           /\ (List.length ws <= 1)%nat)
  /\ (let rs := [rep_with 1 1.00; rep_with 2 0.95; rep_with 3 0.90] in
      let r := rep_with 4 0.55 in
      mean (firstn 3 (map avgVelocity rs)) == 0.95
      /\ mean (last3 (map avgVelocity (rs ++ [r]))) == 0.80
      /\ alertActive (fatigue_after rs) = false
      /\ alertActive (fatigue_after (rs ++ [r])) = true
      /\ exists w,
           warnings_of (rs ++ [r]) = [[]; []; []; [w]]
           /\ dropPercentage w == 300 / 19
           /\ 15.78 < dropPercentage w /\ dropPercentage w < 15.79
           /\ currentVelocity w == 0.80
           /\ baselineVelocity_ w == 0.95).
Proof.
  split.
  - intros rs r L b s raw d.
    destruct (fatigue_after_snoc rs r) as [F W].
    pose proof (on_rep_beyond_third rs r L) as O. cbv zeta in O.
    fold b s in O. rewrite O in F, W. simpl fst in F. simpl snd in W.
    assert (D : d = drop_percentage b s) by (unfold d; rewrite F; reflexivity).
    assert (Al : alertActive (fatigue_after (rs ++ [r])) = Qle_bool 11 d)
      by (rewrite F, D; reflexivity).
    split; [|split; [|split]].
    + intros H. rewrite D. unfold drop_percentage. fold raw.
      apply Qle_bool_iff in H. now rewrite H.
    + intros H. rewrite D. unfold drop_percentage. fold raw.
      destruct (Qle_bool 0 raw) eqn:E; [|reflexivity].
      apply Qle_bool_iff in E. exfalso. exact (Qlt_not_le _ _ H E).
    + rewrite Al. apply Qle_bool_iff.
    + eexists. split; [exact W|]. rewrite <- D.
      split; [|split].
      * intros H N. apply Qle_bool_iff in H. rewrite H, N. reflexivity.
      * intros H. destruct (Qle_bool 11 d) eqn:E; [|reflexivity].
        apply Qle_bool_iff in E. contradiction.
      * match goal with |- context [if ?c then _ else _] => destruct c end;
          cbn [List.length]; repeat constructor.
  - cbv zeta. split; [vm_compute; reflexivity|].
    split; [vm_compute; reflexivity|].
    split; [vm_compute; reflexivity|].
    split; [vm_compute; reflexivity|].
    eexists. split; [vm_compute; reflexivity|].
    split; [vm_compute; reflexivity|].
    split; [vm_compute; reflexivity|].
    split; [vm_compute; reflexivity|].
    split; vm_compute; reflexivity.
Qed.

End DetectorFacts.

(** The theorem on a fourth rep of 0.55 after 1.00, 0.95, 0.90, with the
    same detector. *)
Lemma drop_percentage_and_warning_witness :
  (3 <= 3)%nat
  /\ exists ws,
       Engine.warnings_of (fun a b => negb (Qeq_bool a b))
         ([Engine.rep_with 1 1.00; Engine.rep_with 2 0.95;
           Engine.rep_with 3 0.90] ++ [Engine.rep_with 4 0.55])
       = Engine.warnings_of (fun a b => negb (Qeq_bool a b))
           [Engine.rep_with 1 1.00; Engine.rep_with 2 0.95;
            Engine.rep_with 3 0.90] ++ [ws]
       /\ (List.length ws <= 1)%nat.
Proof.
  assert (L : (3 <= 3)%nat) by constructor.
  split; [exact L|].
  destruct (proj1 (drop_percentage_and_warning
                     (fun a b => negb (Qeq_bool a b)))
              [Engine.rep_with 1 1.00; Engine.rep_with 2 0.95;
               Engine.rep_with 3 0.90] (Engine.rep_with 4 0.55) L)
    as [_ [_ [_ [ws [W [_ [_ N]]]]]]].
  exists ws. split; [exact W | exact N].
Defined.

(** ** [VelocityView.jsx]: the commands the component sends *)
Section VelocityViewSentFacts.
Import VelocityView.






(** A name that [isValid] accepts is not blank. *)
Lemma isValid_name (s : State) :
  isValid s = true -> Js.trim (exerciseName s) <> "" /\ weight s <> "".
Proof.
  unfold isValid. intros H. apply andb_true_iff in H as [N W].
  split.
  - intros E. rewrite E in N. discriminate N.
  - intros E. rewrite E in W. discriminate W.
Qed.




End VelocityViewSentFacts.

(** ** The engine loop *)
Section LoopFacts.
Import Engine Loop.
Local Open Scope Q_scope.

Variable cfg : Config.
Variable materially_changed : Q -> Q -> bool.

Local Abbreviation on_rep := (Engine.on_rep materially_changed).
Local Abbreviation fatigue_after := (Engine.fatigue_after materially_changed).
Local Abbreviation append_rep := (Loop.append_rep materially_changed).
Local Abbreviation append_all := (Loop.append_all materially_changed).
Local Abbreviation tick := (Loop.tick cfg materially_changed).
Local Abbreviation handle := (Loop.handle cfg materially_changed).
Local Abbreviation run := (Loop.run cfg materially_changed).
Local Abbreviation detector_follows := (Loop.detector_follows materially_changed).

(** One sample makes the tracker report at most one rep. *)
Lemma step_reps (t : Tracker) (s : Sample) :
  Engine.reps (snd (step cfg t s)) = []
  \/ exists r, Engine.reps (snd (step cfg t s)) = [r].
Proof.
  destruct (step_shape cfg t s) as [[E _] | [p [ts G]]].
  - left. now rewrite E.
  - cbv zeta in G. destruct G as [_ G]. destruct p.
    + destruct G as [_ [[_ [r E]] | [_ E]]]; rewrite E; simpl; eauto.
    + destruct G as [_ E]. rewrite E. simpl. auto.
    + destruct G as [_ E]. rewrite E. simpl. auto.
Qed.

(** The tracker counts the reps it reports. *)
Lemma enter_repCount (p : Phase) (ts : Q) (t : Tracker) :
  repCount (fst (enter cfg p ts t))
  = (repCount t + Z.of_nat (List.length (Engine.reps (snd (enter cfg p ts t)))))%Z.
Proof.
  unfold enter. destruct p.
  - destruct (complete cfg _); simpl; lia.
  - destruct (phase t); simpl; lia.
  - destruct (phase t); simpl; lia.
Qed.

Lemma debounce_repCount (s : Sample) (t : Tracker) :
  repCount (fst (debounce cfg s t))
  = (repCount t + Z.of_nat (List.length (Engine.reps (snd (debounce cfg s t)))))%Z.
Proof.
  unfold debounce.
  destruct (candidate cfg (velocity s)) as [p|]; [|simpl; lia].
  destruct (Phase_eqb p (phase t)); [simpl; lia|].
  destruct (pending t) as [[p' since]|]; [|simpl; lia].
  destruct (Phase_eqb p' p); [|simpl; lia].
  destruct (Qle_bool _ _); [|simpl; lia].
  apply enter_repCount.
Qed.

Lemma step_repCount (t : Tracker) (s : Sample) :
  repCount (fst (step cfg t s))
  = (repCount t + Z.of_nat (List.length (Engine.reps (snd (step cfg t s)))))%Z.
Proof.
  unfold step.
  destruct (match lastTimestamp t with
            | Some last => Qle_bool (timestamp s) last
            | None => false
            end); [simpl; lia|].
  set (t1 := mkTracker _ _ _ _ _ _ _ _).
  assert (H : repCount (fst (if (stationary cfg (window t1)
                                  && negb (Phase_eqb (phase t1) Idle))%bool
                             then enter cfg Idle (timestamp s) t1
                             else debounce cfg s t1))
              = (repCount t
                 + Z.of_nat (List.length
                     (Engine.reps (snd (if (stationary cfg (window t1)
                                            && negb (Phase_eqb (phase t1) Idle))%bool
                                        then enter cfg Idle (timestamp s) t1
                                        else debounce cfg s t1)))))%Z).
  { change (repCount t) with (repCount t1).
    destruct (_ && _)%bool; [apply enter_repCount | apply debounce_repCount]. }
  destruct (if (stationary cfg (window t1)
                && negb (Phase_eqb (phase t1) Idle))%bool
            then enter cfg Idle (timestamp s) t1
            else debounce cfg s t1) as [t2 o].
  cbn [fst snd] in H |- *. destruct (phase t2); exact H.
Qed.

Lemma published_reps_app (a b : list Event) :
  published_reps (a ++ b) = published_reps a ++ published_reps b.
Proof. apply flat_map_app. Qed.



Lemma warnings_published (ws : list FatigueWarning) :
  published_reps (map fatigue_warning ws) = []
  /\ finalized_sessions (map fatigue_warning ws) = []
  /\ rejections (map fatigue_warning ws) = [].
Proof. induction ws as [|w ws [A [B C]]]; simpl; auto. Qed.

Lemma reps_published (rs : list RepRecord) :
  published_reps (map rep_completed rs) = rs
  /\ finalized_sessions (map rep_completed rs) = []
  /\ rejections (map rep_completed rs) = [].
Proof.
  induction rs as [|r rs [A [B C]]]; simpl; auto.
  rewrite A. auto.
Qed.

Lemma with_reps_same (ss : SetSession) : with_reps (reps ss) ss = ss.
Proof. destruct ss; reflexivity. Qed.

(** What the loop does with a rep while a set is active. *)
Lemma append_rep_active (r : RepRecord) (e : State) (ss : SetSession) :
  active e = Some ss ->
  append_rep r e
  = (mkState (tracker e) (fst (on_rep (reps ss ++ [r]) (fatigue e)))
             (Some (with_reps (reps ss ++ [r]) ss)) (workout e),
     rep_completed r
     :: map fatigue_warning (snd (on_rep (reps ss ++ [r]) (fatigue e)))).
Proof.
  intros A. unfold Loop.append_rep. rewrite A. cbn [reps with_reps].
  destruct (on_rep (reps ss ++ [r]) (fatigue e)) as [fs ws]. reflexivity.
Qed.

Lemma append_rep_inactive (r : RepRecord) (e : State) :
  active e = None -> append_rep r e = (e, [rep_completed r]).
Proof. intros A. unfold Loop.append_rep. now rewrite A. Qed.

Lemma append_rep_frame (r : RepRecord) (e : State) :
  tracker (fst (append_rep r e)) = tracker e
  /\ workout (fst (append_rep r e)) = workout e
  /\ (active e = None -> fst (append_rep r e) = e).
Proof.
  destruct (active e) as [ss|] eqn:A.
  - rewrite (append_rep_active r e ss A). repeat split. discriminate.
  - unfold Loop.append_rep. rewrite A. repeat split.
Qed.

Lemma follows_append_rep (r : RepRecord) (e : State) :
  detector_follows e -> detector_follows (fst (append_rep r e)).
Proof.
  intros F. destruct (active e) as [ss|] eqn:A.
  - rewrite (append_rep_active r e ss A). intros ss' E.
    cbn [fst active] in E. inversion E; subst ss'.
    cbn [fst fatigue reps with_reps].
    rewrite (F ss A).
    symmetry. exact (proj1 (fatigue_after_snoc materially_changed (reps ss) r)).
  - unfold Loop.append_rep. rewrite A. exact F.
Qed.

Lemma follows_append_all (rs : list RepRecord) (e : State) :
  detector_follows e -> detector_follows (fst (append_all rs e)).
Proof.
  revert e. induction rs as [|r rs IH]; intros e F; [exact F|].
  simpl. pose proof (follows_append_rep r e F) as F1.
  destruct (append_rep r e) as [e1 o1]. specialize (IH e1 F1).
  destruct (append_all rs e1) as [e2 o2]. exact IH.
Qed.

(** A tick while a set is active: the reps the tracker reports on the
    sample (none or one) join the set and reach the detector; the set is
    then still active, or the timeout has finalized it. *)
Lemma tick_active (s : Sample) (e : State) (ss : SetSession) :
  active e = Some ss ->
  let rs := Engine.reps (snd (step cfg (tracker e) s)) in
  let ss' := with_reps (reps ss ++ rs) ss in
  let fs' := match rs with
             | [] => fatigue e
             | r :: _ => fst (on_rep (reps ss ++ [r]) (fatigue e))
             end in
  let ws := match rs with
            | [] => []
            | r :: _ => snd (on_rep (reps ss ++ [r]) (fatigue e))
            end in
  let evs := map rep_completed rs ++ map fatigue_warning ws in
  fatigue (fst (tick s e)) = fs'
  /\ tracker (fst (tick s e)) = fst (step cfg (tracker e) s)
  /\ workout (fst (tick s e)) = workout e
  /\ ((active (fst (tick s e)) = Some ss' /\ snd (tick s e) = evs)
      \/ (active (fst (tick s e)) = None
          /\ snd (tick s e) = evs ++ [finalized (finalize (timestamp s) ss')])).
Proof.
  intros A. unfold Loop.tick.
  pose proof (step_reps (tracker e) s) as R.
  destruct (step cfg (tracker e) s) as [t out]. cbn [fst snd] in R |- *.
  destruct R as [R | [r R]]; rewrite R; cbv zeta.
  - cbn [Loop.append_all active map app]. rewrite A, app_nil_r, with_reps_same.
    destruct (_ && _)%bool; cbn [fst snd fatigue tracker workout active];
      repeat split; auto.
  - cbn [Loop.append_all].
    rewrite (append_rep_active r (mkState t (fatigue e) (active e) (workout e)) ss A).
    cbn [active fatigue tracker workout map app].
    destruct (_ && _)%bool; cbn [fst snd fatigue tracker workout active];
      rewrite ?app_nil_r; repeat split; auto.
Qed.

(** A tick without an active set: the reps are published, nothing else
    changes but the tracker. *)
Lemma tick_inactive (s : Sample) (e : State) :
  active e = None ->
  fst (tick s e)
  = mkState (fst (step cfg (tracker e) s)) (fatigue e) None (workout e)
  /\ snd (tick s e) = map rep_completed (Engine.reps (snd (step cfg (tracker e) s))).
Proof.
  intros A. unfold Loop.tick.
  pose proof (step_reps (tracker e) s) as R.
  destruct (step cfg (tracker e) s) as [t out]. cbn [fst snd] in R |- *.
  destruct R as [R | [r R]]; rewrite R.
  - cbn [Loop.append_all active]. rewrite A. split; reflexivity.
  - cbn [Loop.append_all].
    rewrite (append_rep_inactive r (mkState t (fatigue e) (active e) (workout e)) A).
    cbn [active]. rewrite A. split; reflexivity.
Qed.

Lemma follows_tick (s : Sample) (e : State) :
  detector_follows e -> detector_follows (fst (tick s e)).
Proof.
  intros F. destruct (active e) as [ss|] eqn:A.
  - destruct (tick_active s e ss A) as [Fa [_ [_ [[Ac _] | [Ac _]]]]];
      cbv zeta in *; intros ss' E; rewrite Ac in E; [|discriminate].
    inversion E; subst ss'. rewrite Fa. cbn [reps with_reps].
    rewrite (F ss A).
    destruct (step_reps (tracker e) s) as [R | [r R]]; rewrite R.
    + now rewrite app_nil_r.
    + symmetry.
      exact (proj1 (fatigue_after_snoc materially_changed (reps ss) r)).
  - rewrite (proj1 (tick_inactive s e A)). intros ss' E. discriminate E.
Qed.

Lemma follows_command (now : Q) (c : Command) (e : State) :
  detector_follows e -> detector_follows (fst (command now c e)).
Proof.
  intros F ss'. destruct c as [ex load u | | name date | | |]; cbn [command].
  - destruct (String.eqb ex ""); cbn [fst active fatigue]; [apply F|].
    intros E. inversion E. reflexivity.
  - destruct (active e) as [ss|] eqn:A; cbn [fst active]; [discriminate|].
    rewrite A. discriminate.
  - cbn [fst active fatigue]. apply F.
  - cbn [fst active fatigue]. apply F.
  - cbn [fst active fatigue]. destruct (active e) as [ss|]; [|discriminate].
    cbn [option_map]. intros E. inversion E. reflexivity.
  - apply F.
Qed.

Lemma follows_handle (i : Input) (e : State) :
  detector_follows e -> detector_follows (fst (handle i e)).
Proof. destruct i; [apply follows_tick | apply follows_command]. Qed.

Lemma loop_run_cons (i : Input) (inputs : list Input) (e : State) :
  run (i :: inputs) e
  = (fst (run inputs (fst (handle i e))),
     snd (handle i e) ++ snd (run inputs (fst (handle i e)))).
Proof.
  simpl. destruct (handle i e) as [e1 o1]. cbn [fst snd].
  destruct (Loop.run cfg materially_changed inputs e1) as [e2 o2]. reflexivity.
Qed.


Lemma follows_run (inputs : list Input) (e : State) :
  detector_follows e -> detector_follows (fst (run inputs e)).
Proof.
  revert e. induction inputs as [|i inputs IH]; intros e F; [exact F|].
  rewrite loop_run_cons. cbn [fst]. apply IH, follows_handle, F.
Qed.

Lemma follows_init : detector_follows init.
Proof. intros ss E. discriminate E. Qed.

(** "reps length equals repCount": the invariant of section 3 holds of
    the loop whenever a set is active. *)
Lemma count_tick (s : Sample) (e : State) :
  count_matches e -> count_matches (fst (tick s e)).
Proof.
  intros C. destruct (active e) as [ss|] eqn:A.
  - destruct (tick_active s e ss A) as [_ [Tr [_ [[Ac _] | [Ac _]]]]];
      cbv zeta in *; intros ss' E; rewrite Ac in E; [|discriminate].
    inversion E; subst ss'. rewrite Tr, step_repCount, (C ss A).
    cbn [reps with_reps]. rewrite length_app. lia.
  - rewrite (proj1 (tick_inactive s e A)). intros ss' E. discriminate E.
Qed.

Lemma count_command (now : Q) (c : Command) (e : State) :
  count_matches e -> count_matches (fst (command now c e)).
Proof.
  intros C ss'. destruct c as [ex load u | | name date | | |]; cbn [command].
  - destruct (String.eqb ex ""); cbn [fst active tracker]; [apply C|].
    intros E. inversion E. reflexivity.
  - destruct (active e) as [ss|] eqn:A; cbn [fst active]; [discriminate|].
    rewrite A. discriminate.
  - cbn [fst active tracker]. apply C.
  - cbn [fst active tracker]. apply C.
  - cbn [fst active tracker]. destruct (active e) as [ss|]; [|discriminate].
    cbn [option_map]. intros E. inversion E. reflexivity.
  - apply C.
Qed.

Lemma count_run (inputs : list Input) (e : State) :
  count_matches e -> count_matches (fst (run inputs e)).
Proof.
  revert e. induction inputs as [|i inputs IH]; intros e C; [exact C|].
  rewrite loop_run_cons. cbn [fst]. apply IH.
  destruct i; [apply count_tick | apply count_command]; exact C.
Qed.

(** What the detector holds for the reps of the active set. *)
Lemma baseline_of_active (e : State) (ss : SetSession) :
  detector_follows e -> active e = Some ss ->
  baselineVelocity (fatigue e)
  = (if (List.length (reps ss) <? 3)%nat then None
     else Some (mean (firstn 3 (map avgVelocity (reps ss)))))
  /\ ((List.length (reps ss) < 3)%nat -> fatigue e = fatigue0).
Proof.
  intros F A. rewrite (F ss A).
  destruct (fatigue_after_baseline materially_changed (reps ss)) as [B I].
  split; [exact B|]. intros L. exact (proj1 (I L)).
Qed.

(** The baseline after one more rep differs from the one before exactly
    when the rep is the third. *)
Lemma baseline_changes_on_third (rs : list RepRecord) (r : RepRecord) :
  baselineVelocity (fatigue_after (rs ++ [r]))
  <> baselineVelocity (fatigue_after rs)
  <-> List.length rs = 2%nat.
Proof.
  destruct (fatigue_after_baseline materially_changed rs) as [B _].
  destruct (fatigue_after_baseline materially_changed (rs ++ [r])) as [B' _].
  rewrite length_app in B'. change (List.length [r]) with 1%nat in B'.
  rewrite B, B'.
  destruct (Nat.ltb_spec (List.length rs + 1) 3) as [L1|L1];
    destruct (Nat.ltb_spec (List.length rs) 3) as [L0|L0].
  - split; [intros H; now contradiction H | intros; exfalso; lia].
  - exfalso; lia.
  - split; [intros; lia | discriminate].
  - split; [|intros; exfalso; lia]. intros H. exfalso. apply H.
    rewrite map_app. change (map avgVelocity [r]) with [avgVelocity r].
    rewrite firstn3_snoc; [reflexivity|].
    rewrite length_map. lia.
Qed.

(** Up to the third rep the detector raises nothing. *)
Lemma on_rep_up_to_third (rs : list RepRecord) (r : RepRecord) :
  (List.length rs < 3)%nat ->
  alertActive (fst (on_rep (rs ++ [r]) (fatigue_after rs))) = false
  /\ snd (on_rep (rs ++ [r]) (fatigue_after rs)) = [].
Proof.
  intros L.
  destruct (fatigue_after_baseline materially_changed rs) as [_ I].
  rewrite (proj1 (I L)). unfold Engine.on_rep.
  rewrite length_app. change (List.length [r]) with 1%nat.
  destruct (List.length rs + 1 <? 3)%nat eqn:L3; [split; reflexivity|].
  apply Nat.ltb_ge in L3.
  replace (List.length rs + 1 =? 3)%nat with true
    by (symmetry; apply Nat.eqb_eq; lia).
  split; reflexivity.
Qed.

Lemma no_warning_among_reps (rs : list RepRecord) (w : FatigueWarning) :
  ~ In (fatigue_warning w) (map rep_completed rs).
Proof.
  intros H. apply in_map_iff in H as [r [E _]]. discriminate E.
Qed.

(** C2, as amended.  In every state the loop reaches from its start, for
    the set [ss] that is active and the reps it holds (those appended
    since the set started or was last reset): with fewer than three the
    detector has no baseline and no alert; from three on the baseline is
    the arithmetic mean of the [avgVelocity] of the first three; a tick
    changes the baseline exactly when it appends the third rep, so no
    later rep recomputes it, and with fewer than three reps before it a
    tick raises no alert and publishes no warning; a command leaves the
    baseline as it is or clears it together with the reps of the set;
    and [reset] clears it while the set stays active and nothing is
    finalized, so the third rep after it sets it again.  A set of reps
    with [avgVelocity] 1.00, 0.95 and 0.90 has the baseline 0.95. *)
Theorem baseline_set_once_between_resets (inputs : list Input)
    (ss : SetSession) :
  let e := fst (run inputs init) in
  active e = Some ss ->
  ((List.length (reps ss) < 3)%nat ->
   baselineVelocity (fatigue e) = None /\ alertActive (fatigue e) = false)
  /\ ((3 <= List.length (reps ss))%nat ->
      baselineVelocity (fatigue e)
      = Some (mean (firstn 3 (map avgVelocity (reps ss)))))
  /\ (forall s : Sample,
        (baselineVelocity (fatigue (fst (tick s e)))
         <> baselineVelocity (fatigue e)
         <-> List.length (reps ss) = 2%nat
             /\ published_reps (snd (tick s e)) <> [])
        /\ ((List.length (reps ss) < 3)%nat ->
            alertActive (fatigue (fst (tick s e))) = false
            /\ forall w, ~ In (fatigue_warning w) (snd (tick s e))))
  /\ (forall (now : Q) (c : Command),
        baselineVelocity (fatigue (fst (command now c e)))
        = baselineVelocity (fatigue e)
        \/ (baselineVelocity (fatigue (fst (command now c e))) = None
            /\ exists ss', active (fst (command now c e)) = Some ss'
                           /\ reps ss' = []))
  /\ (forall now : Q,
        active (fst (command now reset e)) = Some (with_reps [] ss)
        /\ baselineVelocity (fatigue (fst (command now reset e))) = None
        /\ snd (command now reset e) = [])
  /\ (baselineVelocity
        (fatigue
           (fst (append_all
                   [rep_with 1 1.00; rep_with 2 0.95; rep_with 3 0.90]
                   (fst (command 0 (start_set "Squat" 225 "lbs") init)))))
      = Some (mean [1.00; 0.95; 0.90])
      /\ mean [1.00; 0.95; 0.90] == 0.95).
Proof.
  intros e A.
  assert (F : detector_follows e) by (apply follows_run, follows_init).
  destruct (baseline_of_active e ss F A) as [B Z].
  split; [|split; [|split; [|split; [|split]]]].
  - intros L. rewrite (Z L). split; reflexivity.
  - intros L. rewrite B.
    replace (List.length (reps ss) <? 3)%nat with false
      by (symmetry; apply Nat.ltb_ge; lia).
    reflexivity.
  - intros s.
    destruct (tick_active s e ss A) as [Fa [_ [_ Out]]]. cbv zeta in Fa, Out.
    rewrite Fa. clear Fa.
    assert (P : published_reps (snd (tick s e))
                = Engine.reps (snd (step cfg (tracker e) s))).
    { destruct Out as [[_ ->] | [_ ->]];
        rewrite ?published_reps_app, (proj1 (reps_published _)),
          (proj1 (warnings_published _)); cbn [published_reps flat_map];
        now rewrite ?app_nil_r. }
    assert (W : forall w, In (fatigue_warning w) (snd (tick s e)) ->
                In w (match Engine.reps (snd (step cfg (tracker e) s)) with
                      | [] => []
                      | r :: _ => snd (on_rep (reps ss ++ [r]) (fatigue e))
                      end)).
    { intros w H.
      assert (H' : In (fatigue_warning w)
                     (map rep_completed (Engine.reps (snd (step cfg (tracker e) s)))
                      ++ map fatigue_warning
                           (match Engine.reps (snd (step cfg (tracker e) s)) with
                            | [] => []
                            | r :: _ => snd (on_rep (reps ss ++ [r]) (fatigue e))
                            end))).
      { destruct Out as [[_ E] | [_ E]]; rewrite E in H; [exact H|].
        apply in_app_or in H as [H | [H | []]]; [exact H | discriminate H]. }
      apply in_app_or in H' as [H' | H'].
      - exfalso. exact (no_warning_among_reps _ _ H').
      - apply in_map_iff in H' as [w' [E H']]. inversion E; subst w'. exact H'. }
    rewrite P. clear P Out.
    destruct (step_reps (tracker e) s) as [R | [r R]]; rewrite R in W |- *.
    + split.
      * split; [intros H; now contradiction H | intros [_ H]; now contradiction H].
      * intros L. rewrite (Z L). split; [reflexivity|].
        intros w H. exact (W w H).
    + rewrite (F ss A). split.
      * rewrite <- (proj1 (fatigue_after_snoc materially_changed (reps ss) r)).
        rewrite baseline_changes_on_third.
        split; [intros H; split; [exact H | discriminate] | intros [H _]; exact H].
      * intros L. destruct (on_rep_up_to_third (reps ss) r L) as [Al Ws].
        split; [exact Al|]. intros w H. specialize (W w H).
        rewrite (F ss A), Ws in W. exact W.
  - intros now c. destruct c as [ex load u | | name date | | |]; cbn [command].
    + destruct (String.eqb ex ""); cbn [fst fatigue active]; [left; reflexivity|].
      right. split; [reflexivity|]. eexists. split; reflexivity.
    + rewrite A. left. reflexivity.
    + left. reflexivity.
    + left. reflexivity.
    + cbn [fst fatigue active]. rewrite A. right.
      split; [reflexivity|]. eexists. split; reflexivity.
    + left. reflexivity.
  - intros now. cbn [command fst snd active fatigue]. rewrite A.
    repeat split.
  - split; [vm_compute; reflexivity | reflexivity].
Qed.

Lemma with_reps_with_reps (a b : list RepRecord) (ss : SetSession) :
  with_reps a (with_reps b ss) = with_reps a ss.
Proof. reflexivity. Qed.

(** Ticks alone start no set: a set that is active after them was active
    before them, and holds the reps it held with those published
    meanwhile appended, in order. *)
Lemma ticks_keep_reps (samples : list Sample) (e : State) (ss2 : SetSession) :
  active (fst (run (map Tick samples) e)) = Some ss2 ->
  exists ss,
    active e = Some ss
    /\ ss2 = with_reps (reps ss
                        ++ published_reps (snd (run (map Tick samples) e))) ss.
Proof.
  revert e. induction samples as [|s samples IH]; intros e A.
  - simpl in A |- *. exists ss2. split; [exact A|].
    now rewrite app_nil_r, with_reps_same.
  - cbn [map] in A |- *. rewrite loop_run_cons in A |- *. cbn [fst snd] in A |- *.
    destruct (IH _ A) as [ss1 [A1 E]]. clear IH A.
    cbn [handle Loop.handle] in A1, E |- *.
    destruct (active e) as [ss|] eqn:Ae.
    + exists ss. split; [reflexivity|].
      destruct (tick_active s e ss Ae) as [_ [_ [_ [[Ac Ev] | [Ac _]]]]];
        cbv zeta in *; [|rewrite Ac in A1; discriminate A1].
      rewrite Ac in A1. inversion A1; subst ss1. clear A1.
      rewrite E. cbn [reps with_reps]. rewrite with_reps_with_reps.
      rewrite published_reps_app, Ev, published_reps_app,
        (proj1 (reps_published _)), (proj1 (warnings_published _)).
      now rewrite app_nil_r, app_assoc.
    + rewrite (proj1 (tick_inactive s e Ae)) in A1. discriminate A1.
Qed.

(** C4.  On the engine, [start_set] with a set active.  In every state
    with an active set [ss], a [start_set] whose exercise is not empty
    publishes exactly one event, the finalization of [ss]: the session
    handed on is [ss] with [endedAt] set and nothing else changed, its
    reps as they were appended; and the state after it has a new active
    set with the command's exercise, weight and unit and no reps, the
    tracker at rest with rep count 0 and no cycle in progress, and the
    detector without baseline or alert.  The reps of a set are all there
    when it is finalized: over any run of ticks that leaves the set
    active, its reps are those it had with every rep published meanwhile
    appended in order, and their number is the tracker's rep count.  On
    the component that issues the command: while it tracks a set a click
    on Start Set is no event, and a click that starts a set sends
    [start_set] with the trimmed name when the socket is open, turns
    tracking on with rep count 0 and an empty rep list, and leaves the
    database alone. *)
Theorem start_set_finalizes_prior_session :
  (forall (e : State) (ss : SetSession) (now : Q)
          (exercise : string) (load : Q) (unit_name : string),
      active e = Some ss -> exercise <> "" ->
      let e' := fst (command now (start_set exercise load unit_name) e) in
      let evs := snd (command now (start_set exercise load unit_name) e) in
      evs = [finalized (finalize now ss)]
      /\ finalized_sessions evs
         = [mkSetSession (exerciseName ss) (weight ss) (unit_ ss)
                         (startedAt ss) (Some now) (reps ss)]
      /\ active e' = Some (mkSetSession exercise load unit_name now None [])
      /\ repCount (tracker e') = 0%Z
      /\ phase (tracker e') = Idle
      /\ cycle (tracker e') = []
      /\ pending (tracker e') = None
      /\ baselineVelocity (fatigue e') = None
      /\ alertActive (fatigue e') = false)
  /\ (forall (inputs : list Input) (samples : list Sample)
             (ss ss2 : SetSession),
         active (fst (run inputs init)) = Some ss ->
         active (fst (run (map Tick samples) (fst (run inputs init))))
         = Some ss2 ->
         ss2 = with_reps
                 (reps ss
                  ++ published_reps
                       (snd (run (map Tick samples) (fst (run inputs init)))))
                 ss
         /\ repCount (tracker (fst (run (map Tick samples)
                                        (fst (run inputs init)))))
            = Z.of_nat (List.length (reps ss2)))
  /\ (forall w : VelocityView.World,
         VelocityView.isTracking (VelocityView.st w) = true ->
         VelocityView.handle VelocityView.ClickStart w = w)
  /\ (forall w : VelocityView.World,
         VelocityView.isTracking (VelocityView.st w) = false ->
         VelocityView.isValid (VelocityView.st w) = true ->
         let w' := VelocityView.handle VelocityView.ClickStart w in
         VelocityView.isTracking (VelocityView.st w') = true
         /\ VelocityView.repCount (VelocityView.st w') = 0%Z
         /\ VelocityView.repDetails (VelocityView.st w') = []
         /\ VelocityView.db w' = VelocityView.db w
         /\ VelocityView.sent w'
            = if VelocityView.ws_open w
              then VelocityView.sent w
                   ++ [VelocityView.mkCommand "start_set"
                         (Js.trim (VelocityView.exerciseName (VelocityView.st w)))
                         (VelocityView.weight (VelocityView.st w)) "lbs"]
              else VelocityView.sent w).
Proof.
  split; [|split; [|split]].
  - intros e ss now exercise load unit_name A N. cbn [command].
    destruct (String.eqb_spec exercise ""); [contradiction|].
    rewrite A. cbv zeta. cbn [fst snd active tracker fatigue].
    repeat split.
  - intros inputs samples ss ss2 A A2.
    destruct (ticks_keep_reps samples _ ss2 A2) as [ss0 [A0 E]].
    rewrite A in A0. inversion A0; subst ss0. split; [exact E|].
    apply (count_run (map Tick samples)); [|exact A2].
    apply count_run. intros x X. discriminate X.
  - intros w T. simpl. now rewrite T.
  - intros w T V w'. unfold w'. simpl VelocityView.handle. rewrite T, V.
    cbn [negb andb].
    destruct (auto_end_effect_spec (VelocityView.handleStartSet (VelocityView.render w) w))
      as [S [D [_ [_ [Se _]]]]].
    rewrite S, D, Se.
    destruct (isValid_name _ V) as [Nn Nw].
    rewrite (handleStartSet_accepts (VelocityView.render w) w Nn Nw). cbv zeta.
    destruct (VelocityView.ws_open w); repeat split.
Qed.


End LoopFacts.

Lemma pair_eq_inv {A B : Type} (a c : A) (b d : B) :
  (a, b) = (c, d) -> a = c /\ b = d.
Proof. intros H. inversion H. split; reflexivity. Qed.

(** What the runs [three_reps] and [reset_then_three_reps] leave, with a
    detector for which no change of the drop percentage is material. *)
Lemma three_reps_leaves :
  Loop.active (fst (Loop.run Engine.defaults (fun _ _ => false)
                             Loop.three_reps Loop.init))
  = Some Loop.three_reps_set
  /\ Loop.fatigue (fst (Loop.run Engine.defaults (fun _ _ => false)
                                 Loop.three_reps Loop.init))
     = Engine.mkFatigueState (Some (28800 # 24000)) false 0.
Proof.
  assert (H : (let e := fst (Loop.run Engine.defaults (fun _ _ => false)
                                      Loop.three_reps Loop.init) in
               (Loop.active e, Loop.fatigue e))
              = (Some Loop.three_reps_set,
                 Engine.mkFatigueState (Some (28800 # 24000)) false 0))
    by (vm_compute; reflexivity).
  cbv zeta in H. exact (pair_eq_inv _ _ _ _ H).
Qed.

Lemma reset_then_three_reps_leaves :
  Loop.active (fst (Loop.run Engine.defaults (fun _ _ => false)
                             Loop.reset_then_three_reps Loop.init))
  = Some (Loop.with_reps
            [Engine.mkRepRecord 1 (12 # 20) 1 (1000 # 2500);
             Engine.mkRepRecord 2 (12 # 20) 1 (1000 # 2500);
             Engine.mkRepRecord 3 (12 # 20) 1 (1000 # 2500)]
            Loop.three_reps_set)
  /\ Loop.fatigue (fst (Loop.run Engine.defaults (fun _ _ => false)
                                 Loop.reset_then_three_reps Loop.init))
     = Engine.mkFatigueState (Some (14400 # 24000)) false 0
  /\ Loop.finalized_sessions
       (snd (Loop.run Engine.defaults (fun _ _ => false)
                      Loop.reset_then_three_reps Loop.init))
     = []
  /\ List.length
       (Loop.published_reps
          (snd (Loop.run Engine.defaults (fun _ _ => false)
                         Loop.reset_then_three_reps Loop.init)))
     = 6%nat.
Proof.
  assert (H : (let r := Loop.run Engine.defaults (fun _ _ => false)
                                 Loop.reset_then_three_reps Loop.init in
               (Loop.active (fst r), Loop.fatigue (fst r),
                Loop.finalized_sessions (snd r),
                List.length (Loop.published_reps (snd r))))
              = (Some (Loop.with_reps
                         [Engine.mkRepRecord 1 (12 # 20) 1 (1000 # 2500);
                          Engine.mkRepRecord 2 (12 # 20) 1 (1000 # 2500);
                          Engine.mkRepRecord 3 (12 # 20) 1 (1000 # 2500)]
                         Loop.three_reps_set),
                 Engine.mkFatigueState (Some (14400 # 24000)) false 0,
                 [], 6%nat))
    by (vm_compute; reflexivity).
  cbv zeta in H.
  destruct (pair_eq_inv _ _ _ _ H) as [H3 N].
  destruct (pair_eq_inv _ _ _ _ H3) as [H2 S].
  destruct (pair_eq_inv _ _ _ _ H2) as [A F].
  split; [exact A|]. split; [exact F|]. split; [exact S | exact N].
Qed.

(** C2, counterexample.  One set is started and stays active throughout:
    nothing is finalized.  Its first three reps set the baseline to 1.2;
    [reset] at 1.8 s clears it and the set is still active; with the
    three reps that follow the baseline is set again, to 0.6, which is
    not the mean of the first three reps of the set.  The baseline of one
    SetSession has been set twice. *)
Lemma baseline_set_again_after_reset :
  let mc := fun _ _ : Q => false in
  let e3 := fst (Loop.run Engine.defaults mc Loop.three_reps Loop.init) in
  let e4 := fst (Loop.command (9 / 5) Loop.reset e3) in
  let e6 := fst (Loop.run Engine.defaults mc Loop.reset_then_three_reps
                          Loop.init) in
  (Loop.active e3 = Some Loop.three_reps_set
   /\ exists b, Engine.baselineVelocity (Loop.fatigue e3) = Some b
                /\ (b == 1.2)%Q)
  /\ (Loop.active e4 = Some (Loop.with_reps [] Loop.three_reps_set)
      /\ Engine.baselineVelocity (Loop.fatigue e4) = None)
  /\ (Loop.active e6
      = Some (Loop.with_reps
                [Engine.mkRepRecord 1 (12 # 20) 1 (1000 # 2500);
                 Engine.mkRepRecord 2 (12 # 20) 1 (1000 # 2500);
                 Engine.mkRepRecord 3 (12 # 20) 1 (1000 # 2500)]
                Loop.three_reps_set)
      /\ exists b, Engine.baselineVelocity (Loop.fatigue e6) = Some b
                   /\ (b == 0.6)%Q)
  /\ Loop.finalized_sessions
       (snd (Loop.run Engine.defaults mc Loop.reset_then_three_reps Loop.init))
     = []
  /\ List.length
       (Loop.published_reps
          (snd (Loop.run Engine.defaults mc Loop.reset_then_three_reps
                         Loop.init)))
     = 6%nat.
Proof.
  cbv zeta.
  destruct three_reps_leaves as [A3 F3].
  destruct reset_then_three_reps_leaves as [A6 [F6 [S6 N6]]].
  split; [|split; [|split; [|split]]].
  - split; [exact A3|]. rewrite F3. eexists. split; reflexivity.
  - cbn [Loop.command fst Loop.active Loop.fatigue]. rewrite A3.
    split; reflexivity.
  - split; [exact A6|]. rewrite F6. eexists. split; reflexivity.
  - exact S6.
  - exact N6.
Qed.

(** The theorem on [three_reps]: the set holds three reps, its baseline
    is the mean of their [avgVelocity], and [reset] clears it. *)
Lemma baseline_set_once_between_resets_witness :
  Loop.active (fst (Loop.run Engine.defaults (fun _ _ => false)
                             Loop.three_reps Loop.init))
  = Some Loop.three_reps_set
  /\ (3 <= List.length (Loop.reps Loop.three_reps_set))%nat
  /\ Engine.baselineVelocity
       (Loop.fatigue (fst (Loop.run Engine.defaults (fun _ _ => false)
                                    Loop.three_reps Loop.init)))
     = Some (Engine.mean
               (firstn 3 (map Engine.avgVelocity
                              (Loop.reps Loop.three_reps_set))))
  /\ Engine.baselineVelocity
       (Loop.fatigue
          (fst (Loop.command 3 Loop.reset
                  (fst (Loop.run Engine.defaults (fun _ _ => false)
                                 Loop.three_reps Loop.init)))))
     = None.
Proof.
  assert (A : Loop.active (fst (Loop.run Engine.defaults (fun _ _ => false)
                                         Loop.three_reps Loop.init))
              = Some Loop.three_reps_set) by exact (proj1 three_reps_leaves).
  assert (L : (3 <= List.length (Loop.reps Loop.three_reps_set))%nat)
    by (vm_compute; repeat constructor).
  destruct (baseline_set_once_between_resets Engine.defaults (fun _ _ => false)
              Loop.three_reps Loop.three_reps_set A) as [_ [H2 [_ [_ [H5 _]]]]].
  split; [exact A|]. split; [exact L|]. split; [exact (H2 L)|].
  exact (proj1 (proj2 (H5 3%Q))).
Defined.

(** The theorem on a state with the set [three_reps_set] active: a
    [start_set] for another exercise at 3 s finalizes the set with its
    three reps and begins a set without reps. *)
Lemma start_set_finalizes_prior_session_witness :
  Loop.active (Loop.mkState Engine.tracker0 Engine.fatigue0
                            (Some Loop.three_reps_set) None)
  = Some Loop.three_reps_set
  /\ "Bench" <> ""
  /\ Loop.finalized_sessions
       (snd (Loop.command 3 (Loop.start_set "Bench" 185 "lbs")
               (Loop.mkState Engine.tracker0 Engine.fatigue0
                             (Some Loop.three_reps_set) None)))
     = [Loop.mkSetSession "Squat" 225 "lbs" 0 (Some 3%Q)
                          (Loop.reps Loop.three_reps_set)]
  /\ Loop.active
       (fst (Loop.command 3 (Loop.start_set "Bench" 185 "lbs")
               (Loop.mkState Engine.tracker0 Engine.fatigue0
                             (Some Loop.three_reps_set) None)))
     = Some (Loop.mkSetSession "Bench" 185 "lbs" 3 None []).
Proof.
  assert (A : Loop.active (Loop.mkState Engine.tracker0 Engine.fatigue0
                                        (Some Loop.three_reps_set) None)
              = Some Loop.three_reps_set) by reflexivity.
  assert (N : "Bench" <> "") by discriminate.
  destruct (proj1 (start_set_finalizes_prior_session Engine.defaults
                     (fun _ _ => false))
              _ Loop.three_reps_set 3%Q "Bench" 185%Q "lbs" A N)
    as [_ [H2 [H3 _]]].
  split; [exact A|]. split; [exact N|]. split; [exact H2 | exact H3].
Defined.


(** ** [rep_completed]: from the engine to the component *)
Section RepCompletedFacts.
Local Open Scope Q_scope.

Lemma reps_In (r : Engine.RepRecord) (out : list Engine.Output) :
  In r (Engine.reps out) -> In (Engine.RepCompleted r) out.
Proof.
  unfold Engine.reps. intros H. apply in_flat_map in H as [o [Ho Hr]].
  destruct o as [ev p | r']; [contradiction|].
  destruct Hr as [<- | []]. exact Ho.
Qed.

(** C8.  On the engine, a [rep_completed] event is published only by a
    tick whose sample brings the tracker back to Idle with a complete
    cycle, once for that rep; no command publishes one.  On the
    component, after any [rep_completed] message: [lastRep], which the
    view displays, holds the message's number, its [max_velocity] and
    [avg_velocity] each divided by 1000 and its [duration] as sent; the
    displayed peak does not go down, is at least [max_velocity / 1000]
    and is one of the two, when [max_velocity] is not zero, and stays
    otherwise; and when [avg_velocity] is not zero and the rep number is
    new, one entry is appended to [repDetails] with [avg_velocity / 1000],
    with the first non-zero of [max_velocity] and [avg_velocity] divided
    by 1000 (so [max_velocity / 1000] whenever that is not zero) and with
    the duration unconverted; otherwise [repDetails] stays.  A frame,
    which arrives with every tick, and any other message leave
    [lastRep], the peak and [repDetails] as they are: the component
    records a rep on [rep_completed] only. *)
Theorem rep_completed_published_and_converted :
  (forall (cfg : Engine.Config) (materially_changed : Q -> Q -> bool)
          (i : Loop.Input) (e : Loop.State) (r : Engine.RepRecord),
      In (Loop.rep_completed r) (snd (Loop.handle cfg materially_changed i e)) ->
      exists s ev,
        i = Loop.Tick s
        /\ snd (Engine.step cfg (Loop.tracker e) s)
           = [Engine.PhaseChanged ev Engine.Idle; Engine.RepCompleted r]
        /\ Engine.complete cfg (Engine.cycle (Loop.tracker e) ++ [ev]) = true
        /\ Engine.phase (fst (Engine.step cfg (Loop.tracker e) s)) = Engine.Idle
        /\ Loop.published_reps (snd (Loop.handle cfg materially_changed i e))
           = [r])
  /\ (forall (s : VelocityView.State) (n : Z) (mx av du : Q),
         let s' := VelocityView.onmessage
                     (VelocityView.rep_completed n mx av du) s in
         VelocityView.lastRep s'
         = Some (VelocityView.mkRepData n (mx / 1000) (av / 1000) du)
         /\ (Js.truthy mx = true ->
             VelocityView.peakVelocity s <= VelocityView.peakVelocity s'
             /\ mx / 1000 <= VelocityView.peakVelocity s'
             /\ (VelocityView.peakVelocity s' = VelocityView.peakVelocity s
                 \/ VelocityView.peakVelocity s' = mx / 1000))
         /\ (Js.truthy mx = false ->
             VelocityView.peakVelocity s' = VelocityView.peakVelocity s)
         /\ (Js.truthy av = true ->
             ~ In n (map Db.repNumber (VelocityView.repDetails s)) ->
             exists d,
               VelocityView.repDetails s' = VelocityView.repDetails s ++ [d]
               /\ Db.repNumber d = n
               /\ Db.avgVelocity d = av / 1000
               /\ Db.peakVelocity d = Js.or_else mx av / 1000
               /\ (Js.truthy mx = true -> Db.peakVelocity d = mx / 1000)
               /\ Db.duration d == du)
         /\ (Js.truthy av = false
             \/ In n (map Db.repNumber (VelocityView.repDetails s)) ->
             VelocityView.repDetails s' = VelocityView.repDetails s))
  /\ (forall (s : VelocityView.State) (m : VelocityView.Message),
         (forall n mx av du, m <> VelocityView.rep_completed n mx av du) ->
         VelocityView.lastRep (VelocityView.onmessage m s)
         = VelocityView.lastRep s
         /\ VelocityView.peakVelocity (VelocityView.onmessage m s)
            = VelocityView.peakVelocity s
         /\ VelocityView.repDetails (VelocityView.onmessage m s)
            = VelocityView.repDetails s).
Proof.
  split; [|split].
  - intros cfg mc i e r H.
    destruct i as [s | now c].
    + cbn [Loop.handle] in H |- *.
      assert (R : In r (Engine.reps (snd (Engine.step cfg (Loop.tracker e) s)))
                  /\ Loop.published_reps (snd (Loop.tick cfg mc s e))
                     = Engine.reps (snd (Engine.step cfg (Loop.tracker e) s))).
      { destruct (Loop.active e) as [ss|] eqn:A.
        - destruct (tick_active cfg mc s e ss A) as [_ [_ [_ [[_ Ev] | [_ Ev]]]]];
            cbv zeta in Ev; rewrite Ev in H |- *;
            rewrite ?published_reps_app, (proj1 (reps_published _)),
              (proj1 (warnings_published _)); cbn [Loop.published_reps flat_map];
            rewrite ?app_nil_r; (split; [|reflexivity]);
            repeat (apply in_app_or in H as [H | H]).
          + apply in_map_iff in H as [x [E Hx]]. inversion E; subst x. exact Hx.
          + apply in_map_iff in H as [x [E _]]. discriminate E.
          + apply in_map_iff in H as [x [E Hx]]. inversion E; subst x. exact Hx.
          + apply in_map_iff in H as [x [E _]]. discriminate E.
          + destruct H as [H | []]. discriminate H.
        - destruct (tick_inactive cfg mc s e A) as [_ Ev]. rewrite Ev in H |- *.
          rewrite (proj1 (reps_published _)). split; [|reflexivity].
          apply in_map_iff in H as [x [E Hx]]. inversion E; subst x. exact Hx. }
      destruct R as [Hr P].
      destruct (rep_reported_only_on_completion cfg (Loop.tracker e) s r
                  (reps_In _ _ Hr)) as [ev [O [_ [C Ph]]]].
      exists s, ev. split; [reflexivity|]. split; [exact O|].
      split; [exact C|]. split; [exact Ph|].
      rewrite P, O. reflexivity.
    + exfalso. cbn [Loop.handle] in H.
      destruct c as [ex load u | | name date | | |]; cbn [Loop.command] in H.
      * destruct (String.eqb ex ""); cbn [snd] in H.
        -- destruct H as [H | []]. discriminate H.
        -- destruct (Loop.active e); [|contradiction].
           destruct H as [H | []]. discriminate H.
      * destruct (Loop.active e); cbn [snd] in H; [|contradiction].
        destruct H as [H | []]. discriminate H.
      * contradiction.
      * contradiction.
      * contradiction.
      * contradiction.
  - intros s n mx av du s'. split; [|split; [|split; [|split]]].
    + unfold s', VelocityView.onmessage.
      destruct (Js.truthy mx), (Js.truthy av); reflexivity.
    + intros M.
      assert (E : VelocityView.peakVelocity s'
                  = Js.max (VelocityView.peakVelocity s) (mx / 1000)).
      { unfold s', VelocityView.onmessage. rewrite M.
        destruct (Js.truthy av); reflexivity. }
      rewrite E. split; [apply Js_max_l|]. split; [apply Js_max_r|].
      unfold Js.max. destruct (Qle_bool _ _); auto.
    + intros M. unfold s', VelocityView.onmessage. rewrite M.
      destruct (Js.truthy av); reflexivity.
    + intros A N. unfold s'. rewrite onmessage_rep_completed_repDetails.
      rewrite A. cbn [andb].
      destruct (existsb (fun r => (Db.repNumber r =? n)%Z)
                        (VelocityView.repDetails s)) eqn:X.
      * exfalso. apply N. apply existsb_exists in X as [r [Hr E]].
        apply Z.eqb_eq in E. subst n. now apply in_map.
      * cbn [negb]. eexists. split; [reflexivity|]. cbn.
        split; [reflexivity|]. split; [reflexivity|]. split; [reflexivity|].
        split; [|apply or_else_zero].
        intros M. now rewrite (or_else_truthy _ _ M).
    + intros H. unfold s'. rewrite onmessage_rep_completed_repDetails.
      destruct H as [A | I]; [now rewrite A|].
      replace (existsb (fun r => (Db.repNumber r =? n)%Z)
                       (VelocityView.repDetails s)) with true;
        [now rewrite andb_false_r|].
      symmetry. apply existsb_exists.
      apply in_map_iff in I as [r [E Hr]]. exists r. split; [exact Hr|].
      now apply Z.eqb_eq.
  - intros s m N. destruct m as [hv ph rc | n mx av du |].
    + repeat split.
    + exfalso. exact (N n mx av du eq_refl).
    + repeat split.
Qed.

End RepCompletedFacts.

(** The theorem at the message of the protocol description,
    [{ rep_number: 5, max_velocity: 1500.0, avg_velocity: 1200.0,
       duration: 2.34 }], on the component as mounted: the peak on display
    becomes 1.5 m/s and the entry stored holds 1.2 and 1.5 m/s and
    2.34 s. *)
Lemma rep_completed_published_and_converted_witness :
  let s' := VelocityView.onmessage
              (VelocityView.rep_completed 5 1500 1200 2.34)
              VelocityView.initial in
  Js.truthy 1500 = true
  /\ Js.truthy 1200 = true
  /\ ~ In 5%Z (map Db.repNumber (VelocityView.repDetails VelocityView.initial))
  /\ VelocityView.lastRep s'
     = Some (VelocityView.mkRepData 5 (1500 / 1000) (1200 / 1000) 2.34)
  /\ (VelocityView.peakVelocity s' == 1.5)%Q
  /\ exists d, VelocityView.repDetails s' = [d]
               /\ (Db.avgVelocity d == 1.2)%Q
               /\ (Db.peakVelocity d == 1.5)%Q
               /\ (Db.duration d == 2.34)%Q.
Proof.
  cbv zeta.
  assert (M : Js.truthy 1500 = true) by reflexivity.
  assert (A : Js.truthy 1200 = true) by reflexivity.
  assert (N : ~ In 5%Z (map Db.repNumber
                          (VelocityView.repDetails VelocityView.initial)))
    by (intros []).
  destruct (proj1 (proj2 rep_completed_published_and_converted)
              VelocityView.initial 5%Z 1500%Q 1200%Q 2.34%Q)
    as [L [P [_ [D _]]]].
  split; [exact M|]. split; [exact A|]. split; [exact N|].
  split; [exact L|]. split.
  - destruct (P M) as [_ [Le [E | E]]]; rewrite E; [|reflexivity].
    rewrite E in Le. exfalso. revert Le. vm_compute. intros Le. apply Le. reflexivity.
  - destruct (D A N) as [d [E [_ [Ea [_ [Ep Ed]]]]]].
    exists d. split; [exact E|]. split; [rewrite Ea; reflexivity|].
    split; [rewrite (Ep M); reflexivity | exact Ed].
Defined.

(** ** Sorting and searching: the primitives behind the queries *)
Section SortFacts.
Context {A : Type} (ltb : A -> A -> bool).

Lemma insert_sorted_perm (x : A) (l : list A) :
  Permutation (Js.insert_sorted ltb x l) (x :: l).
Proof.
  induction l as [|y l IH]; simpl; [reflexivity|].
  destruct (ltb y x); [|reflexivity].
  rewrite IH. apply perm_swap.
Qed.

Lemma sort_perm (l : list A) : Permutation (Js.sort ltb l) l.
Proof.
  induction l as [|x l IH]; simpl; [reflexivity|].
  rewrite insert_sorted_perm. now rewrite IH.
Qed.

Lemma sort_In (l : list A) (x : A) : In x (Js.sort ltb l) <-> In x l.
Proof.
  split; apply Permutation_in; [|symmetry]; apply sort_perm.
Qed.

Lemma insert_sorted_filter_out (p : A -> bool) (x : A) (l : list A) :
  p x = false ->
  filter p (Js.insert_sorted ltb x l) = filter p l.
Proof.
  intros Hp. induction l as [|y l IH]; simpl; [now rewrite Hp|].
  destruct (ltb y x); simpl; [now rewrite IH | now rewrite Hp].
Qed.

Lemma insert_sorted_first (x : A) (l : list A) :
  Forall (fun z => ltb z x = false) l ->
  Js.insert_sorted ltb x l = x :: l.
Proof.
  destruct l as [|y l]; [reflexivity|].
  intros H. inversion H as [|? ? Hy _]; subst. simpl. now rewrite Hy.
Qed.

Lemma insert_sorted_last (x : A) (l : list A) :
  Forall (fun z => ltb z x = true) l ->
  Js.insert_sorted ltb x l = l ++ [x].
Proof.
  induction 1 as [|y l Hy _ IH]; simpl; [reflexivity|].
  now rewrite Hy, IH.
Qed.

(** The order the sort works with: [a] may stand before [b]. *)
Definition before (a b : A) : Prop := ltb b a = false.

Hypothesis ltb_asym : forall a b, ltb a b = true -> ltb b a = false.
Hypothesis before_trans :
  forall a b c, before a b -> before b c -> before a c.

Lemma insert_sorted_sorted (x : A) (l : list A) :
  StronglySorted before l ->
  StronglySorted before (Js.insert_sorted ltb x l).
Proof.
  induction 1 as [|y l Hs IH Hy]; simpl.
  - repeat constructor.
  - destruct (ltb y x) eqn:E.
    + constructor; [exact IH|].
      apply Forall_forall. intros z Hz.
      apply (Permutation_in _ (insert_sorted_perm x l)) in Hz.
      destruct Hz as [<-|Hz].
      * apply ltb_asym. exact E.
      * rewrite Forall_forall in Hy. auto.
    + constructor; [constructor; assumption|].
      constructor; [exact E|].
      apply Forall_forall. intros z Hz. rewrite Forall_forall in Hy.
      apply (before_trans x y z); [exact E | auto].
Qed.

Lemma sort_sorted (l : list A) : StronglySorted before (Js.sort ltb l).
Proof.
  induction l as [|x l IH]; simpl; [constructor|].
  now apply insert_sorted_sorted.
Qed.

Lemma insert_sorted_filter_in (p : A -> bool) (x : A) (l : list A) :
  StronglySorted before l ->
  p x = true ->
  filter p (Js.insert_sorted ltb x l) = Js.insert_sorted ltb x (filter p l).
Proof.
  intros Hs Hp. induction Hs as [|y l Hs IH Hy]; simpl; [now rewrite Hp|].
  destruct (ltb y x) eqn:E; simpl.
  - destruct (p y); simpl; [now rewrite E, IH | exact IH].
  - rewrite Hp. destruct (p y); simpl; [now rewrite E|].
    symmetry. apply insert_sorted_first.
    apply Forall_forall. intros z Hz. apply filter_In in Hz as [Hz _].
    rewrite Forall_forall in Hy.
    apply (before_trans x y z); [exact E | auto].
Qed.

(** Filtering commutes with sorting. *)
Lemma sort_filter (p : A -> bool) (l : list A) :
  filter p (Js.sort ltb l) = Js.sort ltb (filter p l).
Proof.
  induction l as [|x l IH]; simpl; [reflexivity|].
  destruct (p x) eqn:Hp; simpl.
  - rewrite insert_sorted_filter_in; [now rewrite IH | apply sort_sorted | exact Hp].
  - rewrite insert_sorted_filter_out; [exact IH | exact Hp].
Qed.

(** An element that may stand after all others is sorted last when it
    comes last. *)
Lemma sort_app_last (l : list A) (x : A) :
  Forall (fun z => before z x) l ->
  Js.sort ltb (l ++ [x]) = Js.sort ltb l ++ [x].
Proof.
  induction 1 as [|y l Hy _ IH]; simpl; [reflexivity|].
  rewrite IH. clear IH.
  induction (Js.sort ltb l) as [|z s IHs]; simpl.
  - unfold before in Hy. now rewrite Hy.
  - destruct (ltb z y); [now rewrite IHs | reflexivity].
Qed.

End SortFacts.

Section OrderFacts.

Lemma StronglySorted_impl {A : Type} (P Q : A -> A -> Prop) (l : list A) :
  (forall a b, P a b -> Q a b) ->
  StronglySorted P l -> StronglySorted Q l.
Proof.
  intros H. induction 1 as [|x l Hs IH Hx]; constructor; [exact IH|].
  eapply Forall_impl; [|exact Hx]. intros b. apply H.
Qed.

Lemma sortBy_perm {A : Type} (key : A -> Z) (l : list A) :
  Permutation (Js.sortBy key l) l.
Proof. apply sort_perm. Qed.

Lemma sortBy_In {A : Type} (key : A -> Z) (l : list A) (x : A) :
  In x (Js.sortBy key l) <-> In x l.
Proof. apply sort_In. Qed.

Lemma sortBy_sorted {A : Type} (key : A -> Z) (l : list A) :
  StronglySorted (fun a b => key a <= key b) (Js.sortBy key l).
Proof.
  unfold Js.sortBy.
  apply (StronglySorted_impl (before (fun a b => key a <? key b))).
  - unfold before. intros a b H. apply Z.ltb_ge in H. exact H.
  - apply sort_sorted; unfold before.
    + intros a b H. apply Z.ltb_lt in H. apply Z.ltb_ge. lia.
    + intros a b c H1 H2. apply Z.ltb_ge in H1, H2. apply Z.ltb_ge. lia.
Qed.

Lemma sortBy_filter {A : Type} (key : A -> Z) (p : A -> bool) (l : list A) :
  filter p (Js.sortBy key l) = Js.sortBy key (filter p l).
Proof.
  unfold Js.sortBy. apply sort_filter; unfold before.
  - intros a b H. apply Z.ltb_lt in H. apply Z.ltb_ge. lia.
  - intros a b c H1 H2. apply Z.ltb_ge in H1, H2. apply Z.ltb_ge. lia.
Qed.

Lemma sortBy_app_last {A : Type} (key : A -> Z) (l : list A) (x : A) :
  Forall (fun z => key z <= key x) l ->
  Js.sortBy key (l ++ [x]) = Js.sortBy key l ++ [x].
Proof.
  intros H. unfold Js.sortBy. apply sort_app_last.
  eapply Forall_impl; [|exact H]. unfold before. intros a Ha.
  apply Z.ltb_ge. exact Ha.
Qed.

(** The order of strings by code units. *)
Lemma ascii_compare_lt_trans (a b c : ascii) :
  Ascii.compare a b = Lt -> Ascii.compare b c = Lt -> Ascii.compare a c = Lt.
Proof.
  unfold Ascii.compare. rewrite !N.compare_lt_iff. lia.
Qed.

Lemma string_compare_lt_trans (a b c : string) :
  String.compare a b = Lt -> String.compare b c = Lt -> String.compare a c = Lt.
Proof.
  revert b c. induction a as [|x a IH]; intros [|y b] [|z c]; simpl;
    try discriminate; try reflexivity.
  destruct (Ascii.compare x y) eqn:E1; try discriminate;
    destruct (Ascii.compare y z) eqn:E2; try discriminate; intros H1 H2.
  - apply Ascii.compare_eq_iff in E1, E2. subst.
    assert (E : Ascii.compare z z = Eq)
      by (unfold Ascii.compare; apply N.compare_refl).
    rewrite E. eauto.
  - apply Ascii.compare_eq_iff in E1. subst. now rewrite E2.
  - apply Ascii.compare_eq_iff in E2. subst. now rewrite E1.
  - now rewrite (ascii_compare_lt_trans _ _ _ E1 E2).
Qed.

Lemma string_compare_refl (a : string) : String.compare a a = Eq.
Proof.
  induction a as [|x a IH]; simpl; [reflexivity|].
  assert (E : Ascii.compare x x = Eq)
    by (unfold Ascii.compare; apply N.compare_refl).
  now rewrite E.
Qed.

Lemma string_ltb_asym (a b : string) :
  String.ltb a b = true -> String.ltb b a = false.
Proof.
  unfold String.ltb. rewrite (String.compare_antisym a b).
  destruct (String.compare b a); simpl; congruence.
Qed.

Lemma string_ltb_irrefl (a : string) : String.ltb a a = false.
Proof. unfold String.ltb. now rewrite string_compare_refl. Qed.

Lemma string_ltb_trans (a b c : string) :
  String.ltb a b = true -> String.ltb b c = true -> String.ltb a c = true.
Proof.
  unfold String.ltb.
  destruct (String.compare a b) eqn:E1; try discriminate.
  destruct (String.compare b c) eqn:E2; try discriminate.
  now rewrite (string_compare_lt_trans _ _ _ E1 E2).
Qed.

(** Two strings are equal or one is below the other. *)
Lemma string_ltb_total (a b : string) :
  String.ltb a b = false -> String.ltb b a = false -> a = b.
Proof.
  unfold String.ltb. rewrite (String.compare_antisym a b).
  destruct (String.compare b a) eqn:E; simpl; try discriminate.
  intros _ _. symmetry. now apply String.compare_eq_iff.
Qed.

Lemma string_before_trans (a b c : string) :
  String.ltb b a = false -> String.ltb c b = false -> String.ltb c a = false.
Proof.
  intros H1 H2. destruct (String.ltb c a) eqn:E; [|reflexivity].
  destruct (String.ltb a b) eqn:E1.
  - rewrite (string_ltb_trans _ _ _ E E1) in H2. discriminate.
  - assert (a = b) by now apply string_ltb_total. subst. congruence.
Qed.

End OrderFacts.

(** ** [db.js]: queries, deletions and renaming *)
Section DbQueryFacts.
Import Db.

Lemma filter_and {A : Type} (p q : A -> bool) (l : list A) :
  filter p (filter q l) = filter (fun x => (q x && p x)%bool) l.
Proof.
  induction l as [|x l IH]; simpl; [reflexivity|].
  destruct (q x); simpl; [destruct (p x)|]; now rewrite IH.
Qed.

Lemma filter_none {A : Type} (p : A -> bool) (l : list A) :
  (forall x, In x l -> p x = false) -> filter p l = [].
Proof.
  induction l as [|x l IH]; simpl; [reflexivity|].
  intros H. rewrite (H x (or_introl eq_refl)). auto.
Qed.

Lemma filter_all {A : Type} (p : A -> bool) (l : list A) :
  (forall x, In x l -> p x = true) -> filter p l = l.
Proof.
  induction l as [|x l IH]; simpl; [reflexivity|].
  intros H. rewrite (H x (or_introl eq_refl)). f_equal. auto.
Qed.

Lemma filter_map_fst {A B : Type} (f : A -> B) (p : A -> bool) (l : list A) :
  filter (fun x => p (fst x)) (map (fun a => (a, f a)) l)
  = map (fun a => (a, f a)) (filter p l).
Proof.
  induction l as [|x l IH]; simpl; [reflexivity|].
  destruct (p x); simpl; now rewrite IH.
Qed.

(** The new exercise is numbered with the count of the workout's
    exercises. *)
Lemma addExercise_exercises (d : DB) (wk : Z) (name : string) :
  exercises (fst (addExercise d wk name))
  = exercises d
    ++ [mkExercise (snd (addExercise d wk name)) wk (Js.trim name)
                   (Z.of_nat (List.length (getExercisesForWorkout d wk)))].
Proof.
  unfold addExercise, getExercisesForWorkout. simpl.
  now rewrite (Permutation_length (sortBy_perm _ _)).
Qed.

(** X1. [addExercise] and [getExercisesForWorkout].  The exercise added
    carries the key returned, the trimmed name and, as its order, the
    number of exercises the workout had.  It is listed with the
    workout's other exercises; it is listed last whenever none of them
    has an order above that number (as long as no exercise was deleted,
    orders are 0, 1, 2, ...); and the lists of all other workouts, the
    workouts and the sets stay as they were. *)
Theorem addExercise_listed (d : DB) (wk : Z) (name : string) :
  let d' := fst (addExercise d wk name) in
  let new := mkExercise (snd (addExercise d wk name)) wk (Js.trim name)
               (Z.of_nat (List.length (getExercisesForWorkout d wk))) in
  Permutation (getExercisesForWorkout d' wk)
              (new :: getExercisesForWorkout d wk)
  /\ (Forall (fun e => ex_order e <= ex_order new)
             (getExercisesForWorkout d wk) ->
      getExercisesForWorkout d' wk = getExercisesForWorkout d wk ++ [new])
  /\ (forall wk', wk' <> wk ->
        getExercisesForWorkout d' wk' = getExercisesForWorkout d wk')
  /\ workouts d' = workouts d
  /\ sets d' = sets d.
Proof.
  intros d' new. unfold d'.
  assert (E : getExercisesForWorkout (fst (addExercise d wk name)) wk
              = Js.sortBy ex_order
                  (filter (fun e => ex_workoutId e =? wk) (exercises d) ++ [new])).
  { unfold getExercisesForWorkout at 1. rewrite addExercise_exercises.
    rewrite filter_app. simpl. now rewrite Z.eqb_refl. }
  split; [|split; [|split; [|split; reflexivity]]].
  - rewrite E. rewrite sortBy_perm.
    rewrite Permutation_app_comm. simpl. constructor.
    symmetry. apply sortBy_perm.
  - intros H. rewrite E. apply sortBy_app_last.
    apply Forall_forall. intros e He. rewrite Forall_forall in H.
    apply H. apply sortBy_In. exact He.
  - intros wk' Hne. unfold getExercisesForWorkout at 1.
    rewrite addExercise_exercises, filter_app. simpl.
    apply Z.eqb_neq in Hne. rewrite Z.eqb_sym in Hne. rewrite Hne.
    now rewrite app_nil_r.
Qed.

Lemma addSet_sets (d : DB) (e : Z) (weight : string) (reps : Z)
    (rpe av : option Q) (details : option (list RepDetail)) (now : Z) :
  exists new,
    sets (fst (addSet d e weight reps rpe av details now)) = sets d ++ [new]
    /\ set_id new = snd (addSet d e weight reps rpe av details now)
    /\ set_exerciseId new = e
    /\ set_weight new = weight
    /\ set_reps new = reps
    /\ set_repDetails new = details
    /\ set_timestamp new = now
    /\ set_order new = Z.of_nat (List.length (getSetsForExercise d e))
    /\ set_rpe new
       = match rpe with
         | Some q => if Js.truthy q then Some q else None
         | None => None
         end
    /\ set_avgVelocity new
       = match av with
         | Some q => if Js.truthy q then Some q else None
         | None => None
         end.
Proof.
  eexists. unfold addSet, getSetsForExercise. simpl.
  rewrite (Permutation_length (sortBy_perm _ _)).
  repeat (split; [reflexivity|]). reflexivity.
Qed.

(** X2. [addSet] and [getSetsForExercise].  The set added carries the key
    returned, the exercise, weight, reps and rep details given and, as
    its order, the number of sets the exercise had; an [rpe] or
    [avgVelocity] of zero is stored as [null] like a missing one.  It is
    listed with the exercise's other sets, last whenever none of them has
    an order above that number, and the sets listed for every other
    exercise stay as they were. *)
Theorem addSet_listed (d : DB) (e : Z) (weight : string) (reps : Z)
    (rpe av : option Q) (details : option (list RepDetail)) (now : Z) :
  let d' := fst (addSet d e weight reps rpe av details now) in
  exists new,
    set_id new = snd (addSet d e weight reps rpe av details now)
    /\ set_exerciseId new = e
    /\ set_weight new = weight
    /\ set_reps new = reps
    /\ set_repDetails new = details
    /\ set_order new = Z.of_nat (List.length (getSetsForExercise d e))
    /\ (set_rpe new = None <-> forall q, rpe = Some q -> (q == 0)%Q)
    /\ (set_avgVelocity new = None <-> forall q, av = Some q -> (q == 0)%Q)
    /\ (forall q, set_avgVelocity new = Some q -> av = Some q)
    /\ Permutation (getSetsForExercise d' e) (new :: getSetsForExercise d e)
    /\ (Forall (fun s => set_order s <= set_order new)
               (getSetsForExercise d e) ->
        getSetsForExercise d' e = getSetsForExercise d e ++ [new])
    /\ (forall e', e' <> e ->
          getSetsForExercise d' e' = getSetsForExercise d e')
    /\ workouts d' = workouts d
    /\ exercises d' = exercises d.
Proof.
  intros d'. unfold d'.
  destruct (addSet_sets d e weight reps rpe av details now)
    as [new [S [I [X [W [R [D [_ [O [P V]]]]]]]]]].
  exists new.
  assert (K : forall o : option Q,
            match o with
            | Some q => if Js.truthy q then Some q else None
            | None => None
            end = None <-> forall q, o = Some q -> (q == 0)%Q).
  { intros [q|]; [|split; [discriminate | reflexivity]].
    unfold Js.truthy. destruct (Qnum q =? 0) eqn:Z0; simpl.
    - apply Z.eqb_eq in Z0. split; [|reflexivity].
      intros _ q' [= <-]. unfold Qeq. simpl. lia.
    - apply Z.eqb_neq in Z0. split; [discriminate|].
      intros H. specialize (H q eq_refl). unfold Qeq in H. simpl in H. lia. }
  assert (E : getSetsForExercise (fst (addSet d e weight reps rpe av details now)) e
              = Js.sortBy set_order
                  (filter (fun s => set_exerciseId s =? e) (sets d) ++ [new])).
  { unfold getSetsForExercise at 1. rewrite S, filter_app. simpl.
    now rewrite X, Z.eqb_refl. }
  repeat (split; [assumption|]).
  split; [rewrite P; apply K|]. split; [rewrite V; apply K|].
  split.
  { intros q. rewrite V. destruct av as [q'|]; [|discriminate].
    destruct (Js.truthy q'); [congruence | discriminate]. }
  split; [|split; [|split; [|split; reflexivity]]].
  - rewrite E. rewrite sortBy_perm.
    rewrite Permutation_app_comm. simpl. constructor.
    symmetry. apply sortBy_perm.
  - intros H. rewrite E. apply sortBy_app_last.
    apply Forall_forall. intros s Hs. rewrite Forall_forall in H.
    apply H. apply sortBy_In. exact Hs.
  - intros e' Hne. unfold getSetsForExercise at 1.
    rewrite S, filter_app. simpl. rewrite X.
    apply Z.eqb_neq in Hne. rewrite Z.eqb_sym in Hne. rewrite Hne.
    now rewrite app_nil_r.
Qed.

(** X3. [deleteSet] removes the rows under the key and nothing else: the
    sets listed for any exercise are those listed before without that
    key, in the same order and with their order numbers unchanged;
    workouts and exercises stay; and a key that is not stored changes
    nothing. *)
Theorem deleteSet_removes_only_that_set (d : DB) (setId : Z) :
  (forall e, getSetsForExercise (deleteSet d setId) e
             = filter (fun s => negb (set_id s =? setId))
                      (getSetsForExercise d e))
  /\ (forall s, In s (sets (deleteSet d setId))
                <-> In s (sets d) /\ set_id s <> setId)
  /\ workouts (deleteSet d setId) = workouts d
  /\ exercises (deleteSet d setId) = exercises d
  /\ ((forall s, In s (sets d) -> set_id s <> setId) ->
      deleteSet d setId = d).
Proof.
  split; [|split; [|split; [reflexivity|split; [reflexivity|]]]].
  - intros e. unfold getSetsForExercise, deleteSet. simpl.
    rewrite sortBy_filter. f_equal.
    rewrite !filter_and. apply filter_ext. intros s. apply andb_comm.
  - intros s. unfold deleteSet. simpl. rewrite filter_In.
    rewrite negb_true_iff, Z.eqb_neq. reflexivity.
  - intros H. unfold deleteSet. destruct d as [ws es ss nw ne ns]. simpl in *.
    f_equal. apply filter_all. intros s Hs.
    apply negb_true_iff, Z.eqb_neq. auto.
Qed.

Lemma getExercisesForWorkout_deleteExercise (d : DB) (e wk : Z) :
  getExercisesForWorkout (deleteExercise d e) wk
  = filter (fun x => negb (ex_id x =? e)) (getExercisesForWorkout d wk).
Proof.
  unfold getExercisesForWorkout, deleteExercise. simpl.
  rewrite sortBy_filter. f_equal.
  rewrite !filter_and. apply filter_ext. intros x. apply andb_comm.
Qed.

(** X4. [deleteExercise] takes the exercise and its sets, and only them:
    the full session of every workout is the one before without the
    entries of that exercise, every other exercise keeping its sets in
    their order; no set of the exercise is left; and the workouts stay. *)
Theorem deleteExercise_cascades (d : DB) (e : Z) :
  (forall wk, getFullSession (deleteExercise d e) wk
              = filter (fun p => negb (ex_id (fst p) =? e))
                       (getFullSession d wk))
  /\ getSetsForExercise (deleteExercise d e) e = []
  /\ (forall x, In x (exercises (deleteExercise d e))
                <-> In x (exercises d) /\ ex_id x <> e)
  /\ workouts (deleteExercise d e) = workouts d.
Proof.
  split; [|split; [|split; [|reflexivity]]].
  - intros wk. unfold getFullSession.
    rewrite getExercisesForWorkout_deleteExercise.
    rewrite (filter_map_fst
               (fun ex => Js.sortBy set_order
                            (filter (fun s => set_exerciseId s =? ex_id ex) (sets d)))
               (fun x => negb (ex_id x =? e))).
    apply map_ext_in. intros ex Hex. apply filter_In in Hex as [_ Hne].
    f_equal. f_equal. unfold deleteExercise. simpl.
    rewrite filter_and. apply filter_ext. intros s.
    destruct (set_exerciseId s =? ex_id ex) eqn:E1;
      [|now rewrite andb_false_r].
    apply Z.eqb_eq in E1. rewrite E1, Hne. reflexivity.
  - unfold getSetsForExercise, deleteExercise. simpl.
    rewrite filter_and.
    rewrite filter_none; [reflexivity|].
    intros s _. destruct (set_exerciseId s =? e); reflexivity.
  - intros x. unfold deleteExercise. simpl. rewrite filter_In.
    rewrite negb_true_iff, Z.eqb_neq. reflexivity.
Qed.

End DbQueryFacts.

Section DbDeleteFacts.
Import Db.

Lemma existsb_Zeqb_In (x : Z) (l : list Z) :
  existsb (Z.eqb x) l = true <-> In x l.
Proof.
  rewrite existsb_exists. split.
  - intros [y [Hy E]]. apply Z.eqb_eq in E. now subst.
  - intros H. exists x. split; [exact H | apply Z.eqb_refl].
Qed.

Lemma getExercisesForWorkout_In (d : DB) (wk : Z) (e : Exercise) :
  In e (getExercisesForWorkout d wk)
  <-> In e (exercises d) /\ ex_workoutId e = wk.
Proof.
  unfold getExercisesForWorkout. rewrite sortBy_In, filter_In, Z.eqb_eq.
  reflexivity.
Qed.

(** X5. [deleteWorkout] takes the workout, its exercises and their sets:
    afterwards no workout carries the key, the workout's full session is
    empty, and every other workout is still stored.  With unique
    exercise keys (as IndexedDB keeps them) nothing else is touched: the
    full session of every other workout is as before. *)
Theorem deleteWorkout_cascades (d : DB) (wk : Z) :
  NoDup (map ex_id (exercises d)) ->
  (forall w, In w (workouts (deleteWorkout d wk))
             <-> In w (workouts d) /\ w_id w <> wk)
  /\ getFullSession (deleteWorkout d wk) wk = []
  /\ (forall wk', wk' <> wk ->
        getFullSession (deleteWorkout d wk) wk' = getFullSession d wk').
Proof.
  intros Hnd. split; [|split].
  - intros w. unfold deleteWorkout. simpl. rewrite filter_In.
    rewrite negb_true_iff, Z.eqb_neq. reflexivity.
  - assert (E : getExercisesForWorkout (deleteWorkout d wk) wk = []).
    { unfold getExercisesForWorkout, deleteWorkout. simpl.
      rewrite filter_and, filter_none; [reflexivity|].
      intros e _. destruct (ex_workoutId e =? wk); reflexivity. }
    unfold getFullSession. now rewrite E.
  - intros wk' Hne.
    assert (E : getExercisesForWorkout (deleteWorkout d wk) wk'
                = getExercisesForWorkout d wk').
    { unfold getExercisesForWorkout, deleteWorkout. simpl. f_equal.
      rewrite filter_and. apply filter_ext. intros e.
      destruct (ex_workoutId e =? wk') eqn:E1; [|now rewrite andb_false_r].
      apply Z.eqb_eq in E1. rewrite E1.
      apply Z.eqb_neq in Hne. now rewrite Hne. }
    unfold getFullSession. rewrite E.
    apply map_ext_in. intros ex Hex.
    apply getExercisesForWorkout_In in Hex as [Hin Hwk].
    f_equal. f_equal. unfold deleteWorkout. simpl.
    rewrite filter_and. apply filter_ext. intros s.
    destruct (set_exerciseId s =? ex_id ex) eqn:E1;
      [|now rewrite andb_false_r].
    apply Z.eqb_eq in E1. rewrite andb_true_r.
    apply negb_true_iff.
    destruct (existsb _ _) eqn:X; [|reflexivity]. exfalso.
    apply existsb_Zeqb_In in X. apply in_map_iff in X as [ex' [Hid Hex']].
    apply filter_In in Hex' as [Hin' Hwk']. apply Z.eqb_eq in Hwk'.
    assert (ex' = ex).
    { clear - Hnd Hin Hin' Hid E1.
      assert (Hid' : ex_id ex' = ex_id ex) by congruence. clear Hid E1.
      induction (exercises d) as [|a l IH]; [contradiction|].
      simpl in Hnd. inversion Hnd as [|? ? Hna Hnd']; subst.
      destruct Hin as [->|Hin], Hin' as [->|Hin']; auto.
      - exfalso. apply Hna. rewrite <- Hid'. now apply in_map.
      - exfalso. apply Hna. rewrite Hid'. now apply in_map. }
    subst ex'. congruence.
Qed.

(** X6. The three deletions keep referential integrity: when every
    exercise belongs to a stored workout and every set to a stored
    exercise, so it is after [deleteSet], [deleteExercise] and
    [deleteWorkout]: no deletion leaves an orphan behind. *)
Theorem deletions_leave_no_orphans (d : DB) (id : Z) :
  no_orphans d ->
  no_orphans (deleteSet d id)
  /\ no_orphans (deleteExercise d id)
  /\ no_orphans (deleteWorkout d id).
Proof.
  intros [He Hs]. split; [|split]; split.
  - intros e H. exact (He e H).
  - intros s H. unfold deleteSet in H. simpl in H.
    apply filter_In in H as [H _]. exact (Hs s H).
  - intros e H. unfold deleteExercise in H. simpl in H.
    apply filter_In in H as [H _]. exact (He e H).
  - intros s H. unfold deleteExercise in *. simpl in *.
    apply filter_In in H as [H Hne].
    destruct (Hs s H) as [e [Hin Hid]]. exists e. split; [|exact Hid].
    apply filter_In. split; [exact Hin|]. now rewrite Hid.
  - intros e H. unfold deleteWorkout in *. simpl in *.
    apply filter_In in H as [H Hne].
    destruct (He e H) as [w [Hin Hid]]. exists w. split; [|exact Hid].
    apply filter_In. split; [exact Hin|]. now rewrite Hid.
  - intros s H. unfold deleteWorkout in *. simpl in *.
    apply filter_In in H as [H Hne].
    destruct (Hs s H) as [e [Hin Hid]]. exists e. split; [|exact Hid].
    apply filter_In. split; [exact Hin|].
    apply negb_true_iff. apply negb_true_iff in Hne.
    destruct (ex_workoutId e =? id) eqn:E; [|reflexivity]. exfalso.
    assert (X : existsb (Z.eqb (set_exerciseId s))
                  (map ex_id (filter (fun e => ex_workoutId e =? id) (exercises d)))
                = true).
    { apply existsb_Zeqb_In. rewrite <- Hid. apply in_map.
      apply filter_In. auto. }
    congruence.
Qed.

End DbDeleteFacts.

Section DbRenameFacts.
Import Db.

(** An exercise under a new name. *)
Local Abbreviation renamed e name :=
  (mkExercise (ex_id e) (ex_workoutId e) name (ex_order e)).

Lemma NoDup_key_eq {A : Type} (key : A -> Z) (l : list A) (a b : A) :
  NoDup (map key l) -> In a l -> In b l -> key a = key b -> a = b.
Proof.
  induction l as [|x l IH]; simpl; [contradiction|].
  intros Hnd Ha Hb E. inversion Hnd as [|? ? Hx Hnd']; subst.
  destruct Ha as [->|Ha], Hb as [->|Hb]; auto.
  - exfalso. apply Hx. rewrite E. now apply in_map.
  - exfalso. apply Hx. rewrite <- E. now apply in_map.
Qed.

Lemma fold_update_name (ids : list Z) (name : string) (d : DB) :
  let d' := fold_left (fun d id => exercises_update_name d id name) ids d in
  exercises d'
  = map (fun e => if existsb (Z.eqb (ex_id e)) ids then renamed e name else e)
        (exercises d)
  /\ workouts d' = workouts d /\ sets d' = sets d
  /\ next_workout d' = next_workout d /\ next_exercise d' = next_exercise d
  /\ next_set d' = next_set d.
Proof.
  revert d. induction ids as [|i ids IH]; intros d; simpl.
  - rewrite map_id. repeat split.
  - destruct (IH (exercises_update_name d i name)) as [E R]. clear IH.
    cbv zeta in *. split; [|exact R].
    rewrite E. unfold exercises_update_name. simpl. rewrite map_map.
    apply map_ext. intros e.
    destruct (ex_id e =? i) eqn:Ei; simpl.
    + destruct (existsb _ ids); reflexivity.
    + reflexivity.
Qed.

Lemma fold_left_map {A B C : Type} (f : C -> B -> C) (g : A -> B)
    (l : list A) (c : C) :
  fold_left (fun c a => f c (g a)) l c = fold_left f (map g l) c.
Proof. revert c. induction l as [|a l IH]; intros c; simpl; auto. Qed.

(** X7. [renameExercise] renames exactly the exercises whose name is
    [oldName] up to case, gives them [newName] as it is (no trimming),
    keeps their keys, workouts and orders, touches no other row, and
    returns how many they were.  (Keys are unique, as IndexedDB keeps
    them.) *)
Theorem renameExercise_renames_matches (d : DB) (oldName newName : string) :
  NoDup (map ex_id (exercises d)) ->
  let matches e :=
    String.eqb (Js.toLowerCase (ex_name e)) (Js.toLowerCase oldName) in
  exercises (fst (renameExercise d oldName newName))
  = map (fun e => if matches e then renamed e newName else e) (exercises d)
  /\ snd (renameExercise d oldName newName)
     = Z.of_nat (List.length (filter matches (exercises d)))
  /\ workouts (fst (renameExercise d oldName newName)) = workouts d
  /\ sets (fst (renameExercise d oldName newName)) = sets d.
Proof.
  intros Hnd matches. unfold renameExercise. cbn [fst snd].
  fold matches.
  rewrite (fold_left_map (fun d id => exercises_update_name d id newName) ex_id).
  destruct (fold_update_name (map ex_id (filter matches (exercises d)))
                             newName d) as [E [W [S _]]].
  cbv zeta in E, W, S. rewrite E, W, S.
  split; [|repeat split].
  apply map_ext_in. intros e He.
  destruct (matches e) eqn:M.
  - assert (X : existsb (Z.eqb (ex_id e))
                  (map ex_id (filter matches (exercises d))) = true).
    { apply existsb_Zeqb_In. apply in_map. apply filter_In. auto. }
    now rewrite X.
  - destruct (existsb _ _) eqn:X; [|reflexivity]. exfalso.
    apply existsb_Zeqb_In in X. apply in_map_iff in X as [e' [Hid He']].
    apply filter_In in He' as [He' M'].
    assert (e' = e) by (apply (NoDup_key_eq ex_id (exercises d)); auto).
    subst. congruence.
Qed.

(** The names [normalizeExerciseNames] replaces, up to case. *)
Local Abbreviation variant name :=
  (existsb (fun p => String.eqb (Js.toLowerCase name)
                                (Js.toLowerCase (fst p)))
           normalizations).

Lemma renameExercise_ids (d : DB) (oldName newName : string) :
  map ex_id (exercises (fst (renameExercise d oldName newName)))
  = map ex_id (exercises d).
Proof.
  unfold renameExercise. cbn [fst].
  rewrite (fold_left_map (fun d id => exercises_update_name d id newName) ex_id).
  destruct (fold_update_name
              (map ex_id
                 (filter (fun e => String.eqb (Js.toLowerCase (ex_name e))
                                              (Js.toLowerCase oldName))
                         (exercises d)))
              newName d) as [E _].
  cbv zeta in E. rewrite E, map_map. apply map_ext. intros e.
  destruct (existsb _ _); reflexivity.
Qed.

(** X8. [normalizeExerciseNames] leaves every exercise named "Back
    Squat", "Barbell Squat" or "BB Squat" (in any case) with the name
    "Squat" and every other exercise as it was; afterwards no exercise
    carries one of the three names, so a second run changes nothing. *)
Theorem normalizeExerciseNames_normalizes (d : DB) :
  NoDup (map ex_id (exercises d)) ->
  exercises (normalizeExerciseNames d)
  = map (fun e => if variant (ex_name e) then renamed e "Squat" else e)
        (exercises d)
  /\ (forall e, In e (exercises (normalizeExerciseNames d)) ->
        variant (ex_name e) = false)
  /\ exercises (normalizeExerciseNames (normalizeExerciseNames d))
     = exercises (normalizeExerciseNames d)
  /\ workouts (normalizeExerciseNames d) = workouts d
  /\ sets (normalizeExerciseNames d) = sets d.
Proof.
  intros Hnd.
  assert (Step : forall d0 o n,
            NoDup (map ex_id (exercises d0)) ->
            NoDup (map ex_id (exercises (fst (renameExercise d0 o n))))).
  { intros d0 o n H. now rewrite renameExercise_ids. }
  assert (Main : forall d0, NoDup (map ex_id (exercises d0)) ->
            exercises (normalizeExerciseNames d0)
            = map (fun e => if variant (ex_name e) then renamed e "Squat" else e)
                  (exercises d0)
            /\ workouts (normalizeExerciseNames d0) = workouts d0
            /\ sets (normalizeExerciseNames d0) = sets d0
            /\ NoDup (map ex_id (exercises (normalizeExerciseNames d0)))).
  { intros d0 H0. unfold normalizeExerciseNames, normalizations.
    cbn [fold_left fst snd].
    set (d1 := fst (renameExercise d0 "Back Squat" "Squat")).
    set (d2 := fst (renameExercise d1 "Barbell Squat" "Squat")).
    set (d3 := fst (renameExercise d2 "BB Squat" "Squat")).
    assert (H1 : NoDup (map ex_id (exercises d1))) by (apply Step; exact H0).
    assert (H2 : NoDup (map ex_id (exercises d2))) by (apply Step; exact H1).
    assert (H3 : NoDup (map ex_id (exercises d3))) by (apply Step; exact H2).
    destruct (renameExercise_renames_matches d0 "Back Squat" "Squat" H0)
      as [E1 [_ [W1 S1]]].
    destruct (renameExercise_renames_matches d1 "Barbell Squat" "Squat" H1)
      as [E2 [_ [W2 S2]]].
    destruct (renameExercise_renames_matches d2 "BB Squat" "Squat" H2)
      as [E3 [_ [W3 S3]]].
    cbv zeta in *. fold d1 in E1, W1, S1. fold d2 in E2, W2, S2.
    fold d3 in E3, W3, S3.
    split; [|split; [congruence|split; [congruence|exact H3]]].
    rewrite E3, E2, E1, !map_map. apply map_ext. intros e.
    cbn [existsb fst].
    change (Js.toLowerCase "Back Squat") with "back squat".
    change (Js.toLowerCase "Barbell Squat") with "barbell squat".
    change (Js.toLowerCase "BB Squat") with "bb squat".
    destruct (String.eqb (Js.toLowerCase (ex_name e)) "back squat") eqn:A1;
      cbn [ex_name orb].
    { reflexivity. }
    destruct (String.eqb (Js.toLowerCase (ex_name e)) "barbell squat") eqn:A2;
      cbn [ex_name orb].
    { reflexivity. }
    rewrite orb_false_r.
    destruct (String.eqb (Js.toLowerCase (ex_name e)) "bb squat"); reflexivity. }
  destruct (Main d Hnd) as [E [W [S N]]].
  assert (Clean : forall e, In e (exercises (normalizeExerciseNames d)) ->
            variant (ex_name e) = false).
  { intros e He. rewrite E in He. apply in_map_iff in He as [e0 [<- _]].
    destruct (variant (ex_name e0)) eqn:V; [reflexivity | exact V]. }
  split; [exact E|]. split; [exact Clean|]. split; [|split; assumption].
  destruct (Main (normalizeExerciseNames d) N) as [E' _]. rewrite E'.
  rewrite <- (map_id (exercises (normalizeExerciseNames d))) at 2.
  apply map_ext_in. intros e He. now rewrite (Clean e He).
Qed.

End DbRenameFacts.

Section DbSearchFacts.
Import Db.

Lemma existsb_String_eqb_In (x : string) (l : list string) :
  existsb (String.eqb x) l = true <-> In x l.
Proof.
  rewrite existsb_exists. split.
  - intros [y [Hy E]]. apply String.eqb_eq in E. now subst.
  - intros H. exists x. split; [exact H | apply String.eqb_refl].
Qed.

Lemma dedup_names_spec (l seen : list string) :
  NoDup (dedup_names seen l)
  /\ forall n, In n (dedup_names seen l) <-> In n l /\ ~ In n seen.
Proof.
  revert seen. induction l as [|x l IH]; intros seen; simpl.
  - split; [constructor | intros n; tauto].
  - destruct (existsb (String.eqb x) seen) eqn:E.
    + apply existsb_String_eqb_In in E.
      destruct (IH seen) as [N M]. split; [exact N|].
      intros n. rewrite M. split; [tauto|].
      intros [[->|H] Hs]; [contradiction | tauto].
    + assert (Hx : ~ In x seen).
      { intros H. apply existsb_String_eqb_In in H. congruence. }
      destruct (IH (x :: seen)) as [N M]. split.
      * constructor; [|exact N]. rewrite M. simpl. tauto.
      * intros n. simpl. rewrite M. simpl.
        destruct (String.eqb_spec x n) as [->|Hne]; [tauto|].
        split; [tauto|]. intros [[H|H] Hs]; [contradiction|]. tauto.
Qed.

Lemma sorted_strict (l : list string) :
  NoDup l ->
  StronglySorted (fun a b => String.ltb b a = false) l ->
  StronglySorted (fun a b => String.ltb a b = true) l.
Proof.
  intros N S. induction S as [|x l S IH Hx]; constructor.
  - apply IH. now inversion N.
  - inversion N as [|? ? Hnin _]; subst.
    apply Forall_forall. intros y Hy. rewrite Forall_forall in Hx.
    destruct (String.ltb x y) eqn:E; [reflexivity|]. exfalso.
    apply Hnin. rewrite (string_ltb_total x y E (Hx y Hy)). exact Hy.
Qed.

(** X9. [getAllExerciseNames] returns every exercise name exactly once,
    in strictly ascending order of code units.  Names are compared as
    they are stored: two spellings that differ in case are two names. *)
Theorem getAllExerciseNames_sorted_set (d : DB) :
  NoDup (getAllExerciseNames d)
  /\ StronglySorted (fun a b => String.ltb a b = true) (getAllExerciseNames d)
  /\ forall n, In n (getAllExerciseNames d)
               <-> exists e, In e (exercises d) /\ ex_name e = n.
Proof.
  unfold getAllExerciseNames, Js.sort_strings.
  destruct (dedup_names_spec (map ex_name (exercises d)) []) as [N M].
  assert (N' : NoDup (Js.sort String.ltb
                        (dedup_names [] (map ex_name (exercises d))))).
  { eapply Permutation_NoDup; [symmetry; apply sort_perm | exact N]. }
  split; [exact N'|]. split.
  - apply sorted_strict; [exact N'|].
    apply (sort_sorted String.ltb); unfold before.
    + apply string_ltb_asym.
    + apply string_before_trans.
  - intros n. rewrite sort_In, M, in_map_iff. simpl.
    split; [intros [[e [E H]] _]; eauto | intros [e [H E]]; split; eauto].
Qed.

Lemma unique_from_spec (l seen : list Z) :
  NoDup (Js.unique_from Z.eqb seen l)
  /\ forall n, In n (Js.unique_from Z.eqb seen l) <-> In n l /\ ~ In n seen.
Proof.
  revert seen. induction l as [|x l IH]; intros seen; simpl.
  - split; [constructor | intros n; tauto].
  - destruct (existsb (Z.eqb x) seen) eqn:E.
    + apply existsb_Zeqb_In in E.
      destruct (IH seen) as [N M]. split; [exact N|].
      intros n. rewrite M. split; [tauto|].
      intros [[->|H] Hs]; [contradiction | tauto].
    + assert (Hx : ~ In x seen).
      { intros H. apply existsb_Zeqb_In in H. congruence. }
      destruct (IH (x :: seen)) as [N M]. split.
      * constructor; [|exact N]. rewrite M. simpl. tauto.
      * intros n. simpl. rewrite M. simpl.
        destruct (Z.eq_dec x n) as [->|Hne]; [tauto|].
        split; [tauto|]. intros [[H|H] Hs]; [contradiction|]. tauto.
Qed.

Lemma filter_Boolean_In {A : Type} (l : list (option A)) (a : A) :
  In a (filter_Boolean l) <-> In (Some a) l.
Proof.
  unfold filter_Boolean. rewrite in_flat_map. split.
  - intros [[b|] [H Hb]]; simpl in Hb; [|contradiction].
    destruct Hb as [->|[]]. exact H.
  - intros H. exists (Some a). simpl. auto.
Qed.

Lemma find_by_id (d : DB) (w : Workout) :
  NoDup (map w_id (workouts d)) -> In w (workouts d) ->
  find (fun x => w_id x =? w_id w) (workouts d) = Some w.
Proof.
  intros N H.
  destruct (find (fun x => w_id x =? w_id w) (workouts d)) as [x|] eqn:F.
  - apply find_some in F as [Hx E]. apply Z.eqb_eq in E.
    f_equal. apply (NoDup_key_eq w_id (workouts d)); auto.
  - exfalso. apply (find_none _ _ F) in H. rewrite Z.eqb_refl in H.
    discriminate.
Qed.

Lemma bulkGet_NoDup (d : DB) (ids : list Z) :
  NoDup ids -> NoDup (filter_Boolean (workouts_bulkGet d ids)).
Proof.
  induction 1 as [|i ids Hi N IH]; simpl; [constructor|].
  destruct (find (fun w => w_id w =? i) (workouts d)) as [w|] eqn:F;
    simpl; [|exact IH].
  constructor; [|exact IH].
  intros H. apply filter_Boolean_In in H.
  unfold workouts_bulkGet in H. apply in_map_iff in H as [j [Fj Hj]].
  apply find_some in F as [_ E]. apply find_some in Fj as [_ Ej].
  apply Z.eqb_eq in E, Ej. congruence.
Qed.

(** Two comparators that agree on the elements of a list sort it alike. *)
Lemma sort_ext_in {A : Type} (f g : A -> A -> bool) (l : list A) :
  (forall a b, In a l -> In b l -> a <> b -> f a b = g a b) ->
  NoDup l ->
  Js.sort f l = Js.sort g l.
Proof.
  induction l as [|x l IH]; simpl; [reflexivity|].
  intros H N. inversion N as [|? ? Hx N']; subst.
  rewrite IH; [|intros a b Ha Hb; apply H; simpl; auto | exact N'].
  assert (Hs : forall y, In y (Js.sort g l) -> f y x = g y x).
  { intros y Hy. apply sort_In in Hy. apply H; simpl; auto.
    intros ->. contradiction. }
  clear IH H N N' Hx. revert Hs.
  induction (Js.sort g l) as [|y s IHs]; intros Hs; simpl; [reflexivity|].
  rewrite (Hs y (or_introl eq_refl)).
  destruct (g y x); [|reflexivity]. f_equal. apply IHs.
  intros z Hz. apply Hs. simpl. auto.
Qed.

(** X10. [searchWorkoutsByExercise] returns the stored workouts that have
    an exercise whose name contains the query, case ignored (the query
    is not trimmed; the empty query is contained in every name): each
    such workout once, however many of its exercises match.  When no
    two workouts share a date, the result is in strictly descending
    order of date.  (Workout keys are unique, as IndexedDB keeps
    them.) *)
Theorem searchWorkoutsByExercise_finds (d : DB) (query : string) :
  NoDup (map w_id (workouts d)) ->
  (forall w, In w (searchWorkoutsByExercise d query)
             <-> In w (workouts d)
                 /\ exists e, In e (exercises d)
                              /\ ex_workoutId e = w_id w
                              /\ Js.includes (Js.toLowerCase (ex_name e))
                                             (Js.toLowerCase query) = true)
  /\ NoDup (searchWorkoutsByExercise d query)
  /\ (NoDup (map w_date (workouts d)) ->
      StronglySorted (fun a b => String.ltb (w_date b) (w_date a) = true)
                     (searchWorkoutsByExercise d query)).
Proof.
  intros N. unfold searchWorkoutsByExercise.
  set (matches := filter _ (exercises d)).
  destruct (unique_from_spec (map ex_workoutId matches) []) as [U M].
  fold (Js.unique Z.eqb (map ex_workoutId matches)) in U, M.
  set (found := filter_Boolean
                  (workouts_bulkGet d (Js.unique Z.eqb (map ex_workoutId matches)))).
  assert (Hfound : forall w, In w found
            <-> In w (workouts d)
                /\ exists e, In e (exercises d)
                             /\ ex_workoutId e = w_id w
                             /\ Js.includes (Js.toLowerCase (ex_name e))
                                            (Js.toLowerCase query) = true).
  { intros w. unfold found. rewrite filter_Boolean_In.
    unfold workouts_bulkGet. rewrite in_map_iff. split.
    - intros [i [F Hi]]. apply find_some in F as [Hw E].
      apply Z.eqb_eq in E. split; [exact Hw|].
      apply M in Hi as [Hi _]. apply in_map_iff in Hi as [e [He Hm]].
      apply filter_In in Hm as [Hin Hq]. exists e. repeat split; congruence.
    - intros [Hw [e [Hin [He Hq]]]]. exists (w_id w).
      split; [now apply find_by_id|].
      apply M. split; [|intros []]. rewrite <- He. apply in_map.
      apply filter_In. auto. }
  assert (Nf : NoDup found) by (apply bulkGet_NoDup; exact U).
  split; [|split].
  - intros w. rewrite sort_In. apply Hfound.
  - eapply Permutation_NoDup; [symmetry; apply sort_perm | exact Nf].
  - intros Nd.
    assert (Hd : forall a b, In a found -> In b found -> a <> b ->
                             w_date a <> w_date b).
    { intros a b Ha Hb Hne E. apply Hne.
      apply Hfound in Ha as [Ha _]. apply Hfound in Hb as [Hb _].
      clear - Nd Ha Hb E.
      induction (workouts d) as [|x l IH]; [contradiction|].
      simpl in Nd. inversion Nd as [|? ? Hx Nd']; subst.
      destruct Ha as [->|Ha], Hb as [->|Hb]; auto.
      - exfalso. apply Hx. rewrite E. now apply in_map.
      - exfalso. apply Hx. rewrite <- E. now apply in_map. }
    rewrite (sort_ext_in _ (fun a b => String.ltb (w_date b) (w_date a)) found).
    + set (g := fun a b : Workout => String.ltb (w_date b) (w_date a)).
      assert (S : StronglySorted (before g) (Js.sort g found)).
      { apply sort_sorted; unfold before, g.
        - intros a b. apply string_ltb_asym.
        - intros a b c H1 H2.
          exact (string_before_trans _ _ _ H2 H1). }
      assert (Ns : NoDup (Js.sort g found))
        by (eapply Permutation_NoDup; [symmetry; apply sort_perm | exact Nf]).
      assert (In_s : forall x, In x (Js.sort g found) -> In x found)
        by (intros x; apply sort_In).
      clear - S Ns In_s Hd.
      induction S as [|x l S IH Hx]; constructor.
      * apply IH; [now inversion Ns | intros y Hy; apply In_s; simpl; auto].
      * inversion Ns as [|? ? Hnin _]; subst.
        apply Forall_forall. intros y Hy. rewrite Forall_forall in Hx.
        specialize (Hx y Hy). unfold before, g in Hx.
        destruct (String.ltb (w_date y) (w_date x)) eqn:E; [reflexivity|].
        exfalso. apply (Hd x y); [apply In_s; simpl; auto
                                 | apply In_s; simpl; auto
                                 | intros ->; contradiction |].
        apply string_ltb_total; assumption.
    + intros a b Ha Hb Hne. specialize (Hd a b Ha Hb Hne).
      destruct (String.ltb (w_date a) (w_date b)) eqn:E1; simpl.
      * symmetry. now apply string_ltb_asym.
      * destruct (String.ltb (w_date b) (w_date a)) eqn:E2; [reflexivity|].
        exfalso. apply Hd. now apply string_ltb_total.
    + exact Nf.
Qed.

End DbSearchFacts.

Section DbDatesFacts.
Import Db.

Lemma StronglySorted_rev {A : Type} (R : A -> A -> Prop) (l : list A) :
  StronglySorted R l -> StronglySorted (fun a b => R b a) (rev l).
Proof.
  induction 1 as [|x l S IH Hx]; simpl; [constructor|].
  assert (G : forall m, StronglySorted (fun a b => R b a) m ->
                        Forall (fun y => R x y) m ->
                        StronglySorted (fun a b => R b a) (m ++ [x])).
  { induction 1 as [|y m Sm IHm Hy]; intros F; simpl.
    - repeat constructor.
    - inversion F; subst. constructor; [auto|].
      apply Forall_app. split; [exact Hy | repeat constructor; assumption]. }
  apply G; [exact IH|]. apply Forall_forall. intros y Hy.
  rewrite Forall_forall in Hx. apply Hx. now apply in_rev.
Qed.

Lemma StronglySorted_map {A B : Type} (f : A -> B) (R : B -> B -> Prop)
    (l : list A) :
  StronglySorted (fun a b => R (f a) (f b)) l -> StronglySorted R (map f l).
Proof.
  induction 1 as [|x l S IH Hx]; simpl; constructor; [exact IH|].
  apply Forall_map. exact Hx.
Qed.

(** The workouts as the loop of [getAllWorkoutDates] meets them: all of
    them, by descending date. *)
Lemma workouts_by_date_reverse_spec (d : DB) :
  (forall w, In w (workouts_by_date_reverse d) <-> In w (workouts d))
  /\ StronglySorted (fun a b => String.ltb a b = false)
                    (map w_date (workouts_by_date_reverse d)).
Proof.
  unfold workouts_by_date_reverse. split.
  - intros w. rewrite <- in_rev. apply sort_In.
  - apply StronglySorted_map.
    apply (StronglySorted_rev
             (before (fun a b => String.ltb (w_date a) (w_date b)))).
    apply sort_sorted; unfold before.
    + intros a b. apply string_ltb_asym.
    + intros a b c. apply string_before_trans.
Qed.

(** The entry the loop makes of a workout. *)
Local Abbreviation entry d w :=
  (mkWorkoutDate (w_id w) (w_date w) (classify (exercisesByWorkout d (w_id w)))).

Lemma collect_dates_spec (d : DB) (ws : list Workout) (seen : list string) :
  NoDup (map wd_date (collect_dates d seen ws))
  /\ (forall date, In date (map wd_date (collect_dates d seen ws))
                   <-> (exists w, In w ws /\ w_date w = date)
                       /\ Js.startsWith date "__" = false
                       /\ ~ In date seen)
  /\ (forall x, In x (collect_dates d seen ws) ->
        exists w, In w ws /\ x = entry d w)
  /\ (forall R : string -> string -> Prop,
        StronglySorted R (map w_date ws) ->
        StronglySorted R (map wd_date (collect_dates d seen ws))).
Proof.
  revert seen. induction ws as [|w ws IH]; intros seen; simpl.
  - split; [constructor|]. split; [|split].
    + intros date. split; [contradiction | intros [[w [[] _]] _]].
    + contradiction.
    + auto.
  - destruct (Js.startsWith (w_date w) "__") eqn:P.
    { destruct (IH seen) as [N [M [E S]]]. split; [exact N|].
      split; [|split].
      - intros date. rewrite M. split.
        + intros [[x [Hx Hd]] R]. split; [eauto | exact R].
        + intros [[x [[->|Hx] Hd]] [Q R]]; [congruence|]. eauto.
      - intros x Hx. destruct (E x Hx) as [y [Hy ->]]. eauto.
      - intros R H. apply S. now inversion H. }
    destruct (existsb (String.eqb (w_date w)) seen) eqn:X.
    { apply existsb_String_eqb_In in X.
      destruct (IH seen) as [N [M [E S]]]. split; [exact N|].
      split; [|split].
      - intros date. rewrite M. split.
        + intros [[x [Hx Hd]] R]. split; [eauto | exact R].
        + intros [[x [[->|Hx] Hd]] [Q R]]; [subst; contradiction|]. eauto.
      - intros x Hx. destruct (E x Hx) as [y [Hy ->]]. eauto.
      - intros R H. apply S. now inversion H. }
    assert (Hs : ~ In (w_date w) seen).
    { intros H. apply existsb_String_eqb_In in H. congruence. }
    destruct (IH (w_date w :: seen)) as [N [M [E S]]]. simpl.
    split; [|split; [|split]].
    + constructor; [|exact N]. rewrite M. simpl. tauto.
    + intros date. rewrite M. simpl. split.
      * intros [<-|[[x [Hx Hd]] [Q R]]]; [eauto 6|].
        split; [eauto|]. tauto.
      * intros [[x [[->|Hx] Hd]] [Q R]]; [auto|].
        destruct (String.eqb_spec (w_date w) date) as [->|Hne]; [auto|].
        right. split; [eauto|]. tauto.
    + intros x [<-|Hx]; [eauto|].
      destruct (E x Hx) as [y [Hy ->]]. eauto.
    + intros R H. inversion H as [|? ? H1 H2]; subst.
      constructor; [apply S; exact H1|].
      apply Forall_forall. intros date Hd.
      apply M in Hd as [[x [Hx <-]] _].
      rewrite Forall_forall in H2. apply H2. now apply in_map.
Qed.

(** X11. [getAllWorkoutDates] lists every date that has a workout and
    does not start with "__", each date once, the most recent first
    (strictly descending order of the date strings).  Dates that start
    with "__" are never listed. *)
Theorem getAllWorkoutDates_lists_each_date_once (d : DB) :
  NoDup (map wd_date (getAllWorkoutDates d))
  /\ (forall date, In date (map wd_date (getAllWorkoutDates d))
                   <-> (exists w, In w (workouts d) /\ w_date w = date)
                       /\ Js.startsWith date "__" = false)
  /\ StronglySorted (fun a b => String.ltb b a = true)
                    (map wd_date (getAllWorkoutDates d)).
Proof.
  unfold getAllWorkoutDates.
  destruct (collect_dates_spec d (workouts_by_date_reverse d) [])
    as [N [M [_ S]]].
  destruct (workouts_by_date_reverse_spec d) as [I O].
  split; [exact N|]. split.
  - intros date. rewrite M. split.
    + intros [[w [Hw Hd]] [P _]]. split; [|exact P].
      exists w. split; [now apply I | exact Hd].
    + intros [[w [Hw Hd]] P]. split; [|split; [exact P | intros []]].
      exists w. split; [now apply I | exact Hd].
  - specialize (S _ O). revert N S.
    generalize (map wd_date (collect_dates d [] (workouts_by_date_reverse d))).
    intros l N S. induction S as [|x l S IH Hx]; constructor.
    + apply IH. now inversion N.
    + inversion N as [|? ? Hnin _]; subst.
      apply Forall_forall. intros y Hy. rewrite Forall_forall in Hx.
      destruct (String.ltb y x) eqn:E; [reflexivity|]. exfalso.
      apply Hnin. rewrite (string_ltb_total x y (Hx y Hy) E). exact Hy.
Qed.

(** X12. Every entry of [getAllWorkoutDates] carries the key and the
    date of a stored workout, and as its label the classification of
    the lower-cased names of that workout's exercises.  When no two
    workouts share a date (as when they are made by [createWorkout]),
    the key listed for a date is the key of the workout
    [getWorkoutByDate] returns for it. *)
Theorem getAllWorkoutDates_entries (d : DB) (x : WorkoutDate) :
  In x (getAllWorkoutDates d) ->
  exists w,
    In w (workouts d)
    /\ wd_id x = w_id w
    /\ wd_date x = w_date w
    /\ wd_label x = classify (exercisesByWorkout d (w_id w))
    /\ (NoDup (map w_date (workouts d)) ->
        getWorkoutByDate d (wd_date x) = Some w).
Proof.
  unfold getAllWorkoutDates. intros Hx.
  destruct (collect_dates_spec d (workouts_by_date_reverse d) [])
    as [_ [_ [E _]]].
  destruct (workouts_by_date_reverse_spec d) as [I _].
  destruct (E x Hx) as [w [Hw ->]]. apply I in Hw.
  exists w. simpl. repeat (split; [auto|]).
  intros N. unfold getWorkoutByDate, workouts_first_by_date.
  clear - N Hw. induction (workouts d) as [|a l IH]; [contradiction|].
  simpl in *. inversion N as [|? ? Ha N']; subst.
  destruct Hw as [->|Hw]; [now rewrite String.eqb_refl|].
  destruct (String.eqb_spec (w_date a) (w_date w)) as [E|_]; [|auto].
  exfalso. apply Ha. rewrite E. now apply in_map.
Qed.

Lemma count_name_step (c : Z * Z * Z) (n : string) :
  let '(p, q, l) := c in
  let '(p', q', l') := count_name c n in
  p <= p' /\ q <= q' /\ l <= l'
  /\ (Js.test legs_re n = true -> p' = p /\ q' = q /\ l' = l + 1)
  /\ (Js.test legs_re n = false -> l' = l)
  /\ (Js.test legs_re n = false -> Js.test push_re n = false -> p' = p)
  /\ (Js.test legs_re n = false -> Js.test push_re n = false ->
      Js.test pull_re n = false -> q' = q).
Proof.
  destruct c as [[p q] l]. unfold count_name.
  destruct (Js.test legs_re n); [repeat split; intros; (lia || discriminate)|].
  destruct (Js.test push_re n); [repeat split; intros; (lia || discriminate)|].
  destruct (Js.test pull_re n); repeat split; intros; (lia || discriminate).
Qed.

Lemma count_names (names : list string) (p q l : Z) :
  let '(p', q', l') := fold_left count_name names (p, q, l) in
  p <= p' /\ q <= q' /\ l <= l'
  /\ (Forall (fun n => Js.test legs_re n = true) names ->
      p' = p /\ q' = q /\ l' = l + Z.of_nat (List.length names))
  /\ (Forall (fun n => Js.test legs_re n = false
                       /\ Js.test push_re n = false
                       /\ Js.test pull_re n = false) names ->
      p' = p /\ q' = q /\ l' = l).
Proof.
  revert p q l. induction names as [|n names IH]; intros p q l.
  - simpl. repeat split; lia.
  - cbn [fold_left].
    pose proof (count_name_step (p, q, l) n) as H.
    destruct (count_name (p, q, l) n) as [[p1 q1] l1].
    destruct H as [Hp [Hq [Hl [L1 [L2 [L3 L4]]]]]].
    specialize (IH p1 q1 l1).
    destruct (fold_left count_name names (p1, q1, l1)) as [[p2 q2] l2].
    destruct IH as [Hp' [Hq' [Hl' [A B]]]].
    split; [lia|]. split; [lia|]. split; [lia|]. split.
    + intros F. inversion F as [|? ? Hn F']; subst.
      destruct (L1 Hn) as [-> [-> ->]]. destruct (A F') as [-> [-> ->]].
      cbn [List.length]. repeat split; lia.
    + intros F. inversion F as [|? ? [H1 [H2 H3]] F']; subst.
      destruct (B F') as [-> [-> ->]].
      rewrite (L2 H1), (L3 H1 H2), (L4 H1 H2 H3). repeat split.
Qed.

(** X13. The label of [getAllWorkoutDates].  It is empty exactly for a
    workout without exercises and otherwise one of LEGS, UPPER, PUSH,
    PULL and HYBRID.  A workout all of whose exercise names match the
    legs pattern is LEGS, whatever else the names match (the legs
    pattern is tried first); a workout with exercises none of which
    matches any of the three patterns is HYBRID. *)
Theorem classify_labels (names : list string) :
  (classify names = "" <-> names = [])
  /\ In (classify names) [""; "LEGS"; "UPPER"; "PUSH"; "PULL"; "HYBRID"]
  /\ (names <> [] ->
      Forall (fun n => Js.test legs_re n = true) names ->
      classify names = "LEGS")
  /\ (names <> [] ->
      Forall (fun n => Js.test legs_re n = false
                       /\ Js.test push_re n = false
                       /\ Js.test pull_re n = false) names ->
      classify names = "HYBRID").
Proof.
  unfold classify.
  pose proof (count_names names 0 0 0) as H.
  destruct (fold_left count_name names (0, 0, 0)) as [[p q] l].
  destruct H as [Hp [Hq [Hl [A B]]]].
  split; [|split; [|split]].
  - destruct names as [|n names]; simpl; [tauto|].
    split; [|discriminate].
    destruct (_ <? _); [discriminate|].
    repeat (destruct (_ && _ && _)%bool; [discriminate|]). discriminate.
  - destruct (Nat.eqb _ _); [simpl; auto|].
    destruct (_ <? _); [simpl; auto|].
    repeat (destruct (_ && _ && _)%bool; [simpl; auto 7|]). simpl. auto 7.
  - intros Hne F. destruct names as [|n names]; [contradiction|].
    cbn [List.length Nat.eqb].
    destruct (A F) as [-> [-> ->]]. cbn [List.length].
    assert (E : (Z.max 0 0 <? 0 + Z.of_nat (S (List.length names))) = true)
      by (apply Z.ltb_lt; lia).
    now rewrite E.
  - intros Hne F. destruct names as [|n names]; [contradiction|].
    cbn [List.length Nat.eqb].
    destruct (B F) as [-> [-> ->]]. reflexivity.
Qed.

End DbDatesFacts.

Section DbWitnesses.
Import Db.

Ltac keys_distinct :=
  vm_compute; repeat (constructor; [simpl; intuition congruence|]); constructor.

Lemma sample_exercise_keys : NoDup (map ex_id (exercises sample)).
Proof. keys_distinct. Qed.

Lemma sample_workout_keys : NoDup (map w_id (workouts sample)).
Proof. keys_distinct. Qed.

Lemma sample_dates : NoDup (map w_date (workouts sample)).
Proof. keys_distinct. Qed.

Lemma sample_no_orphans : no_orphans sample.
Proof.
  split.
  - intros e H. vm_compute in H.
    destruct H as [<-|[<-|[<-|[]]]];
      solve [ eexists; split; [vm_compute; left; reflexivity | reflexivity]
            | eexists; split; [vm_compute; right; left; reflexivity | reflexivity] ].
  - intros s H. vm_compute in H.
    destruct H as [<-|[<-|[<-|[<-|[]]]]];
      solve [ eexists; split; [vm_compute; left; reflexivity | reflexivity]
            | eexists; split; [vm_compute; right; left; reflexivity | reflexivity]
            | eexists; split; [vm_compute; right; right; left; reflexivity
                              | reflexivity] ].
Qed.

(** The workout of 2025-02-03 deleted from the sample: the session of
    2025-02-04 is untouched. *)
Lemma deleteWorkout_cascades_witness :
  NoDup (map ex_id (exercises sample))
  /\ getFullSession (deleteWorkout sample 1) 1 = []
  /\ getFullSession (deleteWorkout sample 1) 2 = getFullSession sample 2.
Proof.
  pose proof (deleteWorkout_cascades sample 1 sample_exercise_keys)
    as [_ [H1 H2]].
  split; [exact sample_exercise_keys|]. split; [exact H1|].
  apply H2. discriminate.
Defined.

(** The sample after each of the three deletions. *)
Lemma deletions_leave_no_orphans_witness :
  no_orphans sample
  /\ no_orphans (deleteSet sample 1)
  /\ no_orphans (deleteExercise sample 1)
  /\ no_orphans (deleteWorkout sample 1).
Proof.
  split; [exact sample_no_orphans|].
  exact (deletions_leave_no_orphans sample 1 sample_no_orphans).
Defined.

(** "BACK SQUAT" renamed in the sample: one exercise. *)
Lemma renameExercise_renames_matches_witness :
  NoDup (map ex_id (exercises sample))
  /\ snd (renameExercise sample "BACK SQUAT" "Squat") = 1
  /\ map ex_name (exercises (fst (renameExercise sample "BACK SQUAT" "Squat")))
     = ["Squat"; "Bench Press"; "barbell row"].
Proof.
  pose proof (renameExercise_renames_matches sample "BACK SQUAT" "Squat"
                sample_exercise_keys) as [E [C _]].
  split; [exact sample_exercise_keys|]. split.
  - rewrite C. vm_compute. reflexivity.
  - rewrite E. vm_compute. reflexivity.
Defined.

(** The names of the sample normalized. *)
Lemma normalizeExerciseNames_normalizes_witness :
  NoDup (map ex_id (exercises sample))
  /\ map ex_name (exercises (normalizeExerciseNames sample))
     = ["Squat"; "Bench Press"; "barbell row"].
Proof.
  pose proof (normalizeExerciseNames_normalizes sample sample_exercise_keys)
    as [E _].
  split; [exact sample_exercise_keys|].
  rewrite E. vm_compute. reflexivity.
Defined.

(** The sample searched for "ROW": the workout of 2025-02-04. *)
Lemma searchWorkoutsByExercise_finds_witness :
  NoDup (map w_id (workouts sample))
  /\ In (mkWorkout 2 "2025-02-04" 200) (searchWorkoutsByExercise sample "ROW")
  /\ NoDup (searchWorkoutsByExercise sample "ROW").
Proof.
  pose proof (searchWorkoutsByExercise_finds sample "ROW" sample_workout_keys)
    as [M [N _]].
  split; [exact sample_workout_keys|]. split; [|exact N].
  apply M. split; [vm_compute; auto|].
  exists (mkExercise 3 2 "barbell row" 0).
  split; [vm_compute; auto|]. split; vm_compute; reflexivity.
Defined.

(** The entry of 2025-02-03 in the list of the sample. *)
Lemma getAllWorkoutDates_entries_witness :
  In (mkWorkoutDate 1 "2025-02-03" "HYBRID") (getAllWorkoutDates sample)
  /\ exists w,
       In w (workouts sample)
       /\ w_id w = 1
       /\ getWorkoutByDate sample "2025-02-03" = Some w.
Proof.
  assert (H : In (mkWorkoutDate 1 "2025-02-03" "HYBRID")
                 (getAllWorkoutDates sample)) by (vm_compute; auto).
  split; [exact H|].
  destruct (getAllWorkoutDates_entries sample _ H) as [w [Hw [Hi [_ [_ G]]]]].
  exists w. split; [exact Hw|]. split; [symmetry; exact Hi|].
  exact (G sample_dates).
Defined.

End DbWitnesses.

(** ** [VelocityView.jsx]: ending a set, once more *)
Section VelocityViewSaveFacts.
Import VelocityView.

Ltac walk_save :=
  unfold save, log_set, bind, await, defined, modify, read, ret,
         loadSessionHistory;
  repeat match goal with
         | |- context [if ?f ?x then _ else _] =>
             match type of f with Faults => destruct (f x) eqn:? end
         | |- context [match r_date ?r with _ => _ end] =>
             destruct (r_date r) as [[|? ?]|] eqn:?
         | |- context [match Db.getWorkoutByDate ?d ?x with _ => _ end] =>
             destruct (Db.getWorkoutByDate d x) eqn:?
         | |- context [match find ?f ?l with _ => _ end] =>
             destruct (find f l) eqn:?
         end.

(** The [try] block when it completes: what it has read and written. *)
Lemma save_completed (r : Render) (fails : Faults) (w : World) :
  snd (save r fails w) = Some tt ->
  exists d wk,
    r_date r = Some d
    /\ Db.getWorkoutByDate (fst (Db.createWorkout (db w) d (now w))) d = Some wk
    /\ let db1 := fst (Db.createWorkout (db w) d (now w)) in
       let name := Js.trim (exerciseName (r_state r)) in
       let found :=
         find (fun e => String.eqb (Js.toLowerCase (Db.ex_name e))
                                   (Js.toLowerCase name))
              (Db.getExercisesForWorkout db1 (Db.w_id wk)) in
       let db2 :=
         match found with
         | Some _ => db1
         | None => fst (Db.addExercise db1 (Db.w_id wk) name)
         end in
       let exid :=
         match found with
         | Some e => Db.ex_id e
         | None => snd (Db.addExercise db1 (Db.w_id wk) name)
         end in
       let w' := fst (save r fails w) in
       db w' = fst (Db.addSet db2 exid (weight (r_state r))
                              (actualReps (r_state r)) None
                              (mean_avgVelocity (repDetails (r_state r)))
                              (Some (repDetails (r_state r))) (now w))
       /\ allNames (st w') = Db.getAllExerciseNames (db w')
       /\ sessionHistory (st w')
          = match d with
            | EmptyString => []
            | _ =>
                match Db.getWorkoutByDate (db w') d with
                | Some wk' => Db.getFullSession (db w') (Db.w_id wk')
                | None => []
                end
            end
       /\ lastLoggedSet (st w')
          = Some (mkLoggedSet name (weight (r_state r))
                              (actualReps (r_state r))
                              (mean_avgVelocity (repDetails (r_state r))))
       /\ bannerTimers w' = bannerTimers w ++ [now w + 4000]
       /\ logged w' = S (logged w).
Proof.
  walk_save; simpl; try discriminate; intros _;
    eexists; eexists; (split; [reflexivity|]);
    (split; [match goal with
             | H : Db.getWorkoutByDate (db (with_db (fst (Db.createWorkout _ _ _)) _)) _
                   = Some _ |- _ => exact H
             end|]); cbv zeta;
    cbn [db st now bannerTimers logged with_db with_bannerTimers with_logged
         with_st update] in *;
    repeat match goal with
           | H : find _ _ = _ |- _ => rewrite H
           | H : Db.getWorkoutByDate _ _ = _ |- _ => rewrite H
           end;
    repeat split; try reflexivity;
    match goal with
    | H : Db.getWorkoutByDate ?x ?d = _
      |- context [match Db.getWorkoutByDate ?y ?d with _ => _ end] =>
        change (Db.getWorkoutByDate y d) with (Db.getWorkoutByDate x d);
        rewrite H; reflexivity
    end.
Qed.

(** With a date selected and no call rejecting, the [try] block
    completes: [createWorkout] has stored the workout [getWorkoutByDate]
    then reads. *)
Lemma save_no_fault (r : Render) (w : World) (d : string) :
  r_date r = Some d -> snd (save r no_fault w) = Some tt.
Proof.
  intros Hd.
  assert (H : forall w0,
            Db.getWorkoutByDate (fst (Db.createWorkout (db w0) d (now w0))) d
            <> None).
  { intros w0 E. destruct (createWorkout_stores (db w0) d (now w0)) as [x [F _]].
    unfold Db.getWorkoutByDate in E. congruence. }
  walk_save; try discriminate; try reflexivity;
    inversion Hd; subst;
    match goal with
    | E : Db.getWorkoutByDate _ _ = None |- _ => exfalso; exact (H w E)
    end.
Qed.

Lemma trimStart_fixed (s : string) :
  match s with
  | String c _ => Js.is_space c = false
  | EmptyString => True
  end ->
  Js.trimStart s = s.
Proof. destruct s as [|c s]; simpl; [reflexivity|]. now intros ->. Qed.

Lemma trimStart_head (s : string) :
  match Js.trimStart s with
  | String c _ => Js.is_space c = false
  | EmptyString => True
  end.
Proof.
  induction s as [|c s IH]; simpl; [exact I|].
  destruct (Js.is_space c) eqn:E; [exact IH | exact E].
Qed.

Lemma trimEnd_head (s : string) :
  match s with
  | String c _ => Js.is_space c = false
  | EmptyString => True
  end ->
  match Js.trimEnd s with
  | String c _ => Js.is_space c = false
  | EmptyString => True
  end.
Proof.
  destruct s as [|c s]; simpl; [auto|]. intros H.
  destruct (Js.trimEnd s); [now rewrite H | exact H].
Qed.

Lemma trimEnd_idem (s : string) : Js.trimEnd (Js.trimEnd s) = Js.trimEnd s.
Proof.
  induction s as [|c s IH]; simpl; [reflexivity|].
  destruct (Js.trimEnd s) as [|c' s'] eqn:E.
  - destruct (Js.is_space c) eqn:Hc; simpl; [reflexivity|]. now rewrite Hc.
  - simpl. simpl in IH. rewrite IH. reflexivity.
Qed.

(** [trim] of a trimmed string changes nothing. *)
Lemma trim_idem (s : string) : Js.trim (Js.trim s) = Js.trim s.
Proof.
  unfold Js.trim.
  rewrite (trimStart_fixed (Js.trimEnd (Js.trimStart s))).
  - apply trimEnd_idem.
  - apply trimEnd_head. apply trimStart_head.
Qed.

Lemma getWorkoutByDate_workouts (d1 d2 : Db.DB) (date : string) :
  Db.workouts d1 = Db.workouts d2 ->
  Db.getWorkoutByDate d1 date = Db.getWorkoutByDate d2 date.
Proof.
  unfold Db.getWorkoutByDate, Db.workouts_first_by_date. now intros ->.
Qed.

Lemma getAllExerciseNames_In (d : Db.DB) (e : Db.Exercise) :
  In e (Db.exercises d) -> In (Db.ex_name e) (Db.getAllExerciseNames d).
Proof.
  intros H. unfold Db.getAllExerciseNames, Js.sort_strings.
  apply sort_In. apply (proj2 (dedup_names_spec _ [])).
  split; [now apply in_map | intros []].
Qed.

(** [handleEndSet] from a render that tracks a set with reps to save,
    with a date selected and no call rejecting. *)
Lemma handleEndSet_success (r : Render) (w : World) (d : string) :
  isTracking (r_state r) = true ->
  actualReps (r_state r) <> 0 ->
  r_date r = Some d ->
  let w' := handleEndSet r no_fault w in
  (isTracking (st w') = false
   /\ repDetails (st w') = []
   /\ repCount (st w') = 0
   /\ lastRep (st w') = None
   /\ peakVelocity (st w') = 0%Q
   /\ error (st w') = error (st w)
   /\ autoEndTimer w' = None
   /\ logged w' = S (logged w)
   /\ bannerTimers w' = bannerTimers w ++ [now w + 4000]
   /\ lastLoggedSet (st w')
      = Some (mkLoggedSet (Js.trim (exerciseName (r_state r)))
                          (weight (r_state r)) (actualReps (r_state r))
                          (mean_avgVelocity (repDetails (r_state r)))))
  /\ exists wk ex row,
       Db.getWorkoutByDate (db w') d = Some wk
       /\ In ex (Db.getExercisesForWorkout (db w') (Db.w_id wk))
       /\ Js.toLowerCase (Db.ex_name ex)
          = Js.toLowerCase (Js.trim (exerciseName (r_state r)))
       /\ In (Db.ex_name ex) (allNames (st w'))
       /\ Db.sets (db w') = Db.sets (db w) ++ [row]
       /\ Db.set_exerciseId row = Db.ex_id ex
       /\ Db.set_weight row = weight (r_state r)
       /\ Db.set_reps row = actualReps (r_state r)
       /\ Db.set_repDetails row = Some (repDetails (r_state r))
       /\ Db.set_avgVelocity row
          = match mean_avgVelocity (repDetails (r_state r)) with
            | Some q => if Js.truthy q then Some q else None
            | None => None
            end
       /\ (d <> "" ->
           sessionHistory (st w') = Db.getFullSession (db w') (Db.w_id wk)
           /\ exists rows, In (ex, rows) (sessionHistory (st w'))
                           /\ In row rows).
Proof.
  intros Ht Hn Hd w'. unfold w', handleEndSet.
  rewrite Ht. apply Z.eqb_neq in Hn. rewrite Hn. cbn [negb orb].
  pose proof (save_no_fault r (with_autoEndTimer None w) d Hd) as Hs.
  pose proof (save_completed r no_fault (with_autoEndTimer None w) Hs) as C.
  pose proof (save_frame r no_fault (with_autoEndTimer None w)) as F.
  destruct (save r no_fault (with_autoEndTimer None w)) as [w1 [[]|]];
    [|discriminate].
  cbn [fst snd] in C, F. cbv zeta in F.
  destruct F as [_ [_ [_ [_ [_ [_ [_ [Fe [Fa _]]]]]]]]].
  destruct C as [d' [wk [Hd' [Hwk C]]]].
  rewrite Hd in Hd'. inversion Hd'. subst d'. clear Hd'.
  cbv zeta in C. cbn [db now with_autoEndTimer] in C, Hwk.
  destruct C as [Cdb [Cn [Ch [Cl [Cb Cg]]]]].
  split.
  { cbn [st update with_st isTracking repDetails repCount lastRep peakVelocity
         error setPeakVelocity setLastRep setRepDetails setRepCount
         setIsTracking autoEndTimer logged bannerTimers lastLoggedSet].
    repeat split; assumption. }
  set (db1 := fst (Db.createWorkout (db w) d (now w))) in *.
  set (name := Js.trim (exerciseName (r_state r))) in *.
  set (found := find (fun e => String.eqb (Js.toLowerCase (Db.ex_name e))
                                          (Js.toLowerCase name))
                     (Db.getExercisesForWorkout db1 (Db.w_id wk))) in *.
  set (db2 := match found with
              | Some _ => db1
              | None => fst (Db.addExercise db1 (Db.w_id wk) name)
              end) in *.
  set (exid := match found with
               | Some e => Db.ex_id e
               | None => snd (Db.addExercise db1 (Db.w_id wk) name)
               end) in *.
  assert (W2 : Db.workouts db2 = Db.workouts db1)
    by (unfold db2; destruct found; reflexivity).
  assert (S2 : Db.sets db2 = Db.sets (db w)).
  { unfold db2. destruct found; [|simpl]; apply sets_createWorkout. }
  assert (X : exists ex, In ex (Db.exercises db2)
                         /\ Db.ex_workoutId ex = Db.w_id wk
                         /\ Db.ex_id ex = exid
                         /\ Js.toLowerCase (Db.ex_name ex) = Js.toLowerCase name).
  { unfold db2, exid. destruct found as [e|] eqn:Fd.
    - unfold found in Fd. apply find_some in Fd as [Hin He].
      apply getExercisesForWorkout_In in Hin as [Hin Hw].
      apply String.eqb_eq in He. exists e. auto.
    - eexists. rewrite addExercise_exercises.
      split; [apply in_or_app; right; left; reflexivity|].
      cbn [Db.ex_workoutId Db.ex_id Db.ex_name]. unfold name.
      rewrite trim_idem. auto. }
  destruct X as [ex [Xin [Xw [Xid Xn]]]].
  destruct (addSet_sets db2 exid (weight (r_state r)) (actualReps (r_state r))
              None (mean_avgVelocity (repDetails (r_state r)))
              (Some (repDetails (r_state r))) (now w))
    as [row [Rs [_ [Re [Rw [Rr [Rd [_ [_ [_ Rv]]]]]]]]]].
  cbn [st db update with_st].
  assert (E2 : Db.exercises (db w1) = Db.exercises db2)
    by (rewrite Cdb; reflexivity).
  assert (Wk : Db.getWorkoutByDate (db w1) d = Some wk).
  { rewrite <- Hwk. apply getWorkoutByDate_workouts.
    rewrite Cdb. exact W2. }
  assert (Hex : In ex (Db.getExercisesForWorkout (db w1) (Db.w_id wk))).
  { apply getExercisesForWorkout_In. rewrite E2. auto. }
  exists wk, ex, row.
  split; [exact Wk|]. split; [exact Hex|]. split; [exact Xn|].
  split.
  { cbn [allNames setPeakVelocity setLastRep setRepDetails setRepCount
         setIsTracking].
    rewrite Cn. apply getAllExerciseNames_In. rewrite E2. exact Xin. }
  split; [rewrite Cdb, Rs, S2; reflexivity|].
  split; [congruence|]. split; [exact Rw|]. split; [exact Rr|].
  split; [exact Rd|]. split; [exact Rv|].
  intros Hne.
  cbn [sessionHistory setPeakVelocity setLastRep setRepDetails setRepCount
       setIsTracking].
  assert (H : sessionHistory (st w1) = Db.getFullSession (db w1) (Db.w_id wk)).
  { rewrite Ch, Wk. destruct d; [contradiction | reflexivity]. }
  split; [exact H|]. rewrite H.
  exists (Js.sortBy Db.set_order
            (filter (fun s => Db.set_exerciseId s =? Db.ex_id ex)
                    (Db.sets (db w1)))).
  split.
  - unfold Db.getFullSession. apply in_map_iff. exists ex. auto.
  - apply sortBy_In. apply filter_In. split.
    + rewrite Cdb, Rs. apply in_or_app. right. left. reflexivity.
    + rewrite Re, Xid. apply Z.eqb_refl.
Qed.

End VelocityViewSaveFacts.

Section VelocityViewEndFacts.
Import VelocityView.

(** X14. End Set with recorded reps, a date selected and no call
    rejecting.  The set is stored once: one row is appended to [sets],
    under an exercise of the date's workout whose name is the trimmed
    input up to case (an existing exercise is reused, else one is
    added), with the weight as typed, the number of recorded reps, the
    rep details and the mean of their average velocities.  The view is
    brought up to date: the session log is the full session of that
    workout and shows the new row, the exercise's name is among the
    names offered, the "Set Logged" banner is up with its timeout 4 s
    ahead, [onSetLogged] has been called once, and tracking has stopped
    with the counters cleared. *)
Theorem end_set_stores_and_shows_the_set (r : Render) (w : World) (d : string) :
  isTracking (r_state r) = true ->
  repDetails (r_state r) <> [] ->
  r_date r = Some d ->
  d <> "" ->
  let w' := handleEndSet r no_fault w in
  isTracking (st w') = false
  /\ repDetails (st w') = []
  /\ repCount (st w') = 0
  /\ lastRep (st w') = None
  /\ peakVelocity (st w') = 0%Q
  /\ logged w' = S (logged w)
  /\ bannerTimers w' = bannerTimers w ++ [now w + 4000]
  /\ lastLoggedSet (st w')
     = Some (mkLoggedSet (Js.trim (exerciseName (r_state r)))
                         (weight (r_state r))
                         (Z.of_nat (List.length (repDetails (r_state r))))
                         (mean_avgVelocity (repDetails (r_state r))))
  /\ exists wk ex rows row,
       Db.getWorkoutByDate (db w') d = Some wk
       /\ In ex (Db.getExercisesForWorkout (db w') (Db.w_id wk))
       /\ Js.toLowerCase (Db.ex_name ex)
          = Js.toLowerCase (Js.trim (exerciseName (r_state r)))
       /\ In (Db.ex_name ex) (allNames (st w'))
       /\ Db.sets (db w') = Db.sets (db w) ++ [row]
       /\ Db.set_exerciseId row = Db.ex_id ex
       /\ Db.set_weight row = weight (r_state r)
       /\ Db.set_reps row = Z.of_nat (List.length (repDetails (r_state r)))
       /\ Db.set_repDetails row = Some (repDetails (r_state r))
       /\ sessionHistory (st w') = Db.getFullSession (db w') (Db.w_id wk)
       /\ In (ex, rows) (sessionHistory (st w'))
       /\ In row rows.
Proof.
  intros Ht Hr Hd Hne w'.
  destruct (actualReps_nonempty _ Hr) as [Ha Hn].
  destruct (handleEndSet_success r w d Ht Hn Hd)
    as [[T [R [C [L [P [_ [_ [G [B LL]]]]]]]]]
        [wk [ex [row [Wk [Ex [Nm [An [Ss [Re [Rw [Rr [Rd [_ H]]]]]]]]]]]]]].
  fold w' in T, R, C, L, P, G, B, LL, Wk, Ex, An, Ss, H.
  destruct (H Hne) as [Sh [rows [Hin Hrow]]].
  rewrite Ha in LL, Rr.
  repeat (split; [assumption|]).
  exists wk, ex, rows, row. repeat (split; [assumption|]). assumption.
Qed.

(** The theorem on the tracked set with one rep of [tracking_one_rep]. *)
Lemma end_set_stores_and_shows_the_set_witness :
  isTracking (r_state (render tracking_one_rep)) = true
  /\ repDetails (r_state (render tracking_one_rep)) <> []
  /\ r_date (render tracking_one_rep) = Some "2025-02-04"
  /\ isTracking (st (handleEndSet (render tracking_one_rep) no_fault
                                  tracking_one_rep)) = false
  /\ logged (handleEndSet (render tracking_one_rep) no_fault tracking_one_rep)
     = S (logged tracking_one_rep).
Proof.
  assert (H1 : isTracking (r_state (render tracking_one_rep)) = true)
    by (vm_compute; reflexivity).
  assert (H2 : repDetails (r_state (render tracking_one_rep)) <> [])
    by (vm_compute; discriminate).
  assert (H3 : r_date (render tracking_one_rep) = Some "2025-02-04")
    by (vm_compute; reflexivity).
  assert (H4 : "2025-02-04" <> "") by discriminate.
  destruct (end_set_stores_and_shows_the_set (render tracking_one_rep)
              tracking_one_rep "2025-02-04" H1 H2 H3 H4)
    as [T [_ [_ [_ [_ [G _]]]]]].
  split; [exact H1|]. split; [exact H2|]. split; [exact H3|].
  split; [exact T | exact G].
Defined.

(** X15. End Set when frames have counted reps but no [rep_completed]
    message was recorded: the set is stored with the frame count as its
    reps, without average velocity, and with an empty list of rep
    details. *)
Theorem end_set_falls_back_to_frame_count (r : Render) (w : World) (d : string) :
  isTracking (r_state r) = true ->
  repDetails (r_state r) = [] ->
  repCount (r_state r) <> 0 ->
  r_date r = Some d ->
  let w' := handleEndSet r no_fault w in
  isTracking (st w') = false
  /\ exists row,
       Db.sets (db w') = Db.sets (db w) ++ [row]
       /\ Db.set_reps row = repCount (r_state r)
       /\ Db.set_weight row = weight (r_state r)
       /\ Db.set_avgVelocity row = None
       /\ Db.set_repDetails row = Some []
       /\ lastLoggedSet (st w')
          = Some (mkLoggedSet (Js.trim (exerciseName (r_state r)))
                              (weight (r_state r)) (repCount (r_state r))
                              None).
Proof.
  intros Ht Hr Hc Hd w'.
  assert (Ha : actualReps (r_state r) = repCount (r_state r))
    by (unfold actualReps; rewrite Hr; reflexivity).
  assert (Hn : actualReps (r_state r) <> 0) by (rewrite Ha; exact Hc).
  destruct (handleEndSet_success r w d Ht Hn Hd)
    as [[T [_ [_ [_ [_ [_ [_ [_ [_ LL]]]]]]]]]
        [wk [ex [row [_ [_ [_ [_ [Ss [_ [Rw [Rr [Rd [Rv _]]]]]]]]]]]]]].
  fold w' in T, LL, Ss. rewrite Hr in LL, Rd, Rv. rewrite Ha in LL, Rr.
  split; [exact T|]. exists row. auto 10.
Qed.

(** The theorem on [tracking_frames_only]: two reps counted by frames. *)
Lemma end_set_falls_back_to_frame_count_witness :
  isTracking (r_state (render tracking_frames_only)) = true
  /\ repDetails (r_state (render tracking_frames_only)) = []
  /\ repCount (r_state (render tracking_frames_only)) = 2
  /\ exists row,
       Db.sets (db (handleEndSet (render tracking_frames_only) no_fault
                                 tracking_frames_only))
       = Db.sets (db tracking_frames_only) ++ [row]
       /\ Db.set_reps row = repCount (r_state (render tracking_frames_only)).
Proof.
  assert (H1 : isTracking (r_state (render tracking_frames_only)) = true)
    by (vm_compute; reflexivity).
  assert (H2 : repDetails (r_state (render tracking_frames_only)) = [])
    by (vm_compute; reflexivity).
  assert (H3 : repCount (r_state (render tracking_frames_only)) = 2)
    by (vm_compute; reflexivity).
  assert (H3' : repCount (r_state (render tracking_frames_only)) <> 0)
    by (rewrite H3; discriminate).
  assert (H4 : r_date (render tracking_frames_only) = Some "2025-02-04")
    by (vm_compute; reflexivity).
  destruct (end_set_falls_back_to_frame_count (render tracking_frames_only)
              tracking_frames_only "2025-02-04" H1 H2 H3' H4)
    as [_ [row [S [R _]]]].
  split; [exact H1|]. split; [exact H2|]. split; [exact H3|].
  exists row. split; [exact S | exact R].
Defined.

(** X16. End Set with nothing to save (no set tracked, or neither a
    recorded rep nor a counted one) only stops tracking: the rep list is
    emptied and the pending auto-end timeout cleared, while nothing is
    written, no call is awaited (so none can fail), no banner and no
    notice appears, and the counters on display stay as they are. *)
Theorem end_set_without_reps_saves_nothing (r : Render) (fails : Faults)
    (w : World) :
  isTracking (r_state r) = false
  \/ (repDetails (r_state r) = [] /\ repCount (r_state r) = 0) ->
  let w' := handleEndSet r fails w in
  db w' = db w
  /\ isTracking (st w') = false
  /\ repDetails (st w') = []
  /\ autoEndTimer w' = None
  /\ error (st w') = error (st w)
  /\ lastLoggedSet (st w') = lastLoggedSet (st w)
  /\ bannerTimers w' = bannerTimers w
  /\ logged w' = logged w
  /\ repCount (st w') = repCount (st w)
  /\ lastRep (st w') = lastRep (st w)
  /\ peakVelocity (st w') = peakVelocity (st w).
Proof.
  intros H w'. unfold w', handleEndSet.
  assert (G : (negb (isTracking (r_state r)) || (actualReps (r_state r) =? 0))%bool
              = true).
  { destruct H as [->|[Hr Hc]]; [reflexivity|].
    unfold actualReps. rewrite Hr, Hc. apply orb_true_r. }
  rewrite G. repeat split.
Qed.

(** The theorem on [tracking_no_rep]: Start Set, then End Set at once. *)
Lemma end_set_without_reps_saves_nothing_witness :
  (repDetails (r_state (render tracking_no_rep)) = []
   /\ repCount (r_state (render tracking_no_rep)) = 0)
  /\ db (handleEndSet (render tracking_no_rep) no_fault tracking_no_rep)
     = db tracking_no_rep
  /\ isTracking (st (handleEndSet (render tracking_no_rep) no_fault
                                  tracking_no_rep)) = false.
Proof.
  assert (H : repDetails (r_state (render tracking_no_rep)) = []
              /\ repCount (r_state (render tracking_no_rep)) = 0)
    by (split; vm_compute; reflexivity).
  destruct (end_set_without_reps_saves_nothing (render tracking_no_rep)
              no_fault tracking_no_rep (or_intror H)) as [D [T _]].
  split; [exact H|]. split; [exact D | exact T].
Defined.

End VelocityViewEndFacts.

Section VelocityViewRetryFacts.
Import VelocityView.

Ltac walk_rows :=
  unfold save, log_set, bind, await, defined, modify, read, ret,
         loadSessionHistory;
  repeat match goal with
         | |- context [if ?f ?x then _ else _] =>
             match type of f with Faults => destruct (f x) eqn:? end
         | |- context [match r_date ?r with _ => _ end] =>
             destruct (r_date r) as [[|? ?]|] eqn:?
         | |- context [match Db.getWorkoutByDate ?d ?x with _ => _ end] =>
             destruct (Db.getWorkoutByDate d x) eqn:?
         | |- context [match find ?f ?l with _ => _ end] =>
             destruct (find f l) eqn:?
         end.

(** However the [try] block ends, it has appended no row to [sets] or
    one row holding the reps, their count and the weight of the
    render. *)
Lemma save_row (r : Render) (fails : Faults) (w : World) :
  Db.sets (db (fst (save r fails w))) = Db.sets (db w)
  \/ exists row,
       Db.sets (db (fst (save r fails w))) = Db.sets (db w) ++ [row]
       /\ Db.set_repDetails row = Some (repDetails (r_state r))
       /\ Db.set_reps row = actualReps (r_state r)
       /\ Db.set_weight row = weight (r_state r).
Proof.
  walk_rows; simpl; rewrite ?sets_createWorkout; auto;
    right; eexists; (split; [reflexivity|]); simpl; auto.
Qed.

(** X17. A save that fails after the row was written is stored twice by
    the retry.  Take a tracked set with reps and a run of [handleEndSet]
    that leaves the set tracked (it failed) although the [sets] table
    has changed: one of the calls after [addSet] rejected.  Then the
    notice "Failed to log set. Tap to retry." is up, the reps are kept,
    and the table already holds one new row with these reps; a tap on
    the notice that goes through appends a second row with the same
    reps and count. *)
Theorem retry_after_late_failure_stores_twice
    (r : Render) (fails fails' : Faults) (w : World) :
  isTracking (st w) = true ->
  repDetails (st w) <> [] ->
  isTracking (r_state r) = true ->
  repDetails (r_state r) = repDetails (st w) ->
  isTracking (st (handleEndSet r fails w)) = true ->
  Db.sets (db (handleEndSet r fails w)) <> Db.sets (db w) ->
  let w1 := handleEndSet r fails w in
  error (st w1) = Some "Failed to log set. Tap to retry."
  /\ repDetails (st w1) = repDetails (st w)
  /\ exists row,
       Db.sets (db w1) = Db.sets (db w) ++ [row]
       /\ Db.set_repDetails row = Some (repDetails (st w))
       /\ Db.set_reps row = Z.of_nat (List.length (repDetails (st w)))
       /\ (let w2 := retry (render w1) fails' w1 in
           isTracking (st w2) = false ->
           exists row',
             Db.sets (db w2) = Db.sets (db w) ++ [row; row']
             /\ Db.set_repDetails row' = Some (repDetails (st w))
             /\ Db.set_reps row' = Db.set_reps row).
Proof.
  intros Hlive Hreps Ht Hr Hfail Hsets w1.
  assert (Hr' : repDetails (r_state r) <> []) by (rewrite Hr; exact Hreps).
  destruct (actualReps_nonempty _ Hr') as [Ha _].
  assert (F : error (st w1) = Some "Failed to log set. Tap to retry."
              /\ repDetails (st w1) = repDetails (st w)
              /\ isTracking (st w1) = true
              /\ exists row,
                   Db.sets (db w1) = Db.sets (db w) ++ [row]
                   /\ Db.set_repDetails row = Some (repDetails (r_state r))
                   /\ Db.set_reps row = actualReps (r_state r)).
  { unfold w1 in *. rewrite (handleEndSet_saves r fails w Ht Hr') in *.
    pose proof (save_frame r fails (with_autoEndTimer None w)) as Fr.
    pose proof (save_row r fails (with_autoEndTimer None w)) as Rw.
    destruct (save r fails (with_autoEndTimer None w)) as [w' [[]|]];
      cbn [fst snd] in Fr, Rw; cbv zeta in Fr;
      destruct Fr as [F1 [F2 _]].
    - simpl in Hfail. discriminate.
    - simpl in *. split; [reflexivity|]. split; [exact F2|].
      split; [exact Hfail|].
      destruct Rw as [E | [row [E [D [C _]]]]]; [contradiction|].
      exists row. auto. }
  destruct F as [E [R [T [row [S [D C]]]]]].
  split; [exact E|]. split; [exact R|].
  exists row. rewrite Hr in D. rewrite Ha, Hr in C.
  split; [exact S|]. split; [exact D|]. split; [exact C|].
  intros w2 Hstop. unfold w2, retry in *.
  assert (Ht1 : isTracking (r_state (render w1)) = true) by exact T.
  assert (Hr1 : repDetails (r_state (render w1)) <> [])
    by (simpl; rewrite R; exact Hreps).
  destruct (handleEndSet_outcome (render w1) fails'
              (update (setError None) w1) Ht1 Hr1)
    as [[_ [_ [_ [row' [S2 [D2 [N2 _]]]]]]] | [_ [T2 _]]].
  - exists row'. simpl in S2, D2, N2.
    rewrite S2, S, D2, N2, R, C, <- app_assoc. auto.
  - simpl in T2. rewrite T in T2. rewrite T2 in Hstop. discriminate.
Qed.

(** The theorem in [tracking_one_rep], with [loadSessionHistory]
    rejecting on the first attempt and nothing on the retry. *)
Lemma retry_after_late_failure_stores_twice_witness :
  isTracking (st (handleEndSet (render tracking_one_rep)
                               (fault_at loadSessionHistory_)
                               tracking_one_rep)) = true
  /\ Db.sets (db (handleEndSet (render tracking_one_rep)
                               (fault_at loadSessionHistory_)
                               tracking_one_rep))
     <> Db.sets (db tracking_one_rep)
  /\ exists row row',
       Db.sets (db (retry (render (handleEndSet (render tracking_one_rep)
                                                (fault_at loadSessionHistory_)
                                                tracking_one_rep))
                          no_fault
                          (handleEndSet (render tracking_one_rep)
                                        (fault_at loadSessionHistory_)
                                        tracking_one_rep)))
       = Db.sets (db tracking_one_rep) ++ [row; row']
       /\ Db.set_repDetails row' = Some (repDetails (st tracking_one_rep)).
Proof.
  assert (H1 : isTracking (st tracking_one_rep) = true)
    by (vm_compute; reflexivity).
  assert (H2 : repDetails (st tracking_one_rep) <> [])
    by (vm_compute; discriminate).
  assert (H3 : isTracking (r_state (render tracking_one_rep)) = true)
    by (vm_compute; reflexivity).
  assert (H4 : repDetails (r_state (render tracking_one_rep))
               = repDetails (st tracking_one_rep))
    by (vm_compute; reflexivity).
  assert (H5 : isTracking (st (handleEndSet (render tracking_one_rep)
                                            (fault_at loadSessionHistory_)
                                            tracking_one_rep)) = true)
    by (vm_compute; reflexivity).
  assert (H6 : Db.sets (db (handleEndSet (render tracking_one_rep)
                                         (fault_at loadSessionHistory_)
                                         tracking_one_rep))
               <> Db.sets (db tracking_one_rep))
    by (vm_compute; discriminate).
  destruct (retry_after_late_failure_stores_twice
              (render tracking_one_rep) (fault_at loadSessionHistory_)
              no_fault tracking_one_rep H1 H2 H3 H4 H5 H6)
    as [_ [_ [row [_ [_ [_ Hretry]]]]]].
  split; [exact H5|]. split; [exact H6|].
  assert (Hstop : isTracking
                    (st (retry (render (handleEndSet (render tracking_one_rep)
                                                     (fault_at loadSessionHistory_)
                                                     tracking_one_rep))
                               no_fault
                               (handleEndSet (render tracking_one_rep)
                                             (fault_at loadSessionHistory_)
                                             tracking_one_rep)))
                  = false) by (vm_compute; reflexivity).
  destruct (Hretry Hstop) as [row' [S [D _]]].
  exists row, row'. split; [exact S | exact D].
Defined.

(** X18. The Start Set button is enabled exactly when [handleStartSet]
    would act: with a non-blank exercise name and a weight typed the
    handler starts tracking, and otherwise, when the button is disabled,
    the handler would change nothing. *)
Theorem start_button_enabled_iff_handler_starts (r : Render) (w : World) :
  (isValid (r_state r) = true ->
   isTracking (st (handleStartSet r w)) = true)
  /\ (isValid (r_state r) = false -> handleStartSet r w = w).
Proof.
  unfold isValid, handleStartSet.
  destruct (Js.truthy_str (Js.trim (exerciseName (r_state r)))); simpl.
  - destruct (weight (r_state r)) as [|c s]; simpl.
    + split; [discriminate | reflexivity].
    + split; [|discriminate]. intros _. destruct (ws_open w); reflexivity.
  - split; [discriminate | reflexivity].
Qed.

Lemma handleEndSet_inputs (r : Render) (fails : Faults) (w : World) :
  exerciseName (st (handleEndSet r fails w)) = exerciseName (st w)
  /\ weight (st (handleEndSet r fails w)) = weight (st w).
Proof.
  unfold handleEndSet. destruct (_ || _)%bool; [split; reflexivity|].
  pose proof (save_frame r fails (with_autoEndTimer None w)) as F.
  destruct (save r fails (with_autoEndTimer None w)) as [w' [[]|]];
    cbn [fst] in F; cbv zeta in F;
    destruct F as [_ [_ [_ [_ [_ [N [W _]]]]]]]; simpl; auto.
Qed.

Lemma fire_banners_inputs (t : Z) (w : World) :
  exerciseName (st (fire_banners t w)) = exerciseName (st w)
  /\ weight (st (fire_banners t w)) = weight (st w).
Proof.
  unfold fire_banners. destruct (filter _ _); split; reflexivity.
Qed.

Lemma auto_end_effect_st (w : World) : st (auto_end_effect w) = st w.
Proof. exact (proj1 (auto_end_effect_spec w)). Qed.

Lemma onmessage_inputs (m : Message) (s : State) :
  exerciseName (onmessage m s) = exerciseName s
  /\ weight (onmessage m s) = weight s.
Proof.
  destruct m as [hv ph rc | n mx av du |]; simpl; [auto | | auto].
  destruct (Js.truthy mx), (Js.truthy av); simpl; auto.
Qed.

Lemma advance_inputs (t : Z) (fails : Faults) (w : World) :
  exerciseName (st (advance t fails w)) = exerciseName (st w)
  /\ weight (st (advance t fails w)) = weight (st w).
Proof.
  unfold advance.
  assert (B : forall t0 w0,
            exerciseName (st (fire_banners t0 (with_now t0 w0)))
            = exerciseName (st w0)
            /\ weight (st (fire_banners t0 (with_now t0 w0))) = weight (st w0)).
  { intros t0 w0. apply (fire_banners_inputs t0 (with_now t0 w0)). }
  destruct (autoEndTimer w) as [tm|]; [|apply B].
  destruct (deadline tm <=? t); [|apply B].
  cbv zeta.
  set (w1 := fire_banners (deadline tm) (with_now (deadline tm) w)).
  set (w2 := auto_end_callback (closure tm) fails (with_autoEndTimer None w1)).
  destruct (B t (auto_end_effect w2)) as [N W]. rewrite N, W.
  rewrite !auto_end_effect_st.
  assert (C : exerciseName (st w2) = exerciseName (st w1)
              /\ weight (st w2) = weight (st w1)).
  { unfold w2, auto_end_callback. destruct (_ && _)%bool; [|auto].
    exact (handleEndSet_inputs (closure tm) fails
             (with_fired (fired (with_autoEndTimer None w1)
                          ++ [now (with_autoEndTimer None w1)])
                         (with_autoEndTimer None w1))). }
  destruct C as [-> ->]. apply B.
Qed.

(** X19. The inputs are frozen while a set is tracked: no event (a
    message, a click, a date selected in the side bar, typing, the
    auto-end timeout, time passing) changes the exercise name or the
    weight while [isTracking] holds, so a set is saved under the name
    and weight it was started with. *)
Theorem inputs_frozen_while_tracking (e : Event) (w : World) :
  isTracking (st w) = true ->
  exerciseName (st (handle e w)) = exerciseName (st w)
  /\ weight (st (handle e w)) = weight (st w).
Proof.
  intros Ht.
  destruct e as [m | | | v | v | d | | fails | fails | dt fails];
    simpl handle; rewrite ?Ht; simpl; auto.
  - rewrite auto_end_effect_st. apply onmessage_inputs.
  - destruct (loadSessionHistory _ _ _) as [w'|] eqn:L; [|auto].
    unfold loadSessionHistory in L. simpl in L.
    destruct d as [[|c d]|]; try destruct (Db.getWorkoutByDate _ _);
      inversion L; subst; auto.
  - rewrite auto_end_effect_st. apply handleEndSet_inputs.
  - destruct (error (st w)); [|auto].
    rewrite auto_end_effect_st. unfold retry.
    apply (handleEndSet_inputs _ _ (update (setError None) w)).
  - apply advance_inputs.
Qed.

(** The theorem on [tracking_one_rep] when something is typed. *)
Lemma inputs_frozen_while_tracking_witness :
  isTracking (st tracking_one_rep) = true
  /\ exerciseName (st (handle (TypeExercise "Bench") tracking_one_rep))
     = exerciseName (st tracking_one_rep).
Proof.
  assert (H : isTracking (st tracking_one_rep) = true)
    by (vm_compute; reflexivity).
  split; [exact H|].
  exact (proj1 (inputs_frozen_while_tracking (TypeExercise "Bench")
                  tracking_one_rep H)).
Defined.

End VelocityViewRetryFacts.

Section VelocityViewBannerFacts.
Import VelocityView.

Ltac walk_banner :=
  unfold save, log_set, bind, await, defined, modify, read, ret,
         loadSessionHistory;
  repeat match goal with
         | |- context [if ?f ?x then _ else _] =>
             match type of f with Faults => destruct (f x) eqn:? end
         | |- context [match r_date ?r with _ => _ end] =>
             destruct (r_date r) as [[|? ?]|] eqn:?
         | |- context [match Db.getWorkoutByDate ?d ?x with _ => _ end] =>
             destruct (Db.getWorkoutByDate d x) eqn:?
         | |- context [match find ?f ?l with _ => _ end] =>
             destruct (find f l) eqn:?
         end.

(** The [try] block leaves the banner alone or raises it together with
    its timeout. *)
Lemma save_banner (r : Render) (fails : Faults) (w : World) :
  let w' := fst (save r fails w) in
  now w' = now w
  /\ ((bannerTimers w' = bannerTimers w
       /\ lastLoggedSet (st w') = lastLoggedSet (st w))
      \/ bannerTimers w' = bannerTimers w ++ [now w + 4000]).
Proof. walk_banner; simpl; auto. Qed.

Lemma handleEndSet_banner (r : Render) (fails : Faults) (w : World) :
  let w' := handleEndSet r fails w in
  now w' = now w
  /\ ((bannerTimers w' = bannerTimers w
       /\ lastLoggedSet (st w') = lastLoggedSet (st w))
      \/ bannerTimers w' = bannerTimers w ++ [now w + 4000]).
Proof.
  unfold handleEndSet. destruct (_ || _)%bool; [simpl; auto|].
  pose proof (save_banner r fails (with_autoEndTimer None w)) as B.
  destruct (save r fails (with_autoEndTimer None w)) as [w' [[]|]];
    cbn [fst] in B; cbv zeta in B; simpl in *; exact B.
Qed.

Lemma banners_step (w w' : World) :
  banners_ok w ->
  now w' = now w ->
  (bannerTimers w' = bannerTimers w
   /\ lastLoggedSet (st w') = lastLoggedSet (st w))
  \/ bannerTimers w' = bannerTimers w ++ [now w + 4000] ->
  banners_ok w'.
Proof.
  intros [B1 B2] N [[T L]|T]; unfold banners_ok; rewrite N, T.
  - split; [exact B1 | rewrite L; exact B2].
  - split.
    + apply Forall_app. split; [exact B1|]. repeat constructor; lia.
    + intros _ E. destruct (bannerTimers w); discriminate.
Qed.

Lemma banners_same (w w' : World) :
  banners_ok w ->
  now w' = now w -> bannerTimers w' = bannerTimers w ->
  lastLoggedSet (st w') = lastLoggedSet (st w) ->
  banners_ok w'.
Proof. intros B N T L. apply (banners_step w w' B N). auto. Qed.

Lemma auto_end_effect_banner (w : World) :
  bannerTimers (auto_end_effect w) = bannerTimers w.
Proof.
  unfold auto_end_effect. destruct (deps_unchanged w); [reflexivity|].
  cbv zeta. destruct (_ || _)%bool; reflexivity.
Qed.

Lemma banners_effect (w : World) :
  banners_ok w -> banners_ok (auto_end_effect w).
Proof.
  intros B. destruct (auto_end_effect_spec w) as [S [_ [N _]]].
  apply (banners_same w _ B N (auto_end_effect_banner w)). now rewrite S.
Qed.

Lemma timer_ahead_effect (w : World) :
  timer_ahead w -> timer_ahead (auto_end_effect w).
Proof.
  intros T tm. destruct (auto_end_effect_spec w) as [_ [_ [N [_ [_ [_ A]]]]]].
  rewrite A, N. destruct (deps_unchanged w); [apply T|].
  destruct (_ && _)%bool; [|discriminate].
  intros [= <-]. simpl. unfold AUTO_END_DELAY. lia.
Qed.

(** The banner timeouts due by [t] run when the clock moves on to [t]. *)
Lemma banners_fire (t : Z) (w : World) :
  banners_ok w -> now w <= t ->
  banners_ok (fire_banners t (with_now t w)).
Proof.
  intros [B1 B2] L. unfold fire_banners, banners_ok.
  cbn [bannerTimers with_now].
  set (due := filter (fun d => d <=? t) (bannerTimers w)).
  set (rest := filter (fun d => negb (d <=? t)) (bannerTimers w)).
  assert (R : Forall (fun x => t < x <= t + 4000) rest).
  { apply Forall_forall. intros x Hx. apply filter_In in Hx as [Hx G].
    apply negb_true_iff, Z.leb_gt in G.
    rewrite Forall_forall in B1. specialize (B1 x Hx). lia. }
  destruct due as [|x due'] eqn:D; simpl; (split; [exact R|]).
  - intros H. specialize (B2 H). intros E. apply B2.
    destruct (bannerTimers w) as [|y l] eqn:Bt; [reflexivity|]. exfalso.
    assert (Hy : In y (bannerTimers w)) by (rewrite Bt; left; reflexivity).
    rewrite Bt in *.
    destruct (y <=? t) eqn:C.
    + assert (In y due) by (apply filter_In; auto). rewrite D in H0. exact H0.
    + assert (In y rest)
        by (apply filter_In; split; [exact Hy | now rewrite C]).
      unfold rest in *. rewrite E in H0. exact H0.
  - intros H. contradiction.
Qed.

Lemma timer_ahead_fire (t : Z) (w : World) :
  (forall tm, autoEndTimer w = Some tm -> t < deadline tm) ->
  timer_ahead (fire_banners t (with_now t w)).
Proof.
  intros H tm. destruct (fire_banners_spec t (with_now t w))
    as [_ [_ [_ [A [_ N]]]]].
  rewrite A, N. simpl. apply H.
Qed.

Lemma banners_handleEndSet (r : Render) (fails : Faults) (w : World) :
  banners_ok w -> banners_ok (handleEndSet r fails w).
Proof.
  intros B. destruct (handleEndSet_banner r fails w) as [N C].
  exact (banners_step w _ B N C).
Qed.

Lemma banners_after_timeout (tm : Timer) (fails : Faults) (w : World) :
  banners_ok w -> now w <= deadline tm ->
  banners_ok (after_timeout tm fails w)
  /\ now (after_timeout tm fails w) = deadline tm.
Proof.
  intros B L. unfold after_timeout.
  set (w1 := fire_banners (deadline tm) (with_now (deadline tm) w)).
  assert (B1 : banners_ok w1) by (apply banners_fire; assumption).
  assert (N1 : now w1 = deadline tm).
  { unfold w1. destruct (fire_banners_spec (deadline tm)
                           (with_now (deadline tm) w)) as [_ [_ [_ [_ [_ N]]]]].
    exact N. }
  set (w2 := with_autoEndTimer None w1).
  assert (B2 : banners_ok w2) by exact B1.
  assert (B3 : banners_ok (auto_end_callback (closure tm) fails w2)
               /\ now (auto_end_callback (closure tm) fails w2) = deadline tm).
  { unfold auto_end_callback. destruct (_ && _)%bool; [|auto].
    set (w3 := with_fired _ w2).
    assert (B3 : banners_ok w3) by exact B2.
    split; [apply banners_handleEndSet; exact B3|].
    rewrite (proj1 (handleEndSet_banner (closure tm) fails w3)). exact N1. }
  destruct B3 as [B3 N3].
  split; [apply banners_effect; exact B3|].
  rewrite (proj1 (proj2 (proj2 (auto_end_effect_spec _)))). exact N3.
Qed.

Lemma banner_advance (t : Z) (fails : Faults) (w : World) :
  Inv w -> banners_ok w -> timer_ahead w -> now w <= t ->
  banners_ok (advance t fails w) /\ timer_ahead (advance t fails w).
Proof.
  intros I B T L. destruct (autoEndTimer w) as [tm|] eqn:A.
  - destruct (Z_le_gt_dec (deadline tm) t) as [D|G].
    + rewrite (advance_due t fails w tm A D).
      specialize (T tm A).
      destruct (banners_after_timeout tm fails w B ltac:(lia)) as [B' N'].
      destruct (after_timeout_spec tm fails w I A) as [_ A'].
      split.
      * apply banners_fire; [exact B' | lia].
      * apply timer_ahead_fire. intros tm'. rewrite A'. discriminate.
    + rewrite advance_not_due; [|rewrite A; lia]. split.
      * apply banners_fire; assumption.
      * apply timer_ahead_fire. intros tm'. rewrite A. intros [= <-]. lia.
  - rewrite advance_not_due; [|now rewrite A]. split.
    + apply banners_fire; assumption.
    + apply timer_ahead_fire. intros tm'. rewrite A. discriminate.
Qed.

Lemma onmessage_banner (m : Message) (s : State) :
  lastLoggedSet (onmessage m s) = lastLoggedSet s.
Proof.
  destruct m as [hv ph rc | n mx av du |]; simpl; [auto | | auto].
  destruct (Js.truthy mx), (Js.truthy av); reflexivity.
Qed.

Lemma handleStartSet_banner (r : Render) (w : World) :
  now (handleStartSet r w) = now w
  /\ bannerTimers (handleStartSet r w) = bannerTimers w
  /\ lastLoggedSet (st (handleStartSet r w)) = lastLoggedSet (st w)
  /\ autoEndTimer (handleStartSet r w) = autoEndTimer w.
Proof.
  unfold handleStartSet. destruct (_ || _)%bool; [auto|].
  destruct (ws_open w); simpl; auto.
Qed.

Lemma banner_handle (e : Event) (w : World) :
  Inv w -> banners_ok w -> timer_ahead w ->
  banners_ok (handle e w) /\ timer_ahead (handle e w).
Proof.
  intros I B T.
  destruct e as [m | | | v | v | d | | fails | fails | dt fails];
    simpl handle.
  - split.
    + apply banners_effect.
      apply (banners_same w (update (onmessage m) w) B eq_refl eq_refl).
      apply onmessage_banner.
    + apply timer_ahead_effect. exact T.
  - split; [exact B | exact T].
  - split; [exact B | exact T].
  - destruct (isTracking (st w)); split; assumption.
  - destruct (isTracking (st w)); split; assumption.
  - destruct (loadSessionHistory _ _ _) as [w'|] eqn:L; [|split; assumption].
    unfold loadSessionHistory in L. simpl in L.
    destruct d as [[|c d]|]; try destruct (Db.getWorkoutByDate _ _);
      inversion L; subst; split; assumption.
  - destruct (_ && _)%bool; [|split; assumption].
    destruct (handleStartSet_banner (render w) w) as [N [Bt [Ll A]]]. split.
    + apply banners_effect. exact (banners_same w _ B N Bt Ll).
    + apply timer_ahead_effect. intros tm. rewrite A, N. apply T.
  - destruct (isTracking (st w)); [|split; assumption]. split.
    + apply banners_effect, banners_handleEndSet, B.
    + apply timer_ahead_effect. intros tm.
      rewrite (proj1 (proj2 (handleEndSet_handled _ _ _))). discriminate.
  - destruct (error (st w)); [|split; assumption]. unfold retry. split.
    + apply banners_effect, banners_handleEndSet. exact B.
    + apply timer_ahead_effect. intros tm.
      rewrite (proj1 (proj2 (handleEndSet_handled _ _ _))). discriminate.
  - apply banner_advance; [assumption..|lia].
Qed.

Lemma banner_mount (d : Db.DB) (date0 : option string) (t0 : Z) :
  banners_ok (mount d date0 t0) /\ timer_ahead (mount d date0 t0).
Proof.
  unfold mount, loadSessionHistory. simpl.
  destruct date0 as [[|c s]|]; try destruct (Db.getWorkoutByDate _ _);
    (split; [split; [constructor | intros H; exfalso; apply H; reflexivity]
            | intros tm; discriminate]).
Qed.

Lemma banner_run (es : list Event) (w : World) :
  Inv w -> banners_ok w -> timer_ahead w ->
  banners_ok (run es w) /\ timer_ahead (run es w).
Proof.
  revert w. induction es as [|e es IH]; intros w I B T; simpl; [auto|].
  destruct (banner_handle e w I B T) as [B' T'].
  apply IH; [apply Inv_handle, I | exact B' | exact T'].
Qed.

(** X20. The "Set Logged" banner never stays.  In every state the
    component can reach, the timeouts that clear the banner are all due
    within the next 4000 ms and a banner on display has one pending;
    so once 4000 ms have passed with no auto-end timeout pending (no
    set being saved meanwhile) the banner is gone and no such timeout
    is left.  A pending auto-end timeout is never overdue. *)
Theorem set_logged_banner_clears (d : Db.DB) (date0 : option string)
    (t0 : Z) (es : list Event) :
  let w := run es (mount d date0 t0) in
  Forall (fun t => now w < t <= now w + 4000) (bannerTimers w)
  /\ (lastLoggedSet (st w) <> None -> bannerTimers w <> [])
  /\ (forall tm, autoEndTimer w = Some tm -> now w < deadline tm)
  /\ (forall dt fails,
        4000 <= dt -> autoEndTimer w = None ->
        lastLoggedSet (st (handle (Elapse dt fails) w)) = None
        /\ bannerTimers (handle (Elapse dt fails) w) = []).
Proof.
  intros w.
  destruct (banner_mount d date0 t0) as [B0 T0].
  destruct (banner_run es _ (Inv_mount d date0 t0) B0 T0) as [[B1 B2] T].
  fold w in B1, B2, T.
  split; [exact B1|]. split; [exact B2|]. split; [exact T|].
  intros dt fails Hdt A. simpl handle.
  rewrite advance_not_due; [|now rewrite A].
  unfold fire_banners. cbn [bannerTimers with_now].
  assert (Rest : filter (fun x => negb (x <=? now w + Z.max 0 dt))
                        (bannerTimers w) = []).
  { apply filter_none. intros x Hx. rewrite Forall_forall in B1.
    specialize (B1 x Hx). apply negb_false_iff, Z.leb_le. lia. }
  destruct (filter (fun x => x <=? now w + Z.max 0 dt) (bannerTimers w))
    as [|x due] eqn:Due; simpl; (split; [|exact Rest]); [|reflexivity].
  destruct (lastLoggedSet (st w)) eqn:Ls; [|reflexivity]. exfalso.
  apply B2; [discriminate|].
  destruct (bannerTimers w) as [|y rest] eqn:Bt; [reflexivity|].
  simpl in Rest, Due. destruct (y <=? now w + Z.max 0 dt); discriminate.
Qed.

End VelocityViewBannerFacts.

Section VelocityViewClosureFacts.
Import VelocityView.

Lemma closure_effect (w w' : World) :
  Inv w -> closure_current w -> handled w w' ->
  (isTracking (st w) = true ->
   exerciseName (st w') = exerciseName (st w)
   /\ weight (st w') = weight (st w)) ->
  closure_current (auto_end_effect w').
Proof.
  intros I C H In tm Htm.
  destruct (auto_end_effect_spec w') as [S [_ [_ [_ [_ [_ A]]]]]].
  rewrite S. rewrite A in Htm.
  destruct (deps_unchanged w') eqn:U.
  - destruct H as [HR [HD HT]].
    destruct HT as [HT|HT]; rewrite HT in Htm; [|discriminate].
    destruct (pending_tracks w tm I Htm) as [Tr Rn].
    destruct (C tm Htm) as [CR [CN CW]]. destruct (In Tr) as [-> ->].
    split; [|auto].
    apply deps_unchanged_true in U. rewrite HD in U.
    destruct I as [_ [D _]]. rewrite D in U. unfold deps in U.
    injection U as L _. rewrite CR.
    destruct HR as [->|[E|[e [E _]]]]; [reflexivity | |].
    + rewrite E in L. simpl in L.
      destruct (repDetails (st w)); [contradiction | discriminate].
    + rewrite E, length_app in L. cbn [List.length] in L. lia.
  - destruct (_ && _)%bool; [|discriminate].
    inversion Htm; subst tm. simpl. auto.
Qed.

Lemma closure_same (w w' : World) :
  Inv w -> closure_current w ->
  autoEndTimer w' = autoEndTimer w ->
  repDetails (st w') = repDetails (st w) ->
  (isTracking (st w) = true ->
   exerciseName (st w') = exerciseName (st w)
   /\ weight (st w') = weight (st w)) ->
  closure_current w'.
Proof.
  intros I C A R In tm Htm. rewrite A in Htm.
  destruct (pending_tracks w tm I Htm) as [Tr _].
  destruct (In Tr) as [-> ->]. rewrite R. exact (C tm Htm).
Qed.

Lemma handleStartSet_inputs (r : Render) (w : World) :
  exerciseName (st (handleStartSet r w)) = exerciseName (st w)
  /\ weight (st (handleStartSet r w)) = weight (st w).
Proof.
  unfold handleStartSet. destruct (_ || _)%bool; [auto|].
  destruct (ws_open w); simpl; auto.
Qed.

Lemma fire_banners_db (t : Z) (w : World) :
  db (fire_banners t w) = db w.
Proof. unfold fire_banners. destruct (filter _ _); reflexivity. Qed.

Lemma closure_handle (e : Event) (w : World) :
  Inv w -> closure_current w -> closure_current (handle e w).
Proof.
  intros I C.
  destruct e as [m | | | v | v | d | | fails | fails | dt fails];
    simpl handle.
  - apply (closure_effect w _ I C (onmessage_handled m w)).
    intros _. apply onmessage_inputs.
  - apply (closure_same w _ I C); auto.
  - apply (closure_same w _ I C); auto.
  - destruct (isTracking (st w)) eqn:T; [exact C|].
    apply (closure_same w _ I C); auto. congruence.
  - destruct (isTracking (st w)) eqn:T; [exact C|].
    apply (closure_same w _ I C); auto. congruence.
  - destruct (loadSessionHistory _ _ _) as [w'|] eqn:L.
    + destruct (loadSessionHistory_spec _ _ _ _ L) as [R [_ [_ [A _]]]].
      apply (closure_same w _ I C A R). intros _.
      unfold loadSessionHistory in L. simpl in L.
      destruct d as [[|c d]|]; try destruct (Db.getWorkoutByDate _ _);
        inversion L; subst; auto.
    + apply (closure_same w _ I C); auto.
  - destruct (_ && _)%bool; [|exact C].
    apply (closure_effect w _ I C (handleStartSet_handled _ w)).
    intros _. apply handleStartSet_inputs.
  - destruct (isTracking (st w)); [|exact C].
    apply (closure_effect w _ I C (proj1 (handleEndSet_handled _ _ w))).
    intros _. apply handleEndSet_inputs.
  - destruct (error (st w)); [|exact C].
    assert (H : handled w (retry (render w) fails w)).
    { unfold retry. eapply handled_after;
        [| | | apply (proj1 (handleEndSet_handled _ _ _))]; simpl; auto. }
    apply (closure_effect w _ I C H). intros _. unfold retry.
    apply (handleEndSet_inputs _ _ (update (setError None) w)).
  - set (t := now w + Z.max 0 dt).
    destruct (autoEndTimer w) as [tm|] eqn:A.
    + destruct (Z_le_gt_dec (deadline tm) t) as [D|G].
      * rewrite (advance_due t fails w tm A D).
        destruct (after_timeout_spec tm fails w I A) as [_ A'].
        intros tm'.
        rewrite (proj1 (proj2 (proj2 (proj2 (fire_banners_spec t _))))).
        simpl. rewrite A'. discriminate.
      * rewrite advance_not_due; [|rewrite A; lia].
        destruct (fire_banners_spec t (with_now t w)) as [R [_ [_ [A' _]]]].
        apply (closure_same w _ I C); [rewrite A'; reflexivity | exact R|].
        intros _. apply (fire_banners_inputs t (with_now t w)).
    + rewrite advance_not_due; [|now rewrite A].
      intros tm'.
      rewrite (proj1 (proj2 (proj2 (proj2 (fire_banners_spec t _))))).
      simpl. rewrite A. discriminate.
Qed.

Lemma closure_mount (d : Db.DB) (date0 : option string) (t0 : Z) :
  closure_current (mount d date0 t0).
Proof.
  unfold mount, loadSessionHistory. simpl.
  destruct date0 as [[|c s]|]; try destruct (Db.getWorkoutByDate _ _);
    intros tm; discriminate.
Qed.

Lemma closure_run (es : list Event) (w : World) :
  Inv w -> closure_current w -> closure_current (run es w).
Proof.
  revert w. induction es as [|e es IH]; intros w I C; simpl; [exact C|].
  apply IH; [apply Inv_handle, I | apply closure_handle; assumption].
Qed.

(** X21. What the auto-end timeout saves.  In every state the component
    can reach, the render a pending auto-end timeout closes over holds
    the reps, the exercise name and the weight the component shows; a
    date selected in the side bar does not re-arm the timeout, whose
    render keeps the date of the moment the last rep arrived.  When the
    timeout then fires with nothing rejecting, exactly one row is
    appended to [sets], holding the reps on display, their count and the
    weight on display, and it is stored in the workout of the date of
    that render. *)
Theorem auto_end_saves_the_set_on_screen (d : Db.DB) (date0 : option string)
    (t0 : Z) (es : list Event) (tm : Timer) :
  let w := run es (mount d date0 t0) in
  autoEndTimer w = Some tm ->
  repDetails (r_state (closure tm)) = repDetails (st w)
  /\ exerciseName (r_state (closure tm)) = exerciseName (st w)
  /\ weight (r_state (closure tm)) = weight (st w)
  /\ (forall d', autoEndTimer (handle (SelectDate d') w) = Some tm)
  /\ (forall dt date,
        deadline tm <= now w + Z.max 0 dt ->
        r_date (closure tm) = Some date ->
        let w' := handle (Elapse dt no_fault) w in
        isTracking (st w') = false
        /\ exists wk ex row,
             Db.getWorkoutByDate (db w') date = Some wk
             /\ In ex (Db.getExercisesForWorkout (db w') (Db.w_id wk))
             /\ Js.toLowerCase (Db.ex_name ex)
                = Js.toLowerCase (Js.trim (exerciseName (st w)))
             /\ Db.sets (db w') = Db.sets (db w) ++ [row]
             /\ Db.set_exerciseId row = Db.ex_id ex
             /\ Db.set_repDetails row = Some (repDetails (st w))
             /\ Db.set_reps row = Z.of_nat (List.length (repDetails (st w)))
             /\ Db.set_weight row = weight (st w)).
Proof.
  intros w A.
  assert (I : Inv w) by (apply Inv_run, Inv_mount).
  assert (C : closure_current w) by (apply closure_run; [apply Inv_mount | apply closure_mount]).
  destruct (C tm A) as [CR [CN CW]].
  destruct (pending_tracks w tm I A) as [Tr Rn].
  split; [exact CR|]. split; [exact CN|]. split; [exact CW|]. split.
  { intros d'. simpl handle.
    destruct (loadSessionHistory _ _ _) as [w'|] eqn:L; [|exact A].
    destruct (loadSessionHistory_spec _ _ _ _ L) as [_ [_ [_ [A' _]]]].
    rewrite A'. exact A. }
  intros dt date D Hd w'. unfold w'. simpl handle.
  rewrite (advance_due _ no_fault w tm A D).
  set (t := now w + Z.max 0 dt).
  destruct (fire_banners_spec t (with_now t (after_timeout tm no_fault w)))
    as [_ [Ti _]].
  rewrite Ti, fire_banners_db. cbn [st db with_now].
  unfold after_timeout.
  rewrite (proj1 (auto_end_effect_spec _)).
  rewrite (proj1 (proj2 (auto_end_effect_spec _))).
  destruct I as [_ [_ T]]. destruct (T tm A) as [Ct [Cr _]].
  assert (Cl : (0 <? List.length (repDetails (r_state (closure tm))))%nat = true)
    by (destruct (repDetails (r_state (closure tm)));
        [contradiction | reflexivity]).
  unfold auto_end_callback. rewrite Ct, Cl. simpl andb. cbv iota.
  set (w3 := with_fired _ _).
  assert (Db3 : db w3 = db w).
  { unfold w3. cbn [db with_fired with_autoEndTimer].
    rewrite fire_banners_db. reflexivity. }
  destruct (actualReps_nonempty _ Cr) as [Ha Hn].
  destruct (handleEndSet_success (closure tm) w3 date Ct Hn Hd)
    as [[T' _] [wk [ex [row [Wk [Ex [Nm [_ [Ss [Re [Rw [Rr [Rd _]]]]]]]]]]]]].
  split; [exact T'|].
  exists wk, ex, row.
  rewrite Db3 in Ss. rewrite CN in Nm. rewrite CR in Rd.
  rewrite Ha, CR in Rr. rewrite CW in Rw.
  repeat (split; [assumption|]). assumption.
Qed.

(** The theorem on [tracking_one_rep], whose timeout is due 5 s after
    the rep arrived. *)
Lemma auto_end_saves_the_set_on_screen_witness :
  exists tm,
    autoEndTimer (run [SocketOpen; TypeExercise "Squat"; TypeWeight "225";
                       ClickStart; Receive (rep_completed 1 1500 1200 2.34)]
                      (mount Db.empty (Some "2025-02-04") 0)) = Some tm
    /\ repDetails (r_state (closure tm))
       = repDetails (st (run [SocketOpen; TypeExercise "Squat";
                              TypeWeight "225"; ClickStart;
                              Receive (rep_completed 1 1500 1200 2.34)]
                             (mount Db.empty (Some "2025-02-04") 0))).
Proof.
  set (es := [SocketOpen; TypeExercise "Squat"; TypeWeight "225";
              ClickStart; Receive (rep_completed 1 1500 1200 2.34)]).
  assert (A : exists tm,
            autoEndTimer (run es (mount Db.empty (Some "2025-02-04") 0))
            = Some tm).
  { eexists. vm_compute. reflexivity. }
  destruct A as [tm A]. exists tm. split; [exact A|].
  exact (proj1 (auto_end_saves_the_set_on_screen Db.empty (Some "2025-02-04")
                  0 es tm A)).
Defined.

End VelocityViewClosureFacts.

(** ** The exercise autocomplete *)
Section SuggestFacts.
Import Suggest.

Lemma length_pos_nonempty {A : Type} (l : list A) :
  (0 <? List.length l)%nat = true <-> l <> [].
Proof.
  destruct l; simpl; split; intros H; try discriminate;
    [contradiction | reflexivity].
Qed.

Lemma firstn_nonempty {A : Type} (n : nat) (l : list A) :
  firstn (S n) l <> [] <-> l <> [].
Proof. destruct l; simpl; split; intros H; congruence. Qed.

Lemma firstn_In_list {A : Type} (n : nat) (l : list A) (x : A) :
  In x (firstn n l) -> In x l.
Proof.
  revert l. induction n as [|n IH]; intros l H; [contradiction|].
  destruct l as [|y l]; [contradiction|].
  destruct H as [H|H]; [left | right]; auto.
Qed.

(** X22. [handleExerciseChange] stores the text as typed and offers at
    most eight names, all taken from [allNames]: with text that is not
    blank, the first eight names that contain the text, case ignored
    (the text is not trimmed for the comparison); with blank text, the
    first eight names.  The list is shown exactly when it has a row, and
    no row is highlighted. *)
Theorem handleExerciseChange_offers_matches (value : string) (s : State) :
  let s' := handleExerciseChange value s in
  exerciseName s' = Some value
  /\ allNames s' = allNames s
  /\ selectedSuggestion s' = -1
  /\ (List.length (suggestions s') <= 8)%nat
  /\ (forall n, In n (suggestions s') ->
        In n (allNames s)
        /\ (Js.trim value <> "" ->
            Js.includes (Js.toLowerCase n) (Js.toLowerCase value) = true))
  /\ (Js.trim value <> "" ->
      suggestions s'
      = firstn 8 (filter (fun n => Js.includes (Js.toLowerCase n)
                                               (Js.toLowerCase value))
                         (allNames s)))
  /\ (Js.trim value = "" -> suggestions s' = firstn 8 (allNames s))
  /\ (showSuggestions s' = true <-> suggestions s' <> [])
  /\ selection_ok s'.
Proof.
  assert (G : forall l : list string,
            (0 <? List.length l)%nat = true <-> firstn 8 l <> []).
  { intros l. rewrite length_pos_nonempty. symmetry. apply firstn_nonempty. }
  unfold handleExerciseChange, selection_ok.
  destruct (Js.trim value) as [|c t] eqn:T;
    cbn [String.length Nat.ltb Nat.leb]; cbv zeta;
    cbn [exerciseName allNames selectedSuggestion suggestions showSuggestions].
  - split; [reflexivity|]. split; [reflexivity|]. split; [reflexivity|].
    split; [apply firstn_le_length|]. split.
    { intros n H. split; [eapply firstn_In_list; exact H | contradiction]. }
    split; [contradiction|]. split; [reflexivity|]. split; [apply G|].
    split; [lia | apply G].
  - split; [reflexivity|]. split; [reflexivity|]. split; [reflexivity|].
    split; [apply firstn_le_length|]. split.
    { intros n H. apply firstn_In_list in H. apply filter_In in H. tauto. }
    split; [reflexivity|]. split; [discriminate|]. split; [apply G|].
    split; [lia | apply G].
Qed.

(** X23. [handleExerciseKeyDown] keeps the highlighted row inside the
    list.  As long as the highlighted row is a row of the list or none
    and a list on display has rows, every key leaves it so and never
    stores [undefined] as the exercise name.  While the list is hidden
    no key does anything.  While it is shown, the arrows move the
    highlight within the list, Escape hides the list, and Enter and Tab
    always pick a row (the highlighted one, else the first), put its
    name in the input, hide the list and suppress the key's default
    action. *)
Theorem handleExerciseKeyDown_keeps_selection (k : Key) (s : State) :
  selection_ok s ->
  exerciseName s <> None ->
  let s' := fst (handleExerciseKeyDown k s) in
  selection_ok s'
  /\ exerciseName s' <> None
  /\ suggestions s' = suggestions s
  /\ (showSuggestions s = false ->
      handleExerciseKeyDown k s = (s, false))
  /\ (showSuggestions s = true ->
      match k with
      | ArrowDown | ArrowUp =>
          0 <= selectedSuggestion s'
          /\ exerciseName s' = exerciseName s
          /\ showSuggestions s' = true
      | Enter | Tab =>
          (exists n, exerciseName s' = Some n /\ In n (suggestions s)
                     /\ Some n = at_index (suggestions s)
                                   (Z.max 0 (selectedSuggestion s)))
          /\ showSuggestions s' = false
          /\ selectedSuggestion s' = -1
          /\ snd (handleExerciseKeyDown k s) = true
      | Escape =>
          showSuggestions s' = false /\ exerciseName s' = exerciseName s
      | OtherKey => s' = s
      end).
Proof.
  intros [[L U] Sh] Hn. unfold handleExerciseKeyDown.
  destruct (showSuggestions s) eqn:E; cbn [negb].
  2:{ cbn [fst]. split; [split; [split; assumption | rewrite E; exact Sh]|].
      split; [exact Hn|].
      split; [reflexivity|]. split; [reflexivity | discriminate]. }
  specialize (Sh eq_refl).
  assert (Len : 0 < Z.of_nat (List.length (suggestions s)))
    by (destruct (suggestions s); [contradiction | simpl; lia]).
  assert (Pick : forall i, 0 <= i < Z.of_nat (List.length (suggestions s)) ->
            exists n, at_index (suggestions s) i = Some n
                      /\ In n (suggestions s)).
  { intros i Hi. unfold at_index.
    destruct (i <? 0) eqn:N; [apply Z.ltb_lt in N; lia|].
    destruct (nth_error (suggestions s) (Z.to_nat i)) as [n|] eqn:X.
    - exists n. split; [reflexivity|]. eapply nth_error_In. exact X.
    - apply nth_error_None in X. lia. }
  destruct k; cbv zeta; cbn [fst snd].
  - unfold selection_ok. cbn [selectedSuggestion suggestions showSuggestions
                              exerciseName].
    repeat split; auto; try lia; discriminate.
  - unfold selection_ok. cbn [selectedSuggestion suggestions showSuggestions
                              exerciseName].
    repeat split; auto; try lia; discriminate.
  - destruct (0 <=? selectedSuggestion s) eqn:P.
    + apply Z.leb_le in P.
      destruct (Pick (selectedSuggestion s) ltac:(lia)) as [n [X I]].
      cbn [fst snd]. unfold selection_ok, selectSuggestion.
      cbn [selectedSuggestion suggestions showSuggestions exerciseName].
      rewrite X, Z.max_r by lia.
      repeat split; try lia; try discriminate; auto.
      exists n. rewrite X. auto.
    + apply Z.leb_gt in P. apply Z.ltb_lt in Len. rewrite Len.
      destruct (Pick 0 ltac:(apply Z.ltb_lt in Len; lia)) as [n [X I]].
      cbn [fst snd]. unfold selection_ok, selectSuggestion.
      cbn [selectedSuggestion suggestions showSuggestions exerciseName].
      rewrite X, Z.max_l by lia. apply Z.ltb_lt in Len.
      repeat split; try lia; try discriminate; auto.
      exists n. rewrite X. auto.
  - destruct (0 <=? selectedSuggestion s) eqn:P.
    + apply Z.leb_le in P.
      destruct (Pick (selectedSuggestion s) ltac:(lia)) as [n [X I]].
      cbn [fst snd]. unfold selection_ok, selectSuggestion.
      cbn [selectedSuggestion suggestions showSuggestions exerciseName].
      rewrite X, Z.max_r by lia.
      repeat split; try lia; try discriminate; auto.
      exists n. rewrite X. auto.
    + apply Z.leb_gt in P. apply Z.ltb_lt in Len. rewrite Len.
      destruct (Pick 0 ltac:(apply Z.ltb_lt in Len; lia)) as [n [X I]].
      cbn [fst snd]. unfold selection_ok, selectSuggestion.
      cbn [selectedSuggestion suggestions showSuggestions exerciseName].
      rewrite X, Z.max_l by lia. apply Z.ltb_lt in Len.
      repeat split; try lia; try discriminate; auto.
      exists n. rewrite X. auto.
  - unfold selection_ok. cbn [selectedSuggestion suggestions showSuggestions
                              exerciseName].
    repeat split; auto; try lia; discriminate.
  - unfold selection_ok. rewrite E. repeat split; auto; try lia; discriminate.
Qed.

(** The theorem on [typed_s] ("Bench Press", "Row" and "Squat" loaded,
    "s" typed) when Enter is pressed: "Bench Press", the first name
    that contains an s, is picked. *)
Lemma handleExerciseKeyDown_keeps_selection_witness :
  selection_ok typed_s
  /\ exerciseName typed_s <> None
  /\ selection_ok (fst (handleExerciseKeyDown Enter typed_s))
  /\ exerciseName (fst (handleExerciseKeyDown Enter typed_s))
     = Some "Bench Press".
Proof.
  assert (H1 : selection_ok typed_s).
  { split; [split; vm_compute; [discriminate | reflexivity]
           | intros _; vm_compute; discriminate]. }
  assert (H2 : exerciseName typed_s <> None) by (vm_compute; discriminate).
  destruct (handleExerciseKeyDown_keeps_selection Enter typed_s H1 H2)
    as [S _].
  split; [exact H1|]. split; [exact H2|]. split; [exact S|].
  vm_compute. reflexivity.
Defined.

End SuggestFacts.

(** ** [SetDetailView.jsx] *)
Section SetDetailViewFacts.
Import SetDetailView.
Local Open Scope Q_scope.

Lemma Math_max_ge (l : list Q) (x : Q) :
  x <= Math_max x l /\ forall y, In y l -> y <= Math_max x l.
Proof.
  unfold Math_max. revert x. induction l as [|a l IH]; intros x; simpl.
  - split; [apply Qle_refl | contradiction].
  - destruct (IH (Js.max x a)) as [H1 H2]. split.
    + eapply Qle_trans; [apply Js_max_l | exact H1].
    + intros y [<-|Hy]; [|auto].
      eapply Qle_trans; [apply Js_max_r | exact H1].
Qed.

Lemma Math_max_In (l : list Q) (x : Q) : In (Math_max x l) (x :: l).
Proof.
  unfold Math_max. revert x. induction l as [|a l IH]; intros x; simpl.
  - auto.
  - destruct (IH (Js.max x a)) as [H|H]; [|auto].
    rewrite <- H. unfold Js.max. destruct (Qle_bool x a); auto.
Qed.

Lemma ltb_lt (a b : Q) : Js.ltb a b = true <-> a < b.
Proof.
  unfold Js.ltb. rewrite negb_true_iff. split.
  - intros H. apply Qnot_le_lt. intros L. apply Qle_bool_iff in L. congruence.
  - intros H. destruct (Qle_bool b a) eqn:E; [|reflexivity].
    apply Qle_bool_iff in E. exfalso. exact (Qlt_not_le _ _ H E).
Qed.

(** Every rep's average is at most [bestRepAvg], which is the average of
    one of the reps. *)
Lemma bestRepAvg_spec (set : Db.SetRow) :
  (forall r, In r (repDetails set) -> Db.avgVelocity r <= bestRepAvg set)
  /\ (repDetails set <> [] ->
      exists r, In r (repDetails set) /\ Db.avgVelocity r = bestRepAvg set).
Proof.
  unfold bestRepAvg. destruct (repDetails set) as [|r0 l]; simpl.
  - split; [contradiction | intros H; contradiction].
  - destruct (Math_max_ge (map Db.avgVelocity l) (Db.avgVelocity r0)) as [H1 H2].
    split.
    + intros r [<-|Hr]; [exact H1|]. apply H2. now apply in_map.
    + intros _.
      destruct (Math_max_In (map Db.avgVelocity l) (Db.avgVelocity r0)) as [H|H].
      * exists r0. auto.
      * apply in_map_iff in H as [r [E Hr]]. exists r. auto.
Qed.

Lemma lastRepAvg_spec (set : Db.SetRow) :
  repDetails set <> [] ->
  exists r, In r (repDetails set)
            /\ lastRepAvg set = Db.avgVelocity r
            /\ r = last (repDetails set) r.
Proof.
  unfold lastRepAvg. intros H.
  destruct (exists_last H) as [l [r E]]. rewrite E.
  rewrite map_app. change (map Db.avgVelocity [r]) with [Db.avgVelocity r].
  rewrite !last_last. exists r.
  split; [apply in_or_app; right; left; reflexivity|].
  split; [reflexivity | now rewrite last_last].
Qed.

(** X24. [velocityDrop], the loss from the best rep to the last one in
    per cent, is never negative; it is at most 100 when the last rep's
    average velocity is not negative; and it is 0 for a set with fewer
    than two reps or whose best average is not positive. *)
Theorem velocityDrop_bounds (set : Db.SetRow) :
  0 <= velocityDrop set
  /\ (0 <= lastRepAvg set -> velocityDrop set <= 100)
  /\ ((List.length (repDetails set) <= 1)%nat -> velocityDrop set = 0)
  /\ (~ 0 < bestRepAvg set -> velocityDrop set = 0).
Proof.
  unfold velocityDrop, hasRepData.
  destruct (repDetails set) as [|r0 [|r1 l]] eqn:R;
    cbn [List.length Nat.ltb Nat.leb andb].
  - split; [apply Qle_refl|]. split; [discriminate|]. split; reflexivity.
  - split; [apply Qle_refl|]. split; [discriminate|]. split; reflexivity.
  - destruct (Js.ltb 0 (bestRepAvg set)) eqn:B.
    + apply ltb_lt in B.
      assert (Hne : repDetails set <> []) by (rewrite R; discriminate).
      destruct (lastRepAvg_spec set Hne) as [r [Hr [E _]]].
      pose proof (proj1 (bestRepAvg_spec set) r Hr) as Le. rewrite <- E in Le.
      split; [|split; [|split]].
      * apply Qmult_le_0_compat; [|discriminate].
        apply Qle_shift_div_l; [exact B|]. lra.
      * intros L.
        setoid_replace 100 with (1 * 100) at 2 by reflexivity.
        apply Qmult_le_compat_r; [|discriminate].
        apply Qle_shift_div_r; [exact B|]. lra.
      * intros H. exfalso. lia.
      * intros H. contradiction.
    + split; [apply Qle_refl|]. split; [discriminate|]. split; reflexivity.
Qed.

(** X25. [percentOfBest] and the fatigue mark of the table.  No rep of the
    set is above 100 per cent of the best; with a positive best average
    a rep with the best average is at exactly 100 per cent and is not
    marked; a rep that is marked (below 89 per cent) has an average
    strictly below the best, which is positive; a rep no faster than a
    marked one is marked too; and when the best average is not positive
    every row shows 100 per cent and none is marked. *)
Theorem percentOfBest_bounds (set : Db.SetRow) :
  (forall r, In r (repDetails set) -> percentOfBest set r <= 100)
  /\ (0 < bestRepAvg set -> repDetails set <> [] ->
      exists r, In r (repDetails set)
                /\ Db.avgVelocity r = bestRepAvg set
                /\ percentOfBest set r == 100
                /\ isFatigued set r = false)
  /\ (forall r, isFatigued set r = true ->
        0 < bestRepAvg set /\ Db.avgVelocity r < bestRepAvg set)
  /\ (forall r r', isFatigued set r = true ->
        Db.avgVelocity r' <= Db.avgVelocity r -> isFatigued set r' = true)
  /\ (~ 0 < bestRepAvg set ->
      forall r, percentOfBest set r = 100 /\ isFatigued set r = false).
Proof.
  assert (P : forall r, 0 < bestRepAvg set ->
                percentOfBest set r = Db.avgVelocity r / bestRepAvg set * 100).
  { intros r B. unfold percentOfBest. now rewrite (proj2 (ltb_lt _ _) B). }
  assert (Z : forall r, ~ 0 < bestRepAvg set ->
                percentOfBest set r = 100 /\ isFatigued set r = false).
  { intros r B. unfold isFatigued, percentOfBest.
    destruct (Js.ltb 0 (bestRepAvg set)) eqn:E.
    - apply ltb_lt in E. contradiction.
    - split; reflexivity. }
  assert (M : forall r, isFatigued set r = true ->
                0 < bestRepAvg set
                /\ Db.avgVelocity r / bestRepAvg set * 100 < 89).
  { intros r F.
    destruct (Qlt_le_dec 0 (bestRepAvg set)) as [B | B].
    - split; [exact B|]. unfold isFatigued in F. apply ltb_lt in F.
      now rewrite (P r B) in F.
    - exfalso. destruct (Z r (Qle_not_lt _ _ B)) as [_ N]. congruence. }
  split; [|split; [|split; [|split]]].
  - intros r Hr. unfold percentOfBest.
    destruct (Js.ltb 0 (bestRepAvg set)) eqn:B; [|apply Qle_refl].
    apply ltb_lt in B.
    pose proof (proj1 (bestRepAvg_spec set) r Hr) as Le.
    setoid_replace 100 with (1 * 100) at 2 by reflexivity.
    apply Qmult_le_compat_r; [|discriminate].
    apply Qle_shift_div_r; [exact B|]. lra.
  - intros B Hne. destruct (proj2 (bestRepAvg_spec set) Hne) as [r [Hr E]].
    assert (Nz : ~ bestRepAvg set == 0)
      by (intros X; rewrite X in B; exact (Qlt_irrefl _ B)).
    assert (H : percentOfBest set r == 100).
    { rewrite (P r B), E. field. exact Nz. }
    exists r. split; [exact Hr|]. split; [exact E|]. split; [exact H|].
    unfold isFatigued. destruct (Js.ltb (percentOfBest set r) 89) eqn:F;
      [|reflexivity].
    apply ltb_lt in F. rewrite H in F. exfalso. revert F. apply Qle_not_lt.
    discriminate.
  - intros r F. destruct (M r F) as [B L]. split; [exact B|].
    assert (Nz : ~ bestRepAvg set == 0)
      by (intros X; rewrite X in B; exact (Qlt_irrefl _ B)).
    set (q := Db.avgVelocity r / bestRepAvg set) in L.
    assert (Q1 : q < 1) by lra.
    assert (E : Db.avgVelocity r == q * bestRepAvg set)
      by (unfold q; field; exact Nz).
    rewrite E. setoid_replace (bestRepAvg set) with (1 * bestRepAvg set) at 2
      by ring.
    apply Qmult_lt_compat_r; assumption.
  - intros r r' F Le. destruct (M r F) as [B L].
    unfold isFatigued. apply ltb_lt. rewrite (P r' B).
    eapply Qle_lt_trans; [|exact L].
    apply Qmult_le_compat_r; [|discriminate].
    apply Qmult_le_compat_r; [exact Le|].
    apply Qinv_le_0_compat, Qlt_le_weak, B.
  - intros B r. exact (Z r B).
Qed.

(** The theorem on [three_reps] (0.50, 0.48 and 0.40 m/s): the last rep,
    at 80 per cent of the best, is marked, and its average is below the
    best one. *)
Lemma percentOfBest_bounds_witness :
  isFatigued three_reps (Db.mkRepDetail 3 0.40 0.60 1.6) = true
  /\ 0 < bestRepAvg three_reps
  /\ Db.avgVelocity (Db.mkRepDetail 3 0.40 0.60 1.6) < bestRepAvg three_reps.
Proof.
  assert (F : isFatigued three_reps (Db.mkRepDetail 3 0.40 0.60 1.6) = true)
    by (vm_compute; reflexivity).
  split; [exact F|].
  exact (proj1 (proj2 (proj2 (percentOfBest_bounds three_reps))) _ F).
Defined.

End SetDetailViewFacts.

Section VelocityViewStreamFacts.
Import VelocityView.
Local Open Scope Q_scope.

Lemma unique_from_seen (seen seen' l : list Db.RepDetail) :
  (forall x, existsb (same_number x) seen = existsb (same_number x) seen') ->
  Js.unique_from same_number seen l = Js.unique_from same_number seen' l.
Proof.
  revert seen seen'. induction l as [|x l IH]; intros seen seen' H; simpl;
    [reflexivity|].
  rewrite (H x). destruct (existsb (same_number x) seen').
  - apply IH. exact H.
  - f_equal. apply IH. intros y. simpl. now rewrite (H y).
Qed.

Lemma existsb_same_number (x : Db.RepDetail) (l : list Db.RepDetail) :
  existsb (same_number x) l
  = existsb (fun r => (Db.repNumber r =? Db.repNumber x)%Z) l.
Proof.
  induction l as [|y l IH]; simpl; [reflexivity|].
  unfold same_number at 1. rewrite Z.eqb_sym. now rewrite IH.
Qed.

Lemma onmessage_repDetails (m : Message) (s : State) :
  repDetails (onmessage m s)
  = repDetails s ++ Js.unique_from same_number (repDetails s) (detail_of m).
Proof.
  destruct m as [hv ph rc | n mx av du |].
  - simpl. now rewrite app_nil_r.
  - rewrite onmessage_rep_completed_repDetails. unfold detail_of.
    destruct (Js.truthy av); cbn [andb Js.unique_from];
      [|now rewrite app_nil_r].
    rewrite existsb_same_number. cbn [Db.repNumber].
    destruct (existsb _ (repDetails s)); cbn [negb];
      [now rewrite app_nil_r | reflexivity].
  - simpl. now rewrite app_nil_r.
Qed.

Lemma existsb_rev_list {A : Type} (f : A -> bool) (l : list A) :
  existsb f (rev l) = existsb f l.
Proof.
  induction l as [|a l IH]; simpl; [reflexivity|].
  rewrite existsb_app, IH. simpl. rewrite orb_false_r. apply orb_comm.
Qed.

Lemma unique_from_app (seen a b : list Db.RepDetail) :
  Js.unique_from same_number seen (a ++ b)
  = Js.unique_from same_number seen a
    ++ Js.unique_from same_number
         (rev (Js.unique_from same_number seen a) ++ seen) b.
Proof.
  revert seen. induction a as [|x a IH]; intros seen; simpl; [reflexivity|].
  destruct (existsb (same_number x) seen) eqn:E; [apply IH|].
  simpl. f_equal. rewrite IH. f_equal. now rewrite <- app_assoc.
Qed.

Lemma receive_all_repDetails (ms : list Message) (s : State) :
  repDetails (receive_all ms s)
  = repDetails s
    ++ Js.unique_from same_number (repDetails s) (flat_map detail_of ms).
Proof.
  unfold receive_all. revert s. induction ms as [|m ms IH]; intros s; simpl.
  - now rewrite app_nil_r.
  - rewrite IH, onmessage_repDetails, unique_from_app, <- app_assoc.
    f_equal. f_equal. apply unique_from_seen. intros x.
    rewrite !existsb_app, existsb_rev_list. apply orb_comm.
Qed.

Lemma onmessage_peak (m : Message) (s : State) :
  peakVelocity s <= peakVelocity (onmessage m s)
  /\ match m with
     | rep_completed _ mx _ _ =>
         Js.truthy mx = true -> mx / 1000 <= peakVelocity (onmessage m s)
     | _ => True
     end.
Proof.
  destruct m as [hv ph rc | n mx av du |]; simpl;
    [split; [apply Qle_refl | exact I] | | split; [apply Qle_refl | exact I]].
  destruct (Js.truthy mx) eqn:M, (Js.truthy av); simpl;
    (split; [try apply Qle_refl; apply Js_max_l
            | intros H; try discriminate; apply Js_max_r]).
Qed.

(** X28. What a stream of messages leaves behind.  Started from an empty
    rep list (as [handleStartSet] leaves it), the rep list after any
    stream of messages holds, in order of arrival, the entry of the
    first [rep_completed] message of every rep number among those that
    carry an [avg_velocity]: a repeated rep number never replaces or
    duplicates an entry, and frames and other messages add nothing.
    The peak on display never goes down and is at least the
    [max_velocity / 1000] of every rep reported. *)
Theorem recorded_reps_are_first_arrivals (ms : list Message) (s : State) :
  repDetails s = [] ->
  repDetails (receive_all ms s)
  = Js.unique same_number (flat_map detail_of ms)
  /\ peakVelocity s <= peakVelocity (receive_all ms s)
  /\ (forall n mx av du,
        In (rep_completed n mx av du) ms -> Js.truthy mx = true ->
        mx / 1000 <= peakVelocity (receive_all ms s)).
Proof.
  intros R. split.
  { rewrite receive_all_repDetails, R. reflexivity. }
  clear R. unfold receive_all. revert s.
  induction ms as [|m ms IH]; intros s; simpl.
  - split; [apply Qle_refl | contradiction].
  - destruct (IH (onmessage m s)) as [P H].
    destruct (onmessage_peak m s) as [P0 M0]. split.
    + eapply Qle_trans; [exact P0 | exact P].
    + intros n mx av du [->|Hin] T; [|eauto].
      eapply Qle_trans; [exact (M0 T) | exact P].
Qed.

(** The theorem on a stream that reports rep 1 twice: the first report
    is the one kept. *)
Lemma recorded_reps_are_first_arrivals_witness :
  repDetails (st tracking_no_rep) = []
  /\ map Db.repNumber
         (repDetails (receive_all stream_with_repeat (st tracking_no_rep)))
     = [1%Z; 2%Z]
  /\ map Db.avgVelocity
         (repDetails (receive_all stream_with_repeat (st tracking_no_rep)))
     = [1200 / 1000; 1100 / 1000].
Proof.
  assert (H : repDetails (st tracking_no_rep) = [])
    by (vm_compute; reflexivity).
  destruct (recorded_reps_are_first_arrivals stream_with_repeat
              (st tracking_no_rep) H) as [E _].
  split; [exact H|]. rewrite E. split; reflexivity.
Defined.

End VelocityViewStreamFacts.

(** ** [App.jsx] and [SessionView.jsx] *)
Section AppFacts.
Import App.

(** The dates [getAllWorkoutDates] lists, and their order. *)
Lemma getAllWorkoutDates_dates (d : Db.DB) :
  (forall date, In date (map Db.wd_date (Db.getAllWorkoutDates d))
                <-> (exists w, In w (Db.workouts d) /\ Db.w_date w = date)
                    /\ Js.startsWith date "__" = false)
  /\ StronglySorted (fun a b => String.ltb a b = false)
                    (map Db.wd_date (Db.getAllWorkoutDates d)).
Proof.
  unfold Db.getAllWorkoutDates.
  destruct (collect_dates_spec d (Db.workouts_by_date_reverse d) [])
    as [_ [M [_ S]]].
  destruct (workouts_by_date_reverse_spec d) as [I O].
  split; [|exact (S _ O)].
  intros date. rewrite M. split.
  - intros [[w [Hw Hd]] [P _]]. split; [|exact P].
    exists w. split; [now apply I | exact Hd].
  - intros [[w [Hw Hd]] P]. split; [|split; [exact P | intros []]].
    exists w. split; [now apply I | exact Hd].
Qed.

(** X26. New Workout.  [handleNewWorkout] makes the date given (today's
    when none is given) the active date and makes sure a workout is
    stored for it: [getWorkoutByDate] finds one, and an existing workout
    of that date is reused, the database staying as it was.  The side
    bar lists the date unless it starts with "__", and keeps every date
    it listed from the database before. *)
Theorem handleNewWorkout_selects_the_date (date today : string) (now : Z)
    (s : State) :
  let workoutDate := if Js.truthy_str date then date else today in
  let s' := handleNewWorkout date today now s in
  workoutDate <> "" ->
  activeDate s' = Some workoutDate
  /\ (exists w, Db.getWorkoutByDate (db s') workoutDate = Some w)
  /\ (forall w, Db.getWorkoutByDate (db s) workoutDate = Some w ->
        db s' = db s)
  /\ (In workoutDate (map Db.wd_date (workoutDates s'))
      <-> Js.startsWith workoutDate "__" = false)
  /\ (forall x, In x (map Db.wd_date (Db.getAllWorkoutDates (db s))) ->
        In x (map Db.wd_date (workoutDates s'))).
Proof.
  intros workoutDate s' Hne. unfold s', handleNewWorkout. fold workoutDate.
  cbv zeta. unfold refresh. cbn [db selectedDate workoutDates].
  destruct (createWorkout_stores (db s) workoutDate now) as [w [Hw _]].
  split; [|split; [|split; [|split]]].
  - unfold activeDate. cbn [selectedDate].
    destruct workoutDate; [contradiction | reflexivity].
  - exists w. exact Hw.
  - intros w0 H0. unfold Db.getWorkoutByDate in H0.
    now rewrite (createWorkout_existing _ _ _ _ H0).
  - rewrite (proj1 (getAllWorkoutDates_dates _)). split; [tauto|].
    intros P. split; [|exact P].
    apply find_some in Hw as [Hin E]. apply String.eqb_eq in E. eauto.
  - intros x Hx.
    apply (proj1 (getAllWorkoutDates_dates _)) in Hx as [[w0 [Hin E]] P].
    apply (proj1 (getAllWorkoutDates_dates _)). split; [|exact P].
    exists w0. split; [|exact E].
    unfold Db.createWorkout.
    destruct (Db.workouts_first_by_date (db s) workoutDate); [exact Hin|].
    simpl. apply in_or_app. auto.
Qed.

(** The theorem on the sample database when a workout is started for
    2025-02-10. *)
Lemma handleNewWorkout_selects_the_date_witness :
  activeDate (handleNewWorkout "2025-02-10" "2025-02-11" 300 on_sample)
  = Some "2025-02-10"
  /\ In "2025-02-10"
        (map Db.wd_date
             (workoutDates (handleNewWorkout "2025-02-10" "2025-02-11" 300
                                             on_sample))).
Proof.
  assert (H : "2025-02-10" <> "") by discriminate.
  destruct (handleNewWorkout_selects_the_date "2025-02-10" "2025-02-11" 300
              on_sample H) as [A [_ [_ [L _]]]].
  split; [exact A|]. apply L. reflexivity.
Defined.

(** X27. Deleting the workout on display.  Take [App] over a database
    whose workout keys and dates are unique, and the workout of the
    active date.  After
    [handleDeleteWorkout] no date is selected, the workout, its date
    and its session are gone, every other date is still listed, and the
    active date is the most recent date left (none when no date is
    left): the view moves to a workout that exists. *)
Theorem handleDeleteWorkout_moves_to_latest (s : State) (date : string)
    (w : Db.Workout) :
  NoDup (map Db.w_id (Db.workouts (db s))) ->
  NoDup (map Db.w_date (Db.workouts (db s))) ->
  activeDate s = Some date ->
  Db.getWorkoutByDate (db s) date = Some w ->
  let s' := handleDeleteWorkout s in
  selectedDate s' = None
  /\ db s' = Db.deleteWorkout (db s) (Db.w_id w)
  /\ Db.getWorkoutByDate (db s') date = None
  /\ ~ In date (map Db.wd_date (workoutDates s'))
  /\ (forall x, x <> date ->
        In x (map Db.wd_date (Db.getAllWorkoutDates (db s))) ->
        In x (map Db.wd_date (workoutDates s')))
  /\ match activeDate s' with
     | Some latest =>
         In latest (map Db.wd_date (workoutDates s'))
         /\ (exists w', Db.getWorkoutByDate (db s') latest = Some w')
         /\ forall x, In x (map Db.wd_date (workoutDates s')) ->
                      String.ltb latest x = false
     | None => workoutDates s' = []
     end.
Proof.
  intros Ni Nd A G s'. unfold s', handleDeleteWorkout. rewrite A, G.
  unfold handleDeleted, refresh. cbn [db selectedDate workoutDates refreshKey].
  set (d' := Db.deleteWorkout (db s) (Db.w_id w)).
  assert (Hw : In w (Db.workouts (db s)) /\ Db.w_date w = date).
  { unfold Db.getWorkoutByDate, Db.workouts_first_by_date in G.
    apply find_some in G as [H E]. apply String.eqb_eq in E. auto. }
  destruct Hw as [Hin Hd].
  assert (W' : forall x, In x (Db.workouts d')
                         <-> In x (Db.workouts (db s)) /\ x <> w).
  { intros x. unfold d', Db.deleteWorkout. cbn [Db.workouts].
    rewrite filter_In, negb_true_iff, Z.eqb_neq. split.
    - intros [H E]. split; [exact H|]. intros ->. now apply E.
    - intros [H E]. split; [exact H|]. intros I. apply E.
      apply (NoDup_key_eq Db.w_id (Db.workouts (db s))); assumption. }
  assert (Gone : forall x, In x (Db.workouts d') -> Db.w_date x <> date).
  { intros x Hx E. apply W' in Hx as [Hx Hne]. apply Hne.
    clear - Nd Hx Hin E Hd. rewrite <- Hd in E. clear Hd.
    induction (Db.workouts (db s)) as [|a l IH]; [contradiction|].
    simpl in Nd. inversion Nd as [|? ? Ha Nd']; subst.
    destruct Hx as [->|Hx], Hin as [->|Hin]; auto.
    - exfalso. apply Ha. rewrite E. now apply in_map.
    - exfalso. apply Ha. rewrite <- E. now apply in_map. }
  destruct (getAllWorkoutDates_dates d') as [M S].
  split; [reflexivity|]. split; [reflexivity|]. split.
  { unfold Db.getWorkoutByDate, Db.workouts_first_by_date.
    destruct (find _ _) as [x|] eqn:F; [|reflexivity]. exfalso.
    apply find_some in F as [Hx E]. apply String.eqb_eq in E.
    exact (Gone x Hx E). }
  split.
  { intros H. apply M in H as [[x [Hx E]] _]. exact (Gone x Hx E). }
  split.
  { intros x Hne Hx.
    apply (proj1 (getAllWorkoutDates_dates _)) in Hx as [[w0 [H0 E]] P].
    apply M. split; [|exact P]. exists w0. split; [|exact E].
    apply W'. split; [exact H0|]. intros ->. congruence. }
  unfold activeDate. cbn [selectedDate workoutDates].
  destruct (Db.getAllWorkoutDates d') as [|x l] eqn:L; [reflexivity|].
  cbn [map] in M, S |- *. split; [left; reflexivity|]. split.
  - destruct (proj1 (M (Db.wd_date x)) (or_introl eq_refl)) as [[w0 [H0 E]] _].
    destruct (find_some_in (fun y => String.eqb (Db.w_date y) (Db.wd_date x))
                           _ _ H0) as [w1 F];
      [rewrite E; apply String.eqb_refl|].
    exists w1. exact F.
  - intros y [<-|Hy]; [apply string_ltb_irrefl|].
    inversion S as [|? ? _ Hall]; subst. rewrite Forall_forall in Hall.
    exact (Hall y Hy).
Qed.

(** The theorem on the sample database with the workout of 2025-02-04
    on display: the view moves to 2025-02-03. *)
Lemma handleDeleteWorkout_moves_to_latest_witness :
  activeDate on_sample = Some "2025-02-04"
  /\ Db.getWorkoutByDate (db on_sample) "2025-02-04"
     = Some (Db.mkWorkout 2 "2025-02-04" 200)
  /\ selectedDate (handleDeleteWorkout on_sample) = None
  /\ activeDate (handleDeleteWorkout on_sample) = Some "2025-02-03".
Proof.
  assert (H1 : activeDate on_sample = Some "2025-02-04")
    by (vm_compute; reflexivity).
  assert (H2 : Db.getWorkoutByDate (db on_sample) "2025-02-04"
               = Some (Db.mkWorkout 2 "2025-02-04" 200))
    by (vm_compute; reflexivity).
  destruct (handleDeleteWorkout_moves_to_latest on_sample "2025-02-04"
              (Db.mkWorkout 2 "2025-02-04" 200)
              sample_workout_keys sample_dates H1 H2) as [S _].
  split; [exact H1|]. split; [exact H2|]. split; [exact S|].
  vm_compute. reflexivity.
Defined.

End AppFacts.
